(** * flatFortiGatePolicy: a shallow embedding of the address/service algebra,
      the policy expansion and the address lookup of [flatFortiGatePolicy.js]

    The development follows the source file function by function.  Strings
    are the data the script exchanges, so they are kept as strings here
    (Stdlib [string], one character per code unit, which is exact for the
    ASCII text FortiGate configurations and lookup lists are made of).
    JavaScript numbers are modelled on [Z] inside the small [jsnum] type
    ([NaN], the infinities and the integral doubles), arrays as lists and
    objects used as dictionaries as [gmap]s.

    Part I gives the definitions, Part II the lemmas and theorems. *)

From Stdlib Require Import ZArith Lia List Bool Ascii String.
From stdpp Require Import base strings gmap list.

Open Scope string_scope.
Open Scope Z_scope.

(** * Part I: definitions *)

(** ** The JavaScript built-ins the script relies on *)

Module JS.

(** *** Strings *)

Definition chr (c : ascii) : string := String c "".

(** [s.startsWith(p)] and [s.endsWith(p)]. *)
Definition startsWith (s p : string) : bool := String.prefix p s.

Fixpoint drop (n : nat) (s : string) : string :=
  match n, s with
  | S k, String _ s' => drop k s'
  | _, _ => s
  end.

Fixpoint take (n : nat) (s : string) : string :=
  match n, s with
  | S k, String c s' => String c (take k s')
  | _, _ => ""
  end.

Definition endsWith (s p : string) : bool :=
  (String.length p <=? String.length s)%nat &&
  String.eqb (drop (String.length s - String.length p) s) p.

(** [s.substring(a, b)]: both indices are clamped to [0, length] and swapped
    when [a > b]; [s.substring(a)] runs to the end of the string. *)
Definition substring (s : string) (a b : Z) : string :=
  let len := Z.of_nat (String.length s) in
  let a' := Z.max 0 (Z.min a len) in
  let b' := Z.max 0 (Z.min b len) in
  let lo := Z.min a' b' in
  let hi := Z.max a' b' in
  take (Z.to_nat (hi - lo)) (drop (Z.to_nat lo) s).

Definition substringFrom (s : string) (a : Z) : string :=
  substring s a (Z.of_nat (String.length s)).

(** [s.charAt(i)], the empty string when [i] is out of range. *)
Definition charAt (s : string) (i : nat) : string := take 1 (drop i s).

(** [s.indexOf(p)] and [s.lastIndexOf(p)], [-1] when [p] does not occur. *)
Fixpoint indexOfFrom (s p : string) (i : Z) : Z :=
  if startsWith s p then i
  else match s with
       | "" => -1
       | String _ s' => indexOfFrom s' p (i + 1)
       end.

Definition indexOf (s p : string) : Z := indexOfFrom s p 0.

Fixpoint lastIndexOfFrom (s p : string) (i : Z) (found : Z) : Z :=
  let found' := if startsWith s p then i else found in
  match s with
  | "" => found'
  | String _ s' => lastIndexOfFrom s' p (i + 1) found'
  end.

Definition lastIndexOf (s p : string) : Z := lastIndexOfFrom s p 0 (-1).

(** [s.split(sep)] for a non-empty separator string (every call site of the
    script passes a non-empty literal).  [skip] counts the characters of a
    separator still to be passed over, [cur] is the piece being read. *)
Fixpoint splitAux (sep : string) (skip : nat) (cur : string) (s : string)
  : list string :=
  match s with
  | "" => [cur]
  | String c s' =>
      match skip with
      | S k => splitAux sep k cur s'
      | O =>
          if startsWith s sep
          then cur :: splitAux sep (String.length sep - 1) "" s'
          else splitAux sep 0 (cur +:+ chr c) s'
      end
  end.

Definition split (s sep : string) : list string := splitAux sep 0 "" s.

(** [s.replaceAll(pat, rep)] for a non-empty string pattern and a
    replacement without [$] patterns. *)
Fixpoint replaceAllAux (pat rep : string) (skip : nat) (s : string) : string :=
  match s with
  | "" => ""
  | String c s' =>
      match skip with
      | S k => replaceAllAux pat rep k s'
      | O =>
          if startsWith s pat
          then rep +:+ replaceAllAux pat rep (String.length pat - 1) s'
          else String c (replaceAllAux pat rep 0 s')
      end
  end.

Definition replaceAll (s pat rep : string) : string := replaceAllAux pat rep 0 s.

(** [a.join(sep)]. *)
Fixpoint join (sep : string) (l : list string) : string :=
  match l with
  | [] => ""
  | [x] => x
  | x :: l' => x +:+ sep +:+ join sep l'
  end.

(** White space and line terminators as [trim], [parseInt] and the numeric
    conversion strip them (the ASCII ones: TAB, LF, VT, FF, CR, SP). *)
Definition isWhiteSpace (c : ascii) : bool :=
  let n := N_of_ascii c in
  ((9 <=? n) && (n <=? 13))%N || (n =? 32)%N.

Fixpoint trimStart (s : string) : string :=
  match s with
  | String c s' => if isWhiteSpace c then trimStart s' else s
  | "" => ""
  end.

Fixpoint trimEnd (s : string) : string :=
  match s with
  | "" => ""
  | String c s' =>
      match trimEnd s' with
      | "" => if isWhiteSpace c then "" else chr c
      | t => String c t
      end
  end.

Definition trim (s : string) : string := trimEnd (trimStart s).

(** *** Numbers *)

(** The numbers that occur are integral doubles, [NaN] and the infinities. *)
Inductive jsnum : Type :=
| NaN
| Int (z : Z)
| Inf (negative : bool).

(** Rounding of a mathematical integer to the nearest double (ties to even);
    integers below [2^53] in magnitude are doubles already. *)
Definition roundInt (z : Z) : jsnum :=
  let a := Z.abs z in
  if a <? 2 ^ 53 then Int z
  else
    let q := Z.log2 a - 52 in
    let m := a / 2 ^ q in
    let r := a mod 2 ^ q in
    let half := 2 ^ (q - 1) in
    let m' := if (half <? r) || ((r =? half) && Z.odd m) then m + 1 else m in
    let v := m' * 2 ^ q in
    if 2 ^ 1024 <=? v then Inf (z <? 0) else Int (Z.sgn z * v).

Definition digitValue (c : ascii) : option Z :=
  let n := Z.of_N (N_of_ascii c) in
  if (48 <=? n) && (n <=? 57) then Some (n - 48)
  else if (97 <=? n) && (n <=? 122) then Some (n - 87)
  else if (65 <=? n) && (n <=? 90) then Some (n - 55)
  else None.

Definition isDigitIn (radix : Z) (c : ascii) : bool :=
  match digitValue c with
  | Some d => d <? radix
  | None => false
  end.

(** The longest prefix of digits of the radix, read as a number:
    [Some (value, rest)] when at least one digit was read. *)
Fixpoint readDigits (radix : Z) (acc : option Z) (s : string)
  : option Z * string :=
  match s with
  | String c s' =>
      match digitValue c with
      | Some d =>
          if d <? radix
          then readDigits radix (Some (match acc with
                                       | Some a => a * radix + d
                                       | None => d
                                       end)) s'
          else (acc, s)
      | None => (acc, s)
      end
  | "" => (acc, s)
  end.

Definition stripSign (s : string) : bool * string :=
  match s with
  | String "-" s' => (true, s')
  | String "+" s' => (false, s')
  | _ => (false, s)
  end.

Definition stripHexPrefix (s : string) : option string :=
  match s with
  | String "0" (String "x" s') => Some s'
  | String "0" (String "X" s') => Some s'
  | _ => None
  end.

(** [parseInt(s, radix)] for radix 10 (also what an omitted radix means, with
    the [0x] prefix switching to 16) and radix 16. *)
Definition parseIntDigits (radix : Z) (negative : bool) (s : string) : jsnum :=
  match fst (readDigits radix None s) with
  | Some v => roundInt (if negative then - v else v)
  | None => NaN
  end.

Definition parseInt (s : string) : jsnum :=
  let (negative, t) := stripSign (trimStart s) in
  match stripHexPrefix t with
  | Some h => parseIntDigits 16 negative h
  | None => parseIntDigits 10 negative t
  end.

Definition parseInt16 (s : string) : jsnum :=
  let (negative, t) := stripSign (trimStart s) in
  match stripHexPrefix t with
  | Some h => parseIntDigits 16 negative h
  | None => parseIntDigits 16 negative t
  end.

(** [parseInt(undefined)]: an array element that does not exist reads as
    [undefined], which [parseInt] turns into the string of that name. *)
Definition parseIntOpt (o : option string) : jsnum :=
  match o with
  | Some s => parseInt s
  | None => NaN
  end.

Definition parseInt16Opt (o : option string) : jsnum :=
  match o with
  | Some s => parseInt16 s
  | None => NaN
  end.

(** The element a typed array stores for a number: the integer modulo
    [2^8] or [2^16], zero for [NaN] and the infinities. *)
Definition toUint8 (x : jsnum) : Z :=
  match x with
  | Int z => z mod 256
  | _ => 0
  end.

Definition toUint16 (x : jsnum) : Z :=
  match x with
  | Int z => z mod 65536
  | _ => 0
  end.

(** Comparisons of numbers: anything against [NaN] is false. *)
Definition numLt (x y : jsnum) : bool :=
  match x, y with
  | NaN, _ | _, NaN => false
  | Int a, Int b => a <? b
  | Int _, Inf n => negb n
  | Inf n, Int _ => n
  | Inf n, Inf m => n && negb m
  end.

Definition numEq (x y : jsnum) : bool :=
  match x, y with
  | Int a, Int b => a =? b
  | Inf n, Inf m => Bool.eqb n m
  | _, _ => false
  end.

Definition numLe (x y : jsnum) : bool := numLt x y || numEq x y.
Definition numGt (x y : jsnum) : bool := numLt y x.

(** Subtraction of an integer from a number. *)
Definition numSubInt (x : jsnum) (k : Z) : jsnum :=
  match x with
  | Int z => roundInt (z - k)
  | _ => x
  end.

(** [n.toString()] and [n.toString(16)] for a non-negative integer. *)
Fixpoint digitsOfPos (radix : Z) (fuel : nat) (n : Z) (acc : string) : string :=
  match fuel with
  | O => acc
  | S k =>
      let d := n mod radix in
      let c := ascii_of_N (Z.to_N (if d <? 10 then 48 + d else 87 + d)) in
      let acc' := String c acc in
      if n / radix =? 0 then acc' else digitsOfPos radix k (n / radix) acc'
  end.

Definition toStringRadix (radix : Z) (n : Z) : string :=
  digitsOfPos radix (S (Z.to_nat (Z.log2 n))) n "".

Definition toString (n : Z) : string :=
  if n <? 0 then "-" +:+ toStringRadix 10 (- n) else toStringRadix 10 n.

Definition toString16 (n : Z) : string := toStringRadix 16 n.

(** [s.slice(-2)]: the last two characters. *)
Definition sliceLast2 (s : string) : string :=
  drop (String.length s - 2) s.

(** *** [Number.isInteger(+s)]

    The unary plus converts the string with the grammar of numeric string
    literals: optional white space around either nothing (the number 0), a
    binary, octal or hexadecimal integer without sign, or a signed decimal
    literal with optional fraction and exponent, or [Infinity].  Anything
    else is [NaN].  The value is rounded to the nearest double, and
    [Number.isInteger] asks whether that double is finite and integral. *)

Fixpoint readDecimal (v n : Z) (s : string) : Z * Z * string :=
  match s with
  | String c s' =>
      if isDigitIn 10 c
      then readDecimal (v * 10 + (Z.of_N (N_of_ascii c) - 48)) (n + 1) s'
      else (v, n, s)
  | "" => (v, n, s)
  end.

Definition isFiniteInt (x : jsnum) : bool :=
  match x with
  | Int _ => true
  | _ => false
  end.

(** Is the double nearest to [n / d] an integer?  ([0 < n], [0 < d].) *)
Definition ratIsIntegerDouble (n d : Z) : bool :=
  if 2 ^ 53 * d <=? n
  then negb ((2 ^ 1024 - 2 ^ 970) * d <=? n)
  else
    let e0 := Z.log2 n - Z.log2 d in
    let reaches (e : Z) :=
      if 0 <=? e then d * 2 ^ e <=? n else d <=? n * 2 ^ (- e) in
    let e := if reaches e0 then e0 else e0 - 1 in
    let q := Z.max (e - 52) (-1074) in
    let num := n * 2 ^ (- q) in
    let m := num / d in
    let r := num mod d in
    let m' := if (d <? 2 * r) || ((2 * r =? d) && Z.odd m) then m + 1 else m in
    m' mod 2 ^ (- q) =? 0.

(** Is the double nearest to [m * 10^k] an integer?  ([0 <= m].) *)
Definition decimalIsInteger (m k : Z) : bool :=
  if m =? 0 then true
  else if 0 <=? k then isFiniteInt (roundInt (m * 10 ^ k))
  else ratIsIntegerDouble m (10 ^ (- k)).

Definition nonDecimalPrefix (s : string) : option (Z * string) :=
  match s with
  | String "0" (String c s') =>
      if (Ascii.eqb c "x" || Ascii.eqb c "X")%char then Some (16, s')
      else if (Ascii.eqb c "o" || Ascii.eqb c "O")%char then Some (8, s')
      else if (Ascii.eqb c "b" || Ascii.eqb c "B")%char then Some (2, s')
      else None
  | _ => None
  end.

(** The exponent part [e], [e+] or [e-] with its digits, or nothing. *)
Definition readExponent (s : string) : option (Z * string) :=
  match s with
  | String c s' =>
      if (Ascii.eqb c "e" || Ascii.eqb c "E")%char
      then
        let (negative, t) := stripSign s' in
        match readDecimal 0 0 t with
        | (v, n, rest) =>
            if 0 <? n then Some (if negative then - v else v, rest) else None
        end
      else Some (0, s)
  | "" => Some (0, s)
  end.

Definition decimalLiteralIsInteger (u : string) : bool :=
  if String.eqb u "Infinity" then false
  else
    match readDecimal 0 0 u with
    | (ip, ni, r1) =>
        let '(fp, nf, r2) :=
          match r1 with
          | String "." r => readDecimal 0 0 r
          | _ => (0, 0, r1)
          end in
        if (ni =? 0) && (nf =? 0) then false
        else
          match readExponent r2 with
          | Some (ex, "") => decimalIsInteger (ip * 10 ^ nf + fp) (ex - nf)
          | _ => false
          end
    end.

Definition numberIsIntegerOfString (s : string) : bool :=
  let t := trim s in
  if String.eqb t "" then true
  else
    match nonDecimalPrefix t with
    | Some (radix, rest) =>
        match readDigits radix None rest with
        | (Some v, "") => isFiniteInt (roundInt v)
        | _ => false
        end
    | None => decimalLiteralIsInteger (snd (stripSign t))
    end.

End JS.

(** ** Regular expressions

    The fragment of the regular-expression language the script uses:
    character classes, concatenation, alternation and iteration, matched by
    backtracking against the whole string (every expression of the script
    is anchored with [^] and [$]). *)

Module RegExp.

Inductive regex : Type :=
| Eps
| Class (negated : bool) (ranges : list (ascii * ascii))
| Cat (r1 r2 : regex)
| Alt (r1 r2 : regex)
| Star (r : regex).

Definition inRange (c : ascii) (lohi : ascii * ascii) : bool :=
  (N_of_ascii (fst lohi) <=? N_of_ascii c)%N &&
  (N_of_ascii c <=? N_of_ascii (snd lohi))%N.

Definition inClass (negated : bool) (ranges : list (ascii * ascii)) (c : ascii)
  : bool :=
  xorb negated (existsb (inRange c) ranges).

Definition Lit (c : ascii) : regex := Class false [(c, c)].
Definition Plus (r : regex) : regex := Cat r (Star r).
Definition Opt (r : regex) : regex := Alt r Eps.

(** [r{lo,lo+extra}]. *)
Fixpoint RepeatUpTo (r : regex) (extra : nat) : regex :=
  match extra with
  | S e => Opt (Cat r (RepeatUpTo r e))
  | O => Eps
  end.

Fixpoint Repeat (r : regex) (lo extra : nat) : regex :=
  match lo with
  | S k => Cat r (Repeat r k extra)
  | O => RepeatUpTo r extra
  end.

(** [matchK r s k]: some prefix of [s] matches [r] and the continuation [k]
    accepts the rest.  An iteration only repeats after consuming input. *)
Fixpoint matchK (r : regex) {struct r} : string -> (string -> bool) -> bool :=
  match r with
  | Eps => fun s k => k s
  | Class negated ranges => fun s k =>
      match s with
      | String c s' => inClass negated ranges c && k s'
      | "" => false
      end
  | Cat r1 r2 => fun s k => matchK r1 s (fun s' => matchK r2 s' k)
  | Alt r1 r2 => fun s k => matchK r1 s k || matchK r2 s k
  | Star r' => fun s k =>
      (fix iter (fuel : nat) (s : string) {struct fuel} : bool :=
         k s ||
         match fuel with
         | O => false
         | S fuel' =>
             matchK r' s (fun s' =>
               (String.length s' <? String.length s)%nat && iter fuel' s')
         end) (String.length s) s
  end.

(** [/^r$/.test(s)]. *)
Definition test (r : regex) (s : string) : bool :=
  matchK r s (fun rest => String.eqb rest "").

(** The source text of an expression of the shape [^ atoms $], where an atom
    is an ordinary character, an escaped punctuation character or the class
    [[^\.]], each optionally followed by [*].  This covers what the setter
    of [WildcardFQDN] builds from names without further regular-expression
    syntax; [None] for any other source text. *)
Definition isSyntaxChar (c : ascii) : bool :=
  existsb (Ascii.eqb c)
    ["\"; "^"; "$"; "."; "*"; "+"; "?"; "("; ")"; "["; "]"; "{"; "}"; "|"]%char.

Definition isAlnum (c : ascii) : bool :=
  inClass false [("0", "9"); ("a", "z"); ("A", "Z"); ("_", "_")]%char c.

Definition starred (atom : regex) (s : string) : regex * string :=
  match s with
  | String c s' => if Ascii.eqb c "*" then (Star atom, s') else (atom, s)
  | "" => (atom, s)
  end.

Definition notDot : regex := Class true [("."%char, "."%char)].

Fixpoint parseAtoms (fuel : nat) (s : string) : option regex :=
  match fuel with
  | O => None
  | S fuel' =>
      match s with
      | "" => None
      | String c s' =>
          if Ascii.eqb c "$" && String.eqb s' "" then Some Eps
          else if Ascii.eqb c "\" then
            match s' with
            | String e s'' =>
                if isAlnum e then None
                else
                  let (a, rest) := starred (Lit e) s'' in
                  option_map (Cat a) (parseAtoms fuel' rest)
            | "" => None
            end
          else if JS.startsWith s "[^\.]" then
            let (a, rest) := starred notDot (JS.drop 5 s) in
            option_map (Cat a) (parseAtoms fuel' rest)
          else if isSyntaxChar c then None
          else
            let (a, rest) := starred (Lit c) s' in
            option_map (Cat a) (parseAtoms fuel' rest)
      end
  end.

Definition compile (source : string) : option regex :=
  match source with
  | String "^" body => parseAtoms (S (String.length body)) body
  | _ => None
  end.

End RegExp.

Import JS.

(** ** Constants of the script *)

Definition PROTOCOL_TYPE_BIT_NONE : Z := 0.
Definition PROTOCOL_TYPE_BIT_IP : Z := 1.
Definition PROTOCOL_TYPE_BIT_ICMP_ICMP6 : Z := 2.
Definition PROTOCOL_TYPE_BIT_TCP_UDP_SCTP : Z := 4.
Definition PROTOCOL_TYPE_BIT_UNSUPPORTED : Z := 4096.

Inductive lookupAddressType : Type :=
| LOOKUP_ADDRESS_TYPE_UNKNOWN
| LOOKUP_ADDRESS_TYPE_IPV4
| LOOKUP_ADDRESS_TYPE_IPV6
| LOOKUP_ADDRESS_TYPE_FQDN
| LOOKUP_ADDRESS_TYPE_GEO.

Definition lookupAddressType_eqb (a b : lookupAddressType) : bool :=
  match a, b with
  | LOOKUP_ADDRESS_TYPE_UNKNOWN, LOOKUP_ADDRESS_TYPE_UNKNOWN
  | LOOKUP_ADDRESS_TYPE_IPV4, LOOKUP_ADDRESS_TYPE_IPV4
  | LOOKUP_ADDRESS_TYPE_IPV6, LOOKUP_ADDRESS_TYPE_IPV6
  | LOOKUP_ADDRESS_TYPE_FQDN, LOOKUP_ADDRESS_TYPE_FQDN
  | LOOKUP_ADDRESS_TYPE_GEO, LOOKUP_ADDRESS_TYPE_GEO => true
  | _, _ => false
  end.

(** Column numbers of a normalized policy row. *)
Definition NMCOL_DOM_NAME : nat := 0.
Definition NMCOL_SRC_INTF : nat := 1.
Definition NMCOL_DST_INTF : nat := 2.
Definition NMCOL_POL_TYPE : nat := 3.
Definition NMCOL_POL_ID : nat := 4.
Definition NMCOL_POL_NAME : nat := 5.
Definition NMCOL_POL_LINE : nat := 6.
Definition NMCOL_ACTION : nat := 7.
Definition NMCOL_PROTOCOL : nat := 8.
Definition NMCOL_SRC_ADDR : nat := 9.
Definition NMCOL_SRC_PORT : nat := 10.
Definition NMCOL_DST_ADDR : nat := 11.
Definition NMCOL_DST_PORT : nat := 12.
Definition NMCOL_SERVICE_DSTADDR : nat := 13.
Definition NMCOL_ICMPTYCD : nat := 14.
Definition NMCOL_SRCADDR_NEGATE : nat := 15.
Definition NMCOL_DSTADDR_NEGATE : nat := 16.
Definition NMCOL_SERVICE_NEGATE : nat := 17.
Definition NMCOL_STATUS : nat := 18.
Definition NMCOL_LOG : nat := 19.
Definition NMCOL_SCHEDULE : nat := 20.
Definition NMCOL_COMMENT : nat := 21.

(** The double quote and the single quote, and the separator of member
    lists, a quote, a space and a quote. *)
Definition dquote : string := chr (ascii_of_nat 34).
Definition squote : string := chr (ascii_of_nat 39).
Definition memberSeparator : string := dquote +:+ " " +:+ dquote.

(** [String.prototype.trimString]: strips the argument once from each end. *)
Definition trimString (this str : string) : string :=
  substring this
    (if startsWith this str then Z.of_nat (String.length str) else 0)
    (Z.of_nat (String.length this)
     - (if endsWith this str then Z.of_nat (String.length str) else 0)).

(** ** Protocol classes *)

Definition isIpProtocol (str : string) : bool := String.eqb str "ip".
Definition isIcmpProtocol (str : string) : bool := String.eqb str "1".
Definition isIcmp6Protocol (str : string) : bool := String.eqb str "58".
Definition isTcpProtocol (str : string) : bool := String.eqb str "6".
Definition isUdpProtocol (str : string) : bool := String.eqb str "17".
Definition isSctpProtocol (str : string) : bool := String.eqb str "132".

Definition getProtocolTypeBit (strProtocol : string) : Z :=
  let intProtocolTypeBit := PROTOCOL_TYPE_BIT_NONE in
  if isIcmpProtocol strProtocol then
    Z.lor intProtocolTypeBit PROTOCOL_TYPE_BIT_ICMP_ICMP6
  else if isIcmp6Protocol strProtocol then
    Z.lor intProtocolTypeBit PROTOCOL_TYPE_BIT_ICMP_ICMP6
  else if isTcpProtocol strProtocol then
    Z.lor intProtocolTypeBit PROTOCOL_TYPE_BIT_TCP_UDP_SCTP
  else if isUdpProtocol strProtocol then
    Z.lor intProtocolTypeBit PROTOCOL_TYPE_BIT_TCP_UDP_SCTP
  else if isSctpProtocol strProtocol then
    Z.lor intProtocolTypeBit PROTOCOL_TYPE_BIT_TCP_UDP_SCTP
  else if isIpProtocol strProtocol then
    Z.lor intProtocolTypeBit PROTOCOL_TYPE_BIT_IP
  else if numberIsIntegerOfString strProtocol then
    Z.lor intProtocolTypeBit PROTOCOL_TYPE_BIT_IP
  else if String.eqb strProtocol "undefined" then
    intProtocolTypeBit
  else
    Z.lor intProtocolTypeBit PROTOCOL_TYPE_BIT_UNSUPPORTED.

(** The leading protocol token of a service value [PROTO[/...];SDA]. *)
Definition leadingProtocolToken (strServicePortCondition : string) : string :=
  let array := split strServicePortCondition ";" in
  let array := split (nth 0 array "") "/" in
  nth 0 array "".

Definition getProtocolTypeBitsOfArray (arrayServicePortCondition : list string)
  : Z :=
  fold_left
    (fun intProtocolTypeBits cond =>
       Z.lor intProtocolTypeBits (getProtocolTypeBit (leadingProtocolToken cond)))
    arrayServicePortCondition PROTOCOL_TYPE_BIT_NONE.

(** ** IPv4 primitives *)

(** [256 - Math.pow(2, 8 - n)] as the [Uint8Array] element every caller
    stores it in.  For [n] in [0..8] this is the octet netmask itself; below
    0 the power is a multiple of 256; above 8 the difference is
    [256 - 2^-(n-8)], which truncates to 255 while it is a double of its own
    (up to [n - 8 = 45]) and rounds to 256 beyond. *)
Definition getOctetNetMaskFromOctetPrefixLength (intOctetPrefixLength : jsnum)
  : Z :=
  match intOctetPrefixLength with
  | Int n =>
      if n <=? 0 then 0
      else if n <=? 8 then 256 - 2 ^ (8 - n)
      else if n <=? 53 then 255
      else 0
  | _ => 0
  end.

Definition dotted (o : Z * Z * Z * Z) : string :=
  let '(a, b, c, d) := o in
  toString a +:+ "." +:+ toString b +:+ "." +:+ toString c +:+ "." +:+ toString d.

Definition getIPv4NetMaskFromPrefixLength (intIPv4PrefixLength : jsnum) : string :=
  let octet := getOctetNetMaskFromOctetPrefixLength in
  let p := intIPv4PrefixLength in
  if numLt p (Int 8) then dotted (octet p, 0, 0, 0)
  else if numLt p (Int 16) then dotted (255, octet (numSubInt p 8), 0, 0)
  else if numLt p (Int 24) then dotted (255, 255, octet (numSubInt p 16), 0)
  else dotted (255, 255, 255, octet (numSubInt p 24)).

(** [new Uint8Array([parseInt(a[0]), ..., parseInt(a[3])])] for
    [a = str.split('.')]. *)
Definition octetsOf (strIPv4Addr : string) : Z * Z * Z * Z :=
  let a := split strIPv4Addr "." in
  (toUint8 (parseIntOpt (a !! 0%nat)), toUint8 (parseIntOpt (a !! 1%nat)),
   toUint8 (parseIntOpt (a !! 2%nat)), toUint8 (parseIntOpt (a !! 3%nat))).

(** [getPrefixLengthFromIPv4NetMask]: the inner loop over [j = 7 .. 0]
    counts the bits of one octet and stops early once the octet is used up. *)
Fixpoint countOctetBits (j : nat) (bytMask intPrefixLength : Z) : Z :=
  match j with
  | O => intPrefixLength
  | S j' =>
      if 2 ^ Z.of_nat j' <=? bytMask
      then countOctetBits j' (bytMask - 2 ^ Z.of_nat j') (intPrefixLength + 1)
      else if bytMask =? 0 then intPrefixLength
      else countOctetBits j' bytMask intPrefixLength
  end.

Definition getPrefixLengthFromIPv4NetMask (strIPv4NetMask : string) : Z :=
  let '(m0, m1, m2, m3) := octetsOf strIPv4NetMask in
  fold_left (fun intPrefixLength bytMask => countOctetBits 8 bytMask intPrefixLength)
    [m0; m1; m2; m3] 0.

Definition octetwise (f : Z -> Z -> Z) (x y : Z * Z * Z * Z) : Z * Z * Z * Z :=
  let '(a1, a2, a3, a4) := x in
  let '(b1, b2, b3, b4) := y in
  (f a1 b1, f a2 b2, f a3 b3, f a4 b4).

Definition getBitwiseANDedIPv4Addr (strIPv4AddrA strIPv4AddrB : string) : string :=
  dotted (octetwise Z.land (octetsOf strIPv4AddrA) (octetsOf strIPv4AddrB)).

Definition getBitwiseORedIPv4Addr (strIPv4AddrA strIPv4AddrB : string) : string :=
  dotted (octetwise Z.lor (octetsOf strIPv4AddrA) (octetsOf strIPv4AddrB)).

Definition getBitwiseANDedIPv4AddrWithInvertBits (strIPv4AddrA strIPv4AddrB : string)
  : string :=
  dotted (octetwise (fun a b => Z.land a (Z.lxor b 255))
            (octetsOf strIPv4AddrA) (octetsOf strIPv4AddrB)).

Definition getBitwiseORedIPv4AddrWithInvertBits (strIPv4AddrA strIPv4AddrB : string)
  : string :=
  dotted (octetwise (fun a b => Z.lor a (Z.lxor b 255))
            (octetsOf strIPv4AddrA) (octetsOf strIPv4AddrB)).

Definition getIPv4StartAddr (strIPv4Addr strIPv4NetMask : string) : string :=
  getBitwiseANDedIPv4Addr strIPv4Addr strIPv4NetMask.

Definition getIPv4EndAddr (strIPv4Addr strIPv4NetMask : string) : string :=
  getBitwiseORedIPv4AddrWithInvertBits strIPv4Addr strIPv4NetMask.

(** [toIPv4AddrInteger]: the four octets are not reduced modulo 256 here. *)
Definition toIPv4AddrInteger (strIPv4Addr : string) : jsnum :=
  let a := split strIPv4Addr "." in
  match parseIntOpt (a !! 0%nat), parseIntOpt (a !! 1%nat),
        parseIntOpt (a !! 2%nat), parseIntOpt (a !! 3%nat) with
  | Int o0, Int o1, Int o2, Int o3 =>
      roundInt (o0 * 16777216 + o1 * 65536 + o2 * 256 + o3)
  | _, _, _, _ => NaN
  end.

(** [toIPv4AddrString]: [>>>] reads its operand modulo [2^32]. *)
Definition toIPv4AddrString (intIPv4AddrInteger : Z) : string :=
  let u := intIPv4AddrInteger mod 2 ^ 32 in
  dotted (Z.land (Z.shiftr u 24) 255, Z.land (Z.shiftr u 16) 255,
          Z.land (Z.shiftr u 8) 255, Z.land intIPv4AddrInteger 255).

(** *** The decomposition of a range into subnets

    [makeIPv4SubnetFromRange] is recursive with a loop around the recursive
    calls.  The loop body is written once over the function [rec] used for
    the recursive calls; the function itself ties the knot with a bound on
    the depth of the recursion, [None] standing for a call that has not
    returned within the bound.  [arraySave] is threaded through as the list
    of strings pushed so far. *)

(** The [while] loop that pushes the segments of one block; [bound] is the
    number of segments of size [intSegSize] a block can hold. *)
Fixpoint pushSegments (bound : nat) (i intSegSize intBlockEnd : Z)
    (intSegStart : Z) (arraySave : list string) : option (Z * list string) :=
  let intSegEnd := intSegStart + intSegSize - 1 in
  if intSegEnd <=? intBlockEnd then
    match bound with
    | O => None
    | S bound' =>
        pushSegments bound' i intSegSize intBlockEnd (intSegStart + intSegSize)
          (arraySave ++ [toIPv4AddrString intSegStart +:+ "/" +:+ toString i])%list
    end
  else Some (intSegStart, arraySave).

Section MakeIPv4SubnetFromRange.

Variable rec : Z -> Z -> list string -> option (list string).

(** The [for] loop from [i] on, [n] iterations left. *)
Fixpoint subnetLoop (n : nat) (i intSegSize intStartAddr intEndAddr : Z)
    (arraySave : list string) : option (list string) :=
  match n with
  | O => Some arraySave
  | S n' =>
      let intBlockStart :=
        Z.quot (intStartAddr + intSegSize - 1) intSegSize * intSegSize in
      let intBlockEnd :=
        Z.quot (intEndAddr + 1) intSegSize * intSegSize - 1 in
      if intBlockStart <=? intBlockEnd then
        match (if intStartAddr <? intBlockStart
               then rec intStartAddr (intBlockStart - 1) arraySave
               else Some arraySave) with
        | None => None
        | Some arraySave1 =>
            match pushSegments
                    (Z.to_nat (Z.quot (intBlockEnd - intBlockStart + 1) intSegSize))
                    i intSegSize intBlockEnd intBlockStart arraySave1 with
            | None => None
            | Some (intSegStart, arraySave2) =>
                if intBlockEnd <? intEndAddr then
                  match rec (intBlockEnd + 1) intEndAddr arraySave2 with
                  | None => None
                  | Some arraySave3 =>
                      subnetLoop n' (i + 1) (Z.quot intSegSize 2)
                        intSegStart intBlockEnd arraySave3
                  end
                else
                  subnetLoop n' (i + 1) (Z.quot intSegSize 2)
                    intSegStart intEndAddr arraySave2
            end
        end
      else
        subnetLoop n' (i + 1) (Z.quot intSegSize 2)
          intStartAddr intEndAddr arraySave
  end.

Definition makeIPv4SubnetFromRangeBody (intStartAddr intEndAddr : Z)
    (arraySave : list string) : option (list string) :=
  subnetLoop 32 1 2147483648 intStartAddr intEndAddr arraySave.

End MakeIPv4SubnetFromRange.

Fixpoint makeIPv4SubnetFromRange (depth : nat) (intStartAddr intEndAddr : Z)
    (arraySave : list string) : option (list string) :=
  match depth with
  | O => None
  | S depth' =>
      makeIPv4SubnetFromRangeBody (makeIPv4SubnetFromRange depth')
        intStartAddr intEndAddr arraySave
  end.

(** ** IPv4 containment predicates *)

Definition isIPv4WithPrefixLengthIncludedInSegment
    (strTestIPv4WithPrefixLength strIPv4SegmentNetworkAddrWithPrefixLength : string)
  : bool :=
  let arrayStrTestIPv4 := split strTestIPv4WithPrefixLength "/" in
  let arrayStrIPv4SegmentNetworkAddr :=
    split strIPv4SegmentNetworkAddrWithPrefixLength "/" in
  let strTestIPv4Addr := nth 0 arrayStrTestIPv4 "" in
  let intTestIPv4PrefixLength := parseIntOpt (arrayStrTestIPv4 !! 1%nat) in
  let strTestIPv4NetworkAddr :=
    getIPv4StartAddr strTestIPv4Addr
      (getIPv4NetMaskFromPrefixLength intTestIPv4PrefixLength) in
  let intIPv4SegmentPrefixLength :=
    parseIntOpt (arrayStrIPv4SegmentNetworkAddr !! 1%nat) in
  let strIPv4SegmentNetMask :=
    getIPv4NetMaskFromPrefixLength intIPv4SegmentPrefixLength in
  let strIPv4SegmentNetworkAddr :=
    getIPv4StartAddr (nth 0 arrayStrIPv4SegmentNetworkAddr "") strIPv4SegmentNetMask in
  (* If the test address is a host address, change the prefix length to 32. *)
  let '(intTestIPv4PrefixLength, strTestIPv4NetworkAddr) :=
    if negb (String.eqb strTestIPv4NetworkAddr strTestIPv4Addr)
    then (Int 32, strTestIPv4Addr)
    else (intTestIPv4PrefixLength, strTestIPv4NetworkAddr) in
  if numEq intTestIPv4PrefixLength intIPv4SegmentPrefixLength then
    String.eqb strTestIPv4NetworkAddr strIPv4SegmentNetworkAddr
  else if numGt intTestIPv4PrefixLength intIPv4SegmentPrefixLength then
    String.eqb (getIPv4StartAddr strTestIPv4Addr strIPv4SegmentNetMask)
      strIPv4SegmentNetworkAddr
  else false.

(** [compareIPv4]: the octets are compared as numbers, not reduced modulo
    256; a comparison against [NaN] is false either way. *)
Definition compareOctets (x y : list jsnum) : Z :=
  fold_right
    (fun '(a, b) rest => if numGt a b then 1 else if numLt a b then -1 else rest)
    0 (combine x y).

Definition compareIPv4 (strIPv4_1 strIPv4_2 : string) : Z :=
  let a1 := split strIPv4_1 "." in
  let a2 := split strIPv4_2 "." in
  compareOctets (map (fun i => parseIntOpt (a1 !! i)) [0; 1; 2; 3]%nat)
                (map (fun i => parseIntOpt (a2 !! i)) [0; 1; 2; 3]%nat).

(** The range predicate reads both ends of the range; the script calls it on
    values that contain [-] only, and a missing end reads as the empty string
    here. *)
Definition isIPv4WithPrefixLengthIncludedInRange
    (strTestIPv4WithPrefixLength strIPv4Range : string) : bool :=
  let arrayStrTestIPv4 := split strTestIPv4WithPrefixLength "/" in
  let arrayStrIPv4Range := split strIPv4Range "-" in
  let strTestIPv4Addr := nth 0 arrayStrTestIPv4 "" in
  let intTestIPv4PrefixLength := parseIntOpt (arrayStrTestIPv4 !! 1%nat) in
  let strTestIPv4NetMask := getIPv4NetMaskFromPrefixLength intTestIPv4PrefixLength in
  let strTestIPv4Start := getIPv4StartAddr strTestIPv4Addr strTestIPv4NetMask in
  let strTestIPv4End := getIPv4EndAddr strTestIPv4Addr strTestIPv4NetMask in
  let '(strTestIPv4Start, strTestIPv4End) :=
    if negb (String.eqb strTestIPv4Addr strTestIPv4Start)
    then (strTestIPv4Addr, strTestIPv4Addr)
    else (strTestIPv4Start, strTestIPv4End) in
  (0 <=? compareIPv4 strTestIPv4Start (nth 0 arrayStrIPv4Range "")) &&
  (compareIPv4 strTestIPv4End (nth 1 arrayStrIPv4Range "") <=? 0).

(** The Fortinet wildcard predicate; it reads the mask after the [/], and the
    script calls it on values with a mask only (a missing mask reads as the
    empty string here). *)
Definition isIPv4WithPrefixLengthIncludedInFortinetWildcardAddr
    (strTestIPv4WithPrefixLength strIPv4AddrWithWildcardMask : string) : bool :=
  let arrayStrTestIPv4 := split strTestIPv4WithPrefixLength "/" in
  let arrayStrIPv4Wildcard := split strIPv4AddrWithWildcardMask "/" in
  let strTestIPv4Addr := nth 0 arrayStrTestIPv4 "" in
  let intTestIPv4PrefixLength := parseIntOpt (arrayStrTestIPv4 !! 1%nat) in
  let strTestIPv4NetworkAddr :=
    getIPv4StartAddr strTestIPv4Addr
      (getIPv4NetMaskFromPrefixLength intTestIPv4PrefixLength) in
  let strIPv4WildcardAddr := nth 0 arrayStrIPv4Wildcard "" in
  let strIPv4WildcardMask := nth 1 arrayStrIPv4Wildcard "" in
  let strIPv4WildcardAddrMaskbits0 :=
    getBitwiseANDedIPv4Addr strIPv4WildcardAddr strIPv4WildcardMask in
  let strIPv4WildcardAddrMaskbits1 :=
    getBitwiseORedIPv4AddrWithInvertBits strIPv4WildcardAddr strIPv4WildcardMask in
  if numEq intTestIPv4PrefixLength (Int 32)
     || negb (String.eqb strTestIPv4NetworkAddr strTestIPv4Addr)
  then
    let strTestIPv4AddrMaskbits0 :=
      getBitwiseANDedIPv4Addr strTestIPv4Addr strIPv4WildcardMask in
    let strTestIPv4AddrMaskbits1 :=
      getBitwiseORedIPv4AddrWithInvertBits strTestIPv4Addr strIPv4WildcardMask in
    String.eqb strTestIPv4AddrMaskbits0 strIPv4WildcardAddrMaskbits0 &&
    String.eqb strTestIPv4AddrMaskbits1 strIPv4WildcardAddrMaskbits1
  else
    let strTestIPv4BroadcastAddr :=
      getIPv4EndAddr strTestIPv4Addr
        (getIPv4NetMaskFromPrefixLength intTestIPv4PrefixLength) in
    let strTestIPv4NetworkAddrMaskbits0 :=
      getBitwiseANDedIPv4Addr strTestIPv4NetworkAddr strIPv4WildcardMask in
    let strTestIPv4NetworkAddrMaskbits1 :=
      getBitwiseORedIPv4AddrWithInvertBits strTestIPv4NetworkAddr strIPv4WildcardMask in
    let strTestIPv4BroadcastAddrMaskbits0 :=
      getBitwiseANDedIPv4Addr strTestIPv4BroadcastAddr strIPv4WildcardMask in
    let strTestIPv4BroadcastAddrMaskbits1 :=
      getBitwiseORedIPv4AddrWithInvertBits strTestIPv4BroadcastAddr strIPv4WildcardMask in
    String.eqb strTestIPv4NetworkAddrMaskbits0 strIPv4WildcardAddrMaskbits0 &&
    String.eqb strTestIPv4NetworkAddrMaskbits1 strIPv4WildcardAddrMaskbits1 &&
    String.eqb strTestIPv4BroadcastAddrMaskbits0 strIPv4WildcardAddrMaskbits0 &&
    String.eqb strTestIPv4BroadcastAddrMaskbits1 strIPv4WildcardAddrMaskbits1.

(** ** IPv6 primitives *)

(** Two hexadecimal digits for an octet. *)
Definition hex2 (b : Z) : string := sliceLast2 ("0" +:+ toString16 b).

(** Four hexadecimal digits for a hextet. *)
Definition hex4 (h : Z) : string := hex2 (Z.shiftr h 8) +:+ hex2 (Z.land h 255).

(** [getIPv6NetMaskFromPrefixLength].  The closed form is what the loops of
    the script leave in the array for a prefix length below [2^53] in
    absolute value.  (For an infinite prefix length, and for a finite one so
    large that the loop counter stops growing at [2^53], the loops of the
    script do not end; there the model gives the mask of a prefix length
    beyond 128 or of one below 0.) *)
Definition getIPv6NetMaskFromPrefixLength (intIPv6PrefixLength : jsnum) : string :=
  let byte (i : Z) : Z :=
    match intIPv6PrefixLength with
    | Int p =>
        let intIndexToCalc := Z.quot p 8 in
        if i <? intIndexToCalc then 255
        else if i =? intIndexToCalc
             then getOctetNetMaskFromOctetPrefixLength (Int (p - intIndexToCalc * 8))
             else 0
    | Inf false => 255
    | _ => 0
    end in
  join ":" (map (fun i => hex2 (byte (2 * i)) +:+ hex2 (byte (2 * i + 1)))
              [0; 1; 2; 3; 4; 5; 6; 7]).

(** [new Uint16Array([parseInt(a[0], 16), ..., parseInt(a[7], 16)])]. *)
Definition hextetsOf (strIPv6Addr : string) : list Z :=
  let a := split strIPv6Addr ":" in
  map (fun i => toUint16 (parseInt16Opt (a !! i))) [0; 1; 2; 3; 4; 5; 6; 7]%nat.

Definition getIPv6StartAddr (strIPv6Addr strIPv6NetMask : string) : string :=
  join ":" (map (fun '(x, m) => hex4 (Z.land x m))
              (combine (hextetsOf strIPv6Addr) (hextetsOf strIPv6NetMask))).

Definition getIPv6EndAddr (strIPv6Addr strIPv6NetMask : string) : string :=
  join ":" (map (fun '(x, m) => hex4 (Z.lor x (Z.lxor m 65535)))
              (combine (hextetsOf strIPv6Addr) (hextetsOf strIPv6NetMask))).

Definition isDecimalDigitOrNone (c : string) : bool :=
  match c with
  | "" => true
  | String a _ => RegExp.inClass false [("0", "9")]%char a
  end.

Definition isHexDigitOrNone (c : string) : bool :=
  match c with
  | "" => true
  | String a _ => RegExp.inClass false [("0", "9"); ("a", "f"); ("A", "F")]%char a
  end.

(** The typed-array fill loops of the two functions below: [None] for the
    [undefined] they return on an over-long piece, [Some None] for the early
    return of the still empty result, [Some (Some l)] for the filled array. *)
Fixpoint readOctetStrs (arrayStrOctet : list string) : option (option (list Z)) :=
  match arrayStrOctet with
  | [] => Some (Some [])
  | s :: rest =>
      if (3 <? String.length s)%nat then None
      else
        let intOctet := parseInt s in
        if isDecimalDigitOrNone (charAt s 0) && isDecimalDigitOrNone (charAt s 1)
           && isDecimalDigitOrNone (charAt s 2) && numLe intOctet (Int 255)
        then
          match readOctetStrs rest with
          | Some (Some l) => Some (Some (toUint8 intOctet :: l))
          | other => other
          end
        else Some None
  end.

Fixpoint pairOctets (l : list Z) : list string :=
  match l with
  | a :: b :: rest => (hex2 a +:+ hex2 b) :: pairOctets rest
  | _ => []
  end.

Definition getHextetStrArrayFromOctetStr (strOctetsIncludePeriod : string)
  : option (list string) :=
  match readOctetStrs (split strOctetsIncludePeriod ".") with
  | None => None
  | Some None => Some []
  | Some (Some arrayIntOctet) => Some (pairOctets arrayIntOctet)
  end.

Fixpoint readHextetStrs (arrayStrHextet : list string) : option (option (list Z)) :=
  match arrayStrHextet with
  | [] => Some (Some [])
  | s :: rest =>
      if (4 <? String.length s)%nat then None
      else
        let intHextet := parseInt16 s in
        if isHexDigitOrNone (charAt s 0) && isHexDigitOrNone (charAt s 1)
           && isHexDigitOrNone (charAt s 2) && isHexDigitOrNone (charAt s 3)
           && numLe intHextet (Int 65535)
        then
          match readHextetStrs rest with
          | Some (Some l) => Some (Some (toUint16 intHextet :: l))
          | other => other
          end
        else Some None
  end.

Definition getHextetStrArray (strHextetsIncludeColon : string)
  : option (list string) :=
  match readHextetStrs (split strHextetsIncludeColon ":") with
  | None => None
  | Some None => Some []
  | Some (Some arrayIntHextet) => Some (map hex4 arrayIntHextet)
  end.

Definition isZeroHextet (o : option string) : bool :=
  numEq (parseInt16Opt o) (Int 0).

Definition getIPv6HextetStrArray (strIPv6Addr : string) : list string :=
  let intIndexOfDblColon := indexOf strIPv6Addr "::" in
  let front_rear :=
    if intIndexOfDblColon =? -1 then Some ([], strIPv6Addr)
    else
      match getHextetStrArray (substring strIPv6Addr 0 intIndexOfDblColon) with
      | None => None
      | Some arrayStrFrontHextet =>
          Some (arrayStrFrontHextet, substringFrom strIPv6Addr (intIndexOfDblColon + 2))
      end in
  match front_rear with
  | None => []
  | Some (arrayStrFrontHextet, strRear) =>
      let intIndexOfPeriod := indexOf strRear "." in
      let rear :=
        if intIndexOfPeriod =? -1 then getHextetStrArray strRear
        else
          let intEndOfHextet := lastIndexOf strRear ":" in
          if intEndOfHextet =? -1 then getHextetStrArrayFromOctetStr strRear
          else
            match getHextetStrArray (substring strRear 0 intEndOfHextet),
                  getHextetStrArrayFromOctetStr
                    (substringFrom strRear (intEndOfHextet + 1)) with
            | Some arrayStrEndOfHextet, Some arrayStrHextetOfIPv4 =>
                Some (arrayStrEndOfHextet ++ arrayStrHextetOfIPv4)%list
            | _, _ => None
            end in
      match rear with
      | None => []
      | Some arrayStrRearHextet =>
          let nf := length arrayStrFrontHextet in
          let nr := length arrayStrRearHextet in
          if ((intIndexOfDblColon =? -1) && (nr =? 8)%nat)
             || (negb (intIndexOfDblColon =? -1) && (nf + nr <=? 7)%nat)
          then
            let arrayStrHextet :=
              (arrayStrFrontHextet ++ repeat "0000" (8 - nf - nr)
               ++ arrayStrRearHextet)%list in
            if negb (intIndexOfPeriod =? -1)
               && (negb (isZeroHextet (arrayStrHextet !! 0%nat))
                   || negb (isZeroHextet (arrayStrHextet !! 1%nat))
                   || negb (isZeroHextet (arrayStrHextet !! 2%nat))
                   || negb (isZeroHextet (arrayStrHextet !! 3%nat))
                   || negb (isZeroHextet (arrayStrHextet !! 4%nat))
                   || (negb (isZeroHextet (arrayStrHextet !! 5%nat))
                       && negb (String.eqb (nth 5 arrayStrHextet "") "ffff")))
            then []
            else arrayStrHextet
          else []
      end
  end.

Definition getIPv6FullRepresentedAddr (strIPv6Addr : string) : string :=
  join ":" (getIPv6HextetStrArray strIPv6Addr).

Definition getIPv6FullRepresentedAddrWithPrefixLength
    (strIPv6AddrWithPrefixLength : string) : string :=
  let arrayStrIPv6 := split strIPv6AddrWithPrefixLength "/" in
  let strNormalizedIPv6Addr := getIPv6FullRepresentedAddr (nth 0 arrayStrIPv6 "") in
  if String.eqb strNormalizedIPv6Addr "" then ""
  else strNormalizedIPv6Addr +:+ "/" +:+ nth 1 arrayStrIPv6 "undefined".

(** ** IPv6 containment predicates *)

Definition compareIPv6 (strIPv6_1 strIPv6_2 : string) : Z :=
  let a1 := split strIPv6_1 ":" in
  let a2 := split strIPv6_2 ":" in
  compareOctets
    (map (fun i => parseInt16Opt (a1 !! i)) [0; 1; 2; 3; 4; 5; 6; 7]%nat)
    (map (fun i => parseInt16Opt (a2 !! i)) [0; 1; 2; 3; 4; 5; 6; 7]%nat).

Definition isIPv6WithPrefixLengthIncludedInSegment
    (strTestIPv6WithPrefixLength strIPv6SegmentNetworkAddrWithPrefixLength : string)
  : bool :=
  let arrayStrTestIPv6 := split strTestIPv6WithPrefixLength "/" in
  let arrayStrIPv6SegmentNetworkAddr :=
    split strIPv6SegmentNetworkAddrWithPrefixLength "/" in
  let strTestIPv6Addr := nth 0 arrayStrTestIPv6 "" in
  let intTestIPv6PrefixLength := parseIntOpt (arrayStrTestIPv6 !! 1%nat) in
  let strTestIPv6NetworkAddr :=
    getIPv6StartAddr strTestIPv6Addr
      (getIPv6NetMaskFromPrefixLength intTestIPv6PrefixLength) in
  let intIPv6SegmentPrefixLength :=
    parseIntOpt (arrayStrIPv6SegmentNetworkAddr !! 1%nat) in
  let strIPv6SegmentNetMask :=
    getIPv6NetMaskFromPrefixLength intIPv6SegmentPrefixLength in
  let strIPv6SegmentNetworkAddr :=
    getIPv6StartAddr (nth 0 arrayStrIPv6SegmentNetworkAddr "") strIPv6SegmentNetMask in
  let '(intTestIPv6PrefixLength, strTestIPv6NetworkAddr) :=
    if negb (String.eqb strTestIPv6NetworkAddr strTestIPv6Addr)
    then (Int 128, strTestIPv6Addr)
    else (intTestIPv6PrefixLength, strTestIPv6NetworkAddr) in
  if numEq intTestIPv6PrefixLength intIPv6SegmentPrefixLength then
    String.eqb strTestIPv6NetworkAddr strIPv6SegmentNetworkAddr
  else if numGt intTestIPv6PrefixLength intIPv6SegmentPrefixLength then
    String.eqb (getIPv6StartAddr strTestIPv6Addr strIPv6SegmentNetMask)
      strIPv6SegmentNetworkAddr
  else false.

Definition isIPv6WithPrefixLengthIncludedInRange
    (strTestIPv6WithPrefixLength strIPv6Range : string) : bool :=
  let arrayStrTestIPv6 := split strTestIPv6WithPrefixLength "/" in
  let arrayStrIPv6Range := split strIPv6Range "-" in
  let strTestIPv6Addr := nth 0 arrayStrTestIPv6 "" in
  let intTestIPv6PrefixLength := parseIntOpt (arrayStrTestIPv6 !! 1%nat) in
  let strTestIPv6NetMask := getIPv6NetMaskFromPrefixLength intTestIPv6PrefixLength in
  let strTestIPv6Start := getIPv6StartAddr strTestIPv6Addr strTestIPv6NetMask in
  let strTestIPv6End := getIPv6EndAddr strTestIPv6Addr strTestIPv6NetMask in
  let '(strTestIPv6Start, strTestIPv6End) :=
    if negb (String.eqb strTestIPv6Addr strTestIPv6Start)
    then (strTestIPv6Addr, strTestIPv6Addr)
    else (strTestIPv6Start, strTestIPv6End) in
  (0 <=? compareIPv6 strTestIPv6Start (nth 0 arrayStrIPv6Range "")) &&
  (compareIPv6 strTestIPv6End (nth 1 arrayStrIPv6Range "") <=? 0).

(** ** Wildcard FQDN *)

(** The setter [name] of class [WildcardFQDN] builds the source text of the
    regular expression; [test] runs it.  A name with regular-expression
    syntax of its own (beyond the dot and the asterisk the setter rewrites)
    is outside the fragment of [RegExp.compile] and tests false here. *)
Definition WildcardFQDN_strRegex (strWildcardFqdn : string) : string :=
  "^" +:+ replaceAll (replaceAll strWildcardFqdn "." "\.") "*" "[^\.]*" +:+ "$".

Definition WildcardFQDN_test (strWildcardFqdn strTestFqdn : string) : bool :=
  match RegExp.compile (WildcardFQDN_strRegex strWildcardFqdn) with
  | Some re => RegExp.test re strTestFqdn
  | None => false
  end.

(** ** Address lookup *)

Definition IPV4_ALL : string := "0.0.0.0/0".
Definition IPV6_ALL : string := "0000:0000:0000:0000:0000:0000:0000:0000/0".

Definition isWithin (strAddrToBeLookedUp strLookupAddr : string)
    (intLookupAddrType : lookupAddressType)
    (boolNegate boolFqdnAndGeoMatchAll : bool) : bool :=
  let isType := lookupAddressType_eqb intLookupAddrType in
  if (isType LOOKUP_ADDRESS_TYPE_IPV4 && String.eqb strAddrToBeLookedUp IPV4_ALL)
     || (isType LOOKUP_ADDRESS_TYPE_IPV6 && String.eqb strAddrToBeLookedUp IPV6_ALL)
  then negb boolNegate
  else if isType LOOKUP_ADDRESS_TYPE_GEO then
    if startsWith strAddrToBeLookedUp "geo:"
    then xorb boolNegate (String.eqb strLookupAddr (substringFrom strAddrToBeLookedUp 4))
    else xorb boolNegate boolFqdnAndGeoMatchAll
  else if isType LOOKUP_ADDRESS_TYPE_FQDN then
    if startsWith strAddrToBeLookedUp "fqdn:"
    then xorb boolNegate
           (WildcardFQDN_test (substringFrom strAddrToBeLookedUp 5) strLookupAddr)
    else xorb boolNegate boolFqdnAndGeoMatchAll
  else if isType LOOKUP_ADDRESS_TYPE_IPV4 then
    if startsWith strAddrToBeLookedUp "geo:" || startsWith strAddrToBeLookedUp "fqdn:"
    then xorb boolNegate boolFqdnAndGeoMatchAll
    else if negb (indexOf strAddrToBeLookedUp ":" =? -1) then boolNegate
    else if negb (indexOf strAddrToBeLookedUp "-" =? -1) then
      if isIPv4WithPrefixLengthIncludedInRange strLookupAddr strAddrToBeLookedUp
      then negb boolNegate else boolNegate
    else
      match split strAddrToBeLookedUp "/" !! 1%nat with
      | Some (String c rest as mask) =>
          if indexOf mask "." =? -1 then
            if isIPv4WithPrefixLengthIncludedInSegment strLookupAddr strAddrToBeLookedUp
            then negb boolNegate else boolNegate
          else
            if isIPv4WithPrefixLengthIncludedInFortinetWildcardAddr
                 strLookupAddr strAddrToBeLookedUp
            then negb boolNegate else boolNegate
      | _ => boolNegate
      end
  else if isType LOOKUP_ADDRESS_TYPE_IPV6 then
    if startsWith strAddrToBeLookedUp "geo:" || startsWith strAddrToBeLookedUp "fqdn:"
    then xorb boolNegate boolFqdnAndGeoMatchAll
    else if indexOf strAddrToBeLookedUp ":" =? -1 then boolNegate
    else if negb (indexOf strAddrToBeLookedUp "-" =? -1) then
      if isIPv6WithPrefixLengthIncludedInRange strLookupAddr strAddrToBeLookedUp
      then negb boolNegate else boolNegate
    else if negb (indexOf strAddrToBeLookedUp "/" =? -1) then
      if isIPv6WithPrefixLengthIncludedInSegment strLookupAddr strAddrToBeLookedUp
      then negb boolNegate else boolNegate
    else boolNegate
  else boolNegate.

(** A plain object used as a dictionary: a key is truthy when the object
    has it (all stored values are truthy) or inherits it from
    [Object.prototype]. *)
Definition objectPrototypeKeys : list string :=
  ["constructor"; "hasOwnProperty"; "isPrototypeOf"; "propertyIsEnumerable";
   "toLocaleString"; "toString"; "valueOf"; "__proto__"; "__defineGetter__";
   "__defineSetter__"; "__lookupGetter__"; "__lookupSetter__"].

Definition isInherited (key : string) : bool :=
  existsb (String.eqb key) objectPrototypeKeys.

Definition truthyKey (obj : gset string) (key : string) : bool :=
  bool_decide (key ∈ obj) || isInherited key.

(** The state of one call of [lookUpAddrInNormalizedPoliciesArray]: the
    local object [objPolicyIneffectual] and the two result arrays
    [arrayResult] and [arrayResultWithoutIneffectual] (shared with the
    caller, which reads them afterwards). *)
Record lookupState : Type := mkLookupState {
  stIneffectual : gset string;
  stResult : list string;
  stResultWithoutIneffectual : list string
}.

Definition typePrefix (t : lookupAddressType) : string :=
  match t with
  | LOOKUP_ADDRESS_TYPE_FQDN => "fqdn:"
  | LOOKUP_ADDRESS_TYPE_GEO => "geo:"
  | _ => ""
  end.

(** A column of a row; a column the row does not have reads as [undefined]
    (the script raises a TypeError when it looks into a missing address
    column, which this model does not represent). *)
Definition column (arrayToken : list string) (i : nat) : string :=
  nth i arrayToken "undefined".

Section LookUpOneAddress.

Variables (strSrcAddr strSrcFullAddr : string) (intSrcAddrType : lookupAddressType).
Variables (strDstAddr strDstFullAddr : string) (intDstAddrType : lookupAddressType).
Variable boolFqdnAndGeoMatchAll : bool.

Definition isUnknown (t : lookupAddressType) : bool :=
  lookupAddressType_eqb t LOOKUP_ADDRESS_TYPE_UNKNOWN.
Definition isIPv4 (t : lookupAddressType) : bool :=
  lookupAddressType_eqb t LOOKUP_ADDRESS_TYPE_IPV4.
Definition isIPv6 (t : lookupAddressType) : bool :=
  lookupAddressType_eqb t LOOKUP_ADDRESS_TYPE_IPV6.

(** The address family test that makes the loop skip a row. *)
Definition skipsRow (arrayToken : list string) : bool :=
  let t := column arrayToken NMCOL_POL_TYPE in
  let isAddrType4to4 := String.eqb t "4to4" || String.eqb t "4to4m" in
  let isAddrType6to6 := String.eqb t "6to6" || String.eqb t "6to6m" in
  let isAddrType4to6 := String.eqb t "4to6" in
  let isAddrType6to4 := String.eqb t "6to4" in
  (isAddrType4to4 && (isIPv6 intSrcAddrType || isIPv6 intDstAddrType))
  || (isAddrType4to6 && (isIPv6 intSrcAddrType || isIPv4 intDstAddrType))
  || (isAddrType6to4 && (isIPv4 intSrcAddrType || isIPv6 intDstAddrType))
  || (isAddrType6to6 && (isIPv4 intSrcAddrType || isIPv4 intDstAddrType)).

(** The three match flags and the first column of the output line. *)
Definition matchRow (arrayToken : list string) : bool * bool * bool * string :=
  let strServiceDstAddr := column arrayToken NMCOL_SERVICE_DSTADDR in
  let isSrcAddrNegate := String.eqb (column arrayToken NMCOL_SRCADDR_NEGATE) "enable" in
  let isDstAddrNegate := String.eqb (column arrayToken NMCOL_DSTADDR_NEGATE) "enable" in
  let isServiceNegate := String.eqb (column arrayToken NMCOL_SERVICE_NEGATE) "enable" in
  let narrows :=
    negb (String.eqb strServiceDstAddr "0/0") && negb (String.eqb strServiceDstAddr "-") in
  let within (strAddr strLookup : string) (t : lookupAddressType) (negate : bool) :=
    isWithin strAddr strLookup t negate boolFqdnAndGeoMatchAll in
  if negb (isUnknown intSrcAddrType) && isUnknown intDstAddrType then
    (within (column arrayToken NMCOL_SRC_ADDR) strSrcFullAddr intSrcAddrType isSrcAddrNegate,
     false, false,
     "from_" +:+ typePrefix intSrcAddrType +:+ strSrcAddr)
  else if isUnknown intSrcAddrType && negb (isUnknown intDstAddrType) then
    let boolDstMatched :=
      within (column arrayToken NMCOL_DST_ADDR) strDstFullAddr intDstAddrType isDstAddrNegate in
    (false,
     if narrows
     then boolDstMatched
          && within strServiceDstAddr strDstFullAddr intDstAddrType isServiceNegate
     else boolDstMatched,
     false,
     "to_" +:+ typePrefix intDstAddrType +:+ strDstAddr)
  else
    let boolBothMatched :=
      within (column arrayToken NMCOL_SRC_ADDR) strSrcFullAddr intSrcAddrType isSrcAddrNegate
      && within (column arrayToken NMCOL_DST_ADDR) strDstFullAddr intDstAddrType isDstAddrNegate in
    (false, false,
     if narrows
     then boolBothMatched
          && within strServiceDstAddr strDstFullAddr intDstAddrType isServiceNegate
     else boolBothMatched,
     "from_" +:+ typePrefix intSrcAddrType +:+ strSrcAddr
     +:+ "_to_" +:+ typePrefix intDstAddrType +:+ strDstAddr).

Definition policyKey (arrayToken : list string) : string :=
  column arrayToken NMCOL_POL_TYPE +:+ "_" +:+ column arrayToken NMCOL_SRC_INTF
  +:+ "_" +:+ column arrayToken NMCOL_DST_INTF.

(** The test that marks the key of a matched row as ineffectual from here on. *)
Definition marksIneffectual (arrayToken : list string)
    (boolSrcMatched boolBothMatched : bool) : bool :=
  let t := column arrayToken NMCOL_POL_TYPE in
  let isAddrType4to4 := String.eqb t "4to4" || String.eqb t "4to4m" in
  let isAddrType6to6 := String.eqb t "6to6" || String.eqb t "6to6m" in
  let isAddrType4to6 := String.eqb t "4to6" in
  let isSrcAddrIPv4Any := String.eqb (column arrayToken NMCOL_SRC_ADDR) IPV4_ALL in
  let isSrcAddrIPv6Any := String.eqb (column arrayToken NMCOL_SRC_ADDR) IPV6_ALL in
  let isDstAddrIPv4Any := String.eqb (column arrayToken NMCOL_DST_ADDR) IPV4_ALL in
  let isDstAddrIPv6Any := String.eqb (column arrayToken NMCOL_DST_ADDR) IPV6_ALL in
  String.eqb (column arrayToken NMCOL_ACTION) "deny"
  && String.eqb (column arrayToken NMCOL_STATUS) "enable"
  && String.eqb (column arrayToken NMCOL_PROTOCOL) "ip"
  && ((isAddrType4to4 && isSrcAddrIPv4Any && isDstAddrIPv4Any)
      || (isAddrType6to6 && isSrcAddrIPv6Any && isDstAddrIPv6Any)
      || (isAddrType4to6 && isSrcAddrIPv4Any && isDstAddrIPv6Any)
      || ((boolSrcMatched || boolBothMatched)
          && ((isAddrType4to4 && isDstAddrIPv4Any)
              || ((isAddrType4to6 || isAddrType6to6) && isDstAddrIPv6Any)))).

(** One iteration of the loop over the rows. *)
Definition lookUpRow (st : lookupState) (strLine : string) : lookupState :=
  let arrayToken := split strLine "," in
  if skipsRow arrayToken then st
  else
    let '(boolSrcMatched, boolDstMatched, boolBothMatched, str1stColumn) :=
      matchRow arrayToken in
    if boolSrcMatched || boolDstMatched || boolBothMatched then
      let strAdd := str1stColumn +:+ "," +:+ strLine in
      let strPolicyKey := policyKey arrayToken in
      let objPolicyIneffectual :=
        if marksIneffectual arrayToken boolSrcMatched boolBothMatched
        then {[ strPolicyKey ]} ∪ stIneffectual st
        else stIneffectual st in
      mkLookupState objPolicyIneffectual
        (stResult st ++ [strAdd])%list
        (if String.eqb (column arrayToken NMCOL_STATUS) "enable"
            && negb (truthyKey objPolicyIneffectual strPolicyKey)
         then (stResultWithoutIneffectual st ++ [strAdd])%list
         else stResultWithoutIneffectual st)
    else st.

Definition lookUpRows (arrayNormalizedPolicyToBeLookedUp : list string)
    (st : lookupState) : lookupState :=
  fold_left lookUpRow arrayNormalizedPolicyToBeLookedUp st.

End LookUpOneAddress.

(** [lookUpAddrInNormalizedPoliciesArray]: the two arrays are passed in and
    come back extended; [objPolicyIneffectual] starts empty at every call. *)
Definition lookUpAddrInNormalizedPoliciesArray
    (arrayNormalizedPolicyToBeLookedUp : list string)
    (strSrcAddr : string) (intSrcAddrType : lookupAddressType)
    (strDstAddr : string) (intDstAddrType : lookupAddressType)
    (boolFqdnAndGeoMatchAll : bool)
    (arrayResult arrayResultWithoutIneffectual : list string)
  : list string * list string :=
  let unchanged := (arrayResult, arrayResultWithoutIneffectual) in
  let strSrcFullAddr :=
    if isIPv6 intSrcAddrType
    then getIPv6FullRepresentedAddrWithPrefixLength strSrcAddr else strSrcAddr in
  if isIPv6 intSrcAddrType && String.eqb strSrcFullAddr "" then unchanged
  else
    let strDstFullAddr :=
      if isIPv6 intDstAddrType
      then getIPv6FullRepresentedAddrWithPrefixLength strDstAddr else strDstAddr in
    if isIPv6 intDstAddrType && String.eqb strDstFullAddr "" then unchanged
    else
      let st :=
        lookUpRows strSrcAddr strSrcFullAddr intSrcAddrType
          strDstAddr strDstFullAddr intDstAddrType boolFqdnAndGeoMatchAll
          arrayNormalizedPolicyToBeLookedUp
          (mkLookupState ∅ arrayResult arrayResultWithoutIneffectual) in
      (stResult st, stResultWithoutIneffectual st).

(** ** The lookup list *)

(** [listOfLookUpAddr.split(/\r\n|\r|\n/)]. *)
Definition CR : ascii := ascii_of_nat 13.
Definition LF : ascii := ascii_of_nat 10.

Fixpoint splitLinesAux (cur : string) (afterCR : bool) (s : string) : list string :=
  match s with
  | "" => [cur]
  | String c s' =>
      if Ascii.eqb c CR then cur :: splitLinesAux "" true s'
      else if Ascii.eqb c LF then
        if afterCR then splitLinesAux cur false s'
        else cur :: splitLinesAux "" false s'
      else splitLinesAux (cur +:+ chr c) false s'
  end.

Definition splitLines (s : string) : list string := splitLinesAux "" false s.

Module LookupSyntax.
Import RegExp.

Definition digit : regex := Class false [("0", "9")]%char.
Definition alnum : regex := Class false [("0", "9"); ("A", "Z"); ("a", "z")]%char.
Definition alnumHyphen : regex :=
  Class false [("0", "9"); ("A", "Z"); ("a", "z"); ("-", "-")]%char.

Definition dottedQuad : regex :=
  Cat (Plus digit) (Cat (Lit ".") (Cat (Plus digit) (Cat (Lit ".")
    (Cat (Plus digit) (Cat (Lit ".") (Plus digit)))))).

(** [/^\d+\.\d+\.\d+\.\d+\/\d+$/] *)
Definition reIPv4WithPrefixLength : regex :=
  Cat dottedQuad (Cat (Lit "/") (Plus digit)).

(** [/^\d+\.\d+\.\d+\.\d+$/] *)
Definition reIPv4 : regex := dottedQuad.

(** [/^([\dA-Za-z][\dA-Za-z\-]{1,61}[\dA-Za-z](?:\.|))+$/] *)
Definition reHostName : regex :=
  Plus (Cat alnum (Cat (Repeat alnumHyphen 1 60) (Cat alnum (Alt (Lit ".") Eps)))).

End LookupSyntax.

(** The classification of one address of a lookup line: its type and the
    address as it is looked up. *)
Definition classifyLookupAddr (strAddr : string) : lookupAddressType * string :=
  if String.eqb strAddr "" then (LOOKUP_ADDRESS_TYPE_UNKNOWN, strAddr)
  else if startsWith strAddr "geo:" then
    (LOOKUP_ADDRESS_TYPE_GEO, substringFrom strAddr 4)
  else if startsWith strAddr "fqdn:" then
    (LOOKUP_ADDRESS_TYPE_FQDN, substringFrom strAddr 5)
  else if RegExp.test LookupSyntax.reIPv4WithPrefixLength strAddr then
    (LOOKUP_ADDRESS_TYPE_IPV4, strAddr)
  else if RegExp.test LookupSyntax.reIPv4 strAddr then
    (LOOKUP_ADDRESS_TYPE_IPV4, strAddr +:+ "/32")
  else if negb (indexOf strAddr ":" =? -1) then
    (LOOKUP_ADDRESS_TYPE_IPV6, strAddr)
  else if RegExp.test LookupSyntax.reHostName strAddr then
    (LOOKUP_ADDRESS_TYPE_FQDN, strAddr)
  else (LOOKUP_ADDRESS_TYPE_UNKNOWN, strAddr).

(** One line of the lookup list, on the two result arrays. *)
Definition lookUpLine (arrayNormalizedPolicyToBeLookedUp : list string)
    (boolFqdnAndGeoMatchAll : bool)
    (results : list string * list string) (strText : string)
  : list string * list string :=
  let strLine := trim strText in
  if (String.length strLine =? 0)%nat then results
  else
    let strHeadChar := substring strLine 0 1 in
    if String.eqb strHeadChar "!" || String.eqb strHeadChar "#" then results
    else
      let arrayLookupAddr := split strLine "," in
      let strSrcAddr := trim (nth 0 arrayLookupAddr "") in
      let strDstAddr :=
        match arrayLookupAddr !! 1%nat with
        | Some (String _ _ as d) => trim d
        | _ => ""
        end in
      let '(intSrcAddrType, strSrcAddr') := classifyLookupAddr strSrcAddr in
      if negb (String.eqb strSrcAddr "") && isUnknown intSrcAddrType then results
      else
        let '(intDstAddrType, strDstAddr') := classifyLookupAddr strDstAddr in
        if negb (String.eqb strDstAddr "") && isUnknown intDstAddrType then results
        else
          lookUpAddrInNormalizedPoliciesArray arrayNormalizedPolicyToBeLookedUp
            strSrcAddr' intSrcAddrType strDstAddr' intDstAddrType
            boolFqdnAndGeoMatchAll (fst results) (snd results).

(** [lookUpAddrList]: both arrays are emptied first; the result is the pair
    [(arrayResult, arrayResultWithoutIneffectual)] the caller reads. *)
Definition lookUpAddrList (arrayNormalizedPolicyToBeLookedUp : list string)
    (listOfLookUpAddr : string) (boolFqdnAndGeoMatchAll : bool)
  : list string * list string :=
  fold_left (lookUpLine arrayNormalizedPolicyToBeLookedUp boolFqdnAndGeoMatchAll)
    (splitLines listOfLookUpAddr) ([], []).

(** ** Policy normalization *)

(** A service object or service group of a domain. *)
Record serviceEntry : Type := mkServiceEntry {
  value : list string;
  protocol_type : Z;
  comment : string
}.

(** [obj[name]] on a table of service entries: an own entry, a member
    inherited from [Object.prototype] (truthy, without [protocol_type]), or
    nothing. *)
Inductive tableLookup : Type :=
| Own (e : serviceEntry)
| Inherited
| Missing.

Definition tableGet (obj : gmap string serviceEntry) (name : string) : tableLookup :=
  match obj !! name with
  | Some e => Own e
  | None => if isInherited name then Inherited else Missing
  end.

(** The parameter object of classes [FirewallPolicy4to4], [..6to6], [..6to4]
    and [..4to6]. *)
Record policyParam : Type := mkPolicyParam {
  srcintf : string;
  dstintf : string;
  srcaddr : string;
  dstaddr : string;
  schedule : string;
  service : string;
  srcaddr_negate : string;
  dstaddr_negate : string;
  service_negate : string;
  name : string;
  action : string;
  status : string;
  comments : string
}.

(** The array a member-list field is read into: nothing is pushed for an
    empty field, otherwise the pieces between the separators after the outer
    quotes are stripped. *)
Definition memberArray (field : string) : list string :=
  if negb (String.eqb field "") then split (trimString field dquote) memberSeparator
  else [].

Definition hasBits (bits mask : Z) : bool := negb (Z.land bits mask =? 0).

(** The port and type-code columns of a service name. *)
Definition servicePortAndTypeCode
    (objFirewallServiceCustom objFirewallServiceGroup : gmap string serviceEntry)
    (strService : string) : string * string :=
  let ofEntry (bits : Z) :=
    (if hasBits bits (Z.lor PROTOCOL_TYPE_BIT_TCP_UDP_SCTP PROTOCOL_TYPE_BIT_UNSUPPORTED)
     then strService else "-/-",
     if hasBits bits (Z.lor PROTOCOL_TYPE_BIT_ICMP_ICMP6 PROTOCOL_TYPE_BIT_UNSUPPORTED)
     then strService else "-/-") in
  match tableGet objFirewallServiceCustom strService with
  | Own e => ofEntry (protocol_type e)
  | Inherited => ("-/-", "-/-")
  | Missing =>
      match tableGet objFirewallServiceGroup strService with
      | Own e => ofEntry (protocol_type e)
      | Inherited => ("-/-", "-/-")
      | Missing => (strService, strService)
      end
  end.

Definition normalizeFirewallPolicy
    (objFirewallServiceCustom objFirewallServiceGroup : gmap string serviceEntry)
    (strDomainName strPolicyType strPolicyID : string) (intOrderNumber : Z)
    (objParam : policyParam) : list string :=
  let strName := trimString (trimString (name objParam) dquote) squote in
  let strStatus := if String.eqb (status objParam) "" then "enable" else status objParam in
  let strAction := if String.eqb (action objParam) "" then "deny" else action objParam in
  let strSchedule := trimString (trimString (schedule objParam) dquote) squote in
  let strComments := trimString (trimString (comments objParam) dquote) squote in
  let arraySrcIntf := memberArray (srcintf objParam) in
  let arrayDstIntf := memberArray (dstintf objParam) in
  let arraySrcAddr := memberArray (srcaddr objParam) in
  let arrayDstAddr := memberArray (dstaddr objParam) in
  let arrayService := memberArray (service objParam) in
  flat_map (fun strSrcIntf =>
  flat_map (fun strDstIntf =>
  flat_map (fun strSrcAddr =>
  flat_map (fun strDstAddr =>
  map (fun strService =>
    let '(strPort, strTypeCode) :=
      servicePortAndTypeCode objFirewallServiceCustom objFirewallServiceGroup
        strService in
    let strServiceDstAddr := if String.eqb strPort "-/-" then "-" else strPort in
    join ","
      [strDomainName; strSrcIntf; strDstIntf; strPolicyType; strPolicyID;
       strName; toString intOrderNumber; strAction; strService; strSrcAddr;
       strPort; strDstAddr; strPort; strServiceDstAddr; strTypeCode;
       srcaddr_negate objParam; dstaddr_negate objParam; service_negate objParam;
       strStatus; "-"; strSchedule; strComments])
    arrayService) arrayDstAddr) arraySrcAddr) arrayDstIntf) arraySrcIntf.

(** The parameter object of the multicast policy classes.  [begin] creates
    the keys [start-port] and [end-port] while [set] writes and the
    normalization reads [start_port] and [end_port], which are therefore
    [undefined] ([None]) unless the configuration sets them. *)
Record multicastPolicyParam : Type := mkMulticastPolicyParam {
  m_srcintf : string;
  m_dstintf : string;
  m_srcaddr : string;
  m_dstaddr : string;
  m_protocol : string;
  m_action : string;
  m_status : string;
  m_start_port : option string;
  m_end_port : option string
}.

Definition orUndefined (o : option string) : string := default "undefined" o.

Definition normalizeFirewallMulticastPolicy
    (strDomainName strPolicyType strPolicyID : string) (intOrderNumber : Z)
    (objParam : multicastPolicyParam) : list string :=
  let strStatus := if String.eqb (m_status objParam) "" then "enable" else m_status objParam in
  let strAction := if String.eqb (m_action objParam) "" then "accept" else m_action objParam in
  let strProtocol := m_protocol objParam in
  let '(strProtocol, strSrcPort, strDstPort, strTypeCode, strServiceDstAddr) :=
    if isIcmpProtocol strProtocol || isIcmp6Protocol strProtocol then
      (strProtocol, "-/-", "-/-", "any/any", "-")
    else if isTcpProtocol strProtocol || isUdpProtocol strProtocol
            || isSctpProtocol strProtocol then
      (strProtocol, "eq/any",
       match m_start_port objParam, m_end_port objParam with
       | Some "", _ => "eq/any"
       | start, Some "" => "eq/" +:+ orUndefined start
       | start, stop => "range/" +:+ orUndefined start +:+ "-" +:+ orUndefined stop
       end,
       "-/-", "0/0")
    else if String.eqb strProtocol "" || String.eqb strProtocol "0"
            || isIpProtocol strProtocol then
      ("ip", "-/-", "-/-", "-/-", "-")
    else if numberIsIntegerOfString strProtocol then
      (strProtocol, "-/-", "-/-", "-/-", "-")
    else
      (strProtocol, strProtocol, strProtocol, strProtocol, "-") in
  let arraySrcIntf := memberArray (m_srcintf objParam) in
  let arrayDstIntf := memberArray (m_dstintf objParam) in
  let arraySrcAddr := memberArray (m_srcaddr objParam) in
  let arrayDstAddr := memberArray (m_dstaddr objParam) in
  flat_map (fun strSrcIntf =>
  flat_map (fun strDstIntf =>
  flat_map (fun strSrcAddr =>
  map (fun strDstAddr =>
    join ","
      [strDomainName; strSrcIntf; strDstIntf; strPolicyType; strPolicyID;
       "-"; toString intOrderNumber; strAction; strProtocol; strSrcAddr;
       strSrcPort; strDstAddr; strDstPort; strServiceDstAddr; strTypeCode;
       "-"; "-"; "-"; strStatus; "-"; "-"; "-"])
    arrayDstAddr) arraySrcAddr) arrayDstIntf) arraySrcIntf.

(** [end] of classes [FirewallPolicy4to4] and [FirewallPolicy6to6]: the
    negate parameters become [true] or [false] before the rows are made. *)
Definition withNegateFlags (objParam : policyParam) : policyParam :=
  let flag (s : string) := if String.eqb s "enable" then "true" else "false" in
  mkPolicyParam (srcintf objParam) (dstintf objParam) (srcaddr objParam)
    (dstaddr objParam) (schedule objParam) (service objParam)
    (flag (srcaddr_negate objParam)) (flag (dstaddr_negate objParam))
    (flag (service_negate objParam)) (name objParam) (action objParam)
    (status objParam) (comments objParam).

Definition FirewallPolicy4to4_end
    (objFirewallServiceCustom objFirewallServiceGroup : gmap string serviceEntry)
    (strDomainName strEditName : string) (intOrderNumber : Z)
    (objParam : policyParam) (policy4to4 : list string) : list string :=
  (policy4to4 ++
   normalizeFirewallPolicy objFirewallServiceCustom objFirewallServiceGroup
     strDomainName "4to4" strEditName intOrderNumber (withNegateFlags objParam))%list.

Definition FirewallPolicy6to6_end
    (objFirewallServiceCustom objFirewallServiceGroup : gmap string serviceEntry)
    (strDomainName strEditName : string) (intOrderNumber : Z)
    (objParam : policyParam) (policy6to6 : list string) : list string :=
  (policy6to6 ++
   normalizeFirewallPolicy objFirewallServiceCustom objFirewallServiceGroup
     strDomainName "6to6" strEditName intOrderNumber (withNegateFlags objParam))%list.

(** * Further functions of the script *)

(** ** Prototype functions *)

(** [Array.prototype.unique]: [Array.from(new Set(this))].  The set is the
    list of its elements in insertion order; adding an element it has
    changes nothing. *)
Definition setAdd (set : list string) (x : string) : list string :=
  if existsb (String.eqb x) set then set else (set ++ [x])%list.

Definition unique (this : list string) : list string := fold_left setAdd this [].

(** ** More numbers *)

Definition numNeg (x : jsnum) : jsnum :=
  match x with
  | NaN => NaN
  | Int a => Int (- a)
  | Inf n => Inf (negb n)
  end.

Definition numAdd (x y : jsnum) : jsnum :=
  match x, y with
  | NaN, _ | _, NaN => NaN
  | Int a, Int b => roundInt (a + b)
  | Inf n, Int _ | Int _, Inf n => Inf n
  | Inf n, Inf m => if Bool.eqb n m then Inf n else NaN
  end.

Definition numSub (x y : jsnum) : jsnum := numAdd x (numNeg y).

Definition numGe (x y : jsnum) : bool := numLe y x.

(** ** More IPv4 functions *)

Definition getIPv4AddrWithPrefixLength (strIPv4Addr strIPv4NetMask : string) : string :=
  strIPv4Addr +:+ "/" +:+ toString (getPrefixLengthFromIPv4NetMask strIPv4NetMask).

(** [getIPv4HostsNumberFromRange]: without a [-] in the range the end is
    [undefined] and [toIPv4AddrInteger] raises a TypeError ([None]). *)
Definition getIPv4HostsNumberFromRange (strIPv4Range : string) : option jsnum :=
  let arrayStrIPv4 := split strIPv4Range "-" in
  match arrayStrIPv4 !! 1%nat with
  | Some strEnd =>
      Some (numAdd (numSub (toIPv4AddrInteger strEnd)
                      (toIPv4AddrInteger (nth 0 arrayStrIPv4 "")))
              (Int 1))
  | None => None
  end.

(** The call [makeIPv4SubnetFromRange(start, end, [])] on two numbers.  With
    a [NaN] no comparison of the loop holds and nothing is pushed.  [None]
    stands for no result in the model: the depth is used up, or an address
    is beyond the 52 bits within which the arithmetic of
    [makeIPv4SubnetFromRange] is exact. *)
Definition subnetsOfRange (depth : nat) (intStartAddr intEndAddr : jsnum)
  : option (list string) :=
  match intStartAddr, intEndAddr with
  | Int s, Int e =>
      if (Z.abs s <? 2 ^ 52) && (Z.abs e <? 2 ^ 52)
      then makeIPv4SubnetFromRange depth s e []
      else None
  | NaN, _ | _, NaN => Some []
  | _, _ => None
  end.

(** [getIPv4SubnetFromRange]; [None] also for the TypeError of a range
    without [-]. *)
Definition getIPv4SubnetFromRange (depth : nat) (strIPv4Range : string)
  : option (list string) :=
  let arrayStrIPv4 := split strIPv4Range "-" in
  match arrayStrIPv4 !! 1%nat with
  | Some strEnd =>
      subnetsOfRange depth (toIPv4AddrInteger (nth 0 arrayStrIPv4 ""))
        (toIPv4AddrInteger strEnd)
  | None => None
  end.

(** The Cisco wildcard predicate: the mask has one bits where the address is
    free. *)
Definition isIPv4WithPrefixLengthIncludedInCiscoWildcardAddr
    (strTestIPv4WithPrefixLength strIPv4AddrWithWildcardMask : string) : bool :=
  let arrayStrTestIPv4 := split strTestIPv4WithPrefixLength "/" in
  let arrayStrIPv4Wildcard := split strIPv4AddrWithWildcardMask "/" in
  let strTestIPv4Addr := nth 0 arrayStrTestIPv4 "" in
  let intTestIPv4PrefixLength := parseIntOpt (arrayStrTestIPv4 !! 1%nat) in
  let strTestIPv4NetworkAddr :=
    getIPv4StartAddr strTestIPv4Addr
      (getIPv4NetMaskFromPrefixLength intTestIPv4PrefixLength) in
  let strIPv4WildcardAddr := nth 0 arrayStrIPv4Wildcard "" in
  let strIPv4WildcardMask := nth 1 arrayStrIPv4Wildcard "" in
  let strIPv4WildcardAddrMaskbits0 :=
    getBitwiseANDedIPv4AddrWithInvertBits strIPv4WildcardAddr strIPv4WildcardMask in
  let strIPv4WildcardAddrMaskbits1 :=
    getBitwiseORedIPv4Addr strIPv4WildcardAddr strIPv4WildcardMask in
  if numEq intTestIPv4PrefixLength (Int 32)
     || negb (String.eqb strTestIPv4NetworkAddr strTestIPv4Addr)
  then
    let strTestIPv4AddrMaskbits0 :=
      getBitwiseANDedIPv4AddrWithInvertBits strTestIPv4Addr strIPv4WildcardMask in
    let strTestIPv4AddrMaskbits1 :=
      getBitwiseORedIPv4Addr strTestIPv4Addr strIPv4WildcardMask in
    String.eqb strTestIPv4AddrMaskbits0 strIPv4WildcardAddrMaskbits0 &&
    String.eqb strTestIPv4AddrMaskbits1 strIPv4WildcardAddrMaskbits1
  else
    let strTestIPv4BroadcastAddr :=
      getIPv4EndAddr strTestIPv4Addr
        (getIPv4NetMaskFromPrefixLength intTestIPv4PrefixLength) in
    let strTestIPv4NetworkAddrMaskbits0 :=
      getBitwiseANDedIPv4AddrWithInvertBits strTestIPv4NetworkAddr strIPv4WildcardMask in
    let strTestIPv4NetworkAddrMaskbits1 :=
      getBitwiseORedIPv4Addr strTestIPv4NetworkAddr strIPv4WildcardMask in
    let strTestIPv4BroadcastAddrMaskbits0 :=
      getBitwiseANDedIPv4AddrWithInvertBits strTestIPv4BroadcastAddr strIPv4WildcardMask in
    let strTestIPv4BroadcastAddrMaskbits1 :=
      getBitwiseORedIPv4Addr strTestIPv4BroadcastAddr strIPv4WildcardMask in
    String.eqb strTestIPv4NetworkAddrMaskbits0 strIPv4WildcardAddrMaskbits0 &&
    String.eqb strTestIPv4NetworkAddrMaskbits1 strIPv4WildcardAddrMaskbits1 &&
    String.eqb strTestIPv4BroadcastAddrMaskbits0 strIPv4WildcardAddrMaskbits0 &&
    String.eqb strTestIPv4BroadcastAddrMaskbits1 strIPv4WildcardAddrMaskbits1.

(** ** The class [IPv4Range] *)

Module IPv4Range.

Record t : Type := mk {
  intStartAddr : jsnum;
  intEndAddr : jsnum;
  arraySubnet : list string
}.

(** The setter [iprange]; an empty end reads as no end. *)
Definition iprange (depth : nat) (strIPv4Range : string) : option t :=
  let array :=
    if negb (indexOf strIPv4Range "-" =? -1)
    then split strIPv4Range "-" else [strIPv4Range] in
  let intStartAddr := toIPv4AddrInteger (nth 0 array "") in
  let intEndAddr :=
    match array !! 1%nat with
    | Some (String _ _ as strEnd) => toIPv4AddrInteger strEnd
    | _ => toIPv4AddrInteger (nth 0 array "")
    end in
  match subnetsOfRange depth intStartAddr intEndAddr with
  | Some arraySubnet => Some (mk intStartAddr intEndAddr arraySubnet)
  | None => None
  end.

Definition isIncludedInSegment (this : t) (strTestSegment : string) : bool :=
  forallb (fun strSubnet =>
             isIPv4WithPrefixLengthIncludedInSegment strSubnet strTestSegment)
    (arraySubnet this).

Definition isMatchedInFortinetWildcardAddr (this : t) (strTestWildcardAddr : string)
  : bool :=
  forallb (fun strSubnet =>
             isIPv4WithPrefixLengthIncludedInFortinetWildcardAddr strSubnet
               strTestWildcardAddr)
    (arraySubnet this).

(** [isIncludedInRange]: the end of the test range is read only when the
    first comparison holds; a missing end then raises a TypeError ([None]). *)
Definition isIncludedInRange (this : t) (strTestRange : string) : option bool :=
  let array := split strTestRange "-" in
  if numGe (intStartAddr this) (toIPv4AddrInteger (nth 0 array "")) then
    match array !! 1%nat with
    | Some strEnd => Some (numLe (intEndAddr this) (toIPv4AddrInteger strEnd))
    | None => None
    end
  else Some false.

End IPv4Range.

(** ** Flattening of groups *)

(** The loop of [flattenMember] over the member names, on the [value] arrays
    of a table of objects.  A name the table does not have but
    [Object.prototype] has is truthy without a [value], and spreading it
    raises a TypeError ([None]). *)
Fixpoint flattenMembers (obj : gmap string (list string)) (arrayMember : list string)
    (arrayValue : list string) : option (list string) :=
  match arrayMember with
  | [] => Some arrayValue
  | strMember :: rest =>
      match obj !! strMember with
      | Some v => flattenMembers obj rest (arrayValue ++ v)%list
      | None =>
          if isInherited strMember then None
          else flattenMembers obj rest arrayValue
      end
  end.

Definition flattenMember (objObjectOrGroupObject : gmap string (list string))
    (strMembers : string) : option (list string) :=
  let arrayMember := split (trimString strMembers dquote) memberSeparator in
  unique <$> flattenMembers objObjectOrGroupObject arrayMember [].

(** [normalizeFirewallAddressGroup]: the [value] of the returned object. *)
Definition normalizeFirewallAddressGroup (member : string)
    (objFirewallAddress objFirewallAddressGroup : gmap string (list string))
  : option (list string) :=
  match flattenMember objFirewallAddress member with
  | Some arrayValue =>
      match flattenMember objFirewallAddressGroup member with
      | Some more => Some (unique (arrayValue ++ more))
      | None => None
      end
  | None => None
  end.

(** [normalizeFirewallServiceGroup]: the returned object. *)
Definition normalizeFirewallServiceGroup (member strComment : string)
    (objFirewallServiceCustom objFirewallServiceGroup : gmap string serviceEntry)
  : option serviceEntry :=
  match flattenMember (value <$> objFirewallServiceCustom) member with
  | Some arrayValue =>
      match flattenMember (value <$> objFirewallServiceGroup) member with
      | Some more =>
          let arrayUnique := unique (arrayValue ++ more) in
          Some (mkServiceEntry arrayUnique (getProtocolTypeBitsOfArray arrayUnique)
                  strComment)
      | None => None
      end
  | None => None
  end.

(** ** Definitions used to state the properties *)

(** All characters are decimal digits. *)
Fixpoint allDigits (s : string) : bool :=
  match s with
  | "" => true
  | String c s' => isDigitIn 10 c && allDigits s'
  end.

(** The five protocol numbers with a class of their own. *)
Definition isClassifiedNumber (t : string) : bool :=
  isIcmpProtocol t || isIcmp6Protocol t || isTcpProtocol t || isUdpProtocol t
  || isSctpProtocol t.

(** *** The two views of a lookup, row by row *)

Section LookupViews.

Variables (strSrcAddr strSrcFullAddr : string) (intSrcAddrType : lookupAddressType).
Variables (strDstAddr strDstFullAddr : string) (intDstAddrType : lookupAddressType).
Variable boolFqdnAndGeoMatchAll : bool.

Local Abbreviation matchRow' :=
  (matchRow strSrcAddr strSrcFullAddr intSrcAddrType
     strDstAddr strDstFullAddr intDstAddrType boolFqdnAndGeoMatchAll).

(** The row is not skipped and one of its match flags is set. *)
Definition rowIsMatched (strLine : string) : bool :=
  let arrayToken := split strLine "," in
  negb (skipsRow intSrcAddrType intDstAddrType arrayToken)
  && (let '(boolSrcMatched, boolDstMatched, boolBothMatched, _) :=
        matchRow' arrayToken in
      boolSrcMatched || boolDstMatched || boolBothMatched).

(** The matched row marks its key as ineffectual. *)
Definition rowMarksKey (strLine : string) : bool :=
  let arrayToken := split strLine "," in
  let '(boolSrcMatched, _, boolBothMatched, _) := matchRow' arrayToken in
  marksIneffectual arrayToken boolSrcMatched boolBothMatched.

Definition rowKey (strLine : string) : string := policyKey (split strLine ",").

Definition rowIsEnabled (strLine : string) : bool :=
  String.eqb (column (split strLine ",") NMCOL_STATUS) "enable".

(** The trigger of the suppression, read off the columns of a row.  The row
    is a deny in force for every protocol: ACTION [deny], STATUS [enable],
    PROT [ip]. *)
Definition isEnabledIpDeny (strLine : string) : bool :=
  let arrayToken := split strLine "," in
  String.eqb (column arrayToken NMCOL_ACTION) "deny"
  && String.eqb (column arrayToken NMCOL_STATUS) "enable"
  && String.eqb (column arrayToken NMCOL_PROTOCOL) "ip".

(** Its source and its destination are the all address of the family its
    policy type gives them. *)
Definition isCatchAll (strLine : string) : bool :=
  let arrayToken := split strLine "," in
  let strPolicyType := column arrayToken NMCOL_POL_TYPE in
  let strSrc := column arrayToken NMCOL_SRC_ADDR in
  let strDst := column arrayToken NMCOL_DST_ADDR in
  ((String.eqb strPolicyType "4to4" || String.eqb strPolicyType "4to4m")
   && String.eqb strSrc IPV4_ALL && String.eqb strDst IPV4_ALL)
  || ((String.eqb strPolicyType "6to6" || String.eqb strPolicyType "6to6m")
      && String.eqb strSrc IPV6_ALL && String.eqb strDst IPV6_ALL)
  || (String.eqb strPolicyType "4to6"
      && String.eqb strSrc IPV4_ALL && String.eqb strDst IPV6_ALL).

(** Its destination alone is the all address of its family. *)
Definition isDstCatchAll (strLine : string) : bool :=
  let arrayToken := split strLine "," in
  let strPolicyType := column arrayToken NMCOL_POL_TYPE in
  let strDst := column arrayToken NMCOL_DST_ADDR in
  ((String.eqb strPolicyType "4to4" || String.eqb strPolicyType "4to4m")
   && String.eqb strDst IPV4_ALL)
  || ((String.eqb strPolicyType "4to6" || String.eqb strPolicyType "6to6"
       || String.eqb strPolicyType "6to6m")
      && String.eqb strDst IPV6_ALL).

(** The lookup has a destination address and no source address. *)
Definition isDstOnlyLookup : bool :=
  isUnknown intSrcAddrType && negb (isUnknown intDstAddrType).

(** A catch-all deny row of this lookup: a catch-all on both sides, or,
    unless the lookup has a destination address only, on the destination
    side. *)
Definition isCatchAllDeny (strLine : string) : bool :=
  isEnabledIpDeny strLine
  && (isCatchAll strLine || (negb isDstOnlyLookup && isDstCatchAll strLine)).

(** The line a matched row contributes to the views. *)
Definition outputLine (strLine : string) : string :=
  let '(_, _, _, str1stColumn) := matchRow' (split strLine ",") in
  str1stColumn +:+ "," +:+ strLine.

(** The rows that enter the without-ineffectual view when the rows are read
    with the keys of [obj] already marked. *)
Fixpoint keptRows (obj : gset string) (rows : list string) : list string :=
  match rows with
  | [] => []
  | strLine :: rest =>
      if rowIsMatched strLine then
        let obj' := if rowMarksKey strLine then {[ rowKey strLine ]} ∪ obj else obj in
        if rowIsEnabled strLine && negb (truthyKey obj' (rowKey strLine))
        then strLine :: keptRows obj' rest
        else keptRows obj' rest
      else keptRows obj rest
  end.

End LookupViews.

(** *** Regular languages and wildcard names *)

(** The language of a regular expression. *)
Inductive lang : RegExp.regex -> string -> Prop :=
| lang_eps : lang RegExp.Eps ""
| lang_class negated ranges c :
    RegExp.inClass negated ranges c = true ->
    lang (RegExp.Class negated ranges) (chr c)
| lang_cat r1 r2 s1 s2 :
    lang r1 s1 -> lang r2 s2 -> lang (RegExp.Cat r1 r2) (s1 +:+ s2)
| lang_alt_l r1 r2 s : lang r1 s -> lang (RegExp.Alt r1 r2) s
| lang_alt_r r1 r2 s : lang r2 s -> lang (RegExp.Alt r1 r2) s
| lang_star_nil r : lang (RegExp.Star r) ""
| lang_star_cons r s1 s2 :
    lang r s1 -> lang (RegExp.Star r) s2 -> lang (RegExp.Star r) (s1 +:+ s2).

(** Wildcard names as the specification words them: each asterisk of the
    stored name stands for a possibly empty run of characters other than the
    dot, every other character for itself, and the name covers the whole
    query string. *)
Fixpoint noDots (s : string) : bool :=
  match s with
  | "" => true
  | String c s' => negb (Ascii.eqb c ".") && noDots s'
  end.

Inductive wildcardMatches : string -> string -> Prop :=
| wm_end : wildcardMatches "" ""
| wm_asterisk name run rest :
    noDots run = true -> wildcardMatches name rest ->
    wildcardMatches (String "*" name) (run +:+ rest)
| wm_char c name rest :
    c <> "*"%char -> wildcardMatches name rest ->
    wildcardMatches (String c name) (String c rest).

(** Names without regular-expression syntax of their own: every character
    is the dot, the asterisk or a character without a meaning in a regular
    expression. *)
Fixpoint plainName (s : string) : bool :=
  match s with
  | "" => true
  | String c s' =>
      (Ascii.eqb c "." || Ascii.eqb c "*" || negb (RegExp.isSyntaxChar c))
      && plainName s'
  end.

(** What the setter makes of one character of the name, as text and as
    regular expression. *)
Definition escapedChar (c : ascii) : string :=
  if Ascii.eqb c "." then "\."
  else if Ascii.eqb c "*" then "[^\.]*"
  else chr c.

Fixpoint escapedName (s : string) : string :=
  match s with
  | "" => ""
  | String c s' => escapedChar c +:+ escapedName s'
  end.

Definition charRegex (c : ascii) : RegExp.regex :=
  if Ascii.eqb c "*" then RegExp.Star RegExp.notDot else RegExp.Lit c.

Fixpoint nameRegex (s : string) : RegExp.regex :=
  match s with
  | "" => RegExp.Eps
  | String c s' => RegExp.Cat (charRegex c) (nameRegex s')
  end.

(** *** Printed numbers and dotted quads *)

(** The character does not occur in the string. *)
Fixpoint noChar (x : ascii) (s : string) : bool :=
  match s with
  | "" => true
  | String c s' => negb (Ascii.eqb c x) && noChar x s'
  end.

(** What the proofs need of the decimal text of a small number: it reads
    back as the number, is not empty, and holds neither dot, slash nor hyphen. *)
Definition printsWell (n : Z) : bool :=
  numEq (parseInt (toString n)) (Int n)
  && negb (String.eqb (toString n) "")
  && noChar "." (toString n) && noChar "/" (toString n) && noChar "-" (toString n).

Definition isOctet (o : Z) : Prop := 0 <= o <= 255.

Definition isOctets (o : Z * Z * Z * Z) : Prop :=
  let '(a, b, c, d) := o in isOctet a /\ isOctet b /\ isOctet c /\ isOctet d.

(** *** CIDR blocks as sets of addresses *)

(** The base address and prefix length an emitted string denotes, read with
    the script's own [toIPv4AddrInteger] and [parseInt]. *)
Definition cidrBlock (strCidr : string) : option (Z * Z) :=
  match split strCidr "/" with
  | [strAddr; strLength] =>
      match toIPv4AddrInteger strAddr, parseInt strLength with
      | Int base, Int len => Some (base, len)
      | _, _ => None
      end
  | _ => None
  end.

(** The block is a subnet: a prefix length from 1 to 32 and a base address
    of 32 bits aligned to the size of the block. *)
Definition isSubnet (b : Z * Z) : Prop :=
  let '(base, len) := b in
  1 <= len <= 32 /\ 0 <= base /\ base + 2 ^ (32 - len) <= 2 ^ 32
  /\ base mod 2 ^ (32 - len) = 0.

Definition blockContains (b : Z * Z) (x : Z) : bool :=
  let '(base, len) := b in (base <=? x) && (x <? base + 2 ^ (32 - len)).

Definition cidrContains (strCidr : string) (x : Z) : bool :=
  match cidrBlock strCidr with
  | Some b => blockContains b x
  | None => false
  end.

(** The number of blocks of the list that contain the address. *)
Fixpoint coverCount (l : list string) (x : Z) : nat :=
  match l with
  | [] => 0
  | c :: l' => (if cidrContains c x then 1 else 0) + coverCount l' x
  end.

Definition inRangeCount (s e x : Z) : nat :=
  if (s <=? x) && (x <=? e) then 1 else 0.

(** The strings are subnets that tile the range from [s] to [e]. *)
Definition tilesRange (l : list string) (s e : Z) : Prop :=
  (forall c, In c l -> exists b, cidrBlock c = Some b /\ isSubnet b)
  /\ (forall x, coverCount l x = inRangeCount s e x).

(** *** Netmasks *)

(** The 32-bit form of a netmask string, as the script reads its octets. *)
Definition octetsValue (o : Z * Z * Z * Z) : Z :=
  let '(a, b, c, d) := o in a * 2 ^ 24 + b * 2 ^ 16 + c * 2 ^ 8 + d.

Definition maskValue (strIPv4NetMask : string) : Z :=
  octetsValue (octetsOf strIPv4NetMask).

(** A run of [q] one bits followed by zero bits only. *)
Definition contiguousMask (q : Z) : Z := 2 ^ 32 - 2 ^ (32 - q).

(** The octets of the netmask of a prefix length. *)
Definition prefixMask (p : Z) : Z * Z * Z * Z :=
  let octet n := getOctetNetMaskFromOctetPrefixLength (Int n) in
  (octet p, octet (p - 8), octet (p - 16), octet (p - 24)).

Definition octets_eqb (x y : Z * Z * Z * Z) : bool :=
  let '(a1, a2, a3, a4) := x in
  let '(b1, b2, b3, b4) := y in
  (a1 =? b1) && (a2 =? b2) && (a3 =? b3) && (a4 =? b4).

(** The canonical text of a test address: decimal octets and prefix length. *)
Definition cidrText (t : Z * Z * Z * Z) (p : Z) : string :=
  dotted t +:+ "/" +:+ toString p.

(** Example data. *)
Module Examples.

Definition quoted (s : string) : string := dquote +:+ s +:+ dquote.

(** Two source interfaces, one destination interface, one source, two
    destinations and three services. *)
Definition policy : policyParam :=
  mkPolicyParam
    (quoted "internal1" +:+ " " +:+ quoted "INTERNAL 02") (quoted "wan2")
    (quoted "ADDR11") (quoted "ADDR21" +:+ " " +:+ quoted "ADDR22")
    (quoted "always")
    (quoted "HTTP" +:+ " " +:+ quoted "DNS" +:+ " " +:+ quoted "PING")
    "" "" "" "" "accept" "" "".

(** Two interfaces each way, one source and three destinations. *)
Definition multicastPolicy : multicastPolicyParam :=
  mkMulticastPolicyParam
    (quoted "internal1" +:+ " " +:+ quoted "internal2")
    (quoted "wan1" +:+ " " +:+ quoted "WAN 02")
    (quoted "ADDR11")
    (quoted "MCAST 1" +:+ " " +:+ quoted "MCAST 2" +:+ " " +:+ quoted "MCAST 3")
    "17" "" "" None None.

(** A policy on source [10.0.0.0/8] with [set srcaddr-negate enable]. *)
Definition negatedPolicy : policyParam :=
  mkPolicyParam
    (quoted "port1") (quoted "port2") (quoted "10.0.0.0/8") (quoted "0.0.0.0/0")
    (quoted "always") (quoted "ALL") "enable" "" "" "" "accept" "" "".

(** Rows of three scopes: a catch-all deny on [(4to4, any, any)], an enabled
    accept on [(4to4, a, b)], a disabled accept on [(4to4, c, d)] and a later
    enabled accept on [(4to4, any, any)]. *)
Definition denyAll : string :=
  "D,any,any,4to4,1,,1,deny,ip,0.0.0.0/0,-/-,0.0.0.0/0,-/-,-,-/-,false,false,false,enable,-,always,".
Definition acceptAB : string :=
  "D,a,b,4to4,2,,2,accept,ip,10.0.0.0/8,-/-,0.0.0.0/0,-/-,-,-/-,false,false,false,enable,-,always,".
Definition acceptCDdisabled : string :=
  "D,c,d,4to4,3,,3,accept,ip,10.0.0.0/8,-/-,0.0.0.0/0,-/-,-,-/-,false,false,false,disable,-,always,".
Definition acceptAnyAny : string :=
  "D,any,any,4to4,4,,4,accept,ip,10.0.0.0/8,-/-,0.0.0.0/0,-/-,-,-/-,false,false,false,enable,-,always,".

(** A deny on [(4to4, any, any)] whose destination alone is the all
    address. *)
Definition denyToAny : string :=
  "D,any,any,4to4,1,,1,deny,ip,10.0.0.0/8,-/-,0.0.0.0/0,-/-,-,-/-,false,false,false,enable,-,always,".

End Examples.

(** ** Definitions used to state the further properties *)

(** The addresses of a test token: the subnet of its prefix length when the
    address is the network address of that subnet, the single address
    otherwise. *)
Definition tokenFirst (t : Z * Z * Z * Z) (p : Z) : Z := octetsValue t.

Definition tokenLast (t : Z * Z * Z * Z) (p : Z) : Z :=
  if octetsValue t mod 2 ^ (32 - p) =? 0
  then octetsValue t + 2 ^ (32 - p) - 1
  else octetsValue t.

(** The subnet of prefix length [q] around an address. *)
Definition segmentFirst (a : Z * Z * Z * Z) (q : Z) : Z :=
  octetsValue a - octetsValue a mod 2 ^ (32 - q).

Definition segmentLast (a : Z * Z * Z * Z) (q : Z) : Z :=
  segmentFirst a q + 2 ^ (32 - q) - 1.

(** The octets of a 32-bit address. *)
Definition octetsOfValue (a : Z) : Z * Z * Z * Z :=
  (a / 2 ^ 24, (a / 2 ^ 16) mod 256, (a / 2 ^ 8) mod 256, a mod 256).

Definition invertedOctets (o : Z * Z * Z * Z) : Z * Z * Z * Z :=
  let '(a, b, c, d) := o in (Z.lxor a 255, Z.lxor b 255, Z.lxor c 255, Z.lxor d 255).

(** The number of one bits of an octet. *)
Definition octetOnes (b : Z) : Z :=
  fold_left (fun n j => if Z.testbit b (Z.of_nat j) then n + 1 else n) (seq 0 8) 0.

(** The text of a subnet as [makeIPv4SubnetFromRange] pushes it. *)
Definition pushedForm (c : string) : Prop :=
  exists a i, 1 <= i <= 32 /\ c = toIPv4AddrString a +:+ "/" +:+ toString i.

(** The text of the range between two addresses. *)
Definition rangeText (lo hi : Z * Z * Z * Z) : string :=
  dotted lo +:+ "-" +:+ dotted hi.

(** The policy type of a row. *)
Definition rowPolicyType (strLine : string) : string :=
  column (split strLine ",") NMCOL_POL_TYPE.

(** The two result lists one line of the lookup list gives by itself. *)
Definition lineResults (rows : list string) (boolFqdnAndGeoMatchAll : bool)
    (strText : string) : list string * list string :=
  lookUpLine rows boolFqdnAndGeoMatchAll ([], []) strText.

(** The member names of a member-list field as [flattenMember] reads them. *)
Definition memberNames (strMembers : string) : list string :=
  split (trimString strMembers dquote) memberSeparator.

(** No member name falls through to [Object.prototype]. *)
Definition safeMembers (obj : gmap string (list string)) (members : list string) : Prop :=
  forall m, m ∈ members -> obj !! m = None -> isInherited m = false.

(** [x] is a value of a member the table has. *)
Definition memberValue (obj : gmap string (list string)) (members : list string)
    (x : string) : Prop :=
  exists m v, m ∈ members /\ obj !! m = Some v /\ x ∈ v.

(** The number of occurrences of a character. *)
Fixpoint countChar (x : ascii) (s : string) : nat :=
  match s with
  | "" => 0
  | String c s' => (if Ascii.eqb c x then 1 else 0) + countChar x s'
  end.

(** A string without a comma. *)
Definition commaFree (s : string) : Prop := noChar "," s = true.

(** *** IPv6 addresses in full form *)

(** The lower-case hexadecimal digit of a value below 16. *)
Definition hexDigit (d : Z) : ascii :=
  ascii_of_N (Z.to_N (if d <? 10 then 48 + d else 87 + d)).

Definition isHextet (h : Z) : Prop := 0 <= h <= 65535.

(** Eight groups of four hexadecimal digits. *)
Definition fullForm (hs : list Z) : string := join ":" (map hex4 hs).

(** A string that is the four digits of a hextet. *)
Definition hex4Form (s : string) : Prop := exists h, isHextet h /\ s = hex4 h.

(** The number that hextets stand for, the most significant first. *)
Definition hextetsValue (hs : list Z) : Z :=
  fold_left (fun acc h => acc * 65536 + h) hs 0.

(** The [n] hextets of a number below [65536 ^ n], the least significant
    last. *)
Fixpoint hextetsOfValue (n : nat) (v : Z) : list Z :=
  match n with
  | O => []
  | S n' => hextetsOfValue n' (v / 65536) ++ [v mod 65536]
  end.

(** The hextet of a netmask that has [q] one bits left for it, and the
    hextets of a netmask of [p] one bits. *)
Definition hextetMask (q : Z) : Z := 65536 - 2 ^ (16 - Z.max 0 (Z.min q 16)).

Fixpoint maskHextets (n : nat) (p : Z) : list Z :=
  match n with
  | O => []
  | S n' => hextetMask p :: maskHextets n' (p - 16)
  end.

(** The text of an IPv6 test address: full form and prefix length. *)
Definition cidrText6 (xs : list Z) (p : Z) : string :=
  fullForm xs +:+ "/" +:+ toString p.

(** The last address of an IPv6 test token, whose first is the address
    itself: the end of the subnet of its prefix length when the address is
    the network address of that subnet, the address otherwise. *)
Definition tokenLast6 (xs : list Z) (p : Z) : Z :=
  if hextetsValue xs mod 2 ^ (128 - p) =? 0
  then hextetsValue xs + 2 ^ (128 - p) - 1
  else hextetsValue xs.

(** The first address of the subnet of prefix length [q] around an address. *)
Definition segmentFirst6 (a : list Z) (q : Z) : Z :=
  hextetsValue a - hextetsValue a mod 2 ^ (128 - q).

(** * Part II: lemmas and theorems *)

(** ** Decimal digit strings and the numeric conversion *)

Lemma isDigitIn_10_range c :
  isDigitIn 10 c = true -> 48 <= Z.of_N (N_of_ascii c) <= 57.
Proof.
  unfold isDigitIn, digitValue. intros H.
  destruct ((48 <=? Z.of_N (N_of_ascii c)) && (Z.of_N (N_of_ascii c) <=? 57)) eqn:E.
  - apply andb_prop in E. lia.
  - destruct ((97 <=? Z.of_N (N_of_ascii c)) && (Z.of_N (N_of_ascii c) <=? 122)) eqn:E1.
    + apply andb_prop in E1. apply Z.ltb_lt in H. lia.
    + destruct ((65 <=? Z.of_N (N_of_ascii c)) && (Z.of_N (N_of_ascii c) <=? 90)) eqn:E2.
      * apply andb_prop in E2. apply Z.ltb_lt in H. lia.
      * discriminate.
Qed.

Lemma readDecimal_allDigits s : forall v n,
  allDigits s = true -> 0 <= v ->
  exists w, readDecimal v n s = (w, n + Z.of_nat (String.length s), "")
            /\ v * 10 ^ Z.of_nat (String.length s) <= w
               < (v + 1) * 10 ^ Z.of_nat (String.length s).
Proof.
  induction s as [|c s IH]; intros v n Hall Hv; simpl in *.
  - exists v. split; [f_equal; f_equal; lia | lia].
  - apply andb_prop in Hall as [Hc Hs]. rewrite Hc.
    pose proof (isDigitIn_10_range c Hc) as Hr.
    destruct (IH (v * 10 + (Z.of_N (N_of_ascii c) - 48)) (n + 1) Hs ltac:(lia))
      as (w & Hw & Hb).
    exists w. split.
    + rewrite Hw. f_equal. f_equal. lia.
    + replace (Z.of_nat (S (String.length s))) with (Z.of_nat (String.length s) + 1) by lia.
      rewrite Z.pow_add_r by lia.
      assert (0 < 10 ^ Z.of_nat (String.length s)) by (apply Z.pow_pos_nonneg; lia).
      nia.
Qed.

(** Facts about a single digit character, by enumeration of the characters. *)
Lemma digit_char_facts c :
  isDigitIn 10 c = true ->
  isWhiteSpace c = false
  /\ c <> "-"%char /\ c <> "+"%char /\ c <> "I"%char
  /\ Ascii.eqb c "x" = false /\ Ascii.eqb c "X" = false
  /\ Ascii.eqb c "o" = false /\ Ascii.eqb c "O" = false
  /\ Ascii.eqb c "b" = false /\ Ascii.eqb c "B" = false.
Proof.
  destruct c as [[] [] [] [] [] [] [] []]; vm_compute; intros H;
    try discriminate H; repeat split; congruence.
Qed.

Lemma trimEnd_allDigits s : allDigits s = true -> trimEnd s = s.
Proof.
  induction s as [|c s IH]; simpl; [reflexivity|].
  intros H. apply andb_prop in H as [Hc Hs]. rewrite (IH Hs).
  destruct (digit_char_facts c Hc) as (Hw & _).
  destruct s; [rewrite Hw|]; reflexivity.
Qed.

Lemma trim_allDigits s : allDigits s = true -> trim s = s.
Proof.
  intros H. unfold trim.
  assert (trimStart s = s) as ->.
  { destruct s as [|c s]; simpl in *; [reflexivity|].
    apply andb_prop in H as [Hc _].
    destruct (digit_char_facts c Hc) as (Hw & _). now rewrite Hw. }
  now apply trimEnd_allDigits.
Qed.

Lemma numberIsInteger_short_digits s :
  allDigits s = true ->
  (1 <= String.length s <= 15)%nat ->
  numberIsIntegerOfString s = true.
Proof.
  intros Hall Hlen. unfold numberIsIntegerOfString.
  rewrite (trim_allDigits s Hall).
  destruct s as [|c s]; [simpl in Hlen; lia|].
  pose proof Hall as Hall'. simpl in Hall'. apply andb_prop in Hall' as [Hc Hs].
  destruct (digit_char_facts c Hc)
    as (_ & Hm & Hp & HI & Hx & HX & Ho & HO & Hb & HB).
  assert (String.eqb (String c s) "" = false) as -> by reflexivity.
  assert (nonDecimalPrefix (String c s) = None) as ->.
  { unfold nonDecimalPrefix.
    destruct c as [[] [] [] [] [] [] [] []]; try reflexivity.
    destruct s as [|c' s']; [reflexivity|].
    simpl in Hs. apply andb_prop in Hs as [Hc' _].
    destruct (digit_char_facts c' Hc')
      as (_ & _ & _ & _ & Hx' & HX' & Ho' & HO' & Hb' & HB').
    now rewrite Hx', HX', Ho', HO', Hb', HB'. }
  assert (stripSign (String c s) = (false, String c s)) as ->.
  { unfold stripSign.
    destruct c as [[] [] [] [] [] [] [] []]; try reflexivity; congruence. }
  cbn [snd]. unfold decimalLiteralIsInteger.
  assert (String.eqb (String c s) "Infinity" = false) as ->.
  { apply String.eqb_neq. intros E. inversion E. congruence. }
  destruct (readDecimal_allDigits (String c s) 0 0 Hall ltac:(lia)) as (w & Hw & Hb2).
  rewrite Hw. cbn [readExponent].
  assert ((0 + Z.of_nat (String.length (String c s)) =? 0) = false) as ->
    by (apply Z.eqb_neq; lia).
  cbn [andb]. unfold decimalIsInteger.
  replace (w * 10 ^ 0 + 0) with w by lia.
  destruct (w =? 0) eqn:Ew; [reflexivity|].
  replace (0 - 0) with 0 by lia. cbn [Z.leb Z.compare].
  replace (w * 10 ^ 0) with w by lia.
  unfold roundInt.
  assert ((Z.abs w <? 2 ^ 53) = true) as ->; [|reflexivity].
  apply Z.ltb_lt.
  assert (10 ^ Z.of_nat (String.length (String c s)) <= 10 ^ 15)
    by (apply Z.pow_le_mono_r; lia).
  assert (10 ^ 15 < 2 ^ 53) by (vm_compute; reflexivity).
  lia.
Qed.

(** ** The protocol class of a service value *)

Lemma getProtocolTypeBitsOfArray_single v :
  getProtocolTypeBitsOfArray [v] = getProtocolTypeBit (leadingProtocolToken v).
Proof. reflexivity. Qed.

(** The mask of an array is the bitwise OR of what its values contribute. *)
Lemma getProtocolTypeBitsOfArray_snoc l v :
  getProtocolTypeBitsOfArray (l ++ [v]) =
  Z.lor (getProtocolTypeBitsOfArray l) (getProtocolTypeBit (leadingProtocolToken v)).
Proof. unfold getProtocolTypeBitsOfArray. now rewrite fold_left_app. Qed.

Lemma isClassifiedNumber_false t :
  isClassifiedNumber t = false ->
  isIcmpProtocol t = false /\ isIcmp6Protocol t = false /\ isTcpProtocol t = false
  /\ isUdpProtocol t = false /\ isSctpProtocol t = false.
Proof.
  unfold isClassifiedNumber. intros H.
  repeat (apply orb_false_elim in H as [H ?]). auto.
Qed.

(** C4, the claim as stated fails: the leading token [undefined] contributes
    no class bit at all, not the UNSUPPORTED bit. *)
Lemma undefined_token_has_no_class :
  getProtocolTypeBitsOfArray ["undefined;-"] = PROTOCOL_TYPE_BIT_NONE
  /\ getProtocolTypeBitsOfArray ["undefined;-"] <> PROTOCOL_TYPE_BIT_UNSUPPORTED.
Proof. split; [reflexivity | discriminate]. Qed.

(** C4, amended: the class bit a service value contributes through its
    leading protocol token is ICMP for [1] and [58], TCP/UDP/SCTP for [6],
    [17] and [132], IP for [ip] and for every other token the numeric
    conversion reads as an integer (every other string of up to fifteen
    decimal digits in particular), none for [undefined], and UNSUPPORTED for
    every remaining token. *)
Theorem protocol_class_of_leading_token (v : string) :
  let t := leadingProtocolToken v in
  let bit := getProtocolTypeBitsOfArray [v] in
  (t = "1" \/ t = "58" -> bit = PROTOCOL_TYPE_BIT_ICMP_ICMP6)
  /\ (t = "6" \/ t = "17" \/ t = "132" -> bit = PROTOCOL_TYPE_BIT_TCP_UDP_SCTP)
  /\ (t = "ip" -> bit = PROTOCOL_TYPE_BIT_IP)
  /\ (isClassifiedNumber t = false -> numberIsIntegerOfString t = true ->
      bit = PROTOCOL_TYPE_BIT_IP)
  /\ (isClassifiedNumber t = false -> allDigits t = true ->
      (1 <= String.length t <= 15)%nat -> bit = PROTOCOL_TYPE_BIT_IP)
  /\ (t = "undefined" -> bit = PROTOCOL_TYPE_BIT_NONE)
  /\ (isClassifiedNumber t = false -> t <> "ip" ->
      numberIsIntegerOfString t = false -> t <> "undefined" ->
      bit = PROTOCOL_TYPE_BIT_UNSUPPORTED).
Proof.
  intros t bit. subst bit. rewrite getProtocolTypeBitsOfArray_single. fold t.
  assert (Hint : isClassifiedNumber t = false -> numberIsIntegerOfString t = true ->
                 getProtocolTypeBit t = PROTOCOL_TYPE_BIT_IP).
  { intros Hc Hn. destruct (isClassifiedNumber_false t Hc) as (H1 & H2 & H3 & H4 & H5).
    unfold getProtocolTypeBit. rewrite H1, H2, H3, H4, H5, Hn.
    now destruct (isIpProtocol t). }
  repeat split.
  - now intros [-> | ->].
  - now intros [-> | [-> | ->]].
  - now intros ->.
  - exact Hint.
  - intros Hc Hd Hl. apply Hint; [exact Hc|]. now apply numberIsInteger_short_digits.
  - now intros ->.
  - intros Hc Hip Hn Hu. destruct (isClassifiedNumber_false t Hc) as (H1 & H2 & H3 & H4 & H5).
    unfold getProtocolTypeBit. rewrite H1, H2, H3, H4, H5, Hn.
    assert (isIpProtocol t = false) as -> by (now apply String.eqb_neq).
    assert (String.eqb t "undefined" = false) as -> by (now apply String.eqb_neq).
    reflexivity.
Qed.

Lemma protocol_class_of_leading_token_witness :
  getProtocolTypeBitsOfArray ["58/any/any;-"] = PROTOCOL_TYPE_BIT_ICMP_ICMP6
  /\ getProtocolTypeBitsOfArray ["17/eq/any/eq/123;0/0"] = PROTOCOL_TYPE_BIT_TCP_UDP_SCTP
  /\ getProtocolTypeBitsOfArray ["ip;-"] = PROTOCOL_TYPE_BIT_IP
  /\ getProtocolTypeBitsOfArray ["0x59;-"] = PROTOCOL_TYPE_BIT_IP
  /\ getProtocolTypeBitsOfArray ["89;-"] = PROTOCOL_TYPE_BIT_IP
  /\ getProtocolTypeBitsOfArray ["undefined;-"] = PROTOCOL_TYPE_BIT_NONE
  /\ getProtocolTypeBitsOfArray ["UNKNOWN;UNKNOWN"] = PROTOCOL_TYPE_BIT_UNSUPPORTED.
Proof.
  split.
  { destruct (protocol_class_of_leading_token "58/any/any;-") as (H & _).
    apply H. right. reflexivity. }
  split.
  { destruct (protocol_class_of_leading_token "17/eq/any/eq/123;0/0") as (_ & H & _).
    apply H. right. left. reflexivity. }
  split.
  { destruct (protocol_class_of_leading_token "ip;-") as (_ & _ & H & _).
    apply H. reflexivity. }
  split.
  { destruct (protocol_class_of_leading_token "0x59;-") as (_ & _ & _ & H & _).
    apply H; reflexivity. }
  split.
  { destruct (protocol_class_of_leading_token "89;-") as (_ & _ & _ & _ & H & _).
    apply H; [reflexivity | reflexivity |]. simpl. lia. }
  split.
  { destruct (protocol_class_of_leading_token "undefined;-")
      as (_ & _ & _ & _ & _ & H & _).
    apply H. reflexivity. }
  destruct (protocol_class_of_leading_token "UNKNOWN;UNKNOWN")
    as (_ & _ & _ & _ & _ & _ & H).
  apply H; [reflexivity | discriminate | reflexivity | discriminate].
Defined.

(** ** Policy expansion *)

Lemma flat_map_length_const {A B : Type} (f : A -> list B) (n : nat) (l : list A) :
  (forall x, length (f x) = n) ->
  length (flat_map f l) = (length l * n)%nat.
Proof.
  intros Hf. induction l as [|a l IH]; simpl; [reflexivity|].
  rewrite length_app, Hf, IH. reflexivity.
Qed.

(** C7: the number of rows of a policy is the product of the lengths of its
    five member arrays (four for a multicast policy), each array holding the
    pieces of the field between the quote-space-quote separators after the
    outer quotes are stripped. *)
Theorem expansion_row_count
    (objFirewallServiceCustom objFirewallServiceGroup : gmap string serviceEntry)
    (strDomainName strPolicyType strPolicyID : string) (intOrderNumber : Z)
    (objParam : policyParam) (objMulticastParam : multicastPolicyParam) :
  length (normalizeFirewallPolicy objFirewallServiceCustom objFirewallServiceGroup
            strDomainName strPolicyType strPolicyID intOrderNumber objParam)
  = (length (memberArray (srcintf objParam))
     * length (memberArray (dstintf objParam))
     * length (memberArray (srcaddr objParam))
     * length (memberArray (dstaddr objParam))
     * length (memberArray (service objParam)))%nat
  /\ length (normalizeFirewallMulticastPolicy strDomainName strPolicyType
               strPolicyID intOrderNumber objMulticastParam)
     = (length (memberArray (m_srcintf objMulticastParam))
        * length (memberArray (m_dstintf objMulticastParam))
        * length (memberArray (m_srcaddr objMulticastParam))
        * length (memberArray (m_dstaddr objMulticastParam)))%nat
  /\ (forall field : string, field <> "" ->
        memberArray field = split (trimString field dquote) memberSeparator).
Proof.
  split; [|split].
  - unfold normalizeFirewallPolicy.
    set (n5 := length (memberArray (service objParam))).
    set (n4 := length (memberArray (dstaddr objParam))).
    set (n3 := length (memberArray (srcaddr objParam))).
    set (n2 := length (memberArray (dstintf objParam))).
    rewrite (flat_map_length_const _ (n2 * (n3 * (n4 * n5)))%nat); [lia|].
    intros x1. fold n2.
    rewrite (flat_map_length_const _ (n3 * (n4 * n5))%nat); [reflexivity|].
    intros x2. fold n3.
    rewrite (flat_map_length_const _ (n4 * n5)%nat); [reflexivity|].
    intros x3. fold n4.
    rewrite (flat_map_length_const _ n5); [reflexivity|].
    intros x4. now rewrite length_map.
  - unfold normalizeFirewallMulticastPolicy.
    destruct (if isIcmpProtocol (m_protocol objMulticastParam)
                 || isIcmp6Protocol (m_protocol objMulticastParam) then _ else _)
      as [[[[strProtocol strSrcPort] strDstPort] strTypeCode] strServiceDstAddr].
    set (n4 := length (memberArray (m_dstaddr objMulticastParam))).
    set (n3 := length (memberArray (m_srcaddr objMulticastParam))).
    set (n2 := length (memberArray (m_dstintf objMulticastParam))).
    rewrite (flat_map_length_const _ (n2 * (n3 * n4))%nat); [lia|].
    intros x1.
    rewrite (flat_map_length_const _ (n3 * n4)%nat); [reflexivity|].
    intros x2.
    rewrite (flat_map_length_const _ n4); [reflexivity|].
    intros x3. now rewrite length_map.
  - intros field Hne. unfold memberArray.
    assert (String.eqb field "" = false) as -> by (now apply String.eqb_neq).
    reflexivity.
Qed.

Lemma expansion_row_count_witness :
  length (normalizeFirewallPolicy ∅ ∅ "" "4to4" "7" 1 Examples.policy) = 12%nat
  /\ length (normalizeFirewallMulticastPolicy "" "4to4m" "8" 1 Examples.multicastPolicy)
     = 12%nat
  /\ memberArray (service Examples.policy) = ["HTTP"; "DNS"; "PING"].
Proof.
  destruct (expansion_row_count ∅ ∅ "" "4to4" "7" 1
              Examples.policy Examples.multicastPolicy) as (H1 & _).
  destruct (expansion_row_count ∅ ∅ "" "4to4m" "8" 1
              Examples.policy Examples.multicastPolicy) as (_ & H2 & H3).
  split; [|split].
  - rewrite H1. reflexivity.
  - rewrite H2. reflexivity.
  - rewrite H3; [reflexivity | discriminate].
Defined.

(** ** The containment oracle *)

(** C2, the claim as stated fails: the query is the IPv4 [all], the stored
    value a well-formed IPv4 subnet, the flag is off, and the verdict is
    false rather than the negation of the flag. *)
Lemma all_query_is_not_within_subnet :
  isWithin "192.168.0.0/24" IPV4_ALL LOOKUP_ADDRESS_TYPE_IPV4 false false = false
  /\ isWithin "192.168.0.0/24" IPV4_ALL LOOKUP_ADDRESS_TYPE_IPV4 false false
     <> negb false.
Proof. split; [vm_compute; reflexivity | vm_compute; discriminate]. Qed.

(** C2, amended: the fast path is on the stored value.  When the query is
    classified IPv4 and the stored token is [0.0.0.0/0], or the query is
    classified IPv6 and the stored token is the all-zero [/0], [isWithin]
    returns the negation of the flag whatever the query is. *)
Theorem isWithin_stored_all (strLookupAddr : string)
    (boolNegate boolFqdnAndGeoMatchAll : bool) :
  isWithin IPV4_ALL strLookupAddr LOOKUP_ADDRESS_TYPE_IPV4
    boolNegate boolFqdnAndGeoMatchAll = negb boolNegate
  /\ isWithin IPV6_ALL strLookupAddr LOOKUP_ADDRESS_TYPE_IPV6
       boolNegate boolFqdnAndGeoMatchAll = negb boolNegate.
Proof. split; reflexivity. Qed.

(** ** Negation flags in the lookup *)

(** Whatever the negate columns hold other than [enable], the lookup tests
    the row without negation. *)
Lemma matchRow_negate_columns strSrcAddr strSrcFullAddr intSrcAddrType
    strDstAddr strDstFullAddr intDstAddrType boolFqdnAndGeoMatchAll
    (l1 l2 : list string) (sa da sv : string) :
  length l1 = NMCOL_SRCADDR_NEGATE ->
  sa <> "enable" -> da <> "enable" -> sv <> "enable" ->
  matchRow strSrcAddr strSrcFullAddr intSrcAddrType strDstAddr strDstFullAddr
    intDstAddrType boolFqdnAndGeoMatchAll (l1 ++ sa :: da :: sv :: l2)
  = matchRow strSrcAddr strSrcFullAddr intSrcAddrType strDstAddr strDstFullAddr
      intDstAddrType boolFqdnAndGeoMatchAll (l1 ++ "false" :: "false" :: "false" :: l2).
Proof.
  intros Hlen Hsa Hda Hsv. unfold NMCOL_SRCADDR_NEGATE in Hlen.
  do 15 (destruct l1 as [|? l1]; [discriminate Hlen|]).
  destruct l1; [|discriminate Hlen].
  unfold matchRow, column, NMCOL_SRCADDR_NEGATE, NMCOL_DSTADDR_NEGATE,
    NMCOL_SERVICE_NEGATE, NMCOL_SERVICE_DSTADDR, NMCOL_SRC_ADDR, NMCOL_DST_ADDR.
  cbn [app nth].
  apply String.eqb_neq in Hsa, Hda, Hsv. rewrite Hsa, Hda, Hsv.
  reflexivity.
Qed.

(** C1, the code at the failing input: the policy has
    [set srcaddr-negate enable], its row holds [true] in the SA_NEGATE
    column, and a source lookup of a host inside the source address reports
    the row, in both views, although the negated verdict is a non-match. *)
Theorem negate_flag_not_applied :
  let rows := FirewallPolicy4to4_end ∅ ∅ "" "1" 1 Examples.negatedPolicy [] in
  rows = [",port1,port2,4to4,1,,1,accept,ALL,10.0.0.0/8,ALL,0.0.0.0/0,ALL,ALL,ALL,true,false,false,enable,-,always,"]
  /\ lookUpAddrList rows "10.1.1.1" false
     = (["from_10.1.1.1/32,,port1,port2,4to4,1,,1,accept,ALL,10.0.0.0/8,ALL,0.0.0.0/0,ALL,ALL,ALL,true,false,false,enable,-,always,"],
        ["from_10.1.1.1/32,,port1,port2,4to4,1,,1,accept,ALL,10.0.0.0/8,ALL,0.0.0.0/0,ALL,ALL,ALL,true,false,false,enable,-,always,"])
  /\ isWithin "10.0.0.0/8" "10.1.1.1/32" LOOKUP_ADDRESS_TYPE_IPV4 true false = false
  /\ isWithin "10.0.0.0/8" "10.1.1.1/32" LOOKUP_ADDRESS_TYPE_IPV4 false false = true.
Proof. vm_compute. repeat split. Qed.

(** ** The two views of a lookup *)

Lemma sublist_map {A B : Type} (f : A -> B) (l k : list A) :
  l `sublist_of` k -> map f l `sublist_of` map f k.
Proof. induction 1; simpl; now constructor. Qed.

Section LookupViewProperties.

Variables (strSrcAddr strSrcFullAddr : string) (intSrcAddrType : lookupAddressType).
Variables (strDstAddr strDstFullAddr : string) (intDstAddrType : lookupAddressType).
Variable boolFqdnAndGeoMatchAll : bool.

Local Abbreviation lookUpRow' :=
  (lookUpRow strSrcAddr strSrcFullAddr intSrcAddrType
     strDstAddr strDstFullAddr intDstAddrType boolFqdnAndGeoMatchAll).
Local Abbreviation lookUpRows' :=
  (lookUpRows strSrcAddr strSrcFullAddr intSrcAddrType
     strDstAddr strDstFullAddr intDstAddrType boolFqdnAndGeoMatchAll).
Local Abbreviation matchRow' :=
  (matchRow strSrcAddr strSrcFullAddr intSrcAddrType
     strDstAddr strDstFullAddr intDstAddrType boolFqdnAndGeoMatchAll).
Local Abbreviation rowIsMatched' :=
  (rowIsMatched strSrcAddr strSrcFullAddr intSrcAddrType
     strDstAddr strDstFullAddr intDstAddrType boolFqdnAndGeoMatchAll).
Local Abbreviation rowMarksKey' :=
  (rowMarksKey strSrcAddr strSrcFullAddr intSrcAddrType
     strDstAddr strDstFullAddr intDstAddrType boolFqdnAndGeoMatchAll).
Local Abbreviation outputLine' :=
  (outputLine strSrcAddr strSrcFullAddr intSrcAddrType
     strDstAddr strDstFullAddr intDstAddrType boolFqdnAndGeoMatchAll).
Local Abbreviation isCatchAllDeny' := (isCatchAllDeny intSrcAddrType intDstAddrType).
Local Abbreviation keptRows' :=
  (keptRows strSrcAddr strSrcFullAddr intSrcAddrType
     strDstAddr strDstFullAddr intDstAddrType boolFqdnAndGeoMatchAll).

(** One step of the loop, in terms of the row predicates. *)
Lemma lookUpRow_unmatched st strLine :
  rowIsMatched' strLine = false -> lookUpRow' st strLine = st.
Proof.
  unfold rowIsMatched, lookUpRow. intros H.
  destruct (skipsRow _ _ _); [reflexivity|].
  destruct (matchRow' _) as [[[a b] c] col]. simpl in H. now rewrite H.
Qed.

Lemma lookUpRow_matched st strLine :
  rowIsMatched' strLine = true ->
  let obj := if rowMarksKey' strLine
             then {[ rowKey strLine ]} ∪ stIneffectual st else stIneffectual st in
  lookUpRow' st strLine =
  mkLookupState obj
    (stResult st ++ [outputLine' strLine])
    (if rowIsEnabled strLine && negb (truthyKey obj (rowKey strLine))
     then stResultWithoutIneffectual st ++ [outputLine' strLine]
     else stResultWithoutIneffectual st).
Proof.
  unfold rowIsMatched, lookUpRow, rowMarksKey, outputLine, rowKey, rowIsEnabled.
  intros H.
  destruct (skipsRow _ _ _); [discriminate H|].
  destruct (matchRow' _) as [[[a b] c] col]. simpl in H. rewrite H. reflexivity.
Qed.

Lemma lookUpRows_cons r rows st :
  lookUpRows' (r :: rows) st = lookUpRows' rows (lookUpRow' st r).
Proof. reflexivity. Qed.

Lemma lookUpRows_ineffectual rows : forall st,
  stIneffectual st ⊆ stIneffectual (lookUpRows' rows st).
Proof.
  induction rows as [|r rows IH]; intros st; [set_solver|].
  rewrite lookUpRows_cons. etransitivity; [|apply IH].
  destruct (rowIsMatched' r) eqn:E.
  - rewrite (lookUpRow_matched st r E). simpl.
    destruct (rowMarksKey' r); set_solver.
  - now rewrite (lookUpRow_unmatched st r E).
Qed.

(** The all-matches view receives the line of every matched row. *)
Lemma lookUpRows_result rows : forall st,
  stResult (lookUpRows' rows st)
  = (stResult st ++ map outputLine' (filter (fun r => rowIsMatched' r = true) rows))%list.
Proof.
  induction rows as [|r rows IH]; intros st.
  - simpl. now rewrite app_nil_r.
  - rewrite lookUpRows_cons, IH, filter_cons.
    destruct (rowIsMatched' r) eqn:E.
    + rewrite (lookUpRow_matched st r E). simpl. now rewrite <- app_assoc.
    + now rewrite (lookUpRow_unmatched st r E).
Qed.

(** The without-ineffectual view receives the lines of the kept rows. *)
Lemma lookUpRows_without rows : forall st,
  stResultWithoutIneffectual (lookUpRows' rows st)
  = (stResultWithoutIneffectual st
     ++ map outputLine' (keptRows' (stIneffectual st) rows))%list.
Proof.
  induction rows as [|r rows IH]; intros st.
  - simpl. now rewrite app_nil_r.
  - rewrite lookUpRows_cons, IH. cbn [keptRows].
    destruct (rowIsMatched' r) eqn:E.
    + rewrite (lookUpRow_matched st r E). simpl.
      destruct (rowIsEnabled r && negb (truthyKey _ (rowKey r))); simpl;
        [now rewrite <- app_assoc | reflexivity].
    + now rewrite (lookUpRow_unmatched st r E).
Qed.

Lemma truthyKey_union (K key : string) (obj : gset string) :
  truthyKey ({[ K ]} ∪ obj) key = String.eqb key K || truthyKey obj key.
Proof.
  unfold truthyKey.
  destruct (String.eqb key K) eqn:E.
  - apply String.eqb_eq in E. subst.
    rewrite bool_decide_eq_true_2 by set_solver. reflexivity.
  - apply String.eqb_neq in E.
    destruct (bool_decide (key ∈ obj)) eqn:E1.
    + apply bool_decide_eq_true_1 in E1.
      rewrite bool_decide_eq_true_2 by set_solver. reflexivity.
    + apply bool_decide_eq_false_1 in E1.
      rewrite bool_decide_eq_false_2 by set_solver. reflexivity.
Qed.

(** Marking one more key removes exactly the rows of that key from the kept
    rows. *)
Lemma keptRows_marked (K : string) rows : forall obj,
  keptRows' ({[ K ]} ∪ obj) rows
  = filter (fun r => rowKey r <> K) (keptRows' obj rows).
Proof.
  induction rows as [|r rows IH]; intros obj; simpl; [reflexivity|].
  destruct (rowIsMatched' r); [|apply IH].
  set (obj' := if rowMarksKey' r then {[ rowKey r ]} ∪ obj else obj).
  assert (Hobj : (if rowMarksKey' r then {[ rowKey r ]} ∪ ({[ K ]} ∪ obj)
                  else {[ K ]} ∪ obj) = {[ K ]} ∪ obj').
  { subst obj'. destruct (rowMarksKey' r); [|reflexivity]. set_solver. }
  rewrite Hobj, truthyKey_union, IH.
  destruct (rowIsEnabled r); simpl; [|reflexivity].
  destruct (String.eqb (rowKey r) K) eqn:EK; simpl.
  - apply String.eqb_eq in EK.
    destruct (truthyKey obj' (rowKey r)); simpl; [reflexivity|].
    rewrite filter_cons, decide_False by (intros H; now apply H). reflexivity.
  - apply String.eqb_neq in EK.
    destruct (truthyKey obj' (rowKey r)); simpl; [reflexivity|].
    now rewrite filter_cons, decide_True.
Qed.

Lemma keptRows_sublist rows : forall obj,
  keptRows' obj rows `sublist_of` filter (fun r => rowIsMatched' r = true) rows.
Proof.
  induction rows as [|r rows IH]; intros obj; [constructor|].
  cbn [keptRows]. rewrite filter_cons.
  destruct (rowIsMatched' r) eqn:E; simpl.
  - destruct (rowIsEnabled r && negb (truthyKey _ (rowKey r))).
    + apply sublist_skip, IH.
    + apply sublist_cons, IH.
  - apply IH.
Qed.

Lemma lookUpRows_sublist rows st :
  stResultWithoutIneffectual st `sublist_of` stResult st ->
  stResultWithoutIneffectual (lookUpRows' rows st)
    `sublist_of` stResult (lookUpRows' rows st).
Proof.
  intros H. rewrite lookUpRows_result, lookUpRows_without.
  apply sublist_app; [exact H|].
  apply sublist_map, keptRows_sublist.
Qed.

(** A matched row marks its key exactly when it is a catch-all deny row of
    the lookup: the match flags the test reads are those of a lookup with a
    source address. *)
Lemma rowMarksKey_trigger (strLine : string) :
  rowIsMatched' strLine = true ->
  rowMarksKey' strLine = isCatchAllDeny' strLine.
Proof.
  unfold rowIsMatched, rowMarksKey, isCatchAllDeny, isDstOnlyLookup, isEnabledIpDeny,
    isCatchAll, isDstCatchAll, marksIneffectual, matchRow.
  intros H. apply andb_prop in H as [_ H]. revert H. cbv zeta.
  set (deny := String.eqb _ "deny" && String.eqb _ "enable" && String.eqb _ "ip").
  destruct (isUnknown intSrcAddrType), (isUnknown intDstAddrType);
    cbn [negb andb orb]; rewrite ?orb_false_r; intros H;
    try rewrite H; cbn [negb andb orb]; rewrite ?orb_false_r, ?orb_assoc;
    reflexivity.
Qed.

(** C3, amended: when a matched catch-all deny row (ACTION [deny], STATUS
    [enable], PROT [ip]; source and destination the all address of the
    family of its policy type, or, unless the lookup has a destination
    address only, the destination alone) is read under key [K], the key is
    marked; the all-matches view receives the line of the row and of every
    later matched row; the without-ineffectual view does not receive the
    line of the row itself and receives, of the later rows, those it would
    have received without the mark on [K] (matched rows with STATUS
    [enable] whose own key is not marked) except the rows whose key is [K]:
    all later rows of key [K] are excluded and the rows of every other key
    are unaffected. *)
Theorem ineffectual_scope (st : lookupState) (strDeny : string)
    (later : list string) :
  rowIsMatched' strDeny = true ->
  isCatchAllDeny' strDeny = true ->
  let K := rowKey strDeny in
  let st1 := lookUpRow' st strDeny in
  let final := lookUpRows' later st1 in
  K ∈ stIneffectual st1
  /\ stResultWithoutIneffectual st1 = stResultWithoutIneffectual st
  /\ stResult final
     = (stResult st
        ++ map outputLine'
             (strDeny :: filter (fun r => rowIsMatched' r = true) later))%list
  /\ stResultWithoutIneffectual final
     = (stResultWithoutIneffectual st
        ++ map outputLine'
             (filter (fun r => rowKey r <> K)
                (keptRows' (stIneffectual st) later)))%list
  /\ (forall r, r ∈ keptRows' (stIneffectual st1) later -> rowKey r <> K).
Proof.
  intros Hm Hd K st1 final.
  assert (Hk : rowMarksKey' strDeny = true)
    by (rewrite (rowMarksKey_trigger strDeny Hm); exact Hd).
  assert (Hst1 : stIneffectual st1 = {[ K ]} ∪ stIneffectual st).
  { subst st1. rewrite (lookUpRow_matched st strDeny Hm). simpl. now rewrite Hk. }
  assert (Hown : stResultWithoutIneffectual st1 = stResultWithoutIneffectual st).
  { subst st1. rewrite (lookUpRow_matched st strDeny Hm). simpl. rewrite Hk.
    fold K. rewrite truthyKey_union, String.eqb_refl. cbn [orb negb].
    now rewrite andb_false_r. }
  split; [rewrite Hst1; set_solver|]. split; [exact Hown|]. split; [|split].
  - subst final. rewrite lookUpRows_result. subst st1.
    rewrite (lookUpRow_matched st strDeny Hm). simpl. now rewrite <- app_assoc.
  - subst final. rewrite lookUpRows_without, Hown, Hst1, keptRows_marked. reflexivity.
  - intros r Hr. rewrite Hst1, keptRows_marked in Hr.
    apply list_elem_of_filter in Hr. tauto.
Qed.

End LookupViewProperties.

Lemma ineffectual_scope_witness :
  let run :=
    lookUpRows "10.1.1.1/32" "10.1.1.1/32" LOOKUP_ADDRESS_TYPE_IPV4
      "" "" LOOKUP_ADDRESS_TYPE_UNKNOWN false
      [Examples.acceptAB; Examples.acceptCDdisabled; Examples.acceptAnyAny]
      (lookUpRow "10.1.1.1/32" "10.1.1.1/32" LOOKUP_ADDRESS_TYPE_IPV4
         "" "" LOOKUP_ADDRESS_TYPE_UNKNOWN false
         (mkLookupState ∅ [] []) Examples.denyAll) in
  let runToAny :=
    lookUpRows "10.1.1.1/32" "10.1.1.1/32" LOOKUP_ADDRESS_TYPE_IPV4
      "" "" LOOKUP_ADDRESS_TYPE_UNKNOWN false
      [Examples.acceptAB; Examples.acceptAnyAny]
      (lookUpRow "10.1.1.1/32" "10.1.1.1/32" LOOKUP_ADDRESS_TYPE_IPV4
         "" "" LOOKUP_ADDRESS_TYPE_UNKNOWN false
         (mkLookupState ∅ [] []) Examples.denyToAny) in
  rowIsMatched "10.1.1.1/32" "10.1.1.1/32" LOOKUP_ADDRESS_TYPE_IPV4
    "" "" LOOKUP_ADDRESS_TYPE_UNKNOWN false Examples.denyAll = true
  /\ isCatchAllDeny LOOKUP_ADDRESS_TYPE_IPV4 LOOKUP_ADDRESS_TYPE_UNKNOWN
       Examples.denyAll = true
  /\ length (stResult run) = 4%nat
  /\ stResultWithoutIneffectual run = ["from_10.1.1.1/32," +:+ Examples.acceptAB]
  /\ rowIsMatched "10.1.1.1/32" "10.1.1.1/32" LOOKUP_ADDRESS_TYPE_IPV4
       "" "" LOOKUP_ADDRESS_TYPE_UNKNOWN false Examples.denyToAny = true
  /\ isCatchAllDeny LOOKUP_ADDRESS_TYPE_IPV4 LOOKUP_ADDRESS_TYPE_UNKNOWN
       Examples.denyToAny = true
  /\ stResultWithoutIneffectual runToAny = ["from_10.1.1.1/32," +:+ Examples.acceptAB].
Proof.
  intros run runToAny.
  assert (H1 : rowIsMatched "10.1.1.1/32" "10.1.1.1/32" LOOKUP_ADDRESS_TYPE_IPV4
                 "" "" LOOKUP_ADDRESS_TYPE_UNKNOWN false Examples.denyAll = true)
    by (vm_compute; reflexivity).
  assert (H2 : isCatchAllDeny LOOKUP_ADDRESS_TYPE_IPV4 LOOKUP_ADDRESS_TYPE_UNKNOWN
                 Examples.denyAll = true)
    by (vm_compute; reflexivity).
  destruct (ineffectual_scope "10.1.1.1/32" "10.1.1.1/32" LOOKUP_ADDRESS_TYPE_IPV4
              "" "" LOOKUP_ADDRESS_TYPE_UNKNOWN false (mkLookupState ∅ [] [])
              Examples.denyAll
              [Examples.acceptAB; Examples.acceptCDdisabled; Examples.acceptAnyAny]
              H1 H2) as (_ & _ & H3 & H4 & _).
  assert (H5 : rowIsMatched "10.1.1.1/32" "10.1.1.1/32" LOOKUP_ADDRESS_TYPE_IPV4
                 "" "" LOOKUP_ADDRESS_TYPE_UNKNOWN false Examples.denyToAny = true)
    by (vm_compute; reflexivity).
  assert (H6 : isCatchAllDeny LOOKUP_ADDRESS_TYPE_IPV4 LOOKUP_ADDRESS_TYPE_UNKNOWN
                 Examples.denyToAny = true)
    by (vm_compute; reflexivity).
  destruct (ineffectual_scope "10.1.1.1/32" "10.1.1.1/32" LOOKUP_ADDRESS_TYPE_IPV4
              "" "" LOOKUP_ADDRESS_TYPE_UNKNOWN false (mkLookupState ∅ [] [])
              Examples.denyToAny [Examples.acceptAB; Examples.acceptAnyAny]
              H5 H6) as (_ & _ & _ & H7 & _).
  split; [exact H1|]. split; [exact H2|]. split; [|split; [|split; [|split]]].
  - subst run. rewrite H3. vm_compute. reflexivity.
  - subst run. rewrite H4. vm_compute. reflexivity.
  - exact H5.
  - exact H6.
  - subst runToAny. rewrite H7. vm_compute. reflexivity.
Defined.

(** C3, the claim as stated fails in three ways.  After the catch-all deny
    row on [(4to4, any, any)] all three rows are matched by the source
    lookup, yet the without-ineffectual view holds neither the deny row
    itself nor the matched row of the other key [(4to4, c, d)], whose STATUS
    is [disable].  And in a lookup with a destination address only, the deny
    row whose destination is [0.0.0.0/0] is matched and marks nothing: the
    view holds the row and the later matched row of its key. *)
Lemma suppression_differs_from_the_claim :
  lookUpAddrList
    [Examples.denyAll; Examples.acceptAB; Examples.acceptCDdisabled] "10.1.1.1" false
  = (["from_10.1.1.1/32," +:+ Examples.denyAll;
      "from_10.1.1.1/32," +:+ Examples.acceptAB;
      "from_10.1.1.1/32," +:+ Examples.acceptCDdisabled],
     ["from_10.1.1.1/32," +:+ Examples.acceptAB])
  /\ lookUpAddrList [Examples.denyToAny; Examples.acceptAnyAny] ",192.0.2.1" false
     = (["to_192.0.2.1/32," +:+ Examples.denyToAny;
         "to_192.0.2.1/32," +:+ Examples.acceptAnyAny],
        ["to_192.0.2.1/32," +:+ Examples.denyToAny;
         "to_192.0.2.1/32," +:+ Examples.acceptAnyAny]).
Proof. split; vm_compute; reflexivity. Qed.

(** ** The without-ineffectual view is a subsequence of the all-matches view *)

Lemma lookUpAddrInNormalizedPoliciesArray_sublist rows strSrcAddr intSrcAddrType
    strDstAddr intDstAddrType boolFqdnAndGeoMatchAll
    (arrayResult arrayResultWithoutIneffectual : list string) :
  arrayResultWithoutIneffectual `sublist_of` arrayResult ->
  snd (lookUpAddrInNormalizedPoliciesArray rows strSrcAddr intSrcAddrType
         strDstAddr intDstAddrType boolFqdnAndGeoMatchAll
         arrayResult arrayResultWithoutIneffectual)
  `sublist_of`
  fst (lookUpAddrInNormalizedPoliciesArray rows strSrcAddr intSrcAddrType
         strDstAddr intDstAddrType boolFqdnAndGeoMatchAll
         arrayResult arrayResultWithoutIneffectual).
Proof.
  intros H. unfold lookUpAddrInNormalizedPoliciesArray.
  destruct (isIPv6 intSrcAddrType && _); [exact H|].
  destruct (isIPv6 intDstAddrType && _); [exact H|].
  cbn [fst snd]. now apply lookUpRows_sublist.
Qed.

Lemma lookUpLine_sublist rows boolFqdnAndGeoMatchAll
    (results : list string * list string) strText :
  snd results `sublist_of` fst results ->
  snd (lookUpLine rows boolFqdnAndGeoMatchAll results strText)
  `sublist_of` fst (lookUpLine rows boolFqdnAndGeoMatchAll results strText).
Proof.
  intros H. unfold lookUpLine.
  destruct (String.length (trim strText) =? 0)%nat; [exact H|].
  destruct (_ || _); [exact H|].
  destruct (classifyLookupAddr (trim (nth 0 _ ""))) as [t1 a1].
  destruct (_ && isUnknown t1); [exact H|].
  destruct (classifyLookupAddr _) as [t2 a2].
  destruct (_ && isUnknown t2); [exact H|].
  now apply lookUpAddrInNormalizedPoliciesArray_sublist.
Qed.

(** C9: the without-ineffectual result of [lookUpAddrList] is a subsequence
    of its all-matches result: the same lines in the same relative order,
    with some left out. *)
Theorem without_ineffectual_is_subsequence
    (arrayNormalizedPolicyToBeLookedUp : list string)
    (listOfLookUpAddr : string) (boolFqdnAndGeoMatchAll : bool) :
  snd (lookUpAddrList arrayNormalizedPolicyToBeLookedUp listOfLookUpAddr
         boolFqdnAndGeoMatchAll)
  `sublist_of`
  fst (lookUpAddrList arrayNormalizedPolicyToBeLookedUp listOfLookUpAddr
         boolFqdnAndGeoMatchAll).
Proof.
  unfold lookUpAddrList.
  assert (Hgen : forall lines results,
            snd results `sublist_of` fst results ->
            snd (fold_left (lookUpLine arrayNormalizedPolicyToBeLookedUp
                              boolFqdnAndGeoMatchAll) lines results)
            `sublist_of`
            fst (fold_left (lookUpLine arrayNormalizedPolicyToBeLookedUp
                              boolFqdnAndGeoMatchAll) lines results)).
  { induction lines as [|l lines IH]; intros results H; [exact H|].
    simpl. apply IH. now apply lookUpLine_sublist. }
  apply Hgen. constructor.
Qed.

(** ** Strings *)

Lemma string_app_cons (c : ascii) (a b : string) :
  String c a +:+ b = String c (a +:+ b).
Proof. reflexivity. Qed.

Lemma string_app_nil_l (s : string) : "" +:+ s = s.
Proof. reflexivity. Qed.

Lemma string_app_nil_r (s : string) : s +:+ "" = s.
Proof.
  induction s as [|c s IH]; [reflexivity|]. now rewrite string_app_cons, IH.
Qed.

Lemma string_app_assoc (a b c : string) : (a +:+ b) +:+ c = a +:+ (b +:+ c).
Proof.
  induction a as [|x a IH]; [reflexivity|]. now rewrite !string_app_cons, IH.
Qed.

Lemma string_app_length (a b : string) :
  String.length (a +:+ b) = (String.length a + String.length b)%nat.
Proof.
  induction a as [|x a IH]; [reflexivity|].
  rewrite string_app_cons. simpl. now rewrite IH.
Qed.

Lemma string_app_eq_nil (a b : string) : a +:+ b = "" -> a = "" /\ b = "".
Proof. destruct a; [auto|]. rewrite string_app_cons. discriminate. Qed.

(** ** The backtracking matcher decides the language *)

Lemma lang_star_split r s :
  lang (RegExp.Star r) s ->
  s = "" \/ exists a b, a <> "" /\ s = a +:+ b /\ lang r a /\ lang (RegExp.Star r) b.
Proof.
  intros H. remember (RegExp.Star r) as r0 eqn:Er.
  induction H as [| | | | | r' | r' s1 s2 H1 _ H2 IH2]; try discriminate Er.
  - now left.
  - injection Er as ->. destruct s1 as [|c s1].
    + simpl. now apply IH2.
    + right. exists (String c s1), s2. repeat split; [discriminate | assumption..].
Qed.

Lemma lang_eps_inv s : lang RegExp.Eps s -> s = "".
Proof. now inversion 1. Qed.

Lemma lang_class_inv negated ranges s :
  lang (RegExp.Class negated ranges) s ->
  exists c, s = chr c /\ RegExp.inClass negated ranges c = true.
Proof. inversion 1; subst. eauto. Qed.

Lemma lang_cat_inv r1 r2 s :
  lang (RegExp.Cat r1 r2) s ->
  exists s1 s2, s = s1 +:+ s2 /\ lang r1 s1 /\ lang r2 s2.
Proof. inversion 1; subst. eauto. Qed.

Lemma lang_alt_inv r1 r2 s :
  lang (RegExp.Alt r1 r2) s -> lang r1 s \/ lang r2 s.
Proof. inversion 1; subst; auto. Qed.

Theorem matchK_spec (r : RegExp.regex) : forall (s : string) (k : string -> bool),
  RegExp.matchK r s k = true <->
  exists s1 s2, s = s1 +:+ s2 /\ lang r s1 /\ k s2 = true.
Proof.
  induction r as [| negated ranges | r1 IH1 r2 IH2 | r1 IH1 r2 IH2 | r IH];
    intros s k.
  - (* Eps *)
    simpl. split.
    + intros H. exists "", s. repeat split; [constructor | exact H].
    + intros (s1 & s2 & -> & H1 & H2). apply lang_eps_inv in H1 as ->. exact H2.
  - (* Class *)
    simpl. split.
    + destruct s as [|c s]; [discriminate|]. intros H.
      apply andb_prop in H as [Hc Hk].
      exists (chr c), s. repeat split; [now constructor | exact Hk].
    + intros (s1 & s2 & -> & H1 & H2).
      apply lang_class_inv in H1 as (c & -> & Hc).
      change (chr c +:+ s2) with (String c s2). cbn. now rewrite Hc, H2.
  - (* Cat *)
    simpl. rewrite IH1. split.
    + intros (a & rest & -> & Ha & Hk). apply IH2 in Hk as (b & s2 & -> & Hb & Hk).
      exists (a +:+ b), s2. rewrite string_app_assoc.
      repeat split; [now constructor | exact Hk].
    + intros (s1 & s2 & -> & H1 & H2).
      apply lang_cat_inv in H1 as (a & b & -> & Ha & Hb).
      exists a, (b +:+ s2). rewrite string_app_assoc. repeat split; [assumption|].
      apply IH2. now exists b, s2.
  - (* Alt *)
    simpl. rewrite orb_true_iff, IH1, IH2. split.
    + intros [(s1 & s2 & -> & H1 & H2) | (s1 & s2 & -> & H1 & H2)];
        exists s1, s2; repeat split; try assumption;
        [now apply lang_alt_l | now apply lang_alt_r].
    + intros (s1 & s2 & -> & H1 & H2). apply lang_alt_inv in H1 as [H1 | H1];
        [left | right]; now exists s1, s2.
  - (* Star *)
    simpl.
    set (iter := fix iter (fuel : nat) (s0 : string) {struct fuel} : bool :=
           k s0 ||
           match fuel with
           | O => false
           | S fuel' =>
               RegExp.matchK r s0 (fun s' =>
                 (String.length s' <? String.length s0)%nat && iter fuel' s')
           end).
    assert (Hiter : forall fuel s0, (String.length s0 <= fuel)%nat ->
              iter fuel s0 = true <->
              exists s1 s2, s0 = s1 +:+ s2 /\ lang (RegExp.Star r) s1 /\ k s2 = true).
    { induction fuel as [|fuel IHf]; intros s0 Hlen.
      - destruct s0; [|simpl in Hlen; lia]. simpl. rewrite orb_false_r. split.
        + intros H. exists "", "". repeat split; [constructor | exact H].
        + intros (s1 & s2 & E & _ & H2). symmetry in E.
          apply string_app_eq_nil in E as [_ ->]. exact H2.
      - cbn [iter]. rewrite orb_true_iff, IH. split.
        + intros [H | (a & rest & -> & Ha & H)].
          * exists "", s0. repeat split; [constructor | exact H].
          * apply andb_prop in H as [Hlt H]. apply Nat.ltb_lt in Hlt.
            apply IHf in H as (s1 & s2 & -> & H1 & H2); [|lia].
            exists (a +:+ s1), s2. rewrite string_app_assoc.
            repeat split; [now constructor | exact H2].
        + intros (s1 & s2 & -> & H1 & H2).
          destruct (lang_star_split r s1 H1) as [-> | (a & b & Hne & -> & Ha & Hb)].
          * now left.
          * right. exists a, (b +:+ s2). rewrite string_app_assoc.
            repeat split; [assumption|].
            assert (Hlt : (String.length (b +:+ s2)
                           < String.length (a +:+ (b +:+ s2)))%nat).
            { rewrite (string_app_length a). destruct a; [congruence | simpl; lia]. }
            apply andb_true_intro. split; [now apply Nat.ltb_lt|].
            apply IHf.
            -- rewrite string_app_assoc in Hlen. lia.
            -- now exists b, s2. }
    now apply Hiter.
Qed.

Corollary test_spec (r : RegExp.regex) (s : string) :
  RegExp.test r s = true <-> lang r s.
Proof.
  unfold RegExp.test. rewrite matchK_spec. split.
  - intros (s1 & s2 & -> & H1 & H2). apply String.eqb_eq in H2. subst.
    now rewrite string_app_nil_r.
  - intros H. exists s, "". rewrite string_app_nil_r. auto.
Qed.

(** ** The regular expression of a wildcard name *)

Lemma prefix_nil (s : string) : String.prefix "" s = true.
Proof. now destruct s. Qed.

Lemma startsWith_chr (x c : ascii) (s : string) :
  startsWith (String c s) (String x "") = Ascii.eqb c x.
Proof.
  unfold startsWith. cbn [String.prefix].
  destruct (ascii_dec x c) as [->|Hne].
  - now rewrite prefix_nil, Ascii.eqb_refl.
  - symmetry. apply Ascii.eqb_neq. congruence.
Qed.

Lemma replaceAllAux_cons (x c : ascii) (rep s : string) :
  replaceAllAux (String x "") rep 0 (String c s)
  = (if Ascii.eqb c x then rep else chr c) +:+ replaceAllAux (String x "") rep 0 s.
Proof.
  cbn [replaceAllAux]. rewrite startsWith_chr.
  destruct (Ascii.eqb c x); reflexivity.
Qed.

Lemma replaceAllAux_app (x : ascii) (rep a b : string) :
  replaceAllAux (String x "") rep 0 (a +:+ b)
  = replaceAllAux (String x "") rep 0 a +:+ replaceAllAux (String x "") rep 0 b.
Proof.
  induction a as [|c a IH]; [reflexivity|].
  rewrite string_app_cons, !replaceAllAux_cons, IH, string_app_assoc. reflexivity.
Qed.

Lemma WildcardFQDN_strRegex_escaped (strWildcardFqdn : string) :
  WildcardFQDN_strRegex strWildcardFqdn
  = "^" +:+ escapedName strWildcardFqdn +:+ "$".
Proof.
  unfold WildcardFQDN_strRegex, replaceAll. do 2 f_equal.
  induction strWildcardFqdn as [|c s IH]; [reflexivity|].
  rewrite replaceAllAux_cons, replaceAllAux_app, IH.
  cbn [escapedName]. f_equal. unfold escapedChar.
  destruct (Ascii.eqb c ".") eqn:E1; [reflexivity|].
  unfold chr. rewrite replaceAllAux_cons.
  destruct (Ascii.eqb c "*"); reflexivity.
Qed.

Lemma isSyntaxChar_false c :
  RegExp.isSyntaxChar c = false ->
  Ascii.eqb c "$" = false /\ Ascii.eqb c "\" = false /\ Ascii.eqb c "[" = false
  /\ Ascii.eqb c "*" = false /\ Ascii.eqb c "." = false.
Proof.
  unfold RegExp.isSyntaxChar. cbn [existsb]. intros H.
  repeat (apply orb_false_elim in H as [? H]). auto.
Qed.

Lemma starred_escaped (atom : RegExp.regex) (name : string) :
  plainName name = true ->
  RegExp.starred atom (escapedName name +:+ "$")
  = (atom, escapedName name +:+ "$").
Proof.
  destruct name as [|c name]; [reflexivity|].
  cbn [plainName escapedName]. intros H. apply andb_prop in H as [Hc _].
  unfold escapedChar.
  destruct (Ascii.eqb c ".") eqn:E1; [reflexivity|].
  destruct (Ascii.eqb c "*") eqn:E2; [reflexivity|].
  cbn in Hc. rewrite string_app_assoc. unfold chr. rewrite string_app_cons.
  cbn [RegExp.starred]. now rewrite E2.
Qed.

Lemma parseAtoms_escaped (name : string) : forall fuel,
  plainName name = true ->
  (String.length (escapedName name) < fuel)%nat ->
  RegExp.parseAtoms fuel (escapedName name +:+ "$") = Some (nameRegex name).
Proof.
  induction name as [|c name IH]; intros fuel Hplain Hfuel.
  - destruct fuel; [simpl in Hfuel; lia|]. reflexivity.
  - cbn [plainName] in Hplain. apply andb_prop in Hplain as [Hc Hplain].
    cbn [escapedName nameRegex] in *. rewrite string_app_length in Hfuel.
    destruct fuel as [|fuel]; [lia|].
    rewrite string_app_assoc. unfold escapedChar, charRegex in *.
    destruct (Ascii.eqb c ".") eqn:E1.
    + apply Ascii.eqb_eq in E1. subst c.
      change ("\." +:+ (escapedName name +:+ "$"))
        with (String "\" (String "." (escapedName name +:+ "$"))).
      cbn [RegExp.parseAtoms]. cbn [Ascii.eqb Bool.eqb andb].
      change (RegExp.isAlnum ".") with false. cbn iota.
      rewrite (starred_escaped _ name Hplain), IH; [reflexivity | assumption|].
      simpl in Hfuel. lia.
    + destruct (Ascii.eqb c "*") eqn:E2.
      * apply Ascii.eqb_eq in E2. subst c.
        change ("[^\.]*" +:+ (escapedName name +:+ "$"))
          with (String "[" (String "^" (String "\" (String "." (String "]"
                  (String "*" (escapedName name +:+ "$"))))))).
        cbn [RegExp.parseAtoms].
        cbn -[RegExp.parseAtoms nameRegex escapedName String.append].
        rewrite IH; [reflexivity | assumption|]. simpl in Hfuel. lia.
      * assert (Hs : RegExp.isSyntaxChar c = false).
        { cbn [orb] in Hc. now apply negb_true_iff in Hc. }
        destruct (isSyntaxChar_false c Hs) as (H1 & H2 & H3 & _).
        unfold chr. rewrite string_app_cons, string_app_nil_l.
        cbn [RegExp.parseAtoms]. rewrite H1, H2. cbn [andb].
        assert (startsWith (String c (escapedName name +:+ "$")) "[^\.]" = false)
          as ->.
        { unfold startsWith. cbn [String.prefix].
          destruct (ascii_dec "[" c) as [<-|]; [discriminate H3 | reflexivity]. }
        rewrite Hs, (starred_escaped _ name Hplain), IH;
          [reflexivity | assumption|].
        simpl in Hfuel. lia.
Qed.

Lemma compile_wildcard_name (name : string) :
  plainName name = true ->
  RegExp.compile (WildcardFQDN_strRegex name) = Some (nameRegex name).
Proof.
  intros Hplain. rewrite WildcardFQDN_strRegex_escaped.
  change ("^" +:+ escapedName name +:+ "$")
    with (String "^" (escapedName name +:+ "$")).
  cbn [RegExp.compile]. apply parseAtoms_escaped; [assumption|].
  rewrite string_app_length. simpl. lia.
Qed.

(** ** The language of a wildcard name *)

Lemma inClass_single (negated : bool) (x c : ascii) :
  RegExp.inClass negated [(x, x)] c = xorb negated (Ascii.eqb c x).
Proof.
  unfold RegExp.inClass, RegExp.inRange. cbn [existsb fst snd]. f_equal.
  rewrite orb_false_r.
  destruct (Ascii.eqb c x) eqn:E.
  - apply Ascii.eqb_eq in E. subst. now rewrite N.leb_refl.
  - apply Ascii.eqb_neq in E. apply andb_false_iff.
    destruct (N.leb_spec (N_of_ascii x) (N_of_ascii c)) as [H1|]; [|now left].
    destruct (N.leb_spec (N_of_ascii c) (N_of_ascii x)) as [H2|]; [|now right].
    exfalso. apply E.
    rewrite <- (ascii_N_embedding c), <- (ascii_N_embedding x). f_equal. lia.
Qed.

Lemma lang_Lit (c : ascii) (s : string) : lang (RegExp.Lit c) s <-> s = chr c.
Proof.
  unfold RegExp.Lit. split.
  - intros H. apply lang_class_inv in H as (c' & -> & Hc).
    rewrite inClass_single in Hc. destruct (Ascii.eqb_spec c' c); [now subst|].
    discriminate Hc.
  - intros ->. constructor. now rewrite inClass_single, Ascii.eqb_refl.
Qed.

Lemma lang_notDot_star (run : string) :
  lang (RegExp.Star RegExp.notDot) run <-> noDots run = true.
Proof.
  split.
  - intros H. remember (RegExp.Star RegExp.notDot) as r eqn:Er.
    induction H as [| | | | | r' | r' s1 s2 H1 _ H2 IH2]; try discriminate Er.
    + reflexivity.
    + injection Er as ->. apply lang_class_inv in H1 as (c & -> & Hc).
      rewrite inClass_single in Hc.
      change (chr c +:+ s2) with (String c s2). cbn [noDots].
      destruct (Ascii.eqb c "."); [discriminate Hc|]. now apply IH2.
  - induction run as [|c run IH]; [constructor|].
    cbn [noDots]. intros H. apply andb_prop in H as [Hc Hrun].
    change (String c run) with (chr c +:+ run). constructor; [|now apply IH].
    constructor. rewrite inClass_single.
    destruct (Ascii.eqb c "."); [discriminate Hc | reflexivity].
Qed.

Lemma wildcardMatches_nil_inv s : wildcardMatches "" s -> s = "".
Proof. now inversion 1. Qed.

Theorem lang_nameRegex (name : string) : forall query : string,
  lang (nameRegex name) query <-> wildcardMatches name query.
Proof.
  induction name as [|c name IH]; intros query.
  - cbn [nameRegex]. split.
    + intros H. apply lang_eps_inv in H as ->. constructor.
    + intros H. apply wildcardMatches_nil_inv in H as ->. constructor.
  - cbn [nameRegex]. unfold charRegex.
    destruct (Ascii.eqb c "*") eqn:E.
    + apply Ascii.eqb_eq in E. subst c. split.
      * intros H. apply lang_cat_inv in H as (run & rest & -> & Hrun & Hrest).
        constructor; [now apply lang_notDot_star | now apply IH].
      * intros H. inversion H; subst; [|congruence].
        constructor; [now apply lang_notDot_star | now apply IH].
    + apply Ascii.eqb_neq in E. split.
      * intros H. apply lang_cat_inv in H as (s1 & rest & -> & H1 & Hrest).
        apply lang_Lit in H1 as ->. change (chr c +:+ rest) with (String c rest).
        constructor; [assumption | now apply IH].
      * intros H. inversion H; subst; [congruence|].
        change (String c rest) with (chr c +:+ rest).
        constructor; [now apply lang_Lit | now apply IH].
Qed.

Lemma take_length (s : string) : take (String.length s) s = s.
Proof. induction s as [|c s IH]; [reflexivity|]. simpl. now rewrite IH. Qed.

Lemma substringFrom_fqdn (name : string) :
  substringFrom ("fqdn:" +:+ name) 5 = name.
Proof.
  unfold substringFrom, substring.
  change ("fqdn:" +:+ name)
    with (String "f" (String "q" (String "d" (String "n" (String ":" name))))).
  cbn [String.length].
  set (len := Z.of_nat (S (S (S (S (S (String.length name))))))).
  assert (Hlen : len = 5 + Z.of_nat (String.length name)) by (subst len; lia).
  replace (Z.max 0 (Z.min 5 len)) with 5 by lia.
  replace (Z.max 0 (Z.min len len)) with len by lia.
  replace (Z.min 5 len) with 5 by lia.
  replace (Z.max 5 len) with len by lia.
  replace (Z.to_nat (len - 5)) with (String.length name) by lia.
  change (Z.to_nat 5) with 5%nat. cbn [drop]. apply take_length.
Qed.

Lemma isWithin_fqdn (name query : string) (boolNegate boolFqdnAndGeoMatchAll : bool) :
  isWithin ("fqdn:" +:+ name) query LOOKUP_ADDRESS_TYPE_FQDN
    boolNegate boolFqdnAndGeoMatchAll
  = xorb boolNegate (WildcardFQDN_test name query).
Proof.
  unfold isWithin. cbn [lookupAddressType_eqb andb orb].
  assert (startsWith ("fqdn:" +:+ name) "fqdn:" = true) as ->.
  { unfold startsWith.
    change ("fqdn:" +:+ name)
      with (String "f" (String "q" (String "d" (String "n" (String ":" name))))).
    cbn. apply prefix_nil. }
  now rewrite substringFrom_fqdn.
Qed.

(** C8: against the stored value [fqdn:*.example.com] the FQDN queries
    [example.com] and [a.b.example.com] do not match while [.example.com] and
    [www.example.com] do (with the negate flag, the verdict is the flag or its
    negation); in general the verdict on a stored [fqdn:] value is the test
    of the wildcard name, in which each asterisk stands for a possibly empty
    run of characters other than the dot and the name covers the whole query
    string. *)
Theorem wildcard_fqdn_matching :
  (forall n b : bool,
      isWithin "fqdn:*.example.com" "example.com" LOOKUP_ADDRESS_TYPE_FQDN n b = n
      /\ isWithin "fqdn:*.example.com" ".example.com" LOOKUP_ADDRESS_TYPE_FQDN n b
         = negb n
      /\ isWithin "fqdn:*.example.com" "www.example.com" LOOKUP_ADDRESS_TYPE_FQDN n b
         = negb n
      /\ isWithin "fqdn:*.example.com" "a.b.example.com" LOOKUP_ADDRESS_TYPE_FQDN n b
         = n)
  /\ (forall (name query : string) (n b : bool),
        isWithin ("fqdn:" +:+ name) query LOOKUP_ADDRESS_TYPE_FQDN n b
        = xorb n (WildcardFQDN_test name query))
  /\ (forall name query : string,
        plainName name = true ->
        (WildcardFQDN_test name query = true <-> wildcardMatches name query)).
Proof.
  split; [|split].
  - intros n b. repeat split; destruct n; vm_compute; reflexivity.
  - intros. apply isWithin_fqdn.
  - intros name query Hplain. unfold WildcardFQDN_test.
    rewrite (compile_wildcard_name name Hplain), test_spec.
    apply lang_nameRegex.
Qed.

Lemma wildcard_fqdn_matching_witness :
  plainName "*.example.com" = true
  /\ wildcardMatches "*.example.com" "www.example.com"
  /\ ~ wildcardMatches "*.example.com" "a.b.example.com".
Proof.
  destruct wildcard_fqdn_matching as (_ & _ & H).
  split; [reflexivity|]. split.
  - apply (H "*.example.com" "www.example.com"); reflexivity.
  - intros Hm. apply (H "*.example.com" "a.b.example.com") in Hm; [|reflexivity].
    vm_compute in Hm. discriminate Hm.
Defined.

(** ** Splitting at a character *)

Lemma splitAux_nosep (x : ascii) (s : string) : forall cur : string,
  noChar x s = true -> splitAux (String x "") 0 cur s = [cur +:+ s].
Proof.
  induction s as [|c s IH]; intros cur H.
  - cbn. now rewrite string_app_nil_r.
  - cbn [noChar] in H. apply andb_prop in H as [Hc Hs].
    cbn [splitAux]. rewrite startsWith_chr.
    apply negb_true_iff in Hc. rewrite Hc, (IH _ Hs).
    unfold chr. now rewrite string_app_assoc.
Qed.

Lemma splitAux_sep (x : ascii) (a b : string) : forall cur : string,
  noChar x a = true ->
  splitAux (String x "") 0 cur (a +:+ String x b)
  = (cur +:+ a) :: splitAux (String x "") 0 "" b.
Proof.
  induction a as [|c a IH]; intros cur H.
  - rewrite string_app_nil_l, string_app_nil_r. destruct b as [|c b].
    + cbn [splitAux]. now rewrite startsWith_chr, Ascii.eqb_refl.
    + cbn [splitAux]. now rewrite startsWith_chr, Ascii.eqb_refl.
  - cbn [noChar] in H. apply andb_prop in H as [Hc Ha].
    rewrite string_app_cons. cbn [splitAux]. rewrite startsWith_chr.
    apply negb_true_iff in Hc. rewrite Hc, (IH _ Ha).
    unfold chr. now rewrite string_app_assoc.
Qed.

Lemma split_nosep (x : ascii) (s : string) :
  noChar x s = true -> split s (String x "") = [s].
Proof. intros H. unfold split. now rewrite splitAux_nosep. Qed.

Lemma split_sep (x : ascii) (a b : string) :
  noChar x a = true ->
  split (a +:+ String x b) (String x "") = a :: split b (String x "").
Proof. intros H. unfold split. now rewrite splitAux_sep. Qed.

Lemma noChar_app (x : ascii) (a b : string) :
  noChar x (a +:+ b) = noChar x a && noChar x b.
Proof.
  induction a as [|c a IH]; [reflexivity|].
  rewrite string_app_cons. cbn [noChar]. now rewrite IH, andb_assoc.
Qed.

(** ** Printed numbers *)

Lemma printsWell_small (n : Z) : 0 <= n <= 255 -> printsWell n = true.
Proof.
  intros H.
  assert (Hall : forallb printsWell (map Z.of_nat (seq 0 256)) = true)
    by (vm_compute; reflexivity).
  rewrite forallb_forall in Hall. apply Hall.
  apply in_map_iff. exists (Z.to_nat n). split; [lia|].
  apply in_seq. lia.
Qed.

Lemma numEq_Int (x : jsnum) (n : Z) : numEq x (Int n) = true -> x = Int n.
Proof.
  destruct x as [|z|b]; try discriminate. cbn. intros H.
  apply Z.eqb_eq in H. now subst.
Qed.

Lemma printsWell_facts (n : Z) :
  printsWell n = true ->
  parseInt (toString n) = Int n /\ toString n <> ""
  /\ noChar "." (toString n) = true /\ noChar "/" (toString n) = true
  /\ noChar "-" (toString n) = true.
Proof.
  unfold printsWell. intros H.
  repeat (apply andb_prop in H as [H ?]).
  repeat split; try assumption.
  - now apply numEq_Int.
  - apply String.eqb_neq. now apply negb_true_iff.
Qed.

(** ** Dotted quads *)

Lemma split_dotted (a b c d : Z) :
  isOctets (a, b, c, d) ->
  split (dotted (a, b, c, d)) "." = [toString a; toString b; toString c; toString d].
Proof.
  intros (Ha & Hb & Hc & Hd). unfold dotted.
  destruct (printsWell_facts a (printsWell_small a Ha)) as (_ & _ & Ha' & _).
  destruct (printsWell_facts b (printsWell_small b Hb)) as (_ & _ & Hb' & _).
  destruct (printsWell_facts c (printsWell_small c Hc)) as (_ & _ & Hc' & _).
  destruct (printsWell_facts d (printsWell_small d Hd)) as (_ & _ & Hd' & _).
  change ("." +:+ toString b +:+ "." +:+ toString c +:+ "." +:+ toString d)
    with (String "." (toString b +:+ "." +:+ toString c +:+ "." +:+ toString d)).
  rewrite (split_sep "." _ _ Ha').
  change ("." +:+ toString c +:+ "." +:+ toString d)
    with (String "." (toString c +:+ "." +:+ toString d)).
  rewrite (split_sep "." _ _ Hb').
  change ("." +:+ toString d) with (String "." (toString d)).
  rewrite (split_sep "." _ _ Hc'), (split_nosep "." _ Hd'). reflexivity.
Qed.

Lemma octetsOf_dotted (o : Z * Z * Z * Z) :
  isOctets o -> octetsOf (dotted o) = o.
Proof.
  destruct o as [[[a b] c] d]. intros H. unfold octetsOf.
  rewrite (split_dotted a b c d H). destruct H as (Ha & Hb & Hc & Hd).
  cbn [lookup list_lookup parseIntOpt].
  destruct (printsWell_facts a (printsWell_small a Ha)) as (-> & _).
  destruct (printsWell_facts b (printsWell_small b Hb)) as (-> & _).
  destruct (printsWell_facts c (printsWell_small c Hc)) as (-> & _).
  destruct (printsWell_facts d (printsWell_small d Hd)) as (-> & _).
  unfold toUint8, isOctet in *. rewrite !Z.mod_small by lia. reflexivity.
Qed.

Lemma dotted_inj (o1 o2 : Z * Z * Z * Z) :
  isOctets o1 -> isOctets o2 -> dotted o1 = dotted o2 -> o1 = o2.
Proof.
  intros H1 H2 E. rewrite <- (octetsOf_dotted o1 H1), <- (octetsOf_dotted o2 H2).
  now rewrite E.
Qed.

Lemma dotted_eqb (o1 o2 : Z * Z * Z * Z) :
  isOctets o1 -> isOctets o2 ->
  String.eqb (dotted o1) (dotted o2) = true <-> o1 = o2.
Proof.
  intros H1 H2. rewrite String.eqb_eq. split; [now apply dotted_inj | now intros ->].
Qed.

Lemma noChar_dotted_slash (o : Z * Z * Z * Z) :
  isOctets o -> noChar "/" (dotted o) = true.
Proof.
  destruct o as [[[a b] c] d]. intros (Ha & Hb & Hc & Hd). unfold dotted.
  destruct (printsWell_facts a (printsWell_small a Ha)) as (_ & _ & _ & Ha' & _).
  destruct (printsWell_facts b (printsWell_small b Hb)) as (_ & _ & _ & Hb' & _).
  destruct (printsWell_facts c (printsWell_small c Hc)) as (_ & _ & _ & Hc' & _).
  destruct (printsWell_facts d (printsWell_small d Hd)) as (_ & _ & _ & Hd' & _).
  rewrite !noChar_app, Ha', Hb', Hc', Hd'. reflexivity.
Qed.

(** ** Addresses as integers and as text *)

Lemma toIPv4AddrString_octets (a : Z) :
  0 <= a < 2 ^ 32 ->
  toIPv4AddrString a
  = dotted (a / 2 ^ 24, (a / 2 ^ 16) mod 256, (a / 2 ^ 8) mod 256, a mod 256)
  /\ isOctets (a / 2 ^ 24, (a / 2 ^ 16) mod 256, (a / 2 ^ 8) mod 256, a mod 256).
Proof.
  intros Ha. unfold toIPv4AddrString.
  rewrite (Z.mod_small a (2 ^ 32)) by lia.
  rewrite !Z.shiftr_div_pow2 by lia.
  change 255 with (Z.ones 8). rewrite !Z.land_ones by lia.
  change (2 ^ 8) with 256 at 1 3 4.
  assert (H24 : 0 <= a / 2 ^ 24 < 256).
  { split; [apply Z.div_pos; lia|]. apply Z.div_lt_upper_bound; lia. }
  rewrite (Z.mod_small (a / 2 ^ 24)) by lia.
  split; [reflexivity|].
  unfold isOctets, isOctet.
  pose proof (Z.mod_pos_bound (a / 2 ^ 16) 256 ltac:(lia)).
  pose proof (Z.mod_pos_bound (a / 2 ^ 8) 256 ltac:(lia)).
  pose proof (Z.mod_pos_bound a 256 ltac:(lia)).
  lia.
Qed.

Lemma octets_sum (a : Z) :
  0 <= a < 2 ^ 32 ->
  a / 2 ^ 24 * 16777216 + (a / 2 ^ 16) mod 256 * 65536
  + (a / 2 ^ 8) mod 256 * 256 + a mod 256 = a.
Proof.
  intros Ha.
  pose proof (Z.div_mod a 256 ltac:(lia)) as H0.
  pose proof (Z.div_mod (a / 256) 256 ltac:(lia)) as H1.
  pose proof (Z.div_mod (a / 256 / 256) 256 ltac:(lia)) as H2.
  rewrite !Z.div_div in H1, H2 by lia.
  rewrite !Z.div_div in H2 by lia.
  change (2 ^ 24) with (256 * 256 * 256). change (2 ^ 16) with (256 * 256).
  change (2 ^ 8) with 256.
  lia.
Qed.

Lemma toIPv4AddrInteger_dotted (a b c d : Z) :
  isOctets (a, b, c, d) ->
  toIPv4AddrInteger (dotted (a, b, c, d))
  = Int (a * 16777216 + b * 65536 + c * 256 + d).
Proof.
  intros H. unfold toIPv4AddrInteger. rewrite (split_dotted a b c d H).
  destruct H as (Ha & Hb & Hc & Hd).
  cbn [lookup list_lookup parseIntOpt].
  destruct (printsWell_facts a (printsWell_small a Ha)) as (-> & _).
  destruct (printsWell_facts b (printsWell_small b Hb)) as (-> & _).
  destruct (printsWell_facts c (printsWell_small c Hc)) as (-> & _).
  destruct (printsWell_facts d (printsWell_small d Hd)) as (-> & _).
  unfold roundInt, isOctet in *.
  assert ((Z.abs (a * 16777216 + b * 65536 + c * 256 + d) <? 2 ^ 53) = true) as ->;
    [|reflexivity].
  apply Z.ltb_lt. change (2 ^ 53) with 9007199254740992. lia.
Qed.

Lemma toIPv4AddrInteger_toIPv4AddrString (a : Z) :
  0 <= a < 2 ^ 32 -> toIPv4AddrInteger (toIPv4AddrString a) = Int a.
Proof.
  intros Ha. destruct (toIPv4AddrString_octets a Ha) as [-> Ho].
  rewrite (toIPv4AddrInteger_dotted _ _ _ _ Ho). f_equal. now apply octets_sum.
Qed.

(** The string pushed for a segment denotes its start address and prefix
    length. *)
Lemma cidrBlock_pushed (a i : Z) :
  0 <= a < 2 ^ 32 -> 0 <= i <= 255 ->
  cidrBlock (toIPv4AddrString a +:+ "/" +:+ toString i) = Some (a, i).
Proof.
  intros Ha Hi. unfold cidrBlock.
  destruct (toIPv4AddrString_octets a Ha) as [E Ho].
  destruct (printsWell_facts i (printsWell_small i Hi)) as (Hp & _ & _ & Hs & _).
  change ("/" +:+ toString i) with (String "/" (toString i)).
  rewrite (split_sep "/"), (split_nosep "/" _ Hs);
    [|rewrite E; now apply noChar_dotted_slash].
  now rewrite (toIPv4AddrInteger_toIPv4AddrString a Ha), Hp.
Qed.

(** ** Tilings *)

Lemma coverCount_app (l1 l2 : list string) (x : Z) :
  coverCount (l1 ++ l2) x = (coverCount l1 x + coverCount l2 x)%nat.
Proof. induction l1 as [|c l1 IH]; simpl; [reflexivity | rewrite IH; lia]. Qed.

Lemma tilesRange_nil (s e : Z) : e < s -> tilesRange [] s e.
Proof.
  intros H. split; [intros c []|].
  intros x. unfold inRangeCount. simpl.
  destruct (s <=? x) eqn:E1; destruct (x <=? e) eqn:E2; try reflexivity. lia.
Qed.

Lemma tilesRange_app (l1 l2 : list string) (s m e : Z) :
  s <= m + 1 -> m <= e ->
  tilesRange l1 s m -> tilesRange l2 (m + 1) e -> tilesRange (l1 ++ l2) s e.
Proof.
  intros Hsm Hme [Hw1 Hc1] [Hw2 Hc2]. split.
  - intros c Hc. apply in_app_or in Hc as [Hc | Hc]; auto.
  - intros x. rewrite coverCount_app, Hc1, Hc2. unfold inRangeCount.
    destruct (s <=? x) eqn:E1; destruct (x <=? m) eqn:E2;
      destruct (m + 1 <=? x) eqn:E3; destruct (x <=? e) eqn:E4;
      simpl; try reflexivity; lia.
Qed.

Lemma tilesRange_one (a i : Z) :
  1 <= i <= 32 -> 0 <= a -> a + 2 ^ (32 - i) <= 2 ^ 32 -> a mod 2 ^ (32 - i) = 0 ->
  tilesRange [toIPv4AddrString a +:+ "/" +:+ toString i] a (a + 2 ^ (32 - i) - 1).
Proof.
  intros Hi Ha Hup Hal.
  assert (Hpos : 0 < 2 ^ (32 - i)) by (apply Z.pow_pos_nonneg; lia).
  assert (Hblock : cidrBlock (toIPv4AddrString a +:+ "/" +:+ toString i) = Some (a, i))
    by (apply cidrBlock_pushed; lia).
  split.
  - intros c [<- | []]. exists (a, i). split; [exact Hblock|]. repeat split; lia.
  - intros x. cbn [coverCount]. unfold cidrContains. rewrite Hblock.
    unfold blockContains, inRangeCount.
    destruct (a <=? x) eqn:E1; destruct (x <? a + 2 ^ (32 - i)) eqn:E2;
      destruct (x <=? a + 2 ^ (32 - i) - 1) eqn:E3; simpl; try reflexivity; lia.
Qed.

(** ** The segments of one block *)

Lemma pushSegments_spec (i seg : Z) :
  1 <= i <= 32 -> seg = 2 ^ (32 - i) ->
  forall (bound : nat) (k a : Z),
    0 <= k -> (Z.to_nat k <= bound)%nat -> 0 <= a -> (a + k) * seg <= 2 ^ 32 ->
    exists M,
      (forall arraySave,
          pushSegments bound i seg ((a + k) * seg - 1) (a * seg) arraySave
          = Some ((a + k) * seg, (arraySave ++ M)%list))
      /\ tilesRange M (a * seg) ((a + k) * seg - 1).
Proof.
  intros Hi Hseg.
  assert (Hpos : 0 < seg) by (subst seg; apply Z.pow_pos_nonneg; lia).
  induction bound as [|bound IH]; intros k a Hk Hb Ha Hup.
  - assert (k = 0) by lia. subst k. exists []. split.
    + intros arraySave. cbn [pushSegments].
      replace ((a + 0) * seg) with (a * seg) by lia.
      assert ((a * seg + seg - 1 <=? a * seg - 1) = false) as -> by (apply Z.leb_gt; lia).
      now rewrite app_nil_r.
    + apply tilesRange_nil. lia.
  - destruct (Z.eq_dec k 0) as [-> | Hk0].
    + exists []. split.
      * intros arraySave. cbn [pushSegments].
        replace ((a + 0) * seg) with (a * seg) by lia.
        assert ((a * seg + seg - 1 <=? a * seg - 1) = false) as ->
          by (apply Z.leb_gt; lia).
        now rewrite app_nil_r.
      * apply tilesRange_nil. lia.
    + destruct (IH (k - 1) (a + 1) ltac:(lia) ltac:(lia) ltac:(lia))
        as (M & HM & Ht).
      { replace (a + 1 + (k - 1)) with (a + k) by lia. exact Hup. }
      replace (a + 1 + (k - 1)) with (a + k) in * by lia.
      exists ((toIPv4AddrString (a * seg) +:+ "/" +:+ toString i) :: M). split.
      * intros arraySave. cbn [pushSegments].
        assert ((a * seg + seg - 1 <=? (a + k) * seg - 1) = true) as ->
          by (apply Z.leb_le; nia).
        replace (a * seg + seg) with ((a + 1) * seg) by lia.
        rewrite HM, <- app_assoc. reflexivity.
      * change (?x :: M) with ([x] ++ M)%list.
        apply (tilesRange_app _ _ _ (a * seg + seg - 1)); [lia | nia | |].
        -- subst seg. apply tilesRange_one; [lia | nia | nia |].
           apply Z_mod_mult.
        -- replace (a * seg + seg - 1 + 1) with ((a + 1) * seg) by lia. exact Ht.
Qed.

(** ** The loop over the prefix lengths *)

Lemma quot_pow2_half (n : nat) :
  Z.quot (2 ^ Z.of_nat n) 2 = 2 ^ (Z.of_nat n - 1).
Proof.
  destruct n as [|n].
  - reflexivity.
  - rewrite Z.quot_div_nonneg by (try apply Z.pow_nonneg; lia).
    replace (Z.of_nat (S n)) with (Z.of_nat n + 1) by lia.
    rewrite Z.pow_add_r, Z.div_mul by lia. f_equal. lia.
Qed.

Lemma block_bounds (seg s e : Z) :
  0 < seg -> 0 <= s -> 0 <= e + 1 ->
  exists a b,
    Z.quot (s + seg - 1) seg * seg = a * seg
    /\ Z.quot (e + 1) seg * seg - 1 = b * seg - 1
    /\ 0 <= a /\ 0 <= b
    /\ s <= a * seg < s + seg /\ e - seg < b * seg - 1 <= e.
Proof.
  intros Hseg Hs He.
  rewrite !Z.quot_div_nonneg by lia.
  exists ((s + seg - 1) / seg), ((e + 1) / seg).
  pose proof (Z.div_mod (s + seg - 1) seg ltac:(lia)) as H1.
  pose proof (Z.mod_pos_bound (s + seg - 1) seg Hseg) as H2.
  pose proof (Z.div_mod (e + 1) seg ltac:(lia)) as H3.
  pose proof (Z.mod_pos_bound (e + 1) seg Hseg) as H4.
  assert (0 <= (s + seg - 1) / seg) by (apply Z.div_pos; lia).
  assert (0 <= (e + 1) / seg) by (apply Z.div_pos; lia).
  repeat split; try lia; nia.
Qed.

(** Once the start has passed the end, the remaining iterations do nothing. *)
Lemma subnetLoop_empty rec (n : nat) : forall i s e arraySave,
  0 <= e + 1 -> e < s ->
  subnetLoop rec n i (2 ^ (Z.of_nat n - 1)) s e arraySave = Some arraySave.
Proof.
  induction n as [|n IH]; intros i s e arraySave He Hlt; [reflexivity|].
  cbn [subnetLoop].
  replace (Z.of_nat (S n) - 1) with (Z.of_nat n) by lia.
  assert (Hseg : 0 < 2 ^ Z.of_nat n) by (apply Z.pow_pos_nonneg; lia).
  destruct (block_bounds _ s e Hseg ltac:(lia) He)
    as (a & b & -> & -> & Ha & Hb & Hsa & Heb).
  assert ((a * 2 ^ Z.of_nat n <=? b * 2 ^ Z.of_nat n - 1) = false) as ->
    by (apply Z.leb_gt; lia).
  rewrite quot_pow2_half. apply IH; assumption.
Qed.

(** The loop finds one block of segments and makes at most two recursive
    calls, on the part of the range before the block and on the part after
    it. *)
Lemma subnetLoop_normal_form (s e : Z) :
  0 <= s -> s <= e -> e < 2 ^ 32 ->
  forall n : nat, (1 <= n <= 32)%nat ->
  exists bS bE M,
    s <= bS /\ bS <= bE /\ bE <= e /\ tilesRange M bS bE
    /\ forall rec arraySave,
         subnetLoop rec n (33 - Z.of_nat n) (2 ^ (Z.of_nat n - 1)) s e arraySave
         = match (if s <? bS then rec s (bS - 1) arraySave else Some arraySave) with
           | None => None
           | Some arraySave1 =>
               if bE <? e then rec (bE + 1) e (arraySave1 ++ M)%list
               else Some (arraySave1 ++ M)%list
           end.
Proof.
  intros Hs Hse He. induction n as [|n IH]; intros Hn; [lia|].
  replace (Z.of_nat (S n) - 1) with (Z.of_nat n) by lia.
  assert (Hseg : 0 < 2 ^ Z.of_nat n) by (apply Z.pow_pos_nonneg; lia).
  destruct (block_bounds _ s e Hseg Hs ltac:(lia))
    as (a & b & Ea & Eb & Ha & Hb & Hsa & Heb).
  destruct (Z_le_gt_dec (a * 2 ^ Z.of_nat n) (b * 2 ^ Z.of_nat n - 1)) as [Hfit | Hno].
  - (* a block of this size fits *)
    assert (Hab : a <= b) by nia.
    destruct (pushSegments_spec (33 - Z.of_nat (S n)) (2 ^ Z.of_nat n)
                ltac:(lia) ltac:(f_equal; lia)
                (Z.to_nat (b - a)) (b - a) a ltac:(lia) ltac:(lia) Ha)
      as (M & HM & Ht).
    { replace (a + (b - a)) with b by lia. lia. }
    replace (a + (b - a)) with b in * by lia.
    exists (a * 2 ^ Z.of_nat n), (b * 2 ^ Z.of_nat n - 1), M.
    split; [lia|]. split; [lia|]. split; [lia|]. split; [exact Ht|].
    intros rec arraySave. cbn [subnetLoop]. rewrite Ea, Eb.
    assert ((a * 2 ^ Z.of_nat n <=? b * 2 ^ Z.of_nat n - 1) = true) as ->
      by (apply Z.leb_le; lia).
    destruct (if s <? a * 2 ^ Z.of_nat n then _ else _) as [arraySave1|];
      [|reflexivity].
    replace (Z.quot (b * 2 ^ Z.of_nat n - 1 - a * 2 ^ Z.of_nat n + 1) (2 ^ Z.of_nat n))
      with (b - a).
    2:{ rewrite Z.quot_div_nonneg by nia.
        replace (b * 2 ^ Z.of_nat n - 1 - a * 2 ^ Z.of_nat n + 1)
          with ((b - a) * 2 ^ Z.of_nat n) by lia.
        now rewrite Z.div_mul by lia. }
    rewrite HM. rewrite quot_pow2_half.
    destruct (b * 2 ^ Z.of_nat n - 1 <? e) eqn:Elt.
    + destruct (rec (b * 2 ^ Z.of_nat n - 1 + 1) e (arraySave1 ++ M)%list)
        as [arraySave3|]; [|reflexivity].
      apply subnetLoop_empty; lia.
    + apply subnetLoop_empty; [lia|]. apply Z.ltb_ge in Elt. lia.
  - (* no block of this size fits: the next size *)
    assert (Hn1 : (1 <= n)%nat).
    { destruct n; [|lia]. exfalso. change (2 ^ Z.of_nat 0) with 1 in *. lia. }
    destruct (IH ltac:(lia)) as (bS & bE & M & H1 & H2 & H3 & Ht & Hloop).
    exists bS, bE, M.
    split; [exact H1|]. split; [exact H2|]. split; [exact H3|]. split; [exact Ht|].
    intros rec arraySave. cbn [subnetLoop]. rewrite Ea, Eb.
    assert ((a * 2 ^ Z.of_nat n <=? b * 2 ^ Z.of_nat n - 1) = false) as ->
      by (apply Z.leb_gt; lia).
    rewrite quot_pow2_half.
    replace (33 - Z.of_nat (S n) + 1) with (33 - Z.of_nat n) by lia.
    apply Hloop.
Qed.

Lemma makeIPv4SubnetFromRangeBody_normal_form (s e : Z) :
  0 <= s -> s <= e -> e < 2 ^ 32 ->
  exists bS bE M,
    s <= bS /\ bS <= bE /\ bE <= e /\ tilesRange M bS bE
    /\ forall rec arraySave,
         makeIPv4SubnetFromRangeBody rec s e arraySave
         = match (if s <? bS then rec s (bS - 1) arraySave else Some arraySave) with
           | None => None
           | Some arraySave1 =>
               if bE <? e then rec (bE + 1) e (arraySave1 ++ M)%list
               else Some (arraySave1 ++ M)%list
           end.
Proof.
  intros Hs Hse He.
  exact (subnetLoop_normal_form s e Hs Hse He 32 ltac:(lia)).
Qed.

(** ** The recursion *)

Lemma makeIPv4SubnetFromRange_S (depth : nat) (s e : Z) (arraySave : list string) :
  makeIPv4SubnetFromRange (S depth) s e arraySave
  = makeIPv4SubnetFromRangeBody (makeIPv4SubnetFromRange depth) s e arraySave.
Proof. reflexivity. Qed.

Lemma makeIPv4SubnetFromRange_tiles (depth : nat) : forall s e arraySave,
  0 <= s -> s <= e -> e < 2 ^ 32 -> (Z.to_nat (e - s) < depth)%nat ->
  exists L,
    makeIPv4SubnetFromRange depth s e arraySave = Some (arraySave ++ L)%list
    /\ tilesRange L s e.
Proof.
  induction depth as [|depth IH]; intros s e arraySave Hs Hse He Hd; [lia|].
  rewrite makeIPv4SubnetFromRange_S.
  destruct (makeIPv4SubnetFromRangeBody_normal_form s e Hs Hse He)
    as (bS & bE & M & H1 & H2 & H3 & Ht & ->).
  assert (Hleft : exists L1,
             (if s <? bS then makeIPv4SubnetFromRange depth s (bS - 1) arraySave
              else Some arraySave) = Some (arraySave ++ L1)%list
             /\ tilesRange L1 s (bS - 1)).
  { destruct (s <? bS) eqn:E.
    - apply Z.ltb_lt in E. apply IH; lia.
    - apply Z.ltb_ge in E. exists []. rewrite app_nil_r.
      split; [reflexivity | apply tilesRange_nil; lia]. }
  destruct Hleft as (L1 & -> & Ht1).
  assert (Hright : exists L2,
             (if bE <? e
              then makeIPv4SubnetFromRange depth (bE + 1) e ((arraySave ++ L1) ++ M)%list
              else Some ((arraySave ++ L1) ++ M)%list)
             = Some (((arraySave ++ L1) ++ M) ++ L2)%list
             /\ tilesRange L2 (bE + 1) e).
  { destruct (bE <? e) eqn:E.
    - apply Z.ltb_lt in E. apply IH; lia.
    - apply Z.ltb_ge in E. exists []. rewrite app_nil_r.
      split; [reflexivity | apply tilesRange_nil; lia]. }
  destruct Hright as (L2 & -> & Ht2).
  exists (L1 ++ M ++ L2)%list. split.
  - now rewrite <- !app_assoc.
  - apply (tilesRange_app _ _ _ (bS - 1)); [lia | lia | exact Ht1 |].
    replace (bS - 1 + 1) with bS by lia.
    apply (tilesRange_app _ _ _ bE); [lia | lia | exact Ht | exact Ht2].
Qed.

Lemma coverCount_lookup (l : list string) (x : Z) : forall (i : nat) (c : string),
  l !! i = Some c -> cidrContains c x = true -> (1 <= coverCount l x)%nat.
Proof.
  induction l as [|c0 l IH]; intros i c Hi Hc; [discriminate Hi|].
  destruct i as [|i]; cbn in Hi.
  - injection Hi as ->. cbn [coverCount]. rewrite Hc. lia.
  - cbn [coverCount]. specialize (IH i c Hi Hc). lia.
Qed.

Lemma coverCount_two (l : list string) (x : Z) :
  forall (i j : nat) (c1 c2 : string),
    (i < j)%nat -> l !! i = Some c1 -> l !! j = Some c2 ->
    cidrContains c1 x = true -> cidrContains c2 x = true ->
    (2 <= coverCount l x)%nat.
Proof.
  induction l as [|c0 l IH]; intros i j c1 c2 Hij Hi Hj H1 H2; [discriminate Hi|].
  destruct j as [|j]; [lia|]. cbn in Hj.
  destruct i as [|i]; cbn in Hi.
  - injection Hi as ->. cbn [coverCount]. rewrite H1.
    pose proof (coverCount_lookup l x j c2 Hj H2). lia.
  - cbn [coverCount]. specialize (IH i j c1 c2 ltac:(lia) Hi Hj H1 H2). lia.
Qed.

Lemma coverCount_pos (l : list string) (x : Z) :
  (1 <= coverCount l x)%nat -> exists c, In c l /\ cidrContains c x = true.
Proof.
  induction l as [|c0 l IH]; cbn [coverCount]; [lia|].
  destruct (cidrContains c0 x) eqn:E.
  - intros _. exists c0. split; [now left | exact E].
  - intros H. destruct (IH ltac:(lia)) as (c & Hc & Hx).
    exists c. split; [now right | exact Hx].
Qed.

Lemma coverCount_In (l : list string) (x : Z) (c : string) :
  In c l -> cidrContains c x = true -> (1 <= coverCount l x)%nat.
Proof.
  induction l as [|c0 l IH]; [intros []|].
  intros [-> | Hc] Hx; cbn [coverCount].
  - rewrite Hx. lia.
  - specialize (IH Hc Hx). lia.
Qed.

(** C5: for a range within the 32-bit addresses, [makeIPv4SubnetFromRange]
    appends CIDR blocks (aligned subnets) such that an address belongs to
    some block exactly when it is in the range, and no address belongs to
    two of the blocks. *)
Theorem range_decomposition_tiles (s e : Z) (arraySave : list string)
    (depth : nat) :
  0 <= s -> s <= e -> e <= 2 ^ 32 - 1 -> (Z.to_nat (e - s) < depth)%nat ->
  exists blocks,
    makeIPv4SubnetFromRange depth s e arraySave = Some (arraySave ++ blocks)%list
    /\ (forall c, In c blocks -> exists b, cidrBlock c = Some b /\ isSubnet b)
    /\ (forall x, (exists c, In c blocks /\ cidrContains c x = true) <-> s <= x <= e)
    /\ (forall (i j : nat) (c1 c2 : string) (x : Z),
          i <> j -> blocks !! i = Some c1 -> blocks !! j = Some c2 ->
          cidrContains c1 x = true -> cidrContains c2 x = true -> False).
Proof.
  intros Hs Hse He Hd.
  destruct (makeIPv4SubnetFromRange_tiles depth s e arraySave Hs Hse ltac:(lia) Hd)
    as (L & HL & Hw & Hc).
  exists L. split; [exact HL|]. split; [exact Hw|]. split.
  - intros x. split.
    + intros (c & Hin & Hx). pose proof (coverCount_In L x c Hin Hx) as H1.
      rewrite Hc in H1. unfold inRangeCount in H1.
      destruct (s <=? x) eqn:E1; destruct (x <=? e) eqn:E2; simpl in H1; lia.
    + intros Hx. apply coverCount_pos. rewrite Hc. unfold inRangeCount.
      assert ((s <=? x) = true) as -> by (apply Z.leb_le; lia).
      assert ((x <=? e) = true) as -> by (apply Z.leb_le; lia).
      simpl. lia.
  - intros i j c1 c2 x Hij Hi Hj H1 H2.
    assert (H : (2 <= coverCount L x)%nat).
    { destruct (Nat.lt_total i j) as [Hlt | [Heq | Hgt]]; [|contradiction|].
      - exact (coverCount_two L x i j c1 c2 Hlt Hi Hj H1 H2).
      - exact (coverCount_two L x j i c2 c1 Hgt Hj Hi H2 H1). }
    rewrite Hc in H. unfold inRangeCount in H.
    destruct ((s <=? x) && (x <=? e)); lia.
Qed.

Lemma range_decomposition_tiles_witness :
  exists blocks,
    makeIPv4SubnetFromRange 100 3232235521 3232235620 [] = Some blocks
    /\ length blocks = 9%nat
    /\ (forall x, (exists c, In c blocks /\ cidrContains c x = true)
                  <-> 3232235521 <= x <= 3232235620).
Proof.
  destruct (range_decomposition_tiles 3232235521 3232235620 [] 100)
    as (blocks & H1 & _ & H2 & _); [lia | lia | lia | vm_compute; lia |].
  exists blocks. split; [exact H1|]. split; [|exact H2].
  vm_compute in H1. injection H1 as <-. reflexivity.
Defined.

(** ** Termination *)

(** A deeper bound on the recursion does not change a result. *)
Lemma subnetLoop_mono (rec1 rec2 : Z -> Z -> list string -> option (list string)) :
  (forall s e o r, rec1 s e o = Some r -> rec2 s e o = Some r) ->
  forall n i seg s e arraySave r,
    subnetLoop rec1 n i seg s e arraySave = Some r ->
    subnetLoop rec2 n i seg s e arraySave = Some r.
Proof.
  intros Hrec. induction n as [|n IH]; intros i seg s e arraySave r; [auto|].
  cbn [subnetLoop].
  destruct (_ <=? _); [|apply IH].
  destruct (s <? _).
  - destruct (rec1 s _ arraySave) as [o1|] eqn:E1; [|discriminate].
    rewrite (Hrec _ _ _ _ E1).
    destruct (pushSegments _ _ _ _ _ o1) as [[segStart o2]|]; [|discriminate].
    destruct (_ <? e).
    + destruct (rec1 _ e o2) as [o3|] eqn:E3; [|discriminate].
      rewrite (Hrec _ _ _ _ E3). apply IH.
    + apply IH.
  - destruct (pushSegments _ _ _ _ _ arraySave) as [[segStart o2]|]; [|discriminate].
    destruct (_ <? e).
    + destruct (rec1 _ e o2) as [o3|] eqn:E3; [|discriminate].
      rewrite (Hrec _ _ _ _ E3). apply IH.
    + apply IH.
Qed.

Lemma makeIPv4SubnetFromRangeBody_mono
    (rec1 rec2 : Z -> Z -> list string -> option (list string)) :
  (forall s e o r, rec1 s e o = Some r -> rec2 s e o = Some r) ->
  forall s e arraySave r,
    makeIPv4SubnetFromRangeBody rec1 s e arraySave = Some r ->
    makeIPv4SubnetFromRangeBody rec2 s e arraySave = Some r.
Proof.
  intros Hrec s e arraySave r. unfold makeIPv4SubnetFromRangeBody.
  apply subnetLoop_mono, Hrec.
Qed.

Lemma makeIPv4SubnetFromRange_mono (depth : nat) : forall s e arraySave r,
  makeIPv4SubnetFromRange depth s e arraySave = Some r ->
  makeIPv4SubnetFromRange (S depth) s e arraySave = Some r.
Proof.
  induction depth as [|depth IH]; intros s e arraySave r; [discriminate|].
  rewrite (makeIPv4SubnetFromRange_S (S depth)), (makeIPv4SubnetFromRange_S depth).
  apply makeIPv4SubnetFromRangeBody_mono, IH.
Qed.

(** C10: on a range within the 32-bit addresses the body of
    [makeIPv4SubnetFromRange] makes its recursive calls only on strictly
    smaller subranges of the range (its result is the same for any two
    functions that agree on those), so the recursion is well-founded: with
    a bound on the depth beyond the size of the range the function returns,
    and a larger bound returns the same. *)
Theorem range_decomposition_terminates (s e : Z) (arraySave : list string) :
  0 <= s -> s <= e -> e <= 2 ^ 32 - 1 ->
  (forall rec1 rec2 : Z -> Z -> list string -> option (list string),
      (forall s' e' o, s <= s' -> s' <= e' -> e' <= e -> e' - s' < e - s ->
                       rec1 s' e' o = rec2 s' e' o) ->
      makeIPv4SubnetFromRangeBody rec1 s e arraySave
      = makeIPv4SubnetFromRangeBody rec2 s e arraySave)
  /\ (exists result,
        forall depth : nat, (Z.to_nat (e - s) < depth)%nat ->
          makeIPv4SubnetFromRange depth s e arraySave = Some result).
Proof.
  intros Hs Hse He. split.
  - intros rec1 rec2 Hagree.
    destruct (makeIPv4SubnetFromRangeBody_normal_form s e Hs Hse ltac:(lia))
      as (bS & bE & M & H1 & H2 & H3 & _ & Hbody).
    rewrite !Hbody.
    destruct (s <? bS) eqn:E1.
    + apply Z.ltb_lt in E1. rewrite (Hagree s (bS - 1)) by lia.
      destruct (rec2 s (bS - 1) arraySave) as [o1|]; [|reflexivity].
      destruct (bE <? e) eqn:E2; [|reflexivity].
      apply Z.ltb_lt in E2. apply Hagree; lia.
    + destruct (bE <? e) eqn:E2; [|reflexivity].
      apply Z.ltb_lt in E2. apply Hagree; lia.
  - destruct (makeIPv4SubnetFromRange_tiles (S (Z.to_nat (e - s))) s e arraySave
                Hs Hse ltac:(lia) ltac:(lia)) as (L & HL & _).
    exists (arraySave ++ L)%list. intros depth Hd.
    induction depth as [|depth IH]; [lia|].
    destruct (Nat.eq_dec depth (Z.to_nat (e - s))) as [-> | Hne]; [exact HL|].
    apply makeIPv4SubnetFromRange_mono, IH. lia.
Qed.

Lemma range_decomposition_terminates_witness :
  exists result,
    forall depth : nat, (99 < depth)%nat ->
      makeIPv4SubnetFromRange depth 3232235521 3232235620 [] = Some result.
Proof.
  destruct (range_decomposition_terminates 3232235521 3232235620 [])
    as (_ & result & H); [lia | lia | lia |].
  exists result. intros depth Hd. apply H. vm_compute. lia.
Defined.

(** * Fortinet wildcard addresses and CIDR segments *)

Lemma forallb_range (n : nat) (P : Z -> bool) :
  forallb P (map Z.of_nat (seq 0 n)) = true ->
  forall x, 0 <= x < Z.of_nat n -> P x = true.
Proof.
  intros Hall x Hx. rewrite forallb_forall in Hall. apply Hall.
  apply in_map_iff. exists (Z.to_nat x). split; [lia|].
  apply in_seq. lia.
Qed.

Local Abbreviation octet n := (getOctetNetMaskFromOctetPrefixLength (Int n)).
Local Abbreviation inverted m := (Z.lxor m 255).

Lemma octet_clamp (n : Z) :
  n <= 53 -> octet n = octet (Z.max 0 (Z.min 8 n)).
Proof.
  intros H. unfold getOctetNetMaskFromOctetPrefixLength.
  destruct (Z.leb_spec n 0) as [H0|H0].
  - replace (Z.max 0 (Z.min 8 n)) with 0 by lia. reflexivity.
  - destruct (Z.leb_spec n 8) as [H8|H8].
    + replace (Z.max 0 (Z.min 8 n)) with n by lia.
      destruct (Z.leb_spec n 0); [lia|]. destruct (Z.leb_spec n 8); [reflexivity | lia].
    + replace (Z.max 0 (Z.min 8 n)) with 8 by lia.
      destruct (Z.leb_spec n 53); [reflexivity | lia].
Qed.

(** The facts on one octet, read off the table of all octets and octet
    prefix lengths. *)
Lemma octet_mask_table (x k k' : Z) :
  0 <= x <= 255 -> 0 <= k <= 8 -> 0 <= k' <= 8 ->
  (0 <= octet k <= 255)
  /\ (0 <= Z.land x (octet k) <= 255)
  /\ (0 <= Z.lor x (inverted (octet k)) <= 255)
  /\ Z.lor x (inverted (octet k)) = Z.land x (octet k) + (255 - octet k)
  /\ (k <= k' -> Z.land (Z.lor x (inverted (octet k'))) (octet k) = Z.land x (octet k))
  /\ (k' < k -> Z.land x (octet k') = x ->
      Z.land (Z.lor x (inverted (octet k'))) (octet k) <> Z.land x (octet k))
  /\ (k = 8 -> Z.land x (octet k) = x).
Proof.
  intros Hx Hk Hk'.
  pose (check := fun x k k' =>
    (0 <=? octet k) && (octet k <=? 255)
    && (0 <=? Z.land x (octet k)) && (Z.land x (octet k) <=? 255)
    && (0 <=? Z.lor x (inverted (octet k))) && (Z.lor x (inverted (octet k)) <=? 255)
    && (Z.lor x (inverted (octet k)) =? Z.land x (octet k) + (255 - octet k))
    && implb (k <=? k')
         (Z.land (Z.lor x (inverted (octet k'))) (octet k) =? Z.land x (octet k))
    && implb ((k' <? k) && (Z.land x (octet k') =? x))
         (negb (Z.land (Z.lor x (inverted (octet k'))) (octet k) =? Z.land x (octet k)))
    && implb (k =? 8) (Z.land x (octet k) =? x)).
  assert (Hall : forallb (fun x =>
                   forallb (fun k =>
                     forallb (fun k' => check x k k') (map Z.of_nat (seq 0 9)))
                     (map Z.of_nat (seq 0 9)))
                   (map Z.of_nat (seq 0 256)) = true)
    by (vm_compute; reflexivity).
  pose proof (forallb_range _ _ Hall x ltac:(lia)) as H1. cbv beta in H1.
  pose proof (forallb_range _ _ H1 k ltac:(lia)) as H2. cbv beta in H2.
  pose proof (forallb_range _ _ H2 k' ltac:(lia)) as H3. cbv beta in H3.
  clear Hall H1 H2. unfold check in H3. clear check.
  repeat (apply andb_prop in H3 as [H3 ?]).
  split; [lia|]. split; [lia|]. split; [lia|]. split; [lia|]. split; [|split].
  - intros Hle. assert ((k <=? k') = true) as E by (apply Z.leb_le; lia).
    rewrite E in *. cbn [implb] in *. lia.
  - intros Hlt Hfix.
    assert ((k' <? k) = true) as E by (apply Z.ltb_lt; lia).
    assert ((Z.land x (octet k') =? x) = true) as E' by (apply Z.eqb_eq; exact Hfix).
    rewrite E, E' in *. cbn [implb andb] in *.
    intros Heq. apply Z.eqb_eq in Heq. rewrite Heq in *. discriminate.
  - intros ->. cbn [Z.eqb Pos.eqb implb] in *. lia.
Qed.

Lemma octet_mask_facts (x n n' : Z) :
  0 <= x <= 255 -> n <= 53 -> n' <= 53 ->
  (0 <= octet n <= 255)
  /\ (0 <= Z.land x (octet n) <= 255)
  /\ (0 <= Z.lor x (inverted (octet n)) <= 255)
  /\ Z.lor x (inverted (octet n)) = Z.land x (octet n) + (255 - octet n)
  /\ (n <= n' -> Z.land (Z.lor x (inverted (octet n'))) (octet n) = Z.land x (octet n))
  /\ (0 <= n' < 8 -> n' < n -> Z.land x (octet n') = x ->
      Z.land (Z.lor x (inverted (octet n'))) (octet n) <> Z.land x (octet n))
  /\ (8 <= n -> Z.land x (octet n) = x).
Proof.
  intros Hx Hn Hn'. rewrite (octet_clamp n Hn), (octet_clamp n' Hn').
  destruct (octet_mask_table x (Z.max 0 (Z.min 8 n)) (Z.max 0 (Z.min 8 n'))
              Hx ltac:(lia) ltac:(lia)) as (H1 & H2 & H3 & H4 & H5 & H6 & H7).
  split; [exact H1|]. split; [exact H2|]. split; [exact H3|]. split; [exact H4|].
  split; [|split].
  - intros H. apply H5. lia.
  - intros H H'. apply H6. lia.
  - intros H. apply H7. lia.
Qed.

(** ** The four octets together *)

Local Abbreviation maskedBits0 x m := (octetwise Z.land x m).
Local Abbreviation maskedBits1 x m := (octetwise (fun a b => Z.lor a (Z.lxor b 255)) x m).

Lemma octets_eqb_eq (x y : Z * Z * Z * Z) : octets_eqb x y = true <-> x = y.
Proof.
  destruct x as [[[a1 a2] a3] a4], y as [[[b1 b2] b3] b4]. unfold octets_eqb.
  rewrite !andb_true_iff, !Z.eqb_eq. split.
  - intros [[[-> ->] ->] ->]. reflexivity.
  - intros E. injection E as -> -> -> ->. auto.
Qed.

Lemma dotted_octets_eqb (x y : Z * Z * Z * Z) :
  isOctets x -> isOctets y -> String.eqb (dotted x) (dotted y) = octets_eqb x y.
Proof.
  intros Hx Hy. destruct (octets_eqb x y) eqn:E.
  - apply octets_eqb_eq in E. subst. apply String.eqb_refl.
  - apply not_true_is_false. intros H. apply (dotted_eqb x y Hx Hy) in H.
    apply octets_eqb_eq in H. congruence.
Qed.

Lemma prefixMask_isOctets (p : Z) : p <= 53 -> isOctets (prefixMask p).
Proof.
  intros Hp. unfold prefixMask, isOctets, isOctet.
  destruct (octet_mask_facts 0 p p ltac:(lia) Hp Hp) as (H1 & _).
  destruct (octet_mask_facts 0 (p - 8) p ltac:(lia) ltac:(lia) Hp) as (H2 & _).
  destruct (octet_mask_facts 0 (p - 16) p ltac:(lia) ltac:(lia) Hp) as (H3 & _).
  destruct (octet_mask_facts 0 (p - 24) p ltac:(lia) ltac:(lia) Hp) as (H4 & _).
  auto.
Qed.

Lemma masked_isOctets (x : Z * Z * Z * Z) (p : Z) :
  isOctets x -> p <= 53 ->
  isOctets (maskedBits0 x (prefixMask p)) /\ isOctets (maskedBits1 x (prefixMask p)).
Proof.
  destruct x as [[[x1 x2] x3] x4]. intros (H1 & H2 & H3 & H4) Hp.
  unfold prefixMask, octetwise, isOctets, isOctet in *.
  destruct (octet_mask_facts x1 p p H1 Hp Hp) as (_ & A1 & B1 & _).
  destruct (octet_mask_facts x2 (p - 8) p H2 ltac:(lia) Hp) as (_ & A2 & B2 & _).
  destruct (octet_mask_facts x3 (p - 16) p H3 ltac:(lia) Hp) as (_ & A3 & B3 & _).
  destruct (octet_mask_facts x4 (p - 24) p H4 ltac:(lia) Hp) as (_ & A4 & B4 & _).
  auto 10.
Qed.

(** Equality under the inverted mask is equality under the mask. *)
Lemma maskedBits1_eqb (x y : Z * Z * Z * Z) (q : Z) :
  isOctets x -> isOctets y -> q <= 53 ->
  octets_eqb (maskedBits1 x (prefixMask q)) (maskedBits1 y (prefixMask q))
  = octets_eqb (maskedBits0 x (prefixMask q)) (maskedBits0 y (prefixMask q)).
Proof.
  destruct x as [[[x1 x2] x3] x4], y as [[[y1 y2] y3] y4].
  intros (H1 & H2 & H3 & H4) (G1 & G2 & G3 & G4) Hq.
  unfold prefixMask, octetwise, octets_eqb, isOctet in *.
  destruct (octet_mask_facts x1 q q H1 Hq Hq) as (_ & _ & _ & -> & _).
  destruct (octet_mask_facts x2 (q - 8) q H2 ltac:(lia) Hq) as (_ & _ & _ & -> & _).
  destruct (octet_mask_facts x3 (q - 16) q H3 ltac:(lia) Hq) as (_ & _ & _ & -> & _).
  destruct (octet_mask_facts x4 (q - 24) q H4 ltac:(lia) Hq) as (_ & _ & _ & -> & _).
  destruct (octet_mask_facts y1 q q G1 Hq Hq) as (_ & _ & _ & -> & _).
  destruct (octet_mask_facts y2 (q - 8) q G2 ltac:(lia) Hq) as (_ & _ & _ & -> & _).
  destruct (octet_mask_facts y3 (q - 16) q G3 ltac:(lia) Hq) as (_ & _ & _ & -> & _).
  destruct (octet_mask_facts y4 (q - 24) q G4 ltac:(lia) Hq) as (_ & _ & _ & -> & _).
  assert (E : forall a b c, (a + c =? b + c) = (a =? b)).
  { intros a b c. destruct (Z.eqb_spec a b), (Z.eqb_spec (a + c) (b + c)); lia. }
  now rewrite !E.
Qed.

(** A mask no longer than the prefix does not see the host bits. *)
Lemma maskedBits0_broadcast (x : Z * Z * Z * Z) (p q : Z) :
  isOctets x -> q <= p -> p <= 53 ->
  maskedBits0 (maskedBits1 x (prefixMask p)) (prefixMask q)
  = maskedBits0 x (prefixMask q).
Proof.
  destruct x as [[[x1 x2] x3] x4]. intros (H1 & H2 & H3 & H4) Hqp Hp.
  unfold prefixMask, octetwise, isOctet in *.
  destruct (octet_mask_facts x1 q p H1 ltac:(lia) Hp) as (_ & _ & _ & _ & R1 & _). rewrite R1 by lia.
  destruct (octet_mask_facts x2 (q - 8) (p - 8) H2 ltac:(lia) ltac:(lia))
    as (_ & _ & _ & _ & R2 & _). rewrite R2 by lia.
  destruct (octet_mask_facts x3 (q - 16) (p - 16) H3 ltac:(lia) ltac:(lia))
    as (_ & _ & _ & _ & R3 & _). rewrite R3 by lia.
  destruct (octet_mask_facts x4 (q - 24) (p - 24) H4 ltac:(lia) ltac:(lia))
    as (_ & _ & _ & _ & R4 & _). rewrite R4 by lia.
  reflexivity.
Qed.

(** A longer mask tells the broadcast address of a network from its
    network address. *)
Lemma maskedBits0_broadcast_differs (x : Z * Z * Z * Z) (p q : Z) :
  isOctets x -> 0 <= p -> p < q -> q <= 32 ->
  maskedBits0 x (prefixMask p) = x ->
  maskedBits0 (maskedBits1 x (prefixMask p)) (prefixMask q)
  <> maskedBits0 x (prefixMask q).
Proof.
  destruct x as [[[x1 x2] x3] x4]. intros (H1 & H2 & H3 & H4) Hp Hpq Hq.
  unfold prefixMask, octetwise, isOctet in *.
  intros Hfix Heq. injection Hfix as F1 F2 F3 F4. injection Heq as E1 E2 E3 E4.
  destruct (Z.lt_ge_cases p 8) as [C1|C1].
  { destruct (octet_mask_facts x1 q p H1 ltac:(lia) ltac:(lia))
      as (_ & _ & _ & _ & _ & N & _). apply N; [lia | lia | exact F1 | exact E1]. }
  destruct (Z.lt_ge_cases p 16) as [C2|C2].
  { destruct (octet_mask_facts x2 (q - 8) (p - 8) H2 ltac:(lia) ltac:(lia))
      as (_ & _ & _ & _ & _ & N & _). apply N; [lia | lia | exact F2 | exact E2]. }
  destruct (Z.lt_ge_cases p 24) as [C3|C3].
  { destruct (octet_mask_facts x3 (q - 16) (p - 16) H3 ltac:(lia) ltac:(lia))
      as (_ & _ & _ & _ & _ & N & _). apply N; [lia | lia | exact F3 | exact E3]. }
  destruct (octet_mask_facts x4 (q - 24) (p - 24) H4 ltac:(lia) ltac:(lia))
    as (_ & _ & _ & _ & _ & N & _). apply N; [lia | lia | exact F4 | exact E4].
Qed.

Lemma maskedBits0_full (x : Z * Z * Z * Z) (p : Z) :
  isOctets x -> 32 <= p -> p <= 53 -> maskedBits0 x (prefixMask p) = x.
Proof.
  destruct x as [[[x1 x2] x3] x4]. intros (H1 & H2 & H3 & H4) Hp Hp'.
  unfold prefixMask, octetwise, isOctet in *.
  destruct (octet_mask_facts x1 p p H1 Hp' Hp') as (_ & _ & _ & _ & _ & _ & R5). rewrite R5 by lia.
  destruct (octet_mask_facts x2 (p - 8) p H2 ltac:(lia) Hp')
    as (_ & _ & _ & _ & _ & _ & R6). rewrite R6 by lia.
  destruct (octet_mask_facts x3 (p - 16) p H3 ltac:(lia) Hp')
    as (_ & _ & _ & _ & _ & _ & R7). rewrite R7 by lia.
  destruct (octet_mask_facts x4 (p - 24) p H4 ltac:(lia) Hp')
    as (_ & _ & _ & _ & _ & _ & R8). rewrite R8 by lia.
  reflexivity.
Qed.

(** ** From the strings to the octets *)

Lemma octetsOf_isOctets (s : string) : isOctets (octetsOf s).
Proof.
  unfold octetsOf, isOctets, isOctet.
  assert (H : forall x, 0 <= toUint8 x <= 255).
  { intros [|z|b]; cbn; [lia | | lia]. pose proof (Z.mod_pos_bound z 256). lia. }
  auto.
Qed.

Lemma getIPv4NetMaskFromPrefixLength_dotted (p : Z) :
  0 <= p <= 32 -> getIPv4NetMaskFromPrefixLength (Int p) = dotted (prefixMask p).
Proof.
  intros Hp.
  assert (Hall : forallb (fun p => String.eqb (getIPv4NetMaskFromPrefixLength (Int p))
                                     (dotted (prefixMask p)))
                   (map Z.of_nat (seq 0 33)) = true) by (vm_compute; reflexivity).
  apply String.eqb_eq. apply (forallb_range _ _ Hall p). lia.
Qed.

Lemma octetsValue_inj (x y : Z * Z * Z * Z) :
  isOctets x -> isOctets y -> octetsValue x = octetsValue y -> x = y.
Proof.
  destruct x as [[[x1 x2] x3] x4], y as [[[y1 y2] y3] y4].
  unfold isOctets, isOctet, octetsValue.
  intros (H1 & H2 & H3 & H4) (G1 & G2 & G3 & G4) E.
  assert (x1 = y1) by lia. assert (x2 = y2) by lia.
  assert (x3 = y3) by lia. assert (x4 = y4) by lia. congruence.
Qed.

Lemma octetsValue_prefixMask (q : Z) :
  0 <= q <= 32 -> octetsValue (prefixMask q) = contiguousMask q.
Proof.
  intros Hq.
  assert (Hall : forallb (fun q => octetsValue (prefixMask q) =? contiguousMask q)
                   (map Z.of_nat (seq 0 33)) = true) by (vm_compute; reflexivity).
  apply Z.eqb_eq. apply (forallb_range _ _ Hall q). lia.
Qed.

Lemma contiguous_mask_octets (M : string) (q : Z) :
  0 <= q <= 32 -> maskValue M = contiguousMask q -> octetsOf M = prefixMask q.
Proof.
  intros Hq H. apply octetsValue_inj.
  - apply octetsOf_isOctets.
  - apply prefixMask_isOctets. lia.
  - now rewrite octetsValue_prefixMask.
Qed.

Lemma getPrefixLengthFromIPv4NetMask_contiguous (M : string) (q : Z) :
  0 <= q <= 32 -> maskValue M = contiguousMask q ->
  getPrefixLengthFromIPv4NetMask M = q.
Proof.
  intros Hq H. unfold getPrefixLengthFromIPv4NetMask.
  rewrite (contiguous_mask_octets M q Hq H).
  assert (Hall : forallb (fun q =>
                   (let '(m0, m1, m2, m3) := prefixMask q in
                    fold_left (fun intPrefixLength bytMask =>
                                 countOctetBits 8 bytMask intPrefixLength)
                      [m0; m1; m2; m3] 0) =? q)
                   (map Z.of_nat (seq 0 33)) = true) by (vm_compute; reflexivity).
  apply Z.eqb_eq. apply (forallb_range _ _ Hall q). lia.
Qed.

Lemma split_cidr (a b : string) :
  noChar "/" a = true -> noChar "/" b = true ->
  split (a +:+ "/" +:+ b) "/" = [a; b].
Proof.
  intros Ha Hb.
  change (a +:+ "/" +:+ b) with (a +:+ String "/" ("" +:+ b)).
  rewrite string_app_nil_l, (split_sep "/" a b Ha), (split_nosep "/" b Hb).
  reflexivity.
Qed.

Lemma toString_prefix (p : Z) :
  0 <= p <= 32 -> noChar "/" (toString p) = true /\ parseInt (toString p) = Int p.
Proof.
  intros Hp.
  destruct (printsWell_facts p (printsWell_small p ltac:(lia))) as (H1 & _ & _ & H2 & _).
  auto.
Qed.

(** ** The two predicates *)

(** C6 as stated fails on a test token whose octets are not in canonical
    decimal form: the wildcard predicate compares masked octets, the segment
    predicate compares the text of a host address. *)
Lemma leading_zero_token_separates_wildcard_and_segment :
  maskValue "255.255.255.255" = contiguousMask 32
  /\ getPrefixLengthFromIPv4NetMask "255.255.255.255" = 32
  /\ isIPv4WithPrefixLengthIncludedInFortinetWildcardAddr
       "192.168.0.01/32" "192.168.0.1/255.255.255.255" = true
  /\ isIPv4WithPrefixLengthIncludedInSegment "192.168.0.01/32" "192.168.0.1/32" = false.
Proof.
  split; [vm_compute; reflexivity|]. split; [vm_compute; reflexivity|].
  split; vm_compute; reflexivity.
Qed.

(** C6 (amended): for a test token in canonical form (decimal octets
    [0..255] and a prefix length [0..32]), a base address [A] and a netmask
    [M] whose 32-bit form is [q] one bits followed by zero bits only, the
    script reads [q] as the prefix length of [M], and the Fortinet wildcard
    predicate on [A/M] returns what the segment predicate returns on [A/q]. *)
Theorem wildcard_netmask_agrees_with_segment (t : Z * Z * Z * Z) (p q : Z)
    (A M : string) :
  isOctets t -> 0 <= p <= 32 -> 0 <= q <= 32 ->
  noChar "/" A = true -> noChar "/" M = true ->
  maskValue M = contiguousMask q ->
  getPrefixLengthFromIPv4NetMask M = q
  /\ isIPv4WithPrefixLengthIncludedInFortinetWildcardAddr
       (cidrText t p) (A +:+ "/" +:+ M)
     = isIPv4WithPrefixLengthIncludedInSegment
         (cidrText t p) (A +:+ "/" +:+ toString q).
Proof.
  intros Ht Hp Hq HA HM Hmask.
  split; [exact (getPrefixLengthFromIPv4NetMask_contiguous M q Hq Hmask)|].
  destruct (toString_prefix p Hp) as (Hp1 & Hp2).
  destruct (toString_prefix q Hq) as (Hq1 & Hq2).
  pose proof (contiguous_mask_octets M q Hq Hmask) as Hm.
  unfold isIPv4WithPrefixLengthIncludedInFortinetWildcardAddr,
    isIPv4WithPrefixLengthIncludedInSegment, cidrText.
  rewrite (split_cidr (dotted t) (toString p) (noChar_dotted_slash t Ht) Hp1).
  rewrite (split_cidr A M HA HM), (split_cidr A (toString q) HA Hq1).
  cbn [nth lookup list_lookup parseIntOpt].
  rewrite Hp2, Hq2.
  rewrite !getIPv4NetMaskFromPrefixLength_dotted by lia.
  unfold getIPv4StartAddr, getIPv4EndAddr, getBitwiseANDedIPv4Addr,
    getBitwiseORedIPv4AddrWithInvertBits.
  rewrite Hm. clear Hm Hmask HM M.
  pose proof (octetsOf_isOctets A) as Ha. set (a := octetsOf A) in *. clearbody a.
  pose proof (prefixMask_isOctets p ltac:(lia)) as Hmp.
  pose proof (prefixMask_isOctets q ltac:(lia)) as Hmq.
  rewrite !(octetsOf_dotted t Ht), !(octetsOf_dotted _ Hmp), !(octetsOf_dotted _ Hmq).
  destruct (masked_isOctets t p Ht ltac:(lia)) as (Ht0 & Ht1).
  rewrite !(octetsOf_dotted _ Ht0), !(octetsOf_dotted _ Ht1).
  destruct (masked_isOctets t q Ht ltac:(lia)) as (Htq0 & Htq1).
  destruct (masked_isOctets a q Ha ltac:(lia)) as (Haq0 & Haq1).
  destruct (masked_isOctets _ q Ht0 ltac:(lia)) as (Hn0 & Hn1).
  destruct (masked_isOctets _ q Ht1 ltac:(lia)) as (Hb0 & Hb1).
  rewrite (dotted_octets_eqb _ _ Ht0 Ht).
  rewrite (dotted_octets_eqb _ _ Htq0 Haq0), (dotted_octets_eqb _ _ Htq1 Haq1).
  rewrite (dotted_octets_eqb _ _ Hn0 Haq0), (dotted_octets_eqb _ _ Hn1 Haq1).
  rewrite (dotted_octets_eqb _ _ Hb0 Haq0), (dotted_octets_eqb _ _ Hb1 Haq1).
  rewrite !maskedBits1_eqb by (assumption || lia). rewrite !andb_diag.
  cbn [numEq numGt numLt].
  destruct (octets_eqb (maskedBits0 t (prefixMask p)) t) eqn:Hhost;
    cbn [negb]; cbn [numEq numGt numLt].
  - (* the test address is the network address of its prefix *)
    apply octets_eqb_eq in Hhost. rewrite orb_false_r, !Hhost.
    rewrite (dotted_octets_eqb _ _ Ht Haq0).
    destruct (Z.eqb_spec p 32) as [-> | Hp32].
    { destruct (Z.eqb_spec 32 q) as [<- | Hq32].
      - now rewrite (maskedBits0_full t 32 Ht) by lia.
      - destruct (Z.ltb_spec q 32); [reflexivity | lia]. }
    destruct (Z.eqb_spec p q) as [<- | Hpq].
    { rewrite (maskedBits0_broadcast t p p Ht) by lia.
      now rewrite Hhost, !andb_diag. }
    destruct (Z.ltb_spec q p) as [Hlt | Hge].
    { rewrite (maskedBits0_broadcast t p q Ht) by lia. now rewrite !andb_diag. }
    destruct (octets_eqb (maskedBits0 t (prefixMask q)) _) eqn:E1; [|reflexivity].
    destruct (octets_eqb (maskedBits0 (maskedBits1 _ _) _) _) eqn:E2; [|reflexivity].
    exfalso. apply octets_eqb_eq in E1, E2.
    apply (maskedBits0_broadcast_differs t p q Ht); [lia | lia | lia | exact Hhost |].
    congruence.
  - (* the test address is a host address *)
    rewrite orb_true_r, (dotted_octets_eqb _ _ Ht Haq0).
    destruct (Z.eqb_spec 32 q) as [<- | Hq32].
    + now rewrite (maskedBits0_full t 32 Ht) by lia.
    + destruct (Z.ltb_spec q 32); [reflexivity | lia].
Qed.

Lemma wildcard_netmask_agrees_with_segment_witness :
  getPrefixLengthFromIPv4NetMask "255.255.255.0" = 24
  /\ isIPv4WithPrefixLengthIncludedInFortinetWildcardAddr
       "192.168.0.17/32" "192.168.0.0/255.255.255.0"
     = isIPv4WithPrefixLengthIncludedInSegment "192.168.0.17/32" "192.168.0.0/24".
Proof.
  apply (wildcard_netmask_agrees_with_segment
           (192, 168, 0, 17) 32 24 "192.168.0.0" "255.255.255.0").
  - unfold isOctets, isOctet. lia.
  - lia.
  - lia.
  - reflexivity.
  - reflexivity.
  - vm_compute. reflexivity.
Defined.

(** * Addresses as numbers *)

Lemma octet_land_div (x n : Z) :
  0 <= x <= 255 -> n <= 53 ->
  Z.land x (octet n) = 2 ^ (8 - Z.max 0 (Z.min 8 n)) * (x / 2 ^ (8 - Z.max 0 (Z.min 8 n))).
Proof.
  intros Hx Hn. rewrite (octet_clamp n Hn).
  set (k := Z.max 0 (Z.min 8 n)). assert (Hk : 0 <= k < 9) by lia. clearbody k.
  assert (Hall : forallb (fun x =>
                   forallb (fun k =>
                     Z.land x (octet k) =? 2 ^ (8 - k) * (x / 2 ^ (8 - k)))
                     (map Z.of_nat (seq 0 9)))
                   (map Z.of_nat (seq 0 256)) = true)
    by (vm_compute; reflexivity).
  pose proof (forallb_range _ _ Hall x ltac:(lia)) as H1. cbv beta in H1.
  pose proof (forallb_range _ _ H1 k ltac:(lia)) as H2. cbv beta in H2.
  now apply Z.eqb_eq.
Qed.

Ltac eval_powers :=
  repeat match goal with
         | |- context [Z.of_nat ?n] =>
             let v := eval vm_compute in (Z.of_nat n) in
             progress change (Z.of_nat n) with v
         end;
  repeat match goal with
         | |- context [Z.pow 2 ?e] =>
             let v := eval vm_compute in (Z.pow 2 e) in
             progress change (Z.pow 2 e) with v
         end.

(** Masking the octets with a netmask rounds the address down to the
    subnet boundary. *)
Lemma octetsValue_maskedBits0 (x : Z * Z * Z * Z) (q : Z) :
  isOctets x -> 0 <= q <= 32 ->
  octetsValue (maskedBits0 x (prefixMask q))
  = 2 ^ (32 - q) * (octetsValue x / 2 ^ (32 - q)).
Proof.
  destruct x as [[[x1 x2] x3] x4]. intros (H1 & H2 & H3 & H4) Hq.
  unfold prefixMask, octetwise, octetsValue, isOctet in *.
  rewrite (octet_land_div x1 q H1), (octet_land_div x2 (q - 8) H2),
    (octet_land_div x3 (q - 16) H3), (octet_land_div x4 (q - 24) H4) by lia.
  assert (Hn : exists n : nat, q = Z.of_nat n /\ (n <= 32)%nat)
    by (exists (Z.to_nat q); lia).
  destruct Hn as (n & -> & Hn). clear Hq.
  do 33 (destruct n as [|n];
         [clear Hn; eval_powers; Z.div_mod_to_equations; lia|]).
  lia.
Qed.

Lemma octetsValue_bounds (x : Z * Z * Z * Z) :
  isOctets x -> 0 <= octetsValue x < 2 ^ 32.
Proof.
  destruct x as [[[x1 x2] x3] x4]. unfold isOctets, isOctet, octetsValue. lia.
Qed.

(** The inverted mask fills the address up to the end of the subnet. *)
Lemma octetsValue_maskedBits1 (x : Z * Z * Z * Z) (q : Z) :
  isOctets x -> 0 <= q <= 32 ->
  octetsValue (maskedBits1 x (prefixMask q))
  = 2 ^ (32 - q) * (octetsValue x / 2 ^ (32 - q)) + 2 ^ (32 - q) - 1.
Proof.
  intros Hx Hq. rewrite <- (octetsValue_maskedBits0 x q Hx Hq).
  pose proof (octetsValue_prefixMask q Hq) as Hm. unfold contiguousMask in Hm.
  destruct x as [[[x1 x2] x3] x4]. destruct Hx as (H1 & H2 & H3 & H4).
  unfold prefixMask, octetwise, octetsValue, isOctet in *.
  destruct (octet_mask_facts x1 q q H1 ltac:(lia) ltac:(lia)) as (_ & _ & _ & -> & _).
  destruct (octet_mask_facts x2 (q - 8) q H2 ltac:(lia) ltac:(lia)) as (_ & _ & _ & -> & _).
  destruct (octet_mask_facts x3 (q - 16) q H3 ltac:(lia) ltac:(lia)) as (_ & _ & _ & -> & _).
  destruct (octet_mask_facts x4 (q - 24) q H4 ltac:(lia) ltac:(lia)) as (_ & _ & _ & -> & _).
  lia.
Qed.

Lemma round_down_mod (v q : Z) :
  0 <= q <= 32 -> 2 ^ (32 - q) * (v / 2 ^ (32 - q)) = v - v mod 2 ^ (32 - q).
Proof.
  intros Hq. assert (0 < 2 ^ (32 - q)) by (apply Z.pow_pos_nonneg; lia).
  pose proof (Z.div_mod v (2 ^ (32 - q)) ltac:(lia)). lia.
Qed.

(** An address is the network address of its prefix exactly when its value
    is a multiple of the size of the subnet. *)
Lemma network_address_aligned (t : Z * Z * Z * Z) (p : Z) :
  isOctets t -> 0 <= p <= 32 ->
  octets_eqb (maskedBits0 t (prefixMask p)) t = (octetsValue t mod 2 ^ (32 - p) =? 0).
Proof.
  intros Ht Hp.
  destruct (masked_isOctets t p Ht ltac:(lia)) as (Ht0 & _).
  pose proof (octetsValue_maskedBits0 t p Ht Hp) as Hv.
  rewrite round_down_mod in Hv by lia.
  destruct (Z.eqb_spec (octetsValue t mod 2 ^ (32 - p)) 0) as [E | E].
  - apply octets_eqb_eq, octetsValue_inj; [assumption | assumption | lia].
  - apply not_true_is_false. intros H. apply octets_eqb_eq in H.
    rewrite H in Hv. lia.
Qed.

Lemma toIPv4AddrInteger_octetsValue (o : Z * Z * Z * Z) :
  isOctets o -> toIPv4AddrInteger (dotted o) = Int (octetsValue o).
Proof.
  destruct o as [[[a b] c] d]. intros H.
  now rewrite (toIPv4AddrInteger_dotted a b c d H).
Qed.

Lemma toIPv4AddrString_octetsOfValue (a : Z) :
  0 <= a < 2 ^ 32 ->
  toIPv4AddrString a = dotted (octetsOfValue a)
  /\ isOctets (octetsOfValue a) /\ octetsValue (octetsOfValue a) = a.
Proof.
  intros Ha. destruct (toIPv4AddrString_octets a Ha) as [E Ho].
  split; [exact E|]. split; [exact Ho|].
  unfold octetsOfValue, octetsValue. pose proof (octets_sum a Ha). lia.
Qed.

(** ** Conversions between addresses, numbers and netmasks *)

(** X1: printing a number as an address and reading it back gives the
    number modulo [2^32]: within 32 bits the number itself. *)
Theorem address_string_of_integer_reads_back (n : Z) :
  toIPv4AddrInteger (toIPv4AddrString n) = Int (n mod 2 ^ 32).
Proof.
  assert (H : toIPv4AddrString n = toIPv4AddrString (n mod 2 ^ 32)).
  { unfold toIPv4AddrString. cbv zeta. rewrite Z.mod_mod by lia.
    replace (Z.land (n mod 2 ^ 32) 255) with (Z.land n 255); [reflexivity|].
    change 255 with (Z.ones 8). rewrite !Z.land_ones by lia.
    change (2 ^ 32) with 4294967296. change (2 ^ 8) with 256.
    Z.div_mod_to_equations. lia. }
  rewrite H. apply toIPv4AddrInteger_toIPv4AddrString.
  apply Z.mod_pos_bound. lia.
Qed.

(** X2: an address in canonical decimal form is read as the number of its
    octets, and that number is printed as the same address. *)
Theorem canonical_address_round_trip (o : Z * Z * Z * Z) :
  isOctets o ->
  toIPv4AddrInteger (dotted o) = Int (octetsValue o)
  /\ toIPv4AddrString (octetsValue o) = dotted o.
Proof.
  intros Ho. split; [now apply toIPv4AddrInteger_octetsValue|].
  destruct (toIPv4AddrString_octetsOfValue (octetsValue o) (octetsValue_bounds o Ho))
    as (E & Ho' & Hv).
  rewrite E. f_equal. now apply octetsValue_inj.
Qed.

Lemma canonical_address_round_trip_witness :
  toIPv4AddrInteger "192.168.0.1" = Int 3232235521
  /\ toIPv4AddrString 3232235521 = "192.168.0.1".
Proof.
  apply (canonical_address_round_trip (192, 168, 0, 1)).
  unfold isOctets, isOctet. lia.
Defined.

Lemma maskValue_of_prefix (p : Z) :
  0 <= p <= 32 -> maskValue (getIPv4NetMaskFromPrefixLength (Int p)) = contiguousMask p.
Proof.
  intros Hp. unfold maskValue.
  rewrite getIPv4NetMaskFromPrefixLength_dotted by lia.
  rewrite octetsOf_dotted by (apply prefixMask_isOctets; lia).
  now apply octetsValue_prefixMask.
Qed.

(** X3: the netmask of a prefix length from 0 to 32 has that many one bits
    followed by zero bits only, and is read back as the prefix length, also
    when an address is put in CIDR form. *)
Theorem netmask_of_prefix_length_round_trip (p : Z) (strIPv4Addr : string) :
  0 <= p <= 32 ->
  maskValue (getIPv4NetMaskFromPrefixLength (Int p)) = 2 ^ 32 - 2 ^ (32 - p)
  /\ getPrefixLengthFromIPv4NetMask (getIPv4NetMaskFromPrefixLength (Int p)) = p
  /\ getIPv4AddrWithPrefixLength strIPv4Addr (getIPv4NetMaskFromPrefixLength (Int p))
     = strIPv4Addr +:+ "/" +:+ toString p.
Proof.
  intros Hp. pose proof (maskValue_of_prefix p Hp) as Hm.
  pose proof (getPrefixLengthFromIPv4NetMask_contiguous _ p Hp Hm) as Hl.
  split; [exact Hm|]. split; [exact Hl|].
  unfold getIPv4AddrWithPrefixLength. now rewrite Hl.
Qed.

Lemma netmask_of_prefix_length_round_trip_witness :
  maskValue (getIPv4NetMaskFromPrefixLength (Int 24)) = 2 ^ 32 - 2 ^ (32 - 24)
  /\ getPrefixLengthFromIPv4NetMask (getIPv4NetMaskFromPrefixLength (Int 24)) = 24
  /\ getIPv4AddrWithPrefixLength "192.168.0.1" (getIPv4NetMaskFromPrefixLength (Int 24))
     = "192.168.0.1" +:+ "/" +:+ toString 24.
Proof. apply (netmask_of_prefix_length_round_trip 24 "192.168.0.1"). lia. Defined.

Lemma countOctetBits_acc (j : nat) : forall bytMask n,
  countOctetBits j bytMask n = n + countOctetBits j bytMask 0.
Proof.
  induction j as [|j IH]; intros bytMask n; cbn [countOctetBits]; [lia|].
  destruct (2 ^ Z.of_nat j <=? bytMask).
  - rewrite (IH _ (n + 1)), (IH _ (0 + 1)). lia.
  - destruct (bytMask =? 0); [lia | apply IH].
Qed.

Lemma countOctetBits_ones (b : Z) :
  0 <= b <= 255 -> countOctetBits 8 b 0 = octetOnes b /\ 0 <= octetOnes b <= 8.
Proof.
  intros Hb.
  assert (Hall : forallb (fun b => (countOctetBits 8 b 0 =? octetOnes b)
                                   && (0 <=? octetOnes b) && (octetOnes b <=? 8))
                   (map Z.of_nat (seq 0 256)) = true) by (vm_compute; reflexivity).
  pose proof (forallb_range _ _ Hall b ltac:(lia)) as H. cbv beta in H.
  apply andb_prop in H as [H H3]. apply andb_prop in H as [H1 H2]. lia.
Qed.

(** X4: for any netmask string, contiguous or not, the prefix length read
    from it is the number of one bits of its four octets (the early exit of
    the loop loses none), a number from 0 to 32. *)
Theorem prefix_length_counts_one_bits (strIPv4NetMask : string) :
  let '(m0, m1, m2, m3) := octetsOf strIPv4NetMask in
  getPrefixLengthFromIPv4NetMask strIPv4NetMask
  = octetOnes m0 + octetOnes m1 + octetOnes m2 + octetOnes m3
  /\ 0 <= getPrefixLengthFromIPv4NetMask strIPv4NetMask <= 32.
Proof.
  unfold getPrefixLengthFromIPv4NetMask.
  pose proof (octetsOf_isOctets strIPv4NetMask) as H.
  destruct (octetsOf strIPv4NetMask) as [[[m0 m1] m2] m3].
  destruct H as (H0 & H1 & H2 & H3). unfold isOctet in *.
  cbn [fold_left].
  rewrite (countOctetBits_acc 8 m3), (countOctetBits_acc 8 m2),
    (countOctetBits_acc 8 m1).
  destruct (countOctetBits_ones m0 H0) as (-> & ?).
  destruct (countOctetBits_ones m1 H1) as (-> & ?).
  destruct (countOctetBits_ones m2 H2) as (-> & ?).
  destruct (countOctetBits_ones m3 H3) as (-> & ?).
  lia.
Qed.

(** X5: a prefix length outside 0..32 is not refused: at or below 0 the
    netmask is [0.0.0.0], from 32 to 77 it is [255.255.255.255]. *)
Theorem netmask_of_prefix_length_out_of_range (p : Z) :
  (p <= 0 -> getIPv4NetMaskFromPrefixLength (Int p) = "0.0.0.0")
  /\ (32 <= p <= 77 -> getIPv4NetMaskFromPrefixLength (Int p) = "255.255.255.255").
Proof.
  unfold getIPv4NetMaskFromPrefixLength. cbn [numLt numSubInt]. split.
  - intros Hp. destruct (Z.ltb_spec p 8); [|lia].
    unfold getOctetNetMaskFromOctetPrefixLength.
    destruct (Z.leb_spec p 0); [reflexivity | lia].
  - intros Hp.
    destruct (Z.ltb_spec p 8); [lia|]. destruct (Z.ltb_spec p 16); [lia|].
    destruct (Z.ltb_spec p 24); [lia|].
    assert (E : roundInt (p - 24) = Int (p - 24)).
    { unfold roundInt. destruct (Z.ltb_spec (Z.abs (p - 24)) (2 ^ 53)); [reflexivity|].
      change (2 ^ 53) with 9007199254740992 in *. lia. }
    rewrite E. unfold getOctetNetMaskFromOctetPrefixLength.
    destruct (Z.leb_spec (p - 24) 0); [lia|].
    destruct (Z.leb_spec (p - 24) 8) as [H8|H8].
    + assert (p = 32) by lia. subst p. reflexivity.
    + destruct (Z.leb_spec (p - 24) 53); [reflexivity | lia].
Qed.

Lemma netmask_of_prefix_length_out_of_range_witness :
  getIPv4NetMaskFromPrefixLength (Int (-1)) = "0.0.0.0"
  /\ getIPv4NetMaskFromPrefixLength (Int 40) = "255.255.255.255".
Proof.
  split.
  - apply (netmask_of_prefix_length_out_of_range (-1)). lia.
  - apply (netmask_of_prefix_length_out_of_range 40). lia.
Defined.

(** X6: for an address in canonical form and a prefix length from 0 to 32,
    the start address is the address rounded down to a multiple of the
    subnet size, and the end address is the last address of that subnet. *)
Theorem start_and_end_address_of_subnet (t : Z * Z * Z * Z) (p : Z) :
  isOctets t -> 0 <= p <= 32 ->
  let strIPv4NetMask := getIPv4NetMaskFromPrefixLength (Int p) in
  toIPv4AddrInteger (getIPv4StartAddr (dotted t) strIPv4NetMask)
  = Int (octetsValue t - octetsValue t mod 2 ^ (32 - p))
  /\ toIPv4AddrInteger (getIPv4EndAddr (dotted t) strIPv4NetMask)
     = Int (octetsValue t - octetsValue t mod 2 ^ (32 - p) + 2 ^ (32 - p) - 1).
Proof.
  intros Ht Hp. cbv zeta.
  unfold getIPv4StartAddr, getIPv4EndAddr, getBitwiseANDedIPv4Addr,
    getBitwiseORedIPv4AddrWithInvertBits.
  rewrite getIPv4NetMaskFromPrefixLength_dotted by lia.
  rewrite (octetsOf_dotted t Ht), octetsOf_dotted by (apply prefixMask_isOctets; lia).
  destruct (masked_isOctets t p Ht ltac:(lia)) as (H0 & H1).
  rewrite (toIPv4AddrInteger_octetsValue _ H0), (toIPv4AddrInteger_octetsValue _ H1).
  rewrite octetsValue_maskedBits0, octetsValue_maskedBits1 by assumption.
  now rewrite round_down_mod by lia.
Qed.

Lemma start_and_end_address_of_subnet_witness :
  toIPv4AddrInteger (getIPv4StartAddr "192.168.0.17" "255.255.255.0") = Int 3232235520
  /\ toIPv4AddrInteger (getIPv4EndAddr "192.168.0.17" "255.255.255.0") = Int 3232235775.
Proof.
  apply (start_and_end_address_of_subnet (192, 168, 0, 17) 24);
    [unfold isOctets, isOctet; lia | lia].
Defined.

(** ** Comparisons *)

Lemma compareIPv4_octets (x y : Z * Z * Z * Z) :
  isOctets x -> isOctets y ->
  compareIPv4 (dotted x) (dotted y) = Z.sgn (octetsValue x - octetsValue y).
Proof.
  destruct x as [[[x1 x2] x3] x4], y as [[[y1 y2] y3] y4]. intros Hx Hy.
  unfold compareIPv4.
  rewrite (split_dotted _ _ _ _ Hx), (split_dotted _ _ _ _ Hy).
  destruct Hx as (X1 & X2 & X3 & X4), Hy as (Y1 & Y2 & Y3 & Y4).
  cbn [map lookup list_lookup parseIntOpt].
  destruct (printsWell_facts x1 (printsWell_small x1 X1)) as (-> & _).
  destruct (printsWell_facts x2 (printsWell_small x2 X2)) as (-> & _).
  destruct (printsWell_facts x3 (printsWell_small x3 X3)) as (-> & _).
  destruct (printsWell_facts x4 (printsWell_small x4 X4)) as (-> & _).
  destruct (printsWell_facts y1 (printsWell_small y1 Y1)) as (-> & _).
  destruct (printsWell_facts y2 (printsWell_small y2 Y2)) as (-> & _).
  destruct (printsWell_facts y3 (printsWell_small y3 Y3)) as (-> & _).
  destruct (printsWell_facts y4 (printsWell_small y4 Y4)) as (-> & _).
  unfold compareOctets, octetsValue, isOctet in *.
  cbn [combine fold_right numGt numLt].
  repeat match goal with
         | |- context [?a <? ?b] => destruct (Z.ltb_spec a b)
         end; lia.
Qed.

(** X7: on addresses in canonical form [compareIPv4] is the order of the
    addresses as 32-bit numbers. *)
Theorem compareIPv4_is_numeric_order (x y : Z * Z * Z * Z) :
  isOctets x -> isOctets y ->
  compareIPv4 (dotted x) (dotted y) = Z.sgn (octetsValue x - octetsValue y)
  /\ (compareIPv4 (dotted x) (dotted y) = 0 <-> dotted x = dotted y)
  /\ compareIPv4 (dotted y) (dotted x) = - compareIPv4 (dotted x) (dotted y).
Proof.
  intros Hx Hy.
  rewrite (compareIPv4_octets x y Hx Hy), (compareIPv4_octets y x Hy Hx).
  split; [reflexivity|]. split; [|lia].
  split.
  - intros H. f_equal. apply octetsValue_inj; [assumption | assumption | lia].
  - intros H. apply (dotted_inj x y Hx Hy) in H. subst. lia.
Qed.

Lemma compareIPv4_is_numeric_order_witness :
  compareIPv4 "10.0.0.1" "9.255.255.255" = 1.
Proof.
  destruct (compareIPv4_is_numeric_order (10, 0, 0, 1) (9, 255, 255, 255))
    as (H & _); [unfold isOctets, isOctet; lia | unfold isOctets, isOctet; lia |].
  exact H.
Defined.

Lemma octets_eqb_value (x y : Z * Z * Z * Z) :
  isOctets x -> isOctets y -> octets_eqb x y = (octetsValue x =? octetsValue y).
Proof.
  intros Hx Hy. destruct (Z.eqb_spec (octetsValue x) (octetsValue y)) as [E | E].
  - apply octets_eqb_eq. now apply octetsValue_inj.
  - apply not_true_is_false. intros H. apply octets_eqb_eq in H. now subst.
Qed.

Lemma noChar_dotted_dash (o : Z * Z * Z * Z) :
  isOctets o -> noChar "-" (dotted o) = true.
Proof.
  destruct o as [[[a b] c] d]. intros (Ha & Hb & Hc & Hd). unfold dotted.
  destruct (printsWell_facts a (printsWell_small a Ha)) as (_ & _ & _ & _ & Ha').
  destruct (printsWell_facts b (printsWell_small b Hb)) as (_ & _ & _ & _ & Hb').
  destruct (printsWell_facts c (printsWell_small c Hc)) as (_ & _ & _ & _ & Hc').
  destruct (printsWell_facts d (printsWell_small d Hd)) as (_ & _ & _ & _ & Hd').
  rewrite !noChar_app, Ha', Hb', Hc', Hd'. reflexivity.
Qed.

Lemma split_range (a b : string) :
  noChar "-" a = true -> noChar "-" b = true ->
  split (a +:+ "-" +:+ b) "-" = [a; b].
Proof.
  intros Ha Hb.
  change (a +:+ "-" +:+ b) with (a +:+ String "-" ("" +:+ b)).
  rewrite string_app_nil_l, (split_sep "-" a b Ha), (split_nosep "-" b Hb).
  reflexivity.
Qed.

(** An address lies in the block of size [Q] that starts at [S] exactly when
    rounding it down to a multiple of [Q] gives [S]. *)
Lemma same_block (Q v S : Z) :
  0 < Q -> S mod Q = 0 -> (v - v mod Q = S <-> S <= v <= S + Q - 1).
Proof.
  intros HQ HS. pose proof (Z.mod_pos_bound v Q HQ) as Hb. split; [lia|].
  intros Hv.
  assert (E : v / Q = S / Q).
  { symmetry. apply (Z.div_unique v Q (S / Q) (v - S)); [lia|].
    pose proof (Z.div_mod S Q ltac:(lia)). lia. }
  pose proof (Z.div_mod v Q ltac:(lia)). pose proof (Z.div_mod S Q ltac:(lia)).
  rewrite E in *. lia.
Qed.

Lemma aligned_room (P Q v : Z) :
  0 < P -> (P | Q) -> 0 < Q -> v mod P = 0 -> v mod Q + P <= Q.
Proof.
  intros HP [r Hr] HQ Hv.
  pose proof (Z.mod_pos_bound v Q HQ) as Hb.
  assert (Hd : (P | v mod Q)).
  { rewrite Z.mod_eq by lia. apply Z.divide_sub_r.
    - apply Z.mod_divide; [lia | exact Hv].
    - subst Q. apply Z.divide_mul_l. exists r. reflexivity. }
  destruct Hd as [k Hk]. rewrite Hk in *. clear Hk Hv. subst Q.
  assert (Hkr : k < r) by (apply (Z.mul_lt_mono_pos_r P); lia).
  replace (k * P + P) with ((k + 1) * P) by ring.
  apply Z.mul_le_mono_nonneg_r; lia.
Qed.

Lemma pow2_block_facts (p q : Z) :
  0 <= p <= 32 -> 0 <= q <= 32 ->
  0 < 2 ^ (32 - p) /\ 0 < 2 ^ (32 - q)
  /\ (q <= p -> (2 ^ (32 - p) | 2 ^ (32 - q)))
  /\ (p < q -> 2 ^ (32 - q) < 2 ^ (32 - p))
  /\ (p = 32 -> 2 ^ (32 - p) = 1).
Proof.
  intros Hp Hq.
  split; [apply Z.pow_pos_nonneg; lia|]. split; [apply Z.pow_pos_nonneg; lia|].
  split; [|split].
  - intros H. exists (2 ^ (p - q)). rewrite <- Z.pow_add_r by lia. f_equal. lia.
  - intros H. apply Z.pow_lt_mono_r; lia.
  - intros ->. reflexivity.
Qed.

Lemma segmentFirst_aligned (a : Z * Z * Z * Z) (q : Z) :
  0 <= q <= 32 -> segmentFirst a q mod 2 ^ (32 - q) = 0.
Proof.
  intros Hq. unfold segmentFirst.
  assert (0 < 2 ^ (32 - q)) by (apply Z.pow_pos_nonneg; lia).
  rewrite <- round_down_mod by lia. rewrite Z.mul_comm. apply Z.mod_mul. lia.
Qed.

Lemma octets_eqb_sym (x y : Z * Z * Z * Z) : octets_eqb x y = octets_eqb y x.
Proof.
  destruct x as [[[x1 x2] x3] x4], y as [[[y1 y2] y3] y4]. unfold octets_eqb.
  now rewrite (Z.eqb_sym x1), (Z.eqb_sym x2), (Z.eqb_sym x3), (Z.eqb_sym x4).
Qed.

(** X8: for a test token and a range in canonical form, the range predicate
    holds exactly when the addresses of the token (its subnet when the
    address is the network address of its prefix, the single address
    otherwise) all lie between the two ends of the range. *)
Theorem range_predicate_is_interval_inclusion (t lo hi : Z * Z * Z * Z) (p : Z) :
  isOctets t -> isOctets lo -> isOctets hi -> 0 <= p <= 32 ->
  isIPv4WithPrefixLengthIncludedInRange (cidrText t p) (dotted lo +:+ "-" +:+ dotted hi)
  = (octetsValue lo <=? tokenFirst t p) && (tokenLast t p <=? octetsValue hi).
Proof.
  intros Ht Hlo Hhi Hp.
  destruct (toString_prefix p Hp) as (Hp1 & Hp2).
  unfold isIPv4WithPrefixLengthIncludedInRange, cidrText.
  rewrite (split_cidr (dotted t) (toString p) (noChar_dotted_slash t Ht) Hp1).
  rewrite (split_range _ _ (noChar_dotted_dash lo Hlo) (noChar_dotted_dash hi Hhi)).
  cbn [nth lookup list_lookup parseIntOpt]. rewrite Hp2.
  rewrite getIPv4NetMaskFromPrefixLength_dotted by lia.
  unfold getIPv4StartAddr, getIPv4EndAddr, getBitwiseANDedIPv4Addr,
    getBitwiseORedIPv4AddrWithInvertBits.
  rewrite (octetsOf_dotted t Ht), octetsOf_dotted by (apply prefixMask_isOctets; lia).
  destruct (masked_isOctets t p Ht ltac:(lia)) as (H0 & H1).
  rewrite (dotted_octets_eqb _ _ Ht H0), octets_eqb_sym.
  rewrite (network_address_aligned t p Ht Hp).
  unfold tokenFirst, tokenLast.
  pose proof (octetsValue_maskedBits0 t p Ht Hp) as V0.
  pose proof (octetsValue_maskedBits1 t p Ht Hp) as V1.
  rewrite round_down_mod in V0, V1 by lia.
  destruct (Z.eqb_spec (octetsValue t mod 2 ^ (32 - p)) 0) as [E | E]; cbn [negb].
  - rewrite (compareIPv4_octets _ lo H0 Hlo), (compareIPv4_octets _ hi H1 Hhi).
    rewrite V0, V1, E.
    destruct (Z.leb_spec (octetsValue lo) (octetsValue t));
      destruct (Z.leb_spec (octetsValue t + 2 ^ (32 - p) - 1) (octetsValue hi));
      destruct (Z.leb_spec 0 (Z.sgn (octetsValue t - 0 - octetsValue lo)));
      destruct (Z.leb_spec (Z.sgn (octetsValue t - 0 + 2 ^ (32 - p) - 1 - octetsValue hi)) 0);
      cbn [andb]; try reflexivity; lia.
  - rewrite (compareIPv4_octets _ lo Ht Hlo), (compareIPv4_octets _ hi Ht Hhi).
    destruct (Z.leb_spec (octetsValue lo) (octetsValue t));
      destruct (Z.leb_spec (octetsValue t) (octetsValue hi));
      destruct (Z.leb_spec 0 (Z.sgn (octetsValue t - octetsValue lo)));
      destruct (Z.leb_spec (Z.sgn (octetsValue t - octetsValue hi)) 0);
      cbn [andb]; try reflexivity; lia.
Qed.

Lemma range_predicate_is_interval_inclusion_witness :
  isIPv4WithPrefixLengthIncludedInRange "192.168.0.0/24" "192.168.0.0-192.168.1.0" = true.
Proof.
  exact (range_predicate_is_interval_inclusion
           (192, 168, 0, 0) (192, 168, 0, 0) (192, 168, 1, 0) 24
           ltac:(unfold isOctets, isOctet; lia) ltac:(unfold isOctets, isOctet; lia)
           ltac:(unfold isOctets, isOctet; lia) ltac:(lia)).
Defined.

(** The segment predicate on a test token in canonical form. *)
Lemma segment_predicate_value (t : Z * Z * Z * Z) (p q : Z) (A : string) :
  isOctets t -> 0 <= p <= 32 -> 0 <= q <= 32 -> noChar "/" A = true ->
  isIPv4WithPrefixLengthIncludedInSegment (cidrText t p) (A +:+ "/" +:+ toString q)
  = (segmentFirst (octetsOf A) q <=? tokenFirst t p)
    && (tokenLast t p <=? segmentLast (octetsOf A) q).
Proof.
  intros Ht Hp Hq HA.
  destruct (toString_prefix p Hp) as (Hp1 & Hp2).
  destruct (toString_prefix q Hq) as (Hq1 & Hq2).
  unfold isIPv4WithPrefixLengthIncludedInSegment, cidrText.
  rewrite (split_cidr (dotted t) (toString p) (noChar_dotted_slash t Ht) Hp1).
  rewrite (split_cidr A (toString q) HA Hq1).
  cbn [nth lookup list_lookup parseIntOpt]. rewrite Hp2, Hq2.
  rewrite !getIPv4NetMaskFromPrefixLength_dotted by lia.
  unfold getIPv4StartAddr, getBitwiseANDedIPv4Addr.
  pose proof (octetsOf_isOctets A) as Ha. set (a := octetsOf A) in *. clearbody a.
  pose proof (prefixMask_isOctets p ltac:(lia)) as Hmp.
  pose proof (prefixMask_isOctets q ltac:(lia)) as Hmq.
  rewrite !(octetsOf_dotted t Ht), !(octetsOf_dotted _ Hmp), !(octetsOf_dotted _ Hmq).
  destruct (masked_isOctets t p Ht ltac:(lia)) as (Ht0 & _).
  destruct (masked_isOctets t q Ht ltac:(lia)) as (Htq & _).
  destruct (masked_isOctets a q Ha ltac:(lia)) as (Haq & _).
  rewrite (dotted_octets_eqb _ _ Ht0 Ht), (dotted_octets_eqb _ _ Htq Haq).
  rewrite (network_address_aligned t p Ht Hp).
  rewrite (octets_eqb_value _ _ Htq Haq).
  pose proof (octetsValue_maskedBits0 t p Ht Hp) as Vp.
  pose proof (octetsValue_maskedBits0 t q Ht Hq) as Vt.
  pose proof (octetsValue_maskedBits0 a q Ha Hq) as Va.
  rewrite round_down_mod in Vp, Vt, Va by lia.
  pose proof (octetsValue_bounds t Ht) as Bt.
  destruct (pow2_block_facts p q Hp Hq) as (HP & HQ & Hdiv & Hlt & Hone).
  destruct (pow2_block_facts q q Hq Hq) as (_ & _ & _ & _ & HoneQ).
  pose proof (segmentFirst_aligned a q Hq) as HS.
  pose proof (same_block (2 ^ (32 - q)) (octetsValue t) (segmentFirst a q) HQ HS) as Hsame.
  unfold tokenFirst, tokenLast, segmentLast. unfold segmentFirst in *.
  rewrite Vt, Va.
  set (tv := octetsValue t) in *. set (av := octetsValue a) in *.
  set (P := 2 ^ (32 - p)) in *. set (Q := 2 ^ (32 - q)) in *.
  destruct (Z.eqb_spec (tv mod P) 0) as [E | E]; cbn [negb]; cbn [numEq numGt numLt].
  - (* a network address *)
    destruct (Z.eqb_spec p q) as [<- | Hpq].
    + rewrite (dotted_octets_eqb _ _ Ht0 Haq), (octets_eqb_value _ _ Ht0 Haq).
      rewrite Vp, Va. fold tv av P.
      destruct (Z.eqb_spec (tv - tv mod P) (av - av mod P));
        destruct (Z.leb_spec (av - av mod P) tv);
        destruct (Z.leb_spec (tv + P - 1) (av - av mod P + P - 1));
        cbn [andb]; try reflexivity; lia.
    + destruct (Z.ltb_spec q p) as [Hqp | Hqp].
      * pose proof (aligned_room P Q tv HP (Hdiv ltac:(lia)) HQ E) as Hroom.
        destruct (Z.eqb_spec (tv - tv mod Q) (av - av mod Q)) as [E1 | E1];
          destruct (Z.leb_spec (av - av mod Q) tv);
          destruct (Z.leb_spec (tv + P - 1) (av - av mod Q + Q - 1));
          cbn [andb]; try reflexivity; lia.
      * specialize (Hlt ltac:(lia)).
        destruct (Z.leb_spec (av - av mod Q) tv);
          destruct (Z.leb_spec (tv + P - 1) (av - av mod Q + Q - 1));
          cbn [andb]; try reflexivity; lia.
  - (* a host address *)
    destruct (Z.eqb_spec 32 q) as [<- | Hq32].
    + rewrite (dotted_octets_eqb _ _ Ht Haq), (octets_eqb_value _ _ Ht Haq).
      rewrite Va. fold tv av. specialize (HoneQ eq_refl). fold Q in HoneQ.
      rewrite HoneQ in *. rewrite !Z.mod_1_r.
      destruct (Z.eqb_spec tv (av - 0));
        destruct (Z.leb_spec (av - 0) tv);
        destruct (Z.leb_spec tv (av - 0 + 1 - 1));
        cbn [andb]; try reflexivity; lia.
    + destruct (Z.ltb_spec q 32); [|lia].
      destruct (Z.eqb_spec (tv - tv mod Q) (av - av mod Q)) as [E1 | E1];
        destruct (Z.leb_spec (av - av mod Q) tv);
        destruct (Z.leb_spec tv (av - av mod Q + Q - 1));
        cbn [andb]; try reflexivity; lia.
Qed.

(** X9: for a test token in canonical form and a stored subnet [A/q] the
    segment predicate holds exactly when the addresses of the token (its
    subnet when the address is the network address of its prefix, the
    single address otherwise) all lie in the subnet of prefix length [q]
    around [A]. *)
Theorem segment_predicate_is_subnet_inclusion (t : Z * Z * Z * Z) (p q : Z)
    (A : string) :
  isOctets t -> 0 <= p <= 32 -> 0 <= q <= 32 -> noChar "/" A = true ->
  isIPv4WithPrefixLengthIncludedInSegment (cidrText t p) (A +:+ "/" +:+ toString q)
  = true
  <-> (forall x, tokenFirst t p <= x <= tokenLast t p ->
                 segmentFirst (octetsOf A) q <= x <= segmentLast (octetsOf A) q).
Proof.
  intros Ht Hp Hq HA. rewrite (segment_predicate_value t p q A Ht Hp Hq HA).
  assert (Hle : tokenFirst t p <= tokenLast t p).
  { unfold tokenFirst, tokenLast.
    assert (0 < 2 ^ (32 - p)) by (apply Z.pow_pos_nonneg; lia).
    destruct (_ =? 0); lia. }
  rewrite andb_true_iff, !Z.leb_le. split.
  - intros [H1 H2] x Hx. lia.
  - intros H. pose proof (H (tokenFirst t p) ltac:(lia)).
    pose proof (H (tokenLast t p) ltac:(lia)). lia.
Qed.

Lemma segment_predicate_is_subnet_inclusion_witness :
  isIPv4WithPrefixLengthIncludedInSegment "192.168.0.16/28" "192.168.0.0/24" = true.
Proof.
  apply (segment_predicate_is_subnet_inclusion (192, 168, 0, 16) 28 24 "192.168.0.0");
    [unfold isOctets, isOctet; lia | lia | lia | reflexivity |].
  replace (tokenFirst (192, 168, 0, 16) 28) with 3232235536 by reflexivity.
  replace (tokenLast (192, 168, 0, 16) 28) with 3232235551 by reflexivity.
  replace (segmentFirst (octetsOf "192.168.0.0") 24) with 3232235520
    by (vm_compute; reflexivity).
  replace (segmentLast (octetsOf "192.168.0.0") 24) with 3232235775
    by (vm_compute; reflexivity).
  lia.
Defined.

(** ** The two wildcard styles *)

Lemma lxor_255_involutive (m : Z) : Z.lxor (Z.lxor m 255) 255 = m.
Proof. now rewrite Z.lxor_assoc, Z.lxor_nilpotent, Z.lxor_0_r. Qed.

Lemma inverted_mask_bitwise (X M W : string) :
  octetsOf W = invertedOctets (octetsOf M) ->
  getBitwiseANDedIPv4AddrWithInvertBits X W = getBitwiseANDedIPv4Addr X M
  /\ getBitwiseORedIPv4Addr X W = getBitwiseORedIPv4AddrWithInvertBits X M.
Proof.
  intros H.
  unfold getBitwiseANDedIPv4AddrWithInvertBits, getBitwiseANDedIPv4Addr,
    getBitwiseORedIPv4Addr, getBitwiseORedIPv4AddrWithInvertBits.
  rewrite H. destruct (octetsOf X) as [[[x1 x2] x3] x4].
  destruct (octetsOf M) as [[[m1 m2] m3] m4].
  unfold invertedOctets, octetwise. now rewrite !lxor_255_involutive.
Qed.

(** X10: a Cisco wildcard, whose mask has one bits where the address is
    free, gives on every test token the verdict of the Fortinet wildcard
    with the inverted mask. *)
Theorem cisco_wildcard_is_inverted_fortinet_wildcard (T A M W : string) :
  noChar "/" A = true -> noChar "/" M = true -> noChar "/" W = true ->
  octetsOf W = invertedOctets (octetsOf M) ->
  isIPv4WithPrefixLengthIncludedInCiscoWildcardAddr T (A +:+ "/" +:+ W)
  = isIPv4WithPrefixLengthIncludedInFortinetWildcardAddr T (A +:+ "/" +:+ M).
Proof.
  intros HA HM HW H.
  unfold isIPv4WithPrefixLengthIncludedInCiscoWildcardAddr,
    isIPv4WithPrefixLengthIncludedInFortinetWildcardAddr.
  rewrite (split_cidr A W HA HW), (split_cidr A M HA HM).
  cbn [nth].
  assert (E0 : forall X, getBitwiseANDedIPv4AddrWithInvertBits X W
                         = getBitwiseANDedIPv4Addr X M)
    by (intros X; apply (inverted_mask_bitwise X M W H)).
  assert (E1 : forall X, getBitwiseORedIPv4Addr X W
                         = getBitwiseORedIPv4AddrWithInvertBits X M)
    by (intros X; apply (inverted_mask_bitwise X M W H)).
  now rewrite !E0, !E1.
Qed.

Lemma cisco_wildcard_is_inverted_fortinet_wildcard_witness :
  isIPv4WithPrefixLengthIncludedInCiscoWildcardAddr "192.168.0.3/32" "192.168.0.1/0.0.0.254"
  = isIPv4WithPrefixLengthIncludedInFortinetWildcardAddr
      "192.168.0.3/32" "192.168.0.1/255.255.255.1".
Proof.
  apply (cisco_wildcard_is_inverted_fortinet_wildcard
           "192.168.0.3/32" "192.168.0.1" "255.255.255.1" "0.0.0.254");
    vm_compute; reflexivity.
Defined.

(** * Ranges and their subnets *)

Lemma pushSegments_form (bound : nat) : forall i seg blockEnd segStart out segStart' r,
  1 <= i <= 32 -> Forall pushedForm out ->
  pushSegments bound i seg blockEnd segStart out = Some (segStart', r) ->
  Forall pushedForm r.
Proof.
  induction bound as [|bound IH]; intros i seg blockEnd segStart out segStart' r Hi Hout;
    cbn [pushSegments]; destruct (_ <=? blockEnd); try discriminate;
    try (intros [= _ <-]; exact Hout).
  apply IH; [exact Hi|]. apply Forall_app. split; [exact Hout|].
  constructor; [|constructor]. exists segStart, i. auto.
Qed.

Lemma subnetLoop_form (rec : Z -> Z -> list string -> option (list string)) :
  (forall s e out r, Forall pushedForm out -> rec s e out = Some r -> Forall pushedForm r) ->
  forall (n : nat) i seg s e out r,
    1 <= i -> i + Z.of_nat n <= 33 -> Forall pushedForm out ->
    subnetLoop rec n i seg s e out = Some r -> Forall pushedForm r.
Proof.
  intros Hrec. induction n as [|n IH]; intros i seg s e out r Hi Hn Hout;
    cbn [subnetLoop]; [intros [= <-]; exact Hout|].
  destruct (_ <=? _); [|apply IH; [lia | lia | exact Hout]].
  destruct (if s <? _ then _ else _) as [out1|] eqn:E1; [|discriminate].
  assert (Hout1 : Forall pushedForm out1).
  { destruct (s <? _); [apply (Hrec _ _ _ _ Hout E1) | now injection E1 as <-]. }
  destruct (pushSegments _ _ _ _ _ out1) as [[segStart out2]|] eqn:E2; [|discriminate].
  assert (Hout2 : Forall pushedForm out2)
    by (apply (pushSegments_form _ i _ _ _ _ _ _ ltac:(lia) Hout1 E2)).
  destruct (_ <? e).
  - destruct (rec _ e out2) as [out3|] eqn:E3; [|discriminate].
    apply IH; [lia | lia | apply (Hrec _ _ _ _ Hout2 E3)].
  - apply IH; [lia | lia | exact Hout2].
Qed.

Lemma makeIPv4SubnetFromRange_form (depth : nat) : forall s e out r,
  Forall pushedForm out ->
  makeIPv4SubnetFromRange depth s e out = Some r -> Forall pushedForm r.
Proof.
  induction depth as [|depth IH]; intros s e out r Hout; [discriminate|].
  rewrite makeIPv4SubnetFromRange_S. unfold makeIPv4SubnetFromRangeBody.
  apply (subnetLoop_form _ IH); [lia | lia | exact Hout].
Qed.

Lemma toIPv4AddrString_mod (n : Z) :
  toIPv4AddrString n = toIPv4AddrString (n mod 2 ^ 32).
Proof.
  unfold toIPv4AddrString. cbv zeta. rewrite Z.mod_mod by lia.
  replace (Z.land (n mod 2 ^ 32) 255) with (Z.land n 255); [reflexivity|].
  change 255 with (Z.ones 8). rewrite !Z.land_ones by lia.
  change (2 ^ 32) with 4294967296. change (2 ^ 8) with 256.
  Z.div_mod_to_equations. lia.
Qed.

(** A pushed string that reads as a subnet is the canonical text of that
    subnet. *)
Lemma pushedForm_canonical (c : string) (base len : Z) :
  pushedForm c -> cidrBlock c = Some (base, len) ->
  c = cidrText (octetsOfValue base) len /\ 0 <= base < 2 ^ 32 /\ 1 <= len <= 32.
Proof.
  intros (a & i & Hi & ->) Hb.
  assert (Ha : 0 <= a mod 2 ^ 32 < 2 ^ 32) by (apply Z.mod_pos_bound; lia).
  rewrite toIPv4AddrString_mod in Hb |- *.
  rewrite (cidrBlock_pushed _ i Ha ltac:(lia)) in Hb. injection Hb as <- <-.
  destruct (toIPv4AddrString_octetsOfValue _ Ha) as (-> & _).
  split; [reflexivity|]. split; [exact Ha | exact Hi].
Qed.

(** The subnets of a range in canonical text, with their bounds. *)
Lemma range_subnets (depth : nat) (s e : Z) :
  0 <= s -> s <= e -> e < 2 ^ 32 -> (Z.to_nat (e - s) < depth)%nat ->
  exists L,
    makeIPv4SubnetFromRange depth s e [] = Some L
    /\ tilesRange L s e
    /\ (forall c, In c L ->
          exists base len,
            c = cidrText (octetsOfValue base) len
            /\ 1 <= len <= 32 /\ base mod 2 ^ (32 - len) = 0
            /\ s <= base /\ base + 2 ^ (32 - len) - 1 <= e
            /\ cidrBlock c = Some (base, len)).
Proof.
  intros Hs Hse He Hd.
  destruct (makeIPv4SubnetFromRange_tiles depth s e [] Hs Hse He Hd) as (L & HL & Ht).
  rewrite app_nil_l in HL. exists L. split; [exact HL|]. split; [exact Ht|].
  pose proof (makeIPv4SubnetFromRange_form depth s e [] L (Forall_nil_2 _) HL) as Hform.
  rewrite Forall_forall in Hform.
  destruct Ht as (Hw & Hc). intros c Hin.
  destruct (Hw c Hin) as ([base len] & Hb & Hlen & Hbase & Hup & Hal).
  destruct (pushedForm_canonical c base len (Hform c ltac:(now apply list_elem_of_In)) Hb)
    as (Hc' & _ & _).
  exists base, len. split; [exact Hc'|]. split; [exact Hlen|]. split; [exact Hal|].
  assert (Hsize : 0 < 2 ^ (32 - len)) by (apply Z.pow_pos_nonneg; lia).
  assert (Hin1 : forall x, base <= x < base + 2 ^ (32 - len) -> s <= x <= e).
  { intros x Hx.
    assert (Hcx : cidrContains c x = true).
    { unfold cidrContains. rewrite Hb. unfold blockContains.
      apply andb_true_iff. split; [apply Z.leb_le | apply Z.ltb_lt]; lia. }
    pose proof (coverCount_In L x c Hin Hcx) as H1. rewrite Hc in H1.
    unfold inRangeCount in H1.
    destruct (Z.leb_spec s x); destruct (Z.leb_spec x e); cbn in H1; lia. }
  pose proof (Hin1 base ltac:(lia)). pose proof (Hin1 (base + 2 ^ (32 - len) - 1) ltac:(lia)).
  split; [lia|]. split; [lia | exact Hb].
Qed.

Lemma subnetsOfRange_canonical (depth : nat) (lo hi : Z * Z * Z * Z) :
  isOctets lo -> isOctets hi ->
  subnetsOfRange depth (toIPv4AddrInteger (dotted lo)) (toIPv4AddrInteger (dotted hi))
  = makeIPv4SubnetFromRange depth (octetsValue lo) (octetsValue hi) [].
Proof.
  intros Hlo Hhi.
  rewrite (toIPv4AddrInteger_octetsValue lo Hlo), (toIPv4AddrInteger_octetsValue hi Hhi).
  pose proof (octetsValue_bounds lo Hlo). pose proof (octetsValue_bounds hi Hhi).
  unfold subnetsOfRange.
  assert ((Z.abs (octetsValue lo) <? 2 ^ 52) = true) as -> by (apply Z.ltb_lt; lia).
  assert ((Z.abs (octetsValue hi) <? 2 ^ 52) = true) as -> by (apply Z.ltb_lt; lia).
  reflexivity.
Qed.

(** X11: for a range between two addresses in canonical form, the first not
    above the second, [getIPv4SubnetFromRange] returns subnets in canonical
    text, each aligned to its size and within the range, such that an
    address belongs to one of them exactly when it is in the range. *)
Theorem getIPv4SubnetFromRange_covers_the_range (depth : nat) (lo hi : Z * Z * Z * Z) :
  isOctets lo -> isOctets hi -> octetsValue lo <= octetsValue hi ->
  (Z.to_nat (octetsValue hi - octetsValue lo) < depth)%nat ->
  exists blocks,
    getIPv4SubnetFromRange depth (rangeText lo hi) = Some blocks
    /\ (forall x, (exists c, In c blocks /\ cidrContains c x = true)
                  <-> octetsValue lo <= x <= octetsValue hi)
    /\ (forall c, In c blocks ->
          exists base len,
            c = cidrText (octetsOfValue base) len
            /\ 1 <= len <= 32 /\ base mod 2 ^ (32 - len) = 0
            /\ octetsValue lo <= base
            /\ base + 2 ^ (32 - len) - 1 <= octetsValue hi).
Proof.
  intros Hlo Hhi Hle Hd.
  pose proof (octetsValue_bounds lo Hlo). pose proof (octetsValue_bounds hi Hhi).
  destruct (range_subnets depth (octetsValue lo) (octetsValue hi)
              ltac:(lia) Hle ltac:(lia) Hd) as (L & HL & (Hw & Hc) & Hform).
  exists L. split; [|split].
  - unfold getIPv4SubnetFromRange, rangeText.
    rewrite (split_range _ _ (noChar_dotted_dash lo Hlo) (noChar_dotted_dash hi Hhi)).
    cbn [lookup list_lookup nth].
    now rewrite (subnetsOfRange_canonical depth lo hi Hlo Hhi).
  - intros x. split.
    + intros (c & Hin & Hx). pose proof (coverCount_In L x c Hin Hx) as H1.
      rewrite Hc in H1. unfold inRangeCount in H1.
      destruct (Z.leb_spec (octetsValue lo) x); destruct (Z.leb_spec x (octetsValue hi));
        cbn in H1; lia.
    + intros Hx. apply coverCount_pos. rewrite Hc. unfold inRangeCount.
      destruct (Z.leb_spec (octetsValue lo) x); destruct (Z.leb_spec x (octetsValue hi));
        cbn; lia.
  - intros c Hin. destruct (Hform c Hin) as (base & len & H1 & H2 & H3 & H4 & H5 & _).
    exists base, len. auto.
Qed.

Lemma getIPv4SubnetFromRange_covers_the_range_witness :
  exists blocks,
    getIPv4SubnetFromRange 100 "192.168.0.1-192.168.0.100" = Some blocks
    /\ (forall x, (exists c, In c blocks /\ cidrContains c x = true)
                  <-> 3232235521 <= x <= 3232235620).
Proof.
  destruct (getIPv4SubnetFromRange_covers_the_range 100 (192, 168, 0, 1) (192, 168, 0, 100))
    as (blocks & H1 & H2 & _);
    [unfold isOctets, isOctet; lia | unfold isOctets, isOctet; lia
     | vm_compute; discriminate | vm_compute; lia |].
  exists blocks. split; [exact H1 | exact H2].
Defined.

(** X12: the number of hosts of a range between two addresses in canonical
    form is the difference of the two numbers plus one; on a string without
    [-] both range functions stop with the TypeError of the missing end. *)
Theorem range_functions_read_both_ends (depth : nat) :
  (forall lo hi : Z * Z * Z * Z,
      isOctets lo -> isOctets hi ->
      getIPv4HostsNumberFromRange (rangeText lo hi)
      = Some (Int (octetsValue hi - octetsValue lo + 1)))
  /\ (forall strIPv4Range : string,
        noChar "-" strIPv4Range = true ->
        getIPv4HostsNumberFromRange strIPv4Range = None
        /\ getIPv4SubnetFromRange depth strIPv4Range = None).
Proof.
  split.
  - intros lo hi Hlo Hhi. unfold getIPv4HostsNumberFromRange, rangeText.
    rewrite (split_range _ _ (noChar_dotted_dash lo Hlo) (noChar_dotted_dash hi Hhi)).
    cbn [lookup list_lookup nth].
    rewrite (toIPv4AddrInteger_octetsValue lo Hlo), (toIPv4AddrInteger_octetsValue hi Hhi).
    pose proof (octetsValue_bounds lo Hlo). pose proof (octetsValue_bounds hi Hhi).
    unfold numSub. cbn [numNeg numAdd].
    assert (R : forall z, Z.abs z < 2 ^ 53 -> roundInt z = Int z).
    { intros z Hz. unfold roundInt.
      destruct (Z.ltb_spec (Z.abs z) (2 ^ 53)); [reflexivity | lia]. }
    rewrite R by lia. cbn [numAdd]. rewrite R by lia. repeat f_equal; lia.
  - intros s Hs. unfold getIPv4HostsNumberFromRange, getIPv4SubnetFromRange.
    now rewrite (split_nosep "-" s Hs).
Qed.

Lemma range_functions_read_both_ends_witness :
  getIPv4HostsNumberFromRange "192.168.0.255-192.168.101.0" = Some (Int 25602)
  /\ getIPv4SubnetFromRange 10 "192.168.0.1" = None.
Proof.
  destruct (range_functions_read_both_ends 10) as (H1 & H2). split.
  - apply (H1 (192, 168, 0, 255) (192, 168, 101, 0)); unfold isOctets, isOctet; lia.
  - apply (H2 "192.168.0.1"). reflexivity.
Defined.

(** ** The class [IPv4Range] *)

Lemma indexOfFrom_noChar (c : ascii) (s : string) : forall i,
  0 <= i -> (indexOfFrom s (String c "") i =? -1) = noChar c s.
Proof.
  induction s as [|d s IH]; intros i Hi; [reflexivity|].
  cbn [indexOfFrom noChar]. rewrite startsWith_chr.
  destruct (Ascii.eqb d c); cbn [negb andb].
  - apply Z.eqb_neq. lia.
  - apply IH. lia.
Qed.

Lemma indexOf_noChar (c : ascii) (s : string) :
  (indexOf s (String c "") =? -1) = noChar c s.
Proof. apply indexOfFrom_noChar. lia. Qed.

Lemma dotted_nonempty (o : Z * Z * Z * Z) :
  isOctets o -> exists c s, dotted o = String c s.
Proof.
  destruct o as [[[a b] c] d]. intros (Ha & _). unfold dotted.
  destruct (printsWell_facts a (printsWell_small a Ha)) as (_ & Hne & _).
  destruct (toString a) as [|x s]; [congruence|].
  rewrite string_app_cons. eauto.
Qed.

Lemma iprange_of_range (depth : nat) (lo hi : Z * Z * Z * Z) :
  isOctets lo -> isOctets hi ->
  IPv4Range.iprange depth (rangeText lo hi)
  = match makeIPv4SubnetFromRange depth (octetsValue lo) (octetsValue hi) [] with
    | Some arraySubnet =>
        Some (IPv4Range.mk (Int (octetsValue lo)) (Int (octetsValue hi)) arraySubnet)
    | None => None
    end.
Proof.
  intros Hlo Hhi. unfold IPv4Range.iprange, rangeText.
  rewrite indexOf_noChar, noChar_app, (noChar_dotted_dash lo Hlo).
  rewrite string_app_cons. cbn [noChar Ascii.eqb Bool.eqb negb andb].
  change (String "-" ("" +:+ dotted hi)) with ("-" +:+ dotted hi).
  rewrite (split_range _ _ (noChar_dotted_dash lo Hlo) (noChar_dotted_dash hi Hhi)).
  cbn [lookup list_lookup nth].
  destruct (dotted_nonempty hi Hhi) as (c & s & E). rewrite E, <- E.
  rewrite (subnetsOfRange_canonical depth lo hi Hlo Hhi).
  now rewrite (toIPv4AddrInteger_octetsValue lo Hlo), (toIPv4AddrInteger_octetsValue hi Hhi).
Qed.

(** The segment predicate on a pushed subnet. *)
Lemma segment_predicate_on_subnet (base len q : Z) (A : string) :
  0 <= base < 2 ^ 32 -> 1 <= len <= 32 -> base mod 2 ^ (32 - len) = 0 ->
  0 <= q <= 32 -> noChar "/" A = true ->
  isIPv4WithPrefixLengthIncludedInSegment (cidrText (octetsOfValue base) len)
    (A +:+ "/" +:+ toString q)
  = (segmentFirst (octetsOf A) q <=? base)
    && (base + 2 ^ (32 - len) - 1 <=? segmentLast (octetsOf A) q).
Proof.
  intros Hb Hlen Hal Hq HA.
  destruct (toIPv4AddrString_octetsOfValue base Hb) as (_ & Ho & Hv).
  rewrite (segment_predicate_value _ len q A Ho ltac:(lia) Hq HA).
  unfold tokenFirst, tokenLast. rewrite Hv, Hal. reflexivity.
Qed.

(** X13: the range object of a range between two addresses in canonical
    form, the first not above the second, holds the two numbers, and its
    test against a subnet [A/q] holds exactly when the whole range lies in
    the subnet of prefix length [q] around [A]. *)
Theorem range_object_is_included_in_segment (depth : nat) (lo hi : Z * Z * Z * Z)
    (A : string) (q : Z) :
  isOctets lo -> isOctets hi -> octetsValue lo <= octetsValue hi ->
  (Z.to_nat (octetsValue hi - octetsValue lo) < depth)%nat ->
  noChar "/" A = true -> 0 <= q <= 32 ->
  exists this,
    IPv4Range.iprange depth (rangeText lo hi) = Some this
    /\ IPv4Range.intStartAddr this = Int (octetsValue lo)
    /\ IPv4Range.intEndAddr this = Int (octetsValue hi)
    /\ IPv4Range.isIncludedInSegment this (A +:+ "/" +:+ toString q)
       = (segmentFirst (octetsOf A) q <=? octetsValue lo)
         && (octetsValue hi <=? segmentLast (octetsOf A) q).
Proof.
  intros Hlo Hhi Hle Hd HA Hq.
  pose proof (octetsValue_bounds lo Hlo) as Blo.
  pose proof (octetsValue_bounds hi Hhi) as Bhi.
  destruct (range_subnets depth (octetsValue lo) (octetsValue hi)
              ltac:(lia) Hle ltac:(lia) Hd) as (L & HL & (Hw & Hc) & Hform).
  rewrite (iprange_of_range depth lo hi Hlo Hhi), HL.
  eexists. split; [reflexivity|]. cbn [IPv4Range.intStartAddr IPv4Range.intEndAddr].
  split; [reflexivity|]. split; [reflexivity|].
  unfold IPv4Range.isIncludedInSegment. cbn [IPv4Range.arraySubnet].
  set (S := segmentFirst (octetsOf A) q). set (S' := segmentLast (octetsOf A) q).
  assert (Hf : forall c, In c L ->
             exists base len,
               1 <= len <= 32 /\ octetsValue lo <= base
               /\ base + 2 ^ (32 - len) - 1 <= octetsValue hi
               /\ cidrBlock c = Some (base, len)
               /\ isIPv4WithPrefixLengthIncludedInSegment c (A +:+ "/" +:+ toString q)
                  = (S <=? base) && (base + 2 ^ (32 - len) - 1 <=? S')).
  { intros c Hin. destruct (Hform c Hin) as (base & len & -> & H2 & H3 & H4 & H5 & H6).
    exists base, len. split; [exact H2|]. split; [exact H4|]. split; [exact H5|].
    split; [exact H6|].
    assert (0 < 2 ^ (32 - len)) by (apply Z.pow_pos_nonneg; lia).
    apply segment_predicate_on_subnet; try assumption; lia. }
  apply eq_true_iff_eq. rewrite forallb_forall, andb_true_iff, !Z.leb_le. split.
  - intros Hall.
    assert (Hat : forall x, octetsValue lo <= x <= octetsValue hi -> S <= x <= S').
    { intros x Hx.
      destruct (coverCount_pos L x) as (c & Hin & Hcx).
      { rewrite Hc. unfold inRangeCount.
        destruct (Z.leb_spec (octetsValue lo) x); destruct (Z.leb_spec x (octetsValue hi));
          cbn; lia. }
      destruct (Hf c Hin) as (base & len & H1 & H2 & H3 & H4 & H5).
      rewrite (Hall c Hin) in H5. symmetry in H5.
      apply andb_true_iff in H5 as [H5 H6]. apply Z.leb_le in H5, H6.
      unfold cidrContains in Hcx. rewrite H4 in Hcx. unfold blockContains in Hcx.
      apply andb_true_iff in Hcx as [H7 H8]. apply Z.leb_le in H7. apply Z.ltb_lt in H8.
      lia. }
    pose proof (Hat (octetsValue lo) ltac:(lia)).
    pose proof (Hat (octetsValue hi) ltac:(lia)). lia.
  - intros [H1 H2] c Hin.
    destruct (Hf c Hin) as (base & len & H3 & H4 & H5 & H6 & ->).
    apply andb_true_iff. split; apply Z.leb_le; lia.
Qed.

Lemma range_object_is_included_in_segment_witness :
  exists this,
    IPv4Range.iprange 100 "192.168.0.1-192.168.0.100" = Some this
    /\ IPv4Range.isIncludedInSegment this "192.168.0.0/24" = true
    /\ IPv4Range.isIncludedInSegment this "192.168.0.0/28" = false.
Proof.
  destruct (range_object_is_included_in_segment 100 (192, 168, 0, 1) (192, 168, 0, 100)
              "192.168.0.0" 24) as (this & H1 & _ & _ & H2);
    [unfold isOctets, isOctet; lia | unfold isOctets, isOctet; lia
     | vm_compute; discriminate | vm_compute; lia | reflexivity | lia |].
  exists this. split; [exact H1|]. split; [exact H2|].
  vm_compute in H1. injection H1 as <-. vm_compute. reflexivity.
Defined.

Lemma octetsOfValue_octetsValue (o : Z * Z * Z * Z) :
  isOctets o -> octetsOfValue (octetsValue o) = o.
Proof.
  intros Ho.
  destruct (toIPv4AddrString_octetsOfValue _ (octetsValue_bounds o Ho)) as (_ & Ho' & Hv).
  now apply octetsValue_inj.
Qed.

Lemma single_address_subnets (depth : nat) (a : Z * Z * Z * Z) :
  isOctets a -> (0 < depth)%nat ->
  makeIPv4SubnetFromRange depth (octetsValue a) (octetsValue a) [] = Some [cidrText a 32].
Proof.
  intros Ha Hd. pose proof (octetsValue_bounds a Ha) as Ba.
  destruct (range_subnets depth (octetsValue a) (octetsValue a)
              ltac:(lia) ltac:(lia) ltac:(lia) ltac:(lia)) as (L & HL & (Hw & Hc) & Hform).
  rewrite HL. f_equal.
  assert (Hall : forall c, In c L ->
             c = cidrText a 32 /\ cidrContains c (octetsValue a) = true).
  { intros c Hin. destruct (Hform c Hin) as (base & len & E & H2 & H3 & H4 & H5 & H6).
    assert (Hlen : len = 32).
    { destruct (Z.eq_dec len 32) as [|Hne]; [assumption|].
      assert (1 < 2 ^ (32 - len)) by (apply Z.pow_gt_1; lia). lia. }
    subst len. change (2 ^ (32 - 32)) with 1 in *.
    assert (base = octetsValue a) by lia. subst base.
    rewrite (octetsOfValue_octetsValue a Ha) in E. split; [exact E|].
    unfold cidrContains. rewrite H6. unfold blockContains.
    apply andb_true_iff. split; [apply Z.leb_le | apply Z.ltb_lt]; lia. }
  specialize (Hc (octetsValue a)). unfold inRangeCount in Hc.
  rewrite Z.leb_refl in Hc. cbn [andb] in Hc.
  destruct L as [|c1 [|c2 L]].
  - discriminate Hc.
  - destruct (Hall c1 ltac:(now left)) as (-> & _). reflexivity.
  - destruct (Hall c1 ltac:(now left)) as (_ & H1).
    destruct (Hall c2 ltac:(right; now left)) as (_ & H2).
    cbn [coverCount] in Hc. rewrite H1, H2 in Hc. lia.
Qed.

(** X14: the range object of a single address in canonical form holds the
    address as both ends and the one subnet [/32] of it; and the test of a
    range object against a range in canonical form compares the two pairs
    of numbers. *)
Theorem range_object_of_single_address :
  (forall (depth : nat) (a : Z * Z * Z * Z),
      isOctets a -> (0 < depth)%nat ->
      IPv4Range.iprange depth (dotted a)
      = Some (IPv4Range.mk (Int (octetsValue a)) (Int (octetsValue a)) [cidrText a 32]))
  /\ (forall (this : IPv4Range.t) (s e : Z) (lo hi : Z * Z * Z * Z),
        isOctets lo -> isOctets hi ->
        IPv4Range.intStartAddr this = Int s -> IPv4Range.intEndAddr this = Int e ->
        IPv4Range.isIncludedInRange this (rangeText lo hi)
        = Some ((octetsValue lo <=? s) && (e <=? octetsValue hi))).
Proof.
  split.
  - intros depth a Ha Hd. unfold IPv4Range.iprange.
    rewrite indexOf_noChar, (noChar_dotted_dash a Ha). cbn [negb nth lookup list_lookup].
    replace (subnetsOfRange depth _ _)
      with (makeIPv4SubnetFromRange depth (octetsValue a) (octetsValue a) [])
      by (symmetry; apply (subnetsOfRange_canonical depth a a Ha Ha)).
    rewrite (single_address_subnets depth a Ha Hd).
    now rewrite (toIPv4AddrInteger_octetsValue a Ha).
  - intros this s e lo hi Hlo Hhi Hs He.
    unfold IPv4Range.isIncludedInRange, rangeText.
    rewrite (split_range _ _ (noChar_dotted_dash lo Hlo) (noChar_dotted_dash hi Hhi)).
    cbn [nth lookup list_lookup].
    rewrite (toIPv4AddrInteger_octetsValue lo Hlo), (toIPv4AddrInteger_octetsValue hi Hhi).
    rewrite Hs, He. unfold numGe, numLe. cbn [numLt numEq].
    destruct (Z.ltb_spec (octetsValue lo) s); destruct (Z.eqb_spec (octetsValue lo) s);
      destruct (Z.leb_spec (octetsValue lo) s); cbn [orb andb]; try lia;
      try reflexivity.
    f_equal.
    destruct (Z.ltb_spec e (octetsValue hi)); destruct (Z.eqb_spec e (octetsValue hi));
      destruct (Z.leb_spec e (octetsValue hi)); cbn [orb]; try lia; reflexivity.
    f_equal.
    destruct (Z.ltb_spec e (octetsValue hi)); destruct (Z.eqb_spec e (octetsValue hi));
      destruct (Z.leb_spec e (octetsValue hi)); cbn [orb]; try lia; reflexivity.
Qed.

Lemma range_object_of_single_address_witness :
  IPv4Range.iprange 1 "192.168.0.1"
  = Some (IPv4Range.mk (Int 3232235521) (Int 3232235521) ["192.168.0.1/32"])
  /\ IPv4Range.isIncludedInRange (IPv4Range.mk (Int 3232235521) (Int 3232235521) [])
       "192.168.0.0-192.168.0.1" = Some true.
Proof.
  destruct range_object_of_single_address as (H1 & H2). split.
  - apply (H1 1%nat (192, 168, 0, 1)); [unfold isOctets, isOctet; lia | lia].
  - apply (H2 (IPv4Range.mk (Int 3232235521) (Int 3232235521) []) 3232235521 3232235521
              (192, 168, 0, 0) (192, 168, 0, 1));
      try (unfold isOctets, isOctet; lia); reflexivity.
Defined.

(** * More on the containment oracle *)

(** X15: whatever the stored value, the query and its type, the verdict of
    [isWithin] with the negate flag is the negation of its verdict
    without. *)
Theorem isWithin_negate_inverts (strAddrToBeLookedUp strLookupAddr : string)
    (intLookupAddrType : lookupAddressType) (boolFqdnAndGeoMatchAll : bool) :
  isWithin strAddrToBeLookedUp strLookupAddr intLookupAddrType true
    boolFqdnAndGeoMatchAll
  = negb (isWithin strAddrToBeLookedUp strLookupAddr intLookupAddrType false
            boolFqdnAndGeoMatchAll).
Proof.
  unfold isWithin.
  repeat match goal with
         | |- context [if ?c then _ else _] => destruct c
         | |- context [match ?o with Some _ => _ | None => _ end] => destruct o
         | |- context [match ?s with "" => _ | String _ _ => _ end] => destruct s
         end;
    cbn [xorb negb]; try reflexivity;
    repeat match goal with
           | |- context [xorb _ ?b] => destruct b
           end; reflexivity.
Qed.

(** X16: across address families [isWithin] decides without looking at the
    content.  For an IPv4 or an IPv6 query a stored value that starts with
    [geo:] or [fqdn:] gives the negate flag xor the match-all option; a
    stored value with neither prefix gives the negate flag alone when it
    has a colon (IPv4 query) or has none (IPv6 query).  An FQDN query
    against a value without the [fqdn:] prefix, and a geography query
    against a value without the [geo:] prefix, give the flag xor the
    match-all option. *)
Theorem isWithin_across_families (strAddrToBeLookedUp strLookupAddr : string)
    (boolNegate boolFqdnAndGeoMatchAll : bool) :
  (startsWith strAddrToBeLookedUp "geo:" = true
   \/ startsWith strAddrToBeLookedUp "fqdn:" = true ->
   isWithin strAddrToBeLookedUp strLookupAddr LOOKUP_ADDRESS_TYPE_IPV4
     boolNegate boolFqdnAndGeoMatchAll = xorb boolNegate boolFqdnAndGeoMatchAll
   /\ isWithin strAddrToBeLookedUp strLookupAddr LOOKUP_ADDRESS_TYPE_IPV6
        boolNegate boolFqdnAndGeoMatchAll = xorb boolNegate boolFqdnAndGeoMatchAll)
  /\ (startsWith strAddrToBeLookedUp "geo:" = false ->
      startsWith strAddrToBeLookedUp "fqdn:" = false ->
      (noChar ":" strAddrToBeLookedUp = false ->
       isWithin strAddrToBeLookedUp strLookupAddr LOOKUP_ADDRESS_TYPE_IPV4
         boolNegate boolFqdnAndGeoMatchAll = boolNegate)
      /\ (noChar ":" strAddrToBeLookedUp = true ->
          isWithin strAddrToBeLookedUp strLookupAddr LOOKUP_ADDRESS_TYPE_IPV6
            boolNegate boolFqdnAndGeoMatchAll = boolNegate))
  /\ (startsWith strAddrToBeLookedUp "fqdn:" = false ->
      isWithin strAddrToBeLookedUp strLookupAddr LOOKUP_ADDRESS_TYPE_FQDN
        boolNegate boolFqdnAndGeoMatchAll = xorb boolNegate boolFqdnAndGeoMatchAll)
  /\ (startsWith strAddrToBeLookedUp "geo:" = false ->
      isWithin strAddrToBeLookedUp strLookupAddr LOOKUP_ADDRESS_TYPE_GEO
        boolNegate boolFqdnAndGeoMatchAll = xorb boolNegate boolFqdnAndGeoMatchAll).
Proof.
  split; [|split; [|split]].
  - intros Hp.
    assert (H4 : String.eqb strAddrToBeLookedUp IPV4_ALL = false).
    { apply String.eqb_neq. intros E. rewrite E in Hp. now destruct Hp. }
    assert (H6 : String.eqb strAddrToBeLookedUp IPV6_ALL = false).
    { apply String.eqb_neq. intros E. rewrite E in Hp. now destruct Hp. }
    assert (Hor : startsWith strAddrToBeLookedUp "geo:"
                  || startsWith strAddrToBeLookedUp "fqdn:" = true)
      by (apply orb_true_iff; exact Hp).
    unfold isWithin. cbn [lookupAddressType_eqb andb orb].
    rewrite ?orb_false_r, H4, H6, Hor. split; reflexivity.
  - intros Hg Hf. split; intros Hc; unfold isWithin;
      cbn [lookupAddressType_eqb andb orb]; rewrite ?orb_false_r.
    + destruct (String.eqb_spec strAddrToBeLookedUp IPV4_ALL) as [E | _];
        [rewrite E in Hc; discriminate Hc|].
      now rewrite Hg, Hf, indexOf_noChar, Hc.
    + destruct (String.eqb_spec strAddrToBeLookedUp IPV6_ALL) as [E | _];
        [rewrite E in Hc; discriminate Hc|].
      now rewrite Hg, Hf, indexOf_noChar, Hc.
  - intros Hf. unfold isWithin. cbn [lookupAddressType_eqb andb orb]. now rewrite Hf.
  - intros Hg. unfold isWithin. cbn [lookupAddressType_eqb andb orb]. now rewrite Hg.
Qed.

Lemma isWithin_across_families_witness :
  isWithin "2001:0db8:0000:0000:0000:0000:0000:0000/32" "10.0.0.1/32"
    LOOKUP_ADDRESS_TYPE_IPV4 false true = false
  /\ isWithin "geo:JP" "10.0.0.1/32" LOOKUP_ADDRESS_TYPE_IPV4 false true = true
  /\ isWithin "10.0.0.0/8" "www.example.com" LOOKUP_ADDRESS_TYPE_FQDN false true = true.
Proof.
  split; [|split].
  - destruct (isWithin_across_families "2001:0db8:0000:0000:0000:0000:0000:0000/32"
                "10.0.0.1/32" false true) as (_ & H & _).
    destruct (H eq_refl eq_refl) as (H1 & _). apply H1. reflexivity.
  - destruct (isWithin_across_families "geo:JP" "10.0.0.1/32" false true) as (H & _).
    destruct (H ltac:(left; reflexivity)) as (H1 & _). exact H1.
  - destruct (isWithin_across_families "10.0.0.0/8" "www.example.com" false true)
      as (_ & _ & H & _).
    apply H. reflexivity.
Defined.

(** ** Stored IPv4 values *)

Lemma toString_octet_chars (n : Z) :
  0 <= n <= 255 ->
  noChar ":" (toString n) = true
  /\ exists c s, toString n = String c s /\ c <> "g"%char /\ c <> "f"%char.
Proof.
  intros Hn.
  pose (check := fun n =>
    noChar ":" (toString n)
    && match toString n with
       | String c _ => negb (Ascii.eqb c "g") && negb (Ascii.eqb c "f")
       | "" => false
       end).
  assert (Hall : forallb check (map Z.of_nat (seq 0 256)) = true)
    by (vm_compute; reflexivity).
  pose proof (forallb_range _ _ Hall n ltac:(lia)) as H. unfold check in H.
  apply andb_prop in H as [H1 H2]. split; [exact H1|].
  destruct (toString n) as [|c s]; [discriminate|].
  apply andb_prop in H2 as [Hg Hf]. apply negb_true_iff, Ascii.eqb_neq in Hg, Hf.
  eauto.
Qed.

Lemma dotted_chars (o : Z * Z * Z * Z) (rest : string) :
  isOctets o ->
  noChar ":" (dotted o) = true /\ noChar "." (dotted o) = false
  /\ startsWith (dotted o +:+ rest) "geo:" = false
  /\ startsWith (dotted o +:+ rest) "fqdn:" = false.
Proof.
  destruct o as [[[a b] c] d]. intros (Ha & Hb & Hc & Hd). unfold dotted.
  destruct (toString_octet_chars a Ha) as (Ha' & x & s & E & Hg & Hf).
  destruct (toString_octet_chars b Hb) as (Hb' & _).
  destruct (toString_octet_chars c Hc) as (Hc' & _).
  destruct (toString_octet_chars d Hd) as (Hd' & _).
  split; [rewrite !noChar_app, Ha', Hb', Hc', Hd'; reflexivity|].
  split.
  { rewrite noChar_app. apply andb_false_iff. right. reflexivity. }
  rewrite E, !string_app_cons. unfold startsWith. cbn [String.prefix].
  split.
  - destruct (ascii_dec "g" x); [congruence | reflexivity].
  - destruct (ascii_dec "f" x); [congruence | reflexivity].
Qed.

Lemma cidrText_all (a : Z * Z * Z * Z) (q : Z) :
  isOctets a -> 0 <= q <= 32 -> cidrText a q = IPV4_ALL -> a = (0, 0, 0, 0) /\ q = 0.
Proof.
  intros Ha Hq E.
  destruct (toString_prefix q Hq) as (Hq1 & Hq2).
  assert (Hs : split (cidrText a q) "/" = ["0.0.0.0"; "0"]) by (now rewrite E).
  unfold cidrText in Hs.
  rewrite (split_cidr _ _ (noChar_dotted_slash a Ha) Hq1) in Hs.
  injection Hs as H1 H2. split.
  - apply (dotted_inj a (0, 0, 0, 0) Ha); [unfold isOctets, isOctet; lia | exact H1].
  - rewrite H2 in Hq2. change (parseInt "0") with (Int 0) in Hq2. congruence.
Qed.

Lemma token_within_32_bits (t : Z * Z * Z * Z) (p : Z) :
  isOctets t -> 0 <= p <= 32 -> 0 <= tokenFirst t p /\ tokenLast t p <= 2 ^ 32 - 1.
Proof.
  intros Ht Hp. pose proof (octetsValue_bounds t Ht) as Bt.
  unfold tokenFirst, tokenLast. split; [lia|].
  destruct (pow2_block_facts p 0 Hp ltac:(lia)) as (HP & HQ & Hdiv & _).
  destruct (Z.eqb_spec (octetsValue t mod 2 ^ (32 - p)) 0) as [E | E]; [|lia].
  pose proof (aligned_room _ _ (octetsValue t) HP (Hdiv ltac:(lia)) HQ E) as H.
  change (32 - 0) with 32 in H. rewrite Z.mod_small in H by lia. lia.
Qed.

(** X17: what an IPv4 lookup makes of the three forms of a stored IPv4
    value.  Against a subnet [a/q] in canonical form, a token in canonical
    form matches exactly when its addresses all lie in the subnet (the
    stored value [0.0.0.0/0] included); against a range the verdict is that
    of the range predicate, against an address with a dotted mask that of
    the Fortinet wildcard predicate; the negate flag inverts each. *)
Theorem isWithin_stored_ipv4_values (boolNegate boolFqdnAndGeoMatchAll : bool) :
  (forall (a t : Z * Z * Z * Z) (q p : Z),
      isOctets a -> 0 <= q <= 32 -> isOctets t -> 0 <= p <= 32 ->
      isWithin (cidrText a q) (cidrText t p) LOOKUP_ADDRESS_TYPE_IPV4
        boolNegate boolFqdnAndGeoMatchAll
      = xorb boolNegate
          ((segmentFirst a q <=? tokenFirst t p) && (tokenLast t p <=? segmentLast a q)))
  /\ (forall (lo hi : Z * Z * Z * Z) (strLookupAddr : string),
        isOctets lo -> isOctets hi ->
        isWithin (rangeText lo hi) strLookupAddr LOOKUP_ADDRESS_TYPE_IPV4
          boolNegate boolFqdnAndGeoMatchAll
        = xorb boolNegate
            (isIPv4WithPrefixLengthIncludedInRange strLookupAddr (rangeText lo hi)))
  /\ (forall (a m : Z * Z * Z * Z) (strLookupAddr : string),
        isOctets a -> isOctets m ->
        isWithin (dotted a +:+ "/" +:+ dotted m) strLookupAddr LOOKUP_ADDRESS_TYPE_IPV4
          boolNegate boolFqdnAndGeoMatchAll
        = xorb boolNegate
            (isIPv4WithPrefixLengthIncludedInFortinetWildcardAddr strLookupAddr
               (dotted a +:+ "/" +:+ dotted m))).
Proof.
  assert (X : forall c : bool,
             (if c then negb boolNegate else boolNegate) = xorb boolNegate c)
    by (intros []; destruct boolNegate; reflexivity).
  split; [|split].
  - intros a t q p Ha Hq Ht Hp.
    pose proof (segment_predicate_value t p q (dotted a) Ht Hp Hq
                  (noChar_dotted_slash a Ha)) as Hseg.
    rewrite (octetsOf_dotted a Ha) in Hseg. fold (cidrText a q) in Hseg.
    unfold isWithin. cbn [lookupAddressType_eqb andb orb]. rewrite orb_false_r.
    destruct (String.eqb_spec (cidrText a q) IPV4_ALL) as [E | _].
    + destruct (cidrText_all a q Ha Hq E) as (-> & ->).
      destruct (token_within_32_bits t p Ht Hp) as (H1 & H2).
      assert (((segmentFirst (0, 0, 0, 0) 0 <=? tokenFirst t p)
               && (tokenLast t p <=? segmentLast (0, 0, 0, 0) 0)) = true) as ->.
      { apply andb_true_iff. split; apply Z.leb_le.
        - change (segmentFirst (0, 0, 0, 0) 0) with 0. lia.
        - change (segmentLast (0, 0, 0, 0) 0) with (2 ^ 32 - 1). lia. }
      now destruct boolNegate.
    + destruct (toString_prefix q Hq) as (Hq1 & Hq2).
      destruct (printsWell_facts q (printsWell_small q ltac:(lia)))
        as (_ & Hne & Hdot & _ & Hdash).
      destruct (dotted_chars a ("/" +:+ toString q) Ha) as (Hcol & _ & Hg & Hf).
      destruct (toString_octet_chars q ltac:(lia)) as (Hqcol & _).
      fold (cidrText a q) in Hg, Hf. rewrite Hg, Hf. cbn [orb].
      rewrite !indexOf_noChar. unfold cidrText at 1 2.
      rewrite !noChar_app, Hcol, Hqcol, (noChar_dotted_dash a Ha), Hdash.
      cbn [noChar Ascii.eqb Bool.eqb negb andb].
      unfold cidrText at 1.
      rewrite (split_cidr _ _ (noChar_dotted_slash a Ha) Hq1).
      cbn [lookup list_lookup].
      destruct (toString q) as [|c rest] eqn:Eq; [congruence|].
      rewrite indexOf_noChar, Hdot, Hseg. apply X.
  - intros lo hi Q Hlo Hhi.
    destruct (dotted_chars lo ("-" +:+ dotted hi) Hlo) as (Hcol & _ & Hg & Hf).
    destruct (dotted_chars hi "" Hhi) as (Hcol' & _).
    fold (rangeText lo hi) in Hg, Hf.
    unfold isWithin. cbn [lookupAddressType_eqb andb orb]. rewrite orb_false_r.
    assert (Hd : noChar "-" (rangeText lo hi) = false).
    { unfold rangeText. rewrite noChar_app. apply andb_false_iff. right. reflexivity. }
    destruct (String.eqb_spec (rangeText lo hi) IPV4_ALL) as [E | _];
      [rewrite E in Hd; discriminate Hd|].
    rewrite Hg, Hf. cbn [orb]. rewrite !indexOf_noChar, Hd.
    unfold rangeText at 1. rewrite !noChar_app, Hcol, Hcol'.
    cbn [noChar Ascii.eqb Bool.eqb negb andb]. apply X.
  - intros a m Q Ha Hm.
    destruct (dotted_chars a ("/" +:+ dotted m) Ha) as (Hcol & _ & Hg & Hf).
    destruct (dotted_chars m "" Hm) as (Hcol' & Hdot & _).
    unfold isWithin. cbn [lookupAddressType_eqb andb orb]. rewrite orb_false_r.
    pose proof (split_cidr _ _ (noChar_dotted_slash a Ha) (noChar_dotted_slash m Hm))
      as Hsplit.
    destruct (String.eqb_spec (dotted a +:+ "/" +:+ dotted m) IPV4_ALL) as [E | _].
    { rewrite E in Hsplit. injection Hsplit as _ E2. rewrite <- E2 in Hdot.
      discriminate Hdot. }
    rewrite Hg, Hf. cbn [orb]. rewrite !indexOf_noChar.
    rewrite !noChar_app, Hcol, Hcol', (noChar_dotted_dash a Ha), (noChar_dotted_dash m Hm).
    cbn [noChar Ascii.eqb Bool.eqb negb andb].
    rewrite Hsplit. cbn [lookup list_lookup].
    destruct (dotted_nonempty m Hm) as (c & rest & Em). rewrite Em, <- Em.
    rewrite indexOf_noChar, Hdot. apply X.
Qed.

Lemma isWithin_stored_ipv4_values_witness :
  isWithin "10.0.0.0/8" "10.1.1.1/32" LOOKUP_ADDRESS_TYPE_IPV4 false false = true
  /\ isWithin "10.0.0.0/8" "11.1.1.1/32" LOOKUP_ADDRESS_TYPE_IPV4 false false = false.
Proof.
  destruct (isWithin_stored_ipv4_values false false) as (H & _). split.
  - exact (H (10, 0, 0, 0) (10, 1, 1, 1) 8 32
             ltac:(unfold isOctets, isOctet; lia) ltac:(lia)
             ltac:(unfold isOctets, isOctet; lia) ltac:(lia)).
  - exact (H (10, 0, 0, 0) (11, 1, 1, 1) 8 32
             ltac:(unfold isOctets, isOctet; lia) ltac:(lia)
             ltac:(unfold isOctets, isOctet; lia) ltac:(lia)).
Defined.

(** * More on the lookup *)

Lemma lookUpRows_all_skipped strSrcAddr strSrcFullAddr intSrcAddrType
    strDstAddr strDstFullAddr intDstAddrType boolFqdnAndGeoMatchAll
    (rows : list string) (st : lookupState) :
  (forall row, In row rows ->
     skipsRow intSrcAddrType intDstAddrType (split row ",") = true) ->
  lookUpRows strSrcAddr strSrcFullAddr intSrcAddrType strDstAddr strDstFullAddr
    intDstAddrType boolFqdnAndGeoMatchAll rows st = st.
Proof.
  induction rows as [|r rows IH]; intros H; [reflexivity|].
  rewrite lookUpRows_cons.
  assert (E : lookUpRow strSrcAddr strSrcFullAddr intSrcAddrType strDstAddr
                strDstFullAddr intDstAddrType boolFqdnAndGeoMatchAll st r = st).
  { unfold lookUpRow. now rewrite (H r ltac:(now left)). }
  rewrite E. apply IH. intros row Hin. apply H. now right.
Qed.

Lemma lookUp_all_skipped rows strSrcAddr intSrcAddrType strDstAddr intDstAddrType
    boolFqdnAndGeoMatchAll (arrayResult arrayResultWithoutIneffectual : list string) :
  (forall row, In row rows ->
     skipsRow intSrcAddrType intDstAddrType (split row ",") = true) ->
  lookUpAddrInNormalizedPoliciesArray rows strSrcAddr intSrcAddrType strDstAddr
    intDstAddrType boolFqdnAndGeoMatchAll arrayResult arrayResultWithoutIneffectual
  = (arrayResult, arrayResultWithoutIneffectual).
Proof.
  intros H. unfold lookUpAddrInNormalizedPoliciesArray.
  destruct (isIPv6 intSrcAddrType && _); [reflexivity|].
  destruct (isIPv6 intDstAddrType && _); [reflexivity|].
  now rewrite lookUpRows_all_skipped.
Qed.

(** X18: a lookup with an IPv6 source or destination reports no row of type
    [4to4] or [4to4m], and a lookup with an IPv4 source or destination no
    row of type [6to6] or [6to6m]: on such rows alone both result arrays
    come back as they were. *)
Theorem lookup_skips_rows_of_the_other_family (rows : list string)
    (strSrcAddr strDstAddr : string) (intSrcAddrType intDstAddrType : lookupAddressType)
    (boolFqdnAndGeoMatchAll : bool)
    (arrayResult arrayResultWithoutIneffectual : list string) :
  ((forall row, In row rows -> rowPolicyType row = "4to4" \/ rowPolicyType row = "4to4m") ->
   intSrcAddrType = LOOKUP_ADDRESS_TYPE_IPV6 \/ intDstAddrType = LOOKUP_ADDRESS_TYPE_IPV6 ->
   lookUpAddrInNormalizedPoliciesArray rows strSrcAddr intSrcAddrType strDstAddr
     intDstAddrType boolFqdnAndGeoMatchAll arrayResult arrayResultWithoutIneffectual
   = (arrayResult, arrayResultWithoutIneffectual))
  /\ ((forall row, In row rows ->
         rowPolicyType row = "6to6" \/ rowPolicyType row = "6to6m") ->
      intSrcAddrType = LOOKUP_ADDRESS_TYPE_IPV4 \/ intDstAddrType = LOOKUP_ADDRESS_TYPE_IPV4 ->
      lookUpAddrInNormalizedPoliciesArray rows strSrcAddr intSrcAddrType strDstAddr
        intDstAddrType boolFqdnAndGeoMatchAll arrayResult arrayResultWithoutIneffectual
      = (arrayResult, arrayResultWithoutIneffectual)).
Proof.
  split; intros Hrows Ht; apply lookUp_all_skipped; intros row Hin;
    unfold skipsRow; unfold rowPolicyType in Hrows;
    destruct (Hrows row Hin) as [-> | ->]; destruct Ht as [-> | ->];
    cbn; rewrite ?orb_true_r; reflexivity.
Qed.

Lemma lookup_skips_rows_of_the_other_family_witness :
  lookUpAddrInNormalizedPoliciesArray
    [",port1,port2,4to4,1,,1,deny,ip,0.0.0.0/0,-,0.0.0.0/0,-,-,-,false,false,false,enable,-,always,"]
    "2001:db8::1" LOOKUP_ADDRESS_TYPE_IPV6 "" LOOKUP_ADDRESS_TYPE_UNKNOWN false [] []
  = ([], []).
Proof.
  destruct (lookup_skips_rows_of_the_other_family
              [",port1,port2,4to4,1,,1,deny,ip,0.0.0.0/0,-,0.0.0.0/0,-,-,-,false,false,false,enable,-,always,"]
              "2001:db8::1" "" LOOKUP_ADDRESS_TYPE_IPV6 LOOKUP_ADDRESS_TYPE_UNKNOWN
              false [] []) as (H & _).
  apply H.
  - intros row [<- | []]. left. reflexivity.
  - left. reflexivity.
Defined.

(** ** The lookup list, line by line *)

Lemma lookUp_appends rows strSrcAddr intSrcAddrType strDstAddr intDstAddrType
    boolFqdnAndGeoMatchAll (arrayResult arrayResultWithoutIneffectual : list string) :
  lookUpAddrInNormalizedPoliciesArray rows strSrcAddr intSrcAddrType strDstAddr
    intDstAddrType boolFqdnAndGeoMatchAll arrayResult arrayResultWithoutIneffectual
  = let new := lookUpAddrInNormalizedPoliciesArray rows strSrcAddr intSrcAddrType
                 strDstAddr intDstAddrType boolFqdnAndGeoMatchAll [] [] in
    ((arrayResult ++ fst new)%list, (arrayResultWithoutIneffectual ++ snd new)%list).
Proof.
  cbv zeta. unfold lookUpAddrInNormalizedPoliciesArray.
  destruct (isIPv6 intSrcAddrType && _); [now rewrite !app_nil_r|].
  destruct (isIPv6 intDstAddrType && _); [now rewrite !app_nil_r|].
  cbn [fst snd]. rewrite !lookUpRows_result, !lookUpRows_without. reflexivity.
Qed.

Lemma lookUpLine_appends rows boolFqdnAndGeoMatchAll
    (results : list string * list string) (strText : string) :
  lookUpLine rows boolFqdnAndGeoMatchAll results strText
  = ((fst results ++ fst (lineResults rows boolFqdnAndGeoMatchAll strText))%list,
     (snd results ++ snd (lineResults rows boolFqdnAndGeoMatchAll strText))%list).
Proof.
  destruct results as [r1 r2]. unfold lineResults, lookUpLine. cbn [fst snd].
  destruct (String.length (trim strText) =? 0)%nat; [now rewrite !app_nil_r|].
  destruct (_ || _); [now rewrite !app_nil_r|].
  destruct (classifyLookupAddr (trim (nth 0 _ ""))) as [t1 a1].
  destruct (_ && isUnknown t1); [now rewrite !app_nil_r|].
  destruct (classifyLookupAddr _) as [t2 a2].
  destruct (_ && isUnknown t2); [now rewrite !app_nil_r|].
  apply lookUp_appends.
Qed.

Lemma lookUpLines_appends rows boolFqdnAndGeoMatchAll (lines : list string) :
  forall results : list string * list string,
    fold_left (lookUpLine rows boolFqdnAndGeoMatchAll) lines results
    = ((fst results
        ++ concat (map (fun l => fst (lineResults rows boolFqdnAndGeoMatchAll l)) lines))%list,
       (snd results
        ++ concat (map (fun l => snd (lineResults rows boolFqdnAndGeoMatchAll l)) lines))%list).
Proof.
  induction lines as [|l lines IH]; intros [r1 r2]; cbn [fold_left map concat fst snd].
  - now rewrite !app_nil_r.
  - rewrite lookUpLine_appends, IH. cbn [fst snd]. now rewrite <- !app_assoc.
Qed.

(** X19: the lines of the lookup list are looked up independently of one
    another: each result list of [lookUpAddrList] is the concatenation, in
    the order of the lines, of the results each line gives by itself; and a
    line that is empty after trimming or starts with [!] or [#] gives
    nothing. *)
Theorem lookUpAddrList_is_line_by_line (rows : list string) (listOfLookUpAddr : string)
    (boolFqdnAndGeoMatchAll : bool) :
  lookUpAddrList rows listOfLookUpAddr boolFqdnAndGeoMatchAll
  = (concat (map (fun l => fst (lineResults rows boolFqdnAndGeoMatchAll l))
               (splitLines listOfLookUpAddr)),
     concat (map (fun l => snd (lineResults rows boolFqdnAndGeoMatchAll l))
               (splitLines listOfLookUpAddr)))
  /\ (forall strText,
        trim strText = "" \/ substring (trim strText) 0 1 = "!"
        \/ substring (trim strText) 0 1 = "#" ->
        lineResults rows boolFqdnAndGeoMatchAll strText = ([], [])).
Proof.
  split.
  - unfold lookUpAddrList. now rewrite lookUpLines_appends.
  - intros strText H. unfold lineResults, lookUpLine.
    destruct H as [-> | [-> | ->]]; [reflexivity | |];
      cbn [String.eqb Ascii.eqb Bool.eqb orb andb];
      now destruct (String.length (trim strText) =? 0)%nat.
Qed.

Lemma lookUpAddrList_is_line_by_line_witness :
  lineResults [] false "  # a comment" = ([], []).
Proof.
  destruct (lookUpAddrList_is_line_by_line [] "" false) as (_ & H).
  apply H. right. right. reflexivity.
Defined.

(** * Arrays without duplicates *)

Lemma existsb_eqb_elem_of (x : string) (l : list string) :
  existsb (String.eqb x) l = true <-> x ∈ l.
Proof.
  rewrite existsb_exists, list_elem_of_In. split.
  - intros (y & Hy & E). apply String.eqb_eq in E. now subst.
  - intros H. exists x. split; [exact H | apply String.eqb_refl].
Qed.

Lemma setAdd_elem_of (set : list string) (x y : string) :
  y ∈ setAdd set x <-> y ∈ set \/ y = x.
Proof.
  unfold setAdd. destruct (existsb (String.eqb x) set) eqn:E.
  - apply existsb_eqb_elem_of in E. split; [auto | intros [H | ->]; assumption].
  - rewrite elem_of_app, list_elem_of_singleton. tauto.
Qed.

Lemma setAdd_NoDup (set : list string) (x : string) :
  NoDup set -> NoDup (setAdd set x).
Proof.
  intros H. unfold setAdd. destruct (existsb (String.eqb x) set) eqn:E; [exact H|].
  apply NoDup_app. split; [exact H|]. split; [|apply NoDup_singleton].
  intros y Hy Hy'. apply list_elem_of_singleton in Hy'. subst y.
  apply existsb_eqb_elem_of in Hy. congruence.
Qed.

Lemma fold_setAdd_elem_of (l : list string) : forall (acc : list string) (y : string),
  y ∈ fold_left setAdd l acc <-> y ∈ acc \/ y ∈ l.
Proof.
  induction l as [|x l IH]; intros acc y; cbn [fold_left].
  - rewrite elem_of_nil. tauto.
  - rewrite IH, setAdd_elem_of, elem_of_cons. tauto.
Qed.

Lemma fold_setAdd_NoDup (l : list string) : forall acc : list string,
  NoDup acc -> NoDup (fold_left setAdd l acc).
Proof.
  induction l as [|x l IH]; intros acc Hacc; cbn [fold_left]; [exact Hacc|].
  apply IH, setAdd_NoDup, Hacc.
Qed.

(** The set keeps what it has: the fold extends the accumulator by a
    subsequence of the list. *)
Lemma fold_setAdd_extends (l : list string) : forall acc : list string,
  exists r, fold_left setAdd l acc = (acc ++ r)%list /\ r `sublist_of` l.
Proof.
  induction l as [|x l IH]; intros acc; cbn [fold_left].
  - exists []. split; [now rewrite app_nil_r | constructor].
  - destruct (IH (setAdd acc x)) as (r & -> & Hr). unfold setAdd.
    destruct (existsb (String.eqb x) acc).
    + exists r. split; [reflexivity | now apply sublist_cons].
    + exists (x :: r). split; [now rewrite <- app_assoc | now apply sublist_skip].
Qed.

Lemma fold_setAdd_fresh (l : list string) : forall acc : list string,
  NoDup (acc ++ l) -> fold_left setAdd l acc = (acc ++ l)%list.
Proof.
  induction l as [|x l IH]; intros acc H; cbn [fold_left]; [now rewrite app_nil_r|].
  assert (Hx : existsb (String.eqb x) acc = false).
  { apply not_true_is_false. intros E. apply existsb_eqb_elem_of in E.
    apply NoDup_app in H as (_ & H & _). apply (H x E). now left. }
  unfold setAdd. rewrite Hx.
  replace (acc ++ x :: l)%list with ((acc ++ [x]) ++ l)%list in * by now rewrite <- app_assoc.
  now apply IH.
Qed.

(** The first occurrence stays, the later ones go. *)
Lemma fold_setAdd_head (x : string) (l : list string) : forall acc : list string,
  fold_left setAdd l (x :: acc)
  = x :: fold_left setAdd (filter (fun y => y <> x) l) acc.
Proof.
  induction l as [|y l IH]; intros acc; [reflexivity|].
  cbn [fold_left]. rewrite filter_cons.
  destruct (decide (y <> x)) as [Hne | Heq].
  - cbn [fold_left]. rewrite <- IH. f_equal. unfold setAdd. cbn [existsb].
    destruct (String.eqb_spec y x); [contradiction|]. cbn [orb].
    now destruct (existsb (String.eqb y) acc).
  - assert (y = x) as -> by (destruct (decide (y = x)); [assumption | contradiction]).
    rewrite <- IH. f_equal. unfold setAdd. cbn [existsb].
    now rewrite String.eqb_refl.
Qed.

Lemma unique_spec_aux (l : list string) :
  NoDup (unique l) /\ forall x, x ∈ unique l <-> x ∈ l.
Proof.
  unfold unique. split; [apply fold_setAdd_NoDup; constructor|].
  intros x. rewrite fold_setAdd_elem_of, elem_of_nil. tauto.
Qed.

(** X20: [unique] returns the distinct elements of the array, each once, in
    the order of their first occurrences: nothing is added or lost, the
    result is a subsequence, an array without duplicates is returned as it
    is, and a head element stays in front while its later copies go. *)
Theorem unique_keeps_first_occurrences (this : list string) :
  NoDup (unique this)
  /\ (forall x, x ∈ unique this <-> x ∈ this)
  /\ unique this `sublist_of` this
  /\ (NoDup this -> unique this = this)
  /\ unique (unique this) = unique this
  /\ (forall x, unique (x :: this) = x :: unique (filter (fun y => y <> x) this)).
Proof.
  unfold unique.
  assert (Hnd : NoDup (fold_left setAdd this [])) by (apply fold_setAdd_NoDup; constructor).
  split; [exact Hnd|]. split; [|split; [|split; [|split]]].
  - intros x. rewrite fold_setAdd_elem_of, elem_of_nil. tauto.
  - destruct (fold_setAdd_extends this []) as (r & -> & Hr). exact Hr.
  - intros H. now apply (fold_setAdd_fresh this []).
  - now apply (fold_setAdd_fresh _ []).
  - intros x. cbn [fold_left]. apply (fold_setAdd_head x this []).
Qed.

Lemma unique_keeps_first_occurrences_witness :
  unique ["DEF"; "GHI"] = ["DEF"; "GHI"].
Proof.
  destruct (unique_keeps_first_occurrences ["DEF"; "GHI"]) as (_ & _ & _ & H & _).
  apply H. apply NoDup_cons. split.
  - intros E. apply list_elem_of_singleton in E. discriminate E.
  - apply NoDup_singleton.
Defined.

(** * Flattening *)

Lemma flattenMembers_safe (obj : gmap string (list string)) (members : list string) :
  safeMembers obj members ->
  forall acc, exists r,
    flattenMembers obj members acc = Some r
    /\ forall x, x ∈ r <-> x ∈ acc \/ memberValue obj members x.
Proof.
  induction members as [|m members IH]; intros Hsafe acc; cbn [flattenMembers].
  - exists acc. split; [reflexivity|]. intros x. split; [auto|].
    intros [H | (m & v & Hm & _)]; [exact H | now apply elem_of_nil in Hm].
  - assert (Hsafe' : safeMembers obj members)
      by (intros m' Hm'; apply Hsafe; now right).
    destruct (obj !! m) as [v|] eqn:E.
    + destruct (IH Hsafe' (acc ++ v)%list) as (r & -> & Hr). exists r.
      split; [reflexivity|]. intros x. rewrite Hr, elem_of_app. split.
      * intros [[H | H] | (m' & v' & Hm' & Hv' & Hx)]; [now left | |].
        -- right. exists m, v. split; [now left | auto].
        -- right. exists m', v'. split; [now right | auto].
      * intros [H | (m' & v' & Hm' & Hv' & Hx)]; [now left; left|].
        apply elem_of_cons in Hm' as [-> | Hm'].
        -- left. right. congruence.
        -- right. exists m', v'. auto.
    + rewrite (Hsafe m ltac:(now left) E).
      destruct (IH Hsafe' acc) as (r & -> & Hr). exists r.
      split; [reflexivity|]. intros x. rewrite Hr. split.
      * intros [H | (m' & v' & Hm' & Hv' & Hx)]; [now left|].
        right. exists m', v'. split; [now right | auto].
      * intros [H | (m' & v' & Hm' & Hv' & Hx)]; [now left|].
        apply elem_of_cons in Hm' as [-> | Hm']; [congruence|].
        right. exists m', v'. auto.
Qed.

Lemma flattenMembers_unsafe (obj : gmap string (list string)) (members : list string)
    (m : string) :
  m ∈ members -> obj !! m = None -> isInherited m = true ->
  forall acc, flattenMembers obj members acc = None.
Proof.
  induction members as [|m' members IH]; intros Hin Hm Hi acc;
    [now apply elem_of_nil in Hin|].
  cbn [flattenMembers]. apply elem_of_cons in Hin as [<- | Hin].
  - now rewrite Hm, Hi.
  - destruct (obj !! m'); [now apply IH|].
    destruct (isInherited m'); [reflexivity | now apply IH].
Qed.

Lemma flattenMember_safe (obj : gmap string (list string)) (strMembers : string) :
  safeMembers obj (memberNames strMembers) ->
  exists r,
    flattenMember obj strMembers = Some r /\ NoDup r
    /\ forall x, x ∈ r <-> memberValue obj (memberNames strMembers) x.
Proof.
  intros Hsafe. unfold flattenMember. fold (memberNames strMembers).
  destruct (flattenMembers_safe obj _ Hsafe []) as (r & -> & Hr).
  exists (unique r). split; [reflexivity|].
  destruct (unique_spec_aux r) as (Hnd & Hmem).
  split; [exact Hnd|]. intros x. rewrite Hmem, Hr, elem_of_nil. tauto.
Qed.

(** X21: [flattenMember] returns, without duplicates, exactly the values of
    the members the table has; a member it does not have is passed over,
    unless [Object.prototype] has the name, in which case the function
    stops with a TypeError.  The value of an address group is, likewise
    without duplicates, what its members give in the table of addresses or
    in the table of groups. *)
Theorem flattenMember_collects_member_values
    (obj objGroup : gmap string (list string)) (strMembers : string) :
  (safeMembers obj (memberNames strMembers) ->
   exists r,
     flattenMember obj strMembers = Some r /\ NoDup r
     /\ forall x, x ∈ r <-> memberValue obj (memberNames strMembers) x)
  /\ (forall m, m ∈ memberNames strMembers -> obj !! m = None -> isInherited m = true ->
        flattenMember obj strMembers = None)
  /\ (safeMembers obj (memberNames strMembers) ->
      safeMembers objGroup (memberNames strMembers) ->
      exists r,
        normalizeFirewallAddressGroup strMembers obj objGroup = Some r /\ NoDup r
        /\ forall x, x ∈ r <-> memberValue obj (memberNames strMembers) x
                                \/ memberValue objGroup (memberNames strMembers) x).
Proof.
  split; [apply flattenMember_safe|]. split.
  - intros m Hin Hm Hi. unfold flattenMember. fold (memberNames strMembers).
    now rewrite (flattenMembers_unsafe obj _ m Hin Hm Hi).
  - intros H1 H2. unfold normalizeFirewallAddressGroup.
    destruct (flattenMember_safe obj strMembers H1) as (r1 & -> & _ & Hr1).
    destruct (flattenMember_safe objGroup strMembers H2) as (r2 & -> & _ & Hr2).
    exists (unique (r1 ++ r2)). split; [reflexivity|].
    destruct (unique_spec_aux (r1 ++ r2)) as (Hnd & Hmem).
    split; [exact Hnd|]. intros x. now rewrite Hmem, elem_of_app, Hr1, Hr2.
Qed.

Lemma flattenMember_collects_member_values_witness :
  exists r,
    flattenMember (<["KEY12" := ["DEF"; "GHI"]]> (<["KEY13" := ["DEF"; "DEF"]]> ∅))
      (dquote +:+ "KEY12" +:+ memberSeparator +:+ "KEY13" +:+ dquote) = Some r
    /\ NoDup r.
Proof.
  destruct (flattenMember_collects_member_values
              (<["KEY12" := ["DEF"; "GHI"]]> (<["KEY13" := ["DEF"; "DEF"]]> ∅)) ∅
              (dquote +:+ "KEY12" +:+ memberSeparator +:+ "KEY13" +:+ dquote))
    as (H & _).
  destruct H as (r & H1 & H2 & _).
  - intros m Hm. vm_compute in Hm.
    apply elem_of_cons in Hm as [-> | Hm]; [intros E; vm_compute in E; discriminate E|].
    apply list_elem_of_singleton in Hm. subst m.
    intros E. vm_compute in E. discriminate E.
  - exists r. auto.
Defined.

(** * Protocol classes of arrays *)

Lemma getProtocolTypeBitsOfArray_testbit (l : list string) (n : Z) :
  Z.testbit (getProtocolTypeBitsOfArray l) n
  = existsb (fun v => Z.testbit (getProtocolTypeBit (leadingProtocolToken v)) n) l.
Proof.
  induction l as [|v l IH] using rev_ind.
  - cbn. apply Z.testbit_0_l.
  - rewrite getProtocolTypeBitsOfArray_snoc, Z.lor_spec, IH, existsb_app.
    cbn [existsb]. now rewrite orb_false_r.
Qed.

Lemma getProtocolTypeBitsOfArray_same_elements (l k : list string) :
  (forall x, x ∈ l <-> x ∈ k) ->
  getProtocolTypeBitsOfArray l = getProtocolTypeBitsOfArray k.
Proof.
  intros H. apply Z.bits_inj. intros n.
  rewrite !getProtocolTypeBitsOfArray_testbit.
  apply eq_true_iff_eq. rewrite !existsb_exists.
  split; intros (x & Hx & Hb); exists x; (split; [|exact Hb]);
    apply list_elem_of_In, H, list_elem_of_In, Hx.
Qed.

Lemma getProtocolTypeBitsOfArray_app (l k : list string) :
  getProtocolTypeBitsOfArray (l ++ k)
  = Z.lor (getProtocolTypeBitsOfArray l) (getProtocolTypeBitsOfArray k).
Proof.
  apply Z.bits_inj. intros n.
  now rewrite Z.lor_spec, !getProtocolTypeBitsOfArray_testbit, existsb_app.
Qed.

(** X22: the protocol classes of an array are the bitwise OR of the classes
    of its values: they add up over concatenation and do not depend on
    order or duplicates; so the protocol type of a service group is the OR
    of the classes of what its members give in the table of services and in
    the table of groups. *)
Theorem protocol_type_of_service_group (member strComment : string)
    (objFirewallServiceCustom objFirewallServiceGroup : gmap string serviceEntry)
    (a b : list string) :
  (forall l k : list string,
      getProtocolTypeBitsOfArray (l ++ k)
      = Z.lor (getProtocolTypeBitsOfArray l) (getProtocolTypeBitsOfArray k))
  /\ (forall l k : list string,
        (forall x, x ∈ l <-> x ∈ k) ->
        getProtocolTypeBitsOfArray l = getProtocolTypeBitsOfArray k)
  /\ (flattenMember (value <$> objFirewallServiceCustom) member = Some a ->
      flattenMember (value <$> objFirewallServiceGroup) member = Some b ->
      exists e,
        normalizeFirewallServiceGroup member strComment objFirewallServiceCustom
          objFirewallServiceGroup = Some e
        /\ value e = unique (a ++ b)
        /\ protocol_type e
           = Z.lor (getProtocolTypeBitsOfArray a) (getProtocolTypeBitsOfArray b)).
Proof.
  split; [apply getProtocolTypeBitsOfArray_app|].
  split; [apply getProtocolTypeBitsOfArray_same_elements|].
  intros Ha Hb. unfold normalizeFirewallServiceGroup. rewrite Ha, Hb.
  eexists. split; [reflexivity|]. cbn [value protocol_type]. split; [reflexivity|].
  rewrite <- getProtocolTypeBitsOfArray_app.
  apply getProtocolTypeBitsOfArray_same_elements. apply unique_spec_aux.
Qed.

Lemma protocol_type_of_service_group_witness :
  exists e,
    normalizeFirewallServiceGroup (dquote +:+ "SRVC11" +:+ dquote) ""
      (<["SRVC11" := mkServiceEntry ["1/any/any;-"] 2 ""]> ∅) ∅ = Some e
    /\ protocol_type e = 2.
Proof.
  destruct (protocol_type_of_service_group (dquote +:+ "SRVC11" +:+ dquote) ""
              (<["SRVC11" := mkServiceEntry ["1/any/any;-"] 2 ""]> ∅) ∅
              ["1/any/any;-"] []) as (_ & _ & H).
  destruct H as (e & H1 & _ & H2); [vm_compute; reflexivity | vm_compute; reflexivity |].
  exists e. split; [exact H1 | exact H2].
Defined.

(** * More on wildcard names *)

Lemma WildcardFQDN_test_iff (name query : string) :
  plainName name = true ->
  (WildcardFQDN_test name query = true <-> wildcardMatches name query).
Proof.
  intros Hplain. unfold WildcardFQDN_test.
  rewrite (compile_wildcard_name name Hplain), test_spec. apply lang_nameRegex.
Qed.

Lemma wildcardMatches_plain (name query : string) :
  noChar "*" name = true -> wildcardMatches name query -> query = name.
Proof.
  intros Hn H. induction H as [|name run rest Hrun H IH|c name rest Hc H IH].
  - reflexivity.
  - discriminate Hn.
  - cbn [noChar] in Hn. apply andb_prop in Hn as [_ Hn]. now rewrite IH.
Qed.

Lemma wildcardMatches_refl (name : string) :
  noChar "*" name = true -> wildcardMatches name name.
Proof.
  induction name as [|c name IH]; intros Hn; [constructor|].
  cbn [noChar] in Hn. apply andb_prop in Hn as [Hc Hn].
  apply negb_true_iff, Ascii.eqb_neq in Hc. constructor; auto.
Qed.

Lemma countChar_app (x : ascii) (a b : string) :
  countChar x (a +:+ b) = (countChar x a + countChar x b)%nat.
Proof.
  induction a as [|c a IH]; [reflexivity|].
  rewrite string_app_cons. cbn [countChar]. rewrite IH. lia.
Qed.

Lemma countChar_noDots (run : string) : noDots run = true -> countChar "." run = 0%nat.
Proof.
  induction run as [|c run IH]; [reflexivity|]. cbn [noDots countChar].
  intros H. apply andb_prop in H as [Hc Hr]. apply negb_true_iff in Hc.
  rewrite Hc, (IH Hr). reflexivity.
Qed.

Lemma wildcardMatches_dots (name query : string) :
  wildcardMatches name query -> countChar "." query = countChar "." name.
Proof.
  induction 1 as [|name run rest Hrun H IH|c name rest Hc H IH].
  - reflexivity.
  - rewrite countChar_app, (countChar_noDots run Hrun), IH. reflexivity.
  - cbn [countChar]. now rewrite IH.
Qed.

(** X23: for a stored name without regular-expression syntax other than
    dots and asterisks: without an asterisk it matches the identical query
    only; the name [*] matches exactly the queries without a dot; and a
    query that matches has as many dots as the name, since no asterisk
    reaches across a dot. *)
Theorem wildcard_name_special_cases (name query : string) :
  plainName name = true ->
  (noChar "*" name = true -> (WildcardFQDN_test name query = true <-> query = name))
  /\ WildcardFQDN_test "*" query = noDots query
  /\ (WildcardFQDN_test name query = true ->
      countChar "." query = countChar "." name).
Proof.
  intros Hplain. split; [|split].
  - intros Hn. rewrite (WildcardFQDN_test_iff name query Hplain). split.
    + now apply wildcardMatches_plain.
    + intros ->. now apply wildcardMatches_refl.
  - apply eq_true_iff_eq. rewrite (WildcardFQDN_test_iff "*" query eq_refl). split.
    + intros H. inversion H as [|name' run rest Hrun Hrest E1 E2|c name' rest Hc];
        subst; [|congruence].
      apply wildcardMatches_nil_inv in Hrest. subst rest.
      now rewrite string_app_nil_r.
    + intros H. rewrite <- (string_app_nil_r query). constructor; [exact H | constructor].
  - intros H. apply (WildcardFQDN_test_iff name query Hplain) in H.
    now apply wildcardMatches_dots.
Qed.

Lemma wildcard_name_special_cases_witness :
  WildcardFQDN_test "www.example.com" "www.example.com" = true.
Proof.
  destruct (wildcard_name_special_cases "www.example.com" "www.example.com" eq_refl)
    as (H & _).
  apply (H eq_refl). reflexivity.
Defined.

(** * The columns of a normalized row *)

Lemma noChar_take (x : ascii) (s : string) : forall n : nat,
  noChar x s = true -> noChar x (take n s) = true.
Proof.
  induction s as [|c s IH]; intros [|n] H; try reflexivity.
  cbn [take noChar] in *. apply andb_prop in H as [Hc Hs].
  now rewrite Hc, (IH n Hs).
Qed.

Lemma noChar_drop (x : ascii) (s : string) : forall n : nat,
  noChar x s = true -> noChar x (drop n s) = true.
Proof.
  induction s as [|c s IH]; intros [|n] H; try exact H.
  cbn [drop]. cbn [noChar] in H. apply andb_prop in H as [_ Hs]. now apply IH.
Qed.

Lemma noChar_trimString (x : ascii) (s str : string) :
  noChar x s = true -> noChar x (trimString s str) = true.
Proof.
  intros H. unfold trimString, substring. now apply noChar_take, noChar_drop.
Qed.

Lemma splitAux_noChar (x : ascii) (sep s : string) : forall (skip : nat) (cur : string),
  noChar x cur = true -> noChar x s = true ->
  Forall (fun piece => noChar x piece = true) (splitAux sep skip cur s).
Proof.
  induction s as [|c s IH]; intros skip cur Hcur Hs; cbn [splitAux].
  - constructor; [exact Hcur | constructor].
  - cbn [noChar] in Hs. apply andb_prop in Hs as [Hc Hs].
    destruct skip as [|k]; [|now apply IH].
    destruct (startsWith (String c s) sep).
    + constructor; [exact Hcur | now apply IH].
    + apply IH; [|exact Hs]. rewrite noChar_app, Hcur. cbn [chr noChar].
      now rewrite Hc.
Qed.

Lemma memberArray_noChar (x : ascii) (field : string) :
  noChar x field = true -> Forall (fun piece => noChar x piece = true) (memberArray field).
Proof.
  intros H. unfold memberArray. destruct (negb _); [|constructor].
  apply splitAux_noChar; [reflexivity | now apply noChar_trimString].
Qed.

Lemma digitsOfPos_commaFree (fuel : nat) : forall (n : Z) (acc : string),
  0 <= n -> noChar "," acc = true -> noChar "," (digitsOfPos 10 fuel n acc) = true.
Proof.
  induction fuel as [|fuel IH]; intros n acc Hn Hacc; cbn [digitsOfPos]; [exact Hacc|].
  assert (Hd : 0 <= n mod 10 < 10) by (apply Z.mod_pos_bound; lia).
  assert (Hc : noChar ","
                 (String (ascii_of_N (Z.to_N (if n mod 10 <? 10 then 48 + n mod 10
                                              else 87 + n mod 10))) acc) = true).
  { cbn [noChar]. rewrite Hacc, andb_true_r.
    assert (Hall : forallb (fun d => negb (Ascii.eqb
                              (ascii_of_N (Z.to_N (if d <? 10 then 48 + d else 87 + d))) ","))
                     (map Z.of_nat (seq 0 10)) = true) by (vm_compute; reflexivity).
    apply (forallb_range _ _ Hall (n mod 10)). lia. }
  destruct (n / 10 =? 0); [exact Hc|].
  apply IH; [apply Z.div_pos; lia | exact Hc].
Qed.

Lemma toString_commaFree (n : Z) : noChar "," (toString n) = true.
Proof.
  unfold toString, toStringRadix. destruct (Z.ltb_spec n 0).
  - rewrite noChar_app. cbn [noChar Ascii.eqb Bool.eqb negb andb].
    apply digitsOfPos_commaFree; [lia | reflexivity].
  - apply digitsOfPos_commaFree; [lia | reflexivity].
Qed.

Lemma split_join_fields (l : list string) (last : string) :
  Forall (fun f => noChar "," f = true) l ->
  split (join "," (l ++ [last])) "," = (l ++ split last ",")%list.
Proof.
  induction 1 as [|a l Ha Hl IH]; [reflexivity|].
  cbn [app join]. destruct (l ++ [last])%list as [|b k] eqn:E.
  { destruct l; discriminate E. }
  change (a +:+ "," +:+ join "," (b :: k))
    with (a +:+ String "," ("" +:+ join "," (b :: k))).
  rewrite string_app_nil_l, (split_sep "," a _ Ha), IH. reflexivity.
Qed.

Lemma servicePortAndTypeCode_commaFree
    (objFirewallServiceCustom objFirewallServiceGroup : gmap string serviceEntry)
    (strService : string) :
  noChar "," strService = true ->
  let '(strPort, strTypeCode) :=
    servicePortAndTypeCode objFirewallServiceCustom objFirewallServiceGroup strService in
  noChar "," strPort = true /\ noChar "," strTypeCode = true.
Proof.
  intros H. unfold servicePortAndTypeCode.
  destruct (tableGet objFirewallServiceCustom strService) as [e| |].
  - destruct (hasBits _ _), (hasBits _ _); auto.
  - auto.
  - destruct (tableGet objFirewallServiceGroup strService) as [e| |]; [|auto|auto].
    destruct (hasBits _ _), (hasBits _ _); auto.
Qed.

(** X24: the lookup reads back what the normalization wrote.  When the
    domain name, policy type and id and the fields of the policy other than
    the comment hold no comma, the first 21 columns of every row of the
    policy are the values the row was made of: one member of each of the
    five member arrays, [deny] for a missing action and [enable] for a
    missing status among them.  (A comma in the comment only adds columns
    at the end.) *)
Theorem normalized_row_reads_back
    (objFirewallServiceCustom objFirewallServiceGroup : gmap string serviceEntry)
    (strDomainName strPolicyType strPolicyID : string) (intOrderNumber : Z)
    (objParam : policyParam) (row : string) :
  In row (normalizeFirewallPolicy objFirewallServiceCustom objFirewallServiceGroup
            strDomainName strPolicyType strPolicyID intOrderNumber objParam) ->
  Forall commaFree
    [strDomainName; strPolicyType; strPolicyID; name objParam; action objParam;
     status objParam; schedule objParam; srcaddr_negate objParam;
     dstaddr_negate objParam; service_negate objParam; srcintf objParam;
     dstintf objParam; srcaddr objParam; dstaddr objParam; service objParam] ->
  exists strSrcIntf strDstIntf strSrcAddr strDstAddr strService strPort strTypeCode,
    In strSrcIntf (memberArray (srcintf objParam))
    /\ In strDstIntf (memberArray (dstintf objParam))
    /\ In strSrcAddr (memberArray (srcaddr objParam))
    /\ In strDstAddr (memberArray (dstaddr objParam))
    /\ In strService (memberArray (service objParam))
    /\ servicePortAndTypeCode objFirewallServiceCustom objFirewallServiceGroup strService
       = (strPort, strTypeCode)
    /\ firstn 21 (split row ",")
       = [strDomainName; strSrcIntf; strDstIntf; strPolicyType; strPolicyID;
          trimString (trimString (name objParam) dquote) squote;
          toString intOrderNumber;
          (if String.eqb (action objParam) "" then "deny" else action objParam);
          strService; strSrcAddr; strPort; strDstAddr; strPort;
          (if String.eqb strPort "-/-" then "-" else strPort); strTypeCode;
          srcaddr_negate objParam; dstaddr_negate objParam; service_negate objParam;
          (if String.eqb (status objParam) "" then "enable" else status objParam);
          "-"; trimString (trimString (schedule objParam) dquote) squote].
Proof.
  intros Hin Hfree. unfold commaFree in Hfree.
  repeat match goal with
         | H : Forall _ (_ :: _) |- _ =>
             apply Forall_cons in H; destruct H as [? H]
         end.
  unfold normalizeFirewallPolicy in Hin.
  apply in_flat_map in Hin as (si & Hsi & Hin).
  apply in_flat_map in Hin as (di & Hdi & Hin).
  apply in_flat_map in Hin as (sa & Hsa & Hin).
  apply in_flat_map in Hin as (da & Hda & Hin).
  apply in_map_iff in Hin as (sv & Hrow & Hsv).
  assert (Hmem : forall field x, noChar "," field = true -> In x (memberArray field) ->
                                 noChar "," x = true).
  { intros field x Hf Hx. pose proof (memberArray_noChar "," field Hf) as HF.
    rewrite Forall_forall in HF. apply HF. now apply list_elem_of_In. }
  pose proof (servicePortAndTypeCode_commaFree objFirewallServiceCustom
                objFirewallServiceGroup sv (Hmem _ _ ltac:(eassumption) Hsv)) as Hport.
  destruct (servicePortAndTypeCode objFirewallServiceCustom objFirewallServiceGroup sv)
    as [strPort strTypeCode] eqn:Esv.
  destruct Hport as (Hport & Htc).
  exists si, di, sa, da, sv, strPort, strTypeCode.
  do 5 (split; [assumption|]). split; [exact Esv|].
  subst row.
  match goal with
  | |- firstn 21 (split (join "," ?fields) ",") = ?cols =>
      change fields with (cols ++ [trimString (trimString (comments objParam) dquote) squote])%list
  end.
  rewrite split_join_fields.
  - rewrite firstn_app. cbn [length Nat.sub firstn]. now rewrite app_nil_r.
  - repeat (apply Forall_cons; split);
      try apply Forall_nil_2; try assumption;
      try (apply noChar_trimString, noChar_trimString; assumption);
      try apply toString_commaFree;
      try (eapply Hmem; [|eassumption]; assumption);
      try reflexivity.
    + destruct (String.eqb (action objParam) ""); [reflexivity | assumption].
    + destruct (String.eqb strPort "-/-"); [reflexivity | assumption].
    + destruct (String.eqb (status objParam) ""); [reflexivity | assumption].
Qed.

Lemma normalized_row_reads_back_witness :
  exists strService,
    In strService (memberArray (service Examples.negatedPolicy))
    /\ nth 8 (firstn 21 (split
         ",port1,port2,4to4,1,,1,accept,ALL,10.0.0.0/8,ALL,0.0.0.0/0,ALL,ALL,ALL,true,false,false,enable,-,always,"
         ",")) "" = strService.
Proof.
  destruct (normalized_row_reads_back ∅ ∅ "" "4to4" "1" 1
              (withNegateFlags Examples.negatedPolicy)
              ",port1,port2,4to4,1,,1,accept,ALL,10.0.0.0/8,ALL,0.0.0.0/0,ALL,ALL,ALL,true,false,false,enable,-,always,")
    as (si & di & sa & da & sv & port & tc & _ & _ & _ & _ & Hsv & _ & H).
  - vm_compute. left. reflexivity.
  - repeat (apply Forall_cons; split); try apply Forall_nil_2; vm_compute; reflexivity.
  - exists sv. split; [exact Hsv|]. rewrite H. reflexivity.
Defined.

(** * IPv6 addresses in full form *)

Lemma hexDigit_facts (d : Z) :
  0 <= d <= 15 ->
  digitValue (hexDigit d) = Some d
  /\ isWhiteSpace (hexDigit d) = false
  /\ RegExp.inClass false [("0", "9"); ("a", "f"); ("A", "F")]%char (hexDigit d) = true
  /\ hexDigit d <> ":"%char /\ hexDigit d <> "."%char
  /\ hexDigit d <> "-"%char /\ hexDigit d <> "+"%char
  /\ hexDigit d <> "x"%char /\ hexDigit d <> "X"%char.
Proof.
  intros Hd.
  assert (Hn : exists n : nat, d = Z.of_nat n /\ (n <= 15)%nat)
    by (exists (Z.to_nat d); lia).
  destruct Hn as (n & -> & Hn).
  do 16 (destruct n as [|n];
         [vm_compute; repeat split; congruence|]).
  lia.
Qed.

Lemma hex2_digits (b : Z) :
  0 <= b <= 255 ->
  hex2 b = String (hexDigit (b / 16)) (String (hexDigit (b mod 16)) "").
Proof.
  intros Hb.
  assert (Hall : forallb (fun b => String.eqb (hex2 b)
                            (String (hexDigit (b / 16)) (String (hexDigit (b mod 16)) "")))
                   (map Z.of_nat (seq 0 256)) = true) by (vm_compute; reflexivity).
  apply String.eqb_eq. apply (forallb_range _ _ Hall b). lia.
Qed.

Lemma hex4_digits (h : Z) :
  isHextet h ->
  hex4 h = String (hexDigit (h / 4096)) (String (hexDigit (h / 256 mod 16))
             (String (hexDigit (h mod 256 / 16)) (String (hexDigit (h mod 16)) ""))).
Proof.
  intros Hh. unfold isHextet in Hh. unfold hex4.
  rewrite Z.shiftr_div_pow2 by lia. change 255 with (Z.ones 8).
  rewrite Z.land_ones by lia. change (2 ^ 8) with 256.
  rewrite !hex2_digits by (Z.div_mod_to_equations; lia).
  rewrite string_app_cons, string_app_cons, string_app_nil_l.
  replace (h / 256 / 16) with (h / 4096) by (Z.div_mod_to_equations; lia).
  replace (h mod 256 mod 16) with (h mod 16) by (Z.div_mod_to_equations; lia).
  reflexivity.
Qed.

Lemma stripSign_plain (c : ascii) (s : string) :
  c <> "-"%char -> c <> "+"%char -> stripSign (String c s) = (false, String c s).
Proof.
  intros H1 H2. destruct c as [[] [] [] [] [] [] [] []]; try reflexivity; congruence.
Qed.

Lemma stripHexPrefix_plain (c1 c2 : ascii) (s : string) :
  c2 <> "x"%char -> c2 <> "X"%char -> stripHexPrefix (String c1 (String c2 s)) = None.
Proof.
  intros H1 H2. destruct c1 as [[] [] [] [] [] [] [] []]; try reflexivity.
  destruct c2 as [[] [] [] [] [] [] [] []]; try reflexivity; congruence.
Qed.

(** What the reading of a hextet string needs to know of the four digits of
    a hextet. *)
Lemma hex4_reads_back (h : Z) :
  isHextet h ->
  String.length (hex4 h) = 4%nat
  /\ parseInt16 (hex4 h) = Int h
  /\ isHexDigitOrNone (charAt (hex4 h) 0) = true
  /\ isHexDigitOrNone (charAt (hex4 h) 1) = true
  /\ isHexDigitOrNone (charAt (hex4 h) 2) = true
  /\ isHexDigitOrNone (charAt (hex4 h) 3) = true
  /\ noChar ":" (hex4 h) = true /\ noChar "." (hex4 h) = true
  /\ exists c s, hex4 h = String c s.
Proof.
  intros Hh. rewrite (hex4_digits h Hh). unfold isHextet in Hh.
  set (d1 := h / 4096). set (d2 := h / 256 mod 16).
  set (d3 := h mod 256 / 16). set (d4 := h mod 16).
  assert (R1 : 0 <= d1 <= 15) by (subst d1; Z.div_mod_to_equations; lia).
  assert (R2 : 0 <= d2 <= 15) by (subst d2; Z.div_mod_to_equations; lia).
  assert (R3 : 0 <= d3 <= 15) by (subst d3; Z.div_mod_to_equations; lia).
  assert (R4 : 0 <= d4 <= 15) by (subst d4; Z.div_mod_to_equations; lia).
  assert (Hv : ((d1 * 16 + d2) * 16 + d3) * 16 + d4 = h)
    by (subst d1 d2 d3 d4; Z.div_mod_to_equations; lia).
  clearbody d1 d2 d3 d4.
  destruct (hexDigit_facts d1 R1) as (V1 & W1 & C1 & N1 & P1 & M1 & L1 & _).
  destruct (hexDigit_facts d2 R2) as (V2 & _ & C2 & N2 & P2 & _ & _ & X2 & X2').
  destruct (hexDigit_facts d3 R3) as (V3 & _ & C3 & N3 & P3 & _).
  destruct (hexDigit_facts d4 R4) as (V4 & _ & C4 & N4 & P4 & _).
  split; [reflexivity|]. split.
  - unfold parseInt16. cbn [trimStart]. rewrite W1.
    rewrite (stripSign_plain _ _ M1 L1), (stripHexPrefix_plain _ _ _ X2 X2').
    unfold parseIntDigits. cbn [readDigits]. rewrite V1, V2, V3, V4.
    destruct (Z.ltb_spec d1 16); [|lia]. destruct (Z.ltb_spec d2 16); [|lia].
    destruct (Z.ltb_spec d3 16); [|lia]. destruct (Z.ltb_spec d4 16); [|lia].
    cbn [fst]. rewrite Hv. unfold roundInt.
    destruct (Z.ltb_spec (Z.abs h) (2 ^ 53)); [reflexivity|].
    change (2 ^ 53) with 9007199254740992 in *. lia.
  - unfold charAt. cbn [drop take isHexDigitOrNone]. rewrite C1, C2, C3, C4.
    cbn [noChar]. apply Ascii.eqb_neq in N1, N2, N3, N4, P1, P2, P3, P4.
    rewrite N1, N2, N3, N4, P1, P2, P3, P4. cbn [negb andb].
    repeat split; eauto.
Qed.

Lemma split_join (x : ascii) (l : list string) :
  Forall (fun piece => noChar x piece = true) l -> l <> [] ->
  split (join (String x "") l) (String x "") = l.
Proof.
  induction 1 as [|a l Ha Hl IH]; intros Hne; [congruence|].
  destruct l as [|b k]; [cbn [join]; now apply split_nosep|].
  change (join (String x "") (a :: b :: k))
    with (a +:+ String x ("" +:+ join (String x "") (b :: k))).
  rewrite string_app_nil_l, (split_sep x a _ Ha), IH; [reflexivity | discriminate].
Qed.

Lemma noChar_join (x sep : ascii) (l : list string) :
  Ascii.eqb sep x = false ->
  Forall (fun piece => noChar x piece = true) l ->
  noChar x (join (String sep "") l) = true.
Proof.
  intros Hsep. induction 1 as [|a l Ha Hl IH]; [reflexivity|].
  destruct l as [|b k]; [exact Ha|].
  change (join (String sep "") (a :: b :: k))
    with (a +:+ String sep ("" +:+ join (String sep "") (b :: k))).
  rewrite string_app_nil_l, noChar_app, Ha. cbn [noChar]. now rewrite Hsep, IH.
Qed.

(** No two colons in a row where the pieces have none and are not empty. *)
Lemma indexOfFrom_dblcolon_piece (a rest : string) : forall i,
  noChar ":" a = true ->
  (rest = "" \/ exists r, rest = String ":" r /\ startsWith r ":" = false
                           /\ forall j, indexOfFrom r "::" j = -1) ->
  indexOfFrom (a +:+ rest) "::" i = -1.
Proof.
  induction a as [|c a IH]; intros i Ha Hrest.
  - rewrite string_app_nil_l. destruct Hrest as [-> | (r & -> & Hr & Hidx)];
      [reflexivity|].
    cbn [indexOfFrom]. unfold startsWith in *. cbn [String.prefix].
    destruct (ascii_dec ":" ":"); [|congruence]. rewrite Hr. apply Hidx.
  - cbn [noChar] in Ha. apply andb_prop in Ha as [Hc Ha].
    apply negb_true_iff, Ascii.eqb_neq in Hc.
    rewrite string_app_cons. cbn [indexOfFrom]. unfold startsWith at 1.
    cbn [String.prefix]. destruct (ascii_dec ":" c); [congruence|].
    now apply IH.
Qed.

Lemma join_no_dblcolon (l : list string) :
  Forall (fun piece => noChar ":" piece = true /\ exists c s, piece = String c s) l ->
  l <> [] ->
  startsWith (join ":" l) ":" = false /\ forall i, indexOfFrom (join ":" l) "::" i = -1.
Proof.
  induction 1 as [|a l (Ha & c & s & Ea) Hl IH]; intros Hne; [congruence|].
  assert (Hstart : forall rest, startsWith (a +:+ rest) ":" = false).
  { intros rest. subst a. rewrite string_app_cons, startsWith_chr.
    cbn [noChar] in Ha. apply andb_prop in Ha as [Hc _].
    now apply negb_true_iff in Hc. }
  destruct l as [|b k].
  - cbn [join]. split; [rewrite <- (string_app_nil_r a); apply Hstart|].
    intros i. rewrite <- (string_app_nil_r a).
    apply indexOfFrom_dblcolon_piece; [exact Ha | now left].
  - destruct (IH ltac:(discriminate)) as (Hs & Hidx).
    change (join ":" (a :: b :: k)) with (a +:+ String ":" ("" +:+ join ":" (b :: k))).
    rewrite string_app_nil_l. split; [apply Hstart|].
    intros i. apply indexOfFrom_dblcolon_piece; [exact Ha|].
    right. eauto.
Qed.

Lemma readHextetStrs_hex4 (hs : list Z) :
  Forall isHextet hs -> readHextetStrs (map hex4 hs) = Some (Some hs).
Proof.
  induction 1 as [|h hs Hh Hhs IH]; [reflexivity|].
  cbn [map readHextetStrs].
  destruct (hex4_reads_back h Hh) as (-> & -> & -> & -> & -> & -> & _).
  unfold isHextet in Hh. cbn [Nat.ltb Nat.leb andb]. unfold numLe. cbn [numLt numEq].
  destruct (Z.ltb_spec h 65535); destruct (Z.eqb_spec h 65535); cbn [orb]; try lia;
    rewrite IH; cbn [toUint16]; rewrite Z.mod_small by lia; reflexivity.
Qed.

Lemma hex4_pieces (hs : list Z) :
  Forall isHextet hs ->
  Forall (fun piece => noChar ":" piece = true /\ exists c s, piece = String c s)
    (map hex4 hs)
  /\ Forall (fun piece => noChar ":" piece = true) (map hex4 hs)
  /\ Forall (fun piece => noChar "." piece = true) (map hex4 hs).
Proof.
  induction 1 as [|h hs Hh Hhs (IH1 & IH2 & IH3)]; [repeat split; constructor|].
  destruct (hex4_reads_back h Hh) as (_ & _ & _ & _ & _ & _ & Hc & Hd & He).
  cbn [map]. repeat split; constructor; auto.
Qed.

(** The full form is read as its eight hextets. *)
Lemma getIPv6HextetStrArray_fullForm (hs : list Z) :
  length hs = 8%nat -> Forall isHextet hs ->
  getIPv6HextetStrArray (fullForm hs) = map hex4 hs.
Proof.
  intros Hlen Hhs. destruct (hex4_pieces hs Hhs) as (H1 & H2 & H3).
  assert (Hne : map hex4 hs <> []) by (destruct hs; [discriminate Hlen | discriminate]).
  destruct (join_no_dblcolon _ H1 Hne) as (_ & Hdbl).
  assert (E1 : indexOf (join ":" (map hex4 hs)) "::" = -1) by apply Hdbl.
  assert (E2 : indexOf (join ":" (map hex4 hs)) "." = -1).
  { apply Z.eqb_eq. rewrite indexOf_noChar. exact (noChar_join "." ":" _ eq_refl H3). }
  unfold getIPv6HextetStrArray, fullForm. cbv zeta. rewrite !E1.
  change (-1 =? -1) with true. cbv iota. rewrite !E2.
  change (-1 =? -1) with true. cbv iota.
  unfold getHextetStrArray. rewrite (split_join ":" _ H2 Hne), (readHextetStrs_hex4 hs Hhs).
  rewrite length_map, Hlen. reflexivity.
Qed.

Lemma readHextetStrs_range (l : list string) : forall hs,
  readHextetStrs l = Some (Some hs) -> Forall isHextet hs.
Proof.
  induction l as [|s l IH]; intros hs H; cbn [readHextetStrs] in H.
  - injection H as <-. constructor.
  - destruct (4 <? String.length s)%nat; [discriminate|].
    destruct (_ && _); [|discriminate].
    destruct (readHextetStrs l) as [[k|]|]; try discriminate.
    injection H as <-. constructor; [|now apply IH].
    unfold isHextet, toUint16. destruct (parseInt16 s); try lia.
    pose proof (Z.mod_pos_bound z 65536). lia.
Qed.

Lemma readOctetStrs_range (l : list string) : forall os,
  readOctetStrs l = Some (Some os) -> Forall (fun o => 0 <= o <= 255) os.
Proof.
  induction l as [|s l IH]; intros os H; cbn [readOctetStrs] in H.
  - injection H as <-. constructor.
  - destruct (3 <? String.length s)%nat; [discriminate|].
    destruct (_ && _); [|discriminate].
    destruct (readOctetStrs l) as [[k|]|]; try discriminate.
    injection H as <-. constructor; [|now apply IH].
    unfold toUint8. destruct (parseInt s); try lia.
    pose proof (Z.mod_pos_bound z 256). lia.
Qed.

Lemma hex4_of_octets (a b : Z) :
  0 <= a <= 255 -> 0 <= b <= 255 -> hex2 a +:+ hex2 b = hex4 (a * 256 + b).
Proof.
  intros Ha Hb. unfold hex4.
  rewrite Z.shiftr_div_pow2 by lia. change 255 with (Z.ones 8).
  rewrite Z.land_ones by lia. change (2 ^ 8) with 256.
  replace ((a * 256 + b) / 256) with a by (Z.div_mod_to_equations; lia).
  replace ((a * 256 + b) mod 256) with b by (Z.div_mod_to_equations; lia).
  reflexivity.
Qed.

Lemma pairOctets_form (os : list Z) :
  Forall (fun o => 0 <= o <= 255) os -> Forall hex4Form (pairOctets os).
Proof.
  revert os. fix IH 2. intros os H.
  destruct H as [|a os Ha H]; [constructor|].
  destruct H as [|b os Hb H]; [constructor|].
  cbn [pairOctets]. constructor; [|now apply IH].
  exists (a * 256 + b). split; [unfold isHextet; lia | now apply hex4_of_octets].
Qed.

Lemma getHextetStrArray_form (s : string) (l : list string) :
  getHextetStrArray s = Some l -> Forall hex4Form l.
Proof.
  unfold getHextetStrArray. intros H.
  destruct (readHextetStrs (split s ":")) as [[hs|]|] eqn:E; try discriminate.
  - injection H as <-. apply readHextetStrs_range in E.
    induction E as [|h hs Hh _ IH]; constructor; [now exists h | exact IH].
  - injection H as <-. constructor.
Qed.

Lemma getHextetStrArrayFromOctetStr_form (s : string) (l : list string) :
  getHextetStrArrayFromOctetStr s = Some l -> Forall hex4Form l.
Proof.
  unfold getHextetStrArrayFromOctetStr. intros H.
  destruct (readOctetStrs (split s ".")) as [[os|]|] eqn:E; try discriminate.
  - injection H as <-. apply pairOctets_form. now apply readOctetStrs_range in E.
  - injection H as <-. constructor.
Qed.

Lemma hex4Form_zero : hex4Form "0000".
Proof. exists 0. split; [unfold isHextet; lia | reflexivity]. Qed.

(** The array of hextets is empty (the address is refused) or holds eight
    groups of four digits. *)
Lemma getIPv6HextetStrArray_form (s : string) :
  getIPv6HextetStrArray s = []
  \/ (length (getIPv6HextetStrArray s) = 8%nat
      /\ Forall hex4Form (getIPv6HextetStrArray s)).
Proof.
  unfold getIPv6HextetStrArray. cbv zeta.
  set (dbl := indexOf s "::").
  match goal with
  | |- context [match ?fr with None => [] | Some _ => _ end] =>
      set (front_rear := fr)
  end.
  assert (Hfr' : match front_rear with
                 | None => True
                 | Some (f, r) => Forall hex4Form f /\ ((dbl =? -1) = true -> f = [])
                 end).
  { subst front_rear. destruct (dbl =? -1) eqn:Ed.
    - split; [constructor | reflexivity].
    - destruct (getHextetStrArray (substring s 0 dbl)) as [l|] eqn:El; [|exact I].
      split; [now apply getHextetStrArray_form in El | discriminate]. }
  destruct front_rear as [[f r]|]; [|now left].
  destruct Hfr' as (Hf & Hnil).
  match goal with
  | |- context [match ?rr with None => [] | Some _ => _ end] =>
      assert (Hrear : forall l, rr = Some l -> Forall hex4Form l);
      [|destruct rr as [l|]; [specialize (Hrear l eq_refl)|now left]]
  end.
  { intros l. destruct (indexOf r "." =? -1); [apply getHextetStrArray_form|].
    destruct (lastIndexOf r ":" =? -1); [apply getHextetStrArrayFromOctetStr_form|].
    destruct (getHextetStrArray _) as [l1|] eqn:E1; [|discriminate].
    destruct (getHextetStrArrayFromOctetStr _) as [l2|] eqn:E2; [|discriminate].
    intros [= <-]. apply Forall_app. split;
      [now apply getHextetStrArray_form in E1
      |now apply getHextetStrArrayFromOctetStr_form in E2]. }
  destruct (_ || _) eqn:Eok; [|now left].
  match goal with
  | |- context [if ?c then [] else _] => destruct c; [now left|]
  end.
  right. split.
  - rewrite !length_app, repeat_length.
    destruct (dbl =? -1) eqn:Ed; cbn [andb orb negb] in Eok.
    + rewrite (Hnil eq_refl). rewrite orb_false_r in Eok.
      apply Nat.eqb_eq in Eok. cbn [length]. lia.
    + apply Nat.leb_le in Eok. lia.
  - apply Forall_app. split; [exact Hf|]. apply Forall_app. split; [|exact Hrear].
    generalize (8 - length f - length l)%nat. intros n.
    induction n as [|n IHn]; cbn [repeat]; constructor;
      [exact hex4Form_zero | exact IHn].
Qed.

Lemma hex4Form_list (l : list string) :
  Forall hex4Form l -> exists hs, Forall isHextet hs /\ l = map hex4 hs.
Proof.
  induction 1 as [|s l (h & Hh & ->) _ (hs & Hhs & ->)].
  - exists []. split; [constructor | reflexivity].
  - exists (h :: hs). split; [now constructor | reflexivity].
Qed.

Lemma fullForm_nonempty (hs : list Z) :
  Forall isHextet hs -> hs <> [] -> fullForm hs <> "".
Proof.
  intros Hhs Hne. destruct Hhs as [|h hs Hh Hhs]; [congruence|].
  destruct (hex4_reads_back h Hh) as (_ & _ & _ & _ & _ & _ & _ & _ & c & s & E).
  unfold fullForm. cbn [map]. destruct (map hex4 hs) as [|b k].
  - cbn [join]. rewrite E. discriminate.
  - change (join ":" (hex4 h :: b :: k))
      with (hex4 h +:+ String ":" ("" +:+ join ":" (b :: k))).
    rewrite E, string_app_cons. discriminate.
Qed.

(** X25. [getIPv6FullRepresentedAddr] returns the empty string (the address
    is refused) or a full form: eight groups of four hexadecimal digits
    joined by colons, each the digits of a number between 0 and 65535;
    a full form is returned as it is, so the function applied twice gives
    what it gives once. *)
Theorem full_represented_address_is_a_fixed_point :
  (forall s, getIPv6FullRepresentedAddr s = ""
             \/ exists hs, length hs = 8%nat /\ Forall isHextet hs
                           /\ getIPv6FullRepresentedAddr s = fullForm hs)
  /\ (forall hs, length hs = 8%nat -> Forall isHextet hs ->
        getIPv6FullRepresentedAddr (fullForm hs) = fullForm hs
        /\ fullForm hs <> "")
  /\ (forall s, getIPv6FullRepresentedAddr (getIPv6FullRepresentedAddr s)
                = getIPv6FullRepresentedAddr s).
Proof.
  assert (H1 : forall s, getIPv6FullRepresentedAddr s = ""
             \/ exists hs, length hs = 8%nat /\ Forall isHextet hs
                           /\ getIPv6FullRepresentedAddr s = fullForm hs).
  { intros s. unfold getIPv6FullRepresentedAddr.
    destruct (getIPv6HextetStrArray_form s) as [-> | (Hlen & Hform)]; [now left|].
    right. destruct (hex4Form_list _ Hform) as (hs & Hhs & E).
    exists hs. rewrite E in Hlen |- *. rewrite length_map in Hlen. now repeat split. }
  assert (H2 : forall hs, length hs = 8%nat -> Forall isHextet hs ->
        getIPv6FullRepresentedAddr (fullForm hs) = fullForm hs).
  { intros hs Hlen Hhs. unfold getIPv6FullRepresentedAddr.
    now rewrite getIPv6HextetStrArray_fullForm. }
  split; [exact H1|]. split.
  - intros hs Hlen Hhs. split; [now apply H2|].
    apply fullForm_nonempty; [exact Hhs | intros ->; discriminate].
  - intros s. destruct (H1 s) as [-> | (hs & Hlen & Hhs & ->)];
      [reflexivity | now apply H2].
Qed.

Lemma full_represented_address_is_a_fixed_point_witness :
  getIPv6FullRepresentedAddr "2001:0db8:0000:0000:0000:0000:0000:0001"
  = "2001:0db8:0000:0000:0000:0000:0000:0001".
Proof.
  destruct full_represented_address_is_a_fixed_point as (_ & H & _).
  destruct (H [8193; 3512; 0; 0; 0; 0; 0; 1] eq_refl) as (E & _).
  - repeat constructor; unfold isHextet; lia.
  - exact E.
Defined.

(** ** IPv6 addresses as 128-bit numbers *)

Lemma hextets8 (hs : list Z) :
  length hs = 8%nat ->
  exists a b c d e f g h, hs = [a; b; c; d; e; f; g; h].
Proof.
  intros H. do 8 (destruct hs as [|? hs]; [discriminate H|]).
  destruct hs; [|discriminate H]. now do 8 eexists.
Qed.

Lemma split_fullForm (hs : list Z) :
  hs <> [] -> Forall isHextet hs -> split (fullForm hs) ":" = map hex4 hs.
Proof.
  intros Hne Hhs. destruct (hex4_pieces hs Hhs) as (_ & H2 & _).
  apply (split_join ":" _ H2). destruct hs; [congruence | discriminate].
Qed.

Lemma hextets_read_back (hs : list Z) :
  length hs = 8%nat -> Forall isHextet hs ->
  map (fun i => parseInt16Opt (split (fullForm hs) ":" !! i)) [0; 1; 2; 3; 4; 5; 6; 7]%nat
  = map Int hs
  /\ hextetsOf (fullForm hs) = hs.
Proof.
  intros Hlen Hhs. unfold hextetsOf.
  rewrite split_fullForm by (try intros ->; try discriminate; exact Hhs).
  destruct (hextets8 hs Hlen) as (a & b & c & d & e & f & g & h & ->).
  repeat match goal with
         | H : Forall _ (_ :: _) |- _ => apply Forall_cons_1 in H as [? H]
         end.
  cbn [map lookup list_lookup parseInt16Opt].
  repeat match goal with
         | H : isHextet ?x |- _ =>
             destruct (hex4_reads_back x H) as (_ & -> & _); unfold isHextet in H
         end.
  cbn [toUint16]. rewrite !Z.mod_small by lia. split; reflexivity.
Qed.

Lemma fullForm_inj (xs ys : list Z) :
  length xs = 8%nat -> Forall isHextet xs ->
  length ys = 8%nat -> Forall isHextet ys ->
  fullForm xs = fullForm ys -> xs = ys.
Proof.
  intros Lx Hx Ly Hy E.
  destruct (hextets_read_back xs Lx Hx) as (_ & <-).
  destruct (hextets_read_back ys Ly Hy) as (_ & <-).
  now rewrite E.
Qed.

Lemma hextetsValue_cons (x : Z) (xs : list Z) :
  hextetsValue (x :: xs) = x * 65536 ^ Z.of_nat (length xs) + hextetsValue xs.
Proof.
  unfold hextetsValue. cbn [fold_left]. replace (0 * 65536 + x) with x by lia.
  generalize x. clear x. induction xs as [|y ys IH]; intros x.
  - cbn [fold_left length]. change (65536 ^ Z.of_nat 0) with 1. lia.
  - cbn [fold_left length]. rewrite (IH (x * 65536 + y)), (IH (0 * 65536 + y)).
    rewrite Nat2Z.inj_succ, Z.pow_succ_r by lia. lia.
Qed.

Lemma hextetsValue_bounds (xs : list Z) :
  Forall isHextet xs -> 0 <= hextetsValue xs < 65536 ^ Z.of_nat (length xs).
Proof.
  induction 1 as [|x xs Hx _ IH]; [cbn; lia|].
  rewrite hextetsValue_cons. cbn [length]. rewrite Nat2Z.inj_succ, Z.pow_succ_r by lia.
  unfold isHextet in Hx. nia.
Qed.

Lemma compareOctets_hextets (xs ys : list Z) :
  length xs = length ys -> Forall isHextet xs -> Forall isHextet ys ->
  compareOctets (map Int xs) (map Int ys) = Z.sgn (hextetsValue xs - hextetsValue ys).
Proof.
  revert ys. induction xs as [|x xs IH]; intros [|y ys] L Hx Hy; try discriminate L.
  - reflexivity.
  - apply Forall_cons_1 in Hx as [Hx Hxs], Hy as [Hy Hys].
    injection L as L. rewrite !hextetsValue_cons, <- L.
    pose proof (hextetsValue_bounds xs Hxs) as Bx.
    pose proof (hextetsValue_bounds ys Hys) as By. rewrite <- L in By.
    unfold compareOctets in *. cbn [map combine fold_right numGt numLt].
    rewrite (IH ys L Hxs Hys).
    set (P := 65536 ^ Z.of_nat (length xs)) in *.
    destruct (Z.ltb_spec y x); [|destruct (Z.ltb_spec x y)].
    + assert ((y + 1) * P <= x * P) by (apply Z.mul_le_mono_nonneg_r; lia). lia.
    + assert ((x + 1) * P <= y * P) by (apply Z.mul_le_mono_nonneg_r; lia). lia.
    + replace y with x by lia. f_equal. lia.
Qed.

Lemma hextetsValue_inj (xs ys : list Z) :
  length xs = length ys -> Forall isHextet xs -> Forall isHextet ys ->
  hextetsValue xs = hextetsValue ys -> xs = ys.
Proof.
  revert ys. induction xs as [|x xs IH]; intros [|y ys] L Hx Hy; try discriminate L.
  - reflexivity.
  - apply Forall_cons_1 in Hx as [Hx Hxs], Hy as [Hy Hys].
    injection L as L. rewrite !hextetsValue_cons, <- L.
    pose proof (hextetsValue_bounds xs Hxs) as Bx.
    pose proof (hextetsValue_bounds ys Hys) as By. rewrite <- L in By.
    set (P := 65536 ^ Z.of_nat (length xs)) in *. intros V.
    assert (x = y).
    { destruct (Z.lt_trichotomy x y) as [Hlt | [Heq | Hgt]]; [|exact Heq|].
      - assert ((x + 1) * P <= y * P) by (apply Z.mul_le_mono_nonneg_r; lia). lia.
      - assert ((y + 1) * P <= x * P) by (apply Z.mul_le_mono_nonneg_r; lia). lia. }
    subst y. f_equal. apply IH; [exact L | exact Hxs | exact Hys | lia].
Qed.

Lemma compareIPv6_hextets (a b : list Z) :
  length a = 8%nat -> Forall isHextet a -> length b = 8%nat -> Forall isHextet b ->
  compareIPv6 (fullForm a) (fullForm b) = Z.sgn (hextetsValue a - hextetsValue b).
Proof.
  intros La Ha Lb Hb. unfold compareIPv6.
  destruct (hextets_read_back a La Ha) as (-> & _).
  destruct (hextets_read_back b Lb Hb) as (-> & _).
  apply compareOctets_hextets; [congruence | exact Ha | exact Hb].
Qed.

(** X26. On addresses in full form [compareIPv6] is the order of the
    addresses as 128-bit numbers: the sign of the difference; it is 0 for
    equal addresses only, and swapping the arguments changes the sign. *)
Theorem compareIPv6_is_numeric_order (xs ys : list Z) :
  length xs = 8%nat -> Forall isHextet xs ->
  length ys = 8%nat -> Forall isHextet ys ->
  compareIPv6 (fullForm xs) (fullForm ys) = Z.sgn (hextetsValue xs - hextetsValue ys)
  /\ (compareIPv6 (fullForm xs) (fullForm ys) = 0 <-> fullForm xs = fullForm ys)
  /\ compareIPv6 (fullForm ys) (fullForm xs) = - compareIPv6 (fullForm xs) (fullForm ys).
Proof.
  intros Lx Hx Ly Hy.
  rewrite !compareIPv6_hextets by assumption. split; [reflexivity|]. split; [|lia].
  split.
  - intros E. f_equal.
    apply (hextetsValue_inj xs ys); [congruence | assumption | assumption | lia].
  - intros E. apply fullForm_inj in E; try assumption. subst ys.
    rewrite Z.sub_diag. reflexivity.
Qed.

Lemma compareIPv6_is_numeric_order_witness :
  compareIPv6 "2001:0db8:0000:0000:0000:0000:0000:0001"
              "2001:0db8:0000:0000:0000:0000:0001:0000" = -1.
Proof.
  destruct (compareIPv6_is_numeric_order
              [8193; 3512; 0; 0; 0; 0; 0; 1] [8193; 3512; 0; 0; 0; 0; 1; 0]
              eq_refl ltac:(repeat constructor; unfold isHextet; lia)
              eq_refl ltac:(repeat constructor; unfold isHextet; lia)) as (E & _).
  exact E.
Defined.

Lemma hextetsValue_snoc (xs : list Z) (x : Z) :
  hextetsValue (xs ++ [x]) = hextetsValue xs * 65536 + x.
Proof. unfold hextetsValue. now rewrite fold_left_app. Qed.

Lemma hextetsOfValue_hextetsValue (xs : list Z) :
  Forall isHextet xs -> hextetsOfValue (length xs) (hextetsValue xs) = xs.
Proof.
  induction xs as [|x xs IH] using rev_ind; intros H; [reflexivity|].
  apply Forall_app in H as [Hxs Hx]. apply Forall_cons_1 in Hx as [Hx _].
  unfold isHextet in Hx.
  rewrite length_app, Nat.add_1_r, hextetsValue_snoc. cbn [hextetsOfValue].
  replace ((hextetsValue xs * 65536 + x) / 65536) with (hextetsValue xs)
    by (Z.div_mod_to_equations; lia).
  replace ((hextetsValue xs * 65536 + x) mod 65536) with x
    by (Z.div_mod_to_equations; lia).
  now rewrite IH.
Qed.

Lemma hextetsOfValue_spec (n : nat) : forall v,
  length (hextetsOfValue n v) = n
  /\ Forall isHextet (hextetsOfValue n v)
  /\ (0 <= v < 65536 ^ Z.of_nat n -> hextetsValue (hextetsOfValue n v) = v).
Proof.
  induction n as [|n IH]; intros v.
  - repeat split; [constructor|]. cbn. lia.
  - destruct (IH (v / 65536)) as (L & F & V). cbn [hextetsOfValue].
    split; [rewrite length_app, L; cbn [length]; lia|]. split.
    + apply Forall_app. split; [exact F|]. constructor; [|constructor].
      unfold isHextet. pose proof (Z.mod_pos_bound v 65536). lia.
    + rewrite Nat2Z.inj_succ, Z.pow_succ_r by lia. intros Hv.
      rewrite hextetsValue_snoc, V; Z.div_mod_to_equations; nia.
Qed.

(** *** Masking a hextet *)

Lemma hextet_high_bits (x n : Z) : isHextet x -> 16 <= n -> Z.testbit x n = false.
Proof.
  intros Hx Hn. unfold isHextet in Hx.
  rewrite <- (Z.mod_small x (2 ^ 16)) by (change (2 ^ 16) with 65536; lia).
  apply Z.mod_pow2_bits_high. lia.
Qed.

Lemma round_down_bits (x k n : Z) :
  0 <= k -> 0 <= n ->
  Z.testbit (Z.shiftl (Z.shiftr x k) k) n = (k <=? n) && Z.testbit x n.
Proof.
  intros Hk Hn. rewrite Z.shiftl_spec by lia.
  destruct (Z.leb_spec k n).
  - rewrite Z.shiftr_spec by lia. cbn [andb]. f_equal. lia.
  - apply Z.testbit_neg_r. lia.
Qed.

Lemma hextetMask_exponent (q : Z) :
  0 <= 16 - Z.max 0 (Z.min q 16) <= 16
  /\ hextetMask q = 65536 - 2 ^ (16 - Z.max 0 (Z.min q 16))
  /\ 1 <= 2 ^ (16 - Z.max 0 (Z.min q 16)) <= 65536.
Proof.
  split; [lia|]. split; [reflexivity|].
  set (k := 16 - Z.max 0 (Z.min q 16)). assert (Hk : 0 <= k <= 16) by lia.
  split; [apply (Z.pow_le_mono_r 2 0 k); lia|].
  change 65536 with (2 ^ 16). apply Z.pow_le_mono_r; lia.
Qed.

Lemma land_high_ones (x k : Z) :
  isHextet x -> 0 <= k <= 16 ->
  Z.land x (65536 - 2 ^ k) = 2 ^ k * (x / 2 ^ k).
Proof.
  intros Hx Hk.
  replace (65536 - 2 ^ k) with (Z.shiftl (Z.ones (16 - k)) k).
  2:{ rewrite Z.shiftl_mul_pow2, Z.ones_equiv by lia.
      replace 65536 with (2 ^ (16 - k) * 2 ^ k)
        by (rewrite <- Z.pow_add_r by lia; now replace (16 - k + k) with 16 by lia).
      lia. }
  rewrite Z.mul_comm, <- Z.shiftr_div_pow2, <- Z.shiftl_mul_pow2 by lia.
  apply Z.bits_inj'. intros n Hn.
  rewrite Z.land_spec, round_down_bits, Z.shiftl_spec, Z.testbit_ones by lia.
  destruct (Z.leb_spec k n); cbn [andb].
  - destruct (Z.ltb_spec (n - k) (16 - k)).
    + replace (0 <=? n - k) with true by (symmetry; apply Z.leb_le; lia).
      now rewrite andb_true_r.
    + rewrite (hextet_high_bits x n Hx) by lia. reflexivity.
  - replace (0 <=? n - k) with false by (symmetry; apply Z.leb_gt; lia).
    now rewrite andb_false_r.
Qed.

Lemma lor_low_ones (x k : Z) :
  isHextet x -> 0 <= k <= 16 ->
  Z.lor x (Z.lxor (65536 - 2 ^ k) 65535) = 2 ^ k * (x / 2 ^ k) + 2 ^ k - 1.
Proof.
  intros Hx Hk.
  assert (Ek : Z.lxor (65536 - 2 ^ k) 65535 = Z.ones k).
  { assert (Hall : forallb (fun k => Z.lxor (65536 - 2 ^ k) 65535 =? Z.ones k)
                     (map Z.of_nat (seq 0 17)) = true) by (vm_compute; reflexivity).
    apply Z.eqb_eq. apply (forallb_range _ _ Hall k). lia. }
  rewrite Ek.
  set (A := Z.shiftl (Z.shiftr x k) k).
  assert (EA : 2 ^ k * (x / 2 ^ k) = A).
  { unfold A. now rewrite Z.mul_comm, <- Z.shiftr_div_pow2, <- Z.shiftl_mul_pow2 by lia. }
  assert (Hdisj : Z.land A (Z.ones k) = 0).
  { apply Z.bits_inj'. intros n Hn. unfold A.
    rewrite Z.land_spec, round_down_bits, Z.testbit_ones, Z.bits_0 by lia.
    destruct (Z.leb_spec k n); cbn [andb]; [|reflexivity].
    replace (n <? k) with false by (symmetry; apply Z.ltb_ge; lia).
    now rewrite !andb_false_r. }
  rewrite EA. replace (A + 2 ^ k - 1) with (A + Z.ones k) by (rewrite Z.ones_equiv; lia).
  rewrite (Z.add_nocarry_lxor _ _ Hdisj), (Z.lxor_lor _ _ Hdisj).
  apply Z.bits_inj'. intros n Hn. unfold A.
  rewrite !Z.lor_spec, round_down_bits, Z.testbit_ones by lia.
  destruct (Z.leb_spec k n); cbn [andb orb]; [reflexivity|].
  replace (0 <=? n) with true by (symmetry; apply Z.leb_le; lia).
  replace (n <? k) with true by (symmetry; apply Z.ltb_lt; lia).
  cbn [andb]. now rewrite orb_true_r.
Qed.

(** The two hextets the code prints for an address hextet and a mask
    hextet: the bounds of the block of [2 ^ k] values the hextet lies in. *)
Lemma masked_hextet (x q : Z) :
  isHextet x ->
  let k := 16 - Z.max 0 (Z.min q 16) in
  Z.land x (hextetMask q) = 2 ^ k * (x / 2 ^ k)
  /\ Z.lor x (Z.lxor (hextetMask q) 65535) = 2 ^ k * (x / 2 ^ k) + 2 ^ k - 1
  /\ isHextet (2 ^ k * (x / 2 ^ k))
  /\ isHextet (2 ^ k * (x / 2 ^ k) + 2 ^ k - 1).
Proof.
  intros Hx k. destruct (hextetMask_exponent q) as (Hk & Em & Hp). fold k in Hk, Em, Hp.
  rewrite Em, (land_high_ones x k Hx Hk), (lor_low_ones x k Hx Hk).
  split; [reflexivity|]. split; [reflexivity|].
  unfold isHextet in *.
  assert (H16 : 65536 = 2 ^ k * 2 ^ (16 - k))
    by (rewrite <- Z.pow_add_r by lia; now replace (k + (16 - k)) with 16 by lia).
  assert (Hq : 0 <= x / 2 ^ k < 2 ^ (16 - k)).
  { split; [apply Z.div_pos; lia|]. apply Z.div_lt_upper_bound; lia. }
  split; nia.
Qed.

(** *** Netmasks and the bounds of a subnet *)

Lemma maskHextets_spec (n : nat) : forall p,
  length (maskHextets n p) = n /\ Forall isHextet (maskHextets n p).
Proof.
  induction n as [|n IH]; intros p; [split; [reflexivity | constructor]|].
  destruct (IH (p - 16)) as (L & F). cbn [maskHextets length].
  split; [now rewrite L|]. constructor; [|exact F].
  destruct (hextetMask_exponent p) as (_ & -> & Hp). unfold isHextet. lia.
Qed.

Lemma netmask_table (p : Z) :
  0 <= p <= 128 ->
  getIPv6NetMaskFromPrefixLength (Int p) = fullForm (maskHextets 8 p)
  /\ getIPv6NetMaskFromPrefixLength (Int p)
     = fullForm (hextetsOfValue 8 (2 ^ 128 - 2 ^ (128 - p))).
Proof.
  intros Hp.
  assert (Hall : forallb (fun p =>
                   String.eqb (getIPv6NetMaskFromPrefixLength (Int p))
                     (fullForm (maskHextets 8 p))
                   && String.eqb (getIPv6NetMaskFromPrefixLength (Int p))
                        (fullForm (hextetsOfValue 8 (2 ^ 128 - 2 ^ (128 - p)))))
                   (map Z.of_nat (seq 0 129)) = true) by (vm_compute; reflexivity).
  pose proof (forallb_range _ _ Hall p ltac:(lia)) as H. cbv beta in H.
  apply andb_prop in H as [H1 H2].
  apply String.eqb_eq in H1. apply String.eqb_eq in H2. split; assumption.
Qed.

(** X27. For a prefix length between 0 and 128 the IPv6 netmask is the full
    form of the number 2^128 - 2^(128 - p): p one bits, then zero bits.  A
    prefix length outside that range is not refused: within the integers
    the script counts exactly (below 2^53 in absolute value; beyond them its
    loops need not end), one at or below 0 gives the mask of zeros and one
    at or above 128 the mask of ones. *)
Theorem ipv6_netmask_of_prefix_length (p : Z) :
  (0 <= p <= 128 ->
     getIPv6NetMaskFromPrefixLength (Int p)
     = fullForm (hextetsOfValue 8 (2 ^ 128 - 2 ^ (128 - p))))
  /\ (- 2 ^ 53 < p <= 0 ->
        getIPv6NetMaskFromPrefixLength (Int p)
        = "0000:0000:0000:0000:0000:0000:0000:0000")
  /\ (128 <= p < 2 ^ 53 ->
        getIPv6NetMaskFromPrefixLength (Int p)
        = "ffff:ffff:ffff:ffff:ffff:ffff:ffff:ffff").
Proof.
  split; [intros Hp; now apply netmask_table|]. split; intros Hp.
  - unfold getIPv6NetMaskFromPrefixLength. cbv zeta.
    assert (H : forall i, 0 <= i ->
              (if i <? Z.quot p 8 then 255
               else if i =? Z.quot p 8
                    then getOctetNetMaskFromOctetPrefixLength (Int (p - Z.quot p 8 * 8))
                    else 0) = 0).
    { intros i Hi.
      assert (Hq : Z.quot p 8 <= 0 /\ p - Z.quot p 8 * 8 <= 0)
        by (Z.quot_rem_to_equations; lia).
      destruct (Z.ltb_spec i (Z.quot p 8)); [lia|].
      destruct (Z.eqb_spec i (Z.quot p 8)); [|reflexivity].
      unfold getOctetNetMaskFromOctetPrefixLength.
      destruct (Z.leb_spec (p - Z.quot p 8 * 8) 0); [reflexivity | lia]. }
    cbn [map]. rewrite !H by lia. reflexivity.
  - unfold getIPv6NetMaskFromPrefixLength. cbv zeta.
    assert (H : forall i, i <= 15 ->
              (if i <? Z.quot p 8 then 255
               else if i =? Z.quot p 8
                    then getOctetNetMaskFromOctetPrefixLength (Int (p - Z.quot p 8 * 8))
                    else 0) = 255).
    { intros i Hi.
      assert (16 <= Z.quot p 8) by (Z.quot_rem_to_equations; lia).
      destruct (Z.ltb_spec i (Z.quot p 8)); [reflexivity | lia]. }
    cbn [map]. rewrite !H by lia. reflexivity.
Qed.

Lemma ipv6_netmask_of_prefix_length_witness :
  getIPv6NetMaskFromPrefixLength (Int 48) = "ffff:ffff:ffff:0000:0000:0000:0000:0000".
Proof.
  destruct (ipv6_netmask_of_prefix_length 48) as (H & _).
  rewrite H by lia. reflexivity.
Defined.

(** The hextets the two functions print, as numbers: the bounds of the
    block of [2 ^ e] addresses, [e] the number of zero bits of the mask. *)
Lemma masked_hextets_value (xs : list Z) : forall p,
  Forall isHextet xs -> p <= 16 * Z.of_nat (length xs) ->
  let e := 16 * Z.of_nat (length xs) - Z.max 0 p in
  let lo := map (fun '(x, m) => Z.land x m) (combine xs (maskHextets (length xs) p)) in
  let hi := map (fun '(x, m) => Z.lor x (Z.lxor m 65535))
              (combine xs (maskHextets (length xs) p)) in
  length lo = length xs /\ length hi = length xs
  /\ Forall isHextet lo /\ Forall isHextet hi
  /\ hextetsValue lo = 2 ^ e * (hextetsValue xs / 2 ^ e)
  /\ hextetsValue hi = 2 ^ e * (hextetsValue xs / 2 ^ e) + 2 ^ e - 1.
Proof.
  induction xs as [|x xs IH]; intros p H Hp.
  - cbn [length] in *. replace (16 * Z.of_nat 0 - Z.max 0 p) with 0 by lia.
    repeat split; constructor.
  - apply Forall_cons_1 in H as [Hx Hxs].
    cbn [length] in *. rewrite Nat2Z.inj_succ in *.
    specialize (IH (p - 16) Hxs ltac:(lia)). cbv zeta in IH |- *.
    destruct IH as (L1 & L2 & F1 & F2 & V1 & V2).
    cbn [maskHextets combine map length].
    destruct (masked_hextet x p Hx) as (-> & -> & B1 & B2).
    rewrite !hextetsValue_cons, L1, L2, V1, V2.
    split; [reflexivity|]. split; [reflexivity|].
    split; [now constructor|]. split; [now constructor|].
    pose proof (hextetsValue_bounds xs Hxs) as Bv.
    set (n := Z.of_nat (length xs)) in *. set (V := hextetsValue xs) in *.
    assert (Hn : 0 <= n) by (unfold n; lia).
    assert (EP : 65536 ^ n = 2 ^ (16 * n))
      by (change 65536 with (2 ^ 16); now rewrite <- Z.pow_mul_r by lia).
    rewrite EP in *.
    destruct (Z.le_gt_cases 16 p) as [Hge | Hlt].
    + replace (16 - Z.max 0 (Z.min p 16)) with 0 by lia.
      replace (16 * n - Z.max 0 (p - 16)) with (16 * Z.succ n - Z.max 0 p) by lia.
      set (e := 16 * Z.succ n - Z.max 0 p).
      assert (He : 0 <= e <= 16 * n) by (unfold e; lia).
      change (2 ^ 0) with 1. rewrite Z.div_1_r, Z.mul_1_l.
      assert (E2 : 2 ^ (16 * n) = 2 ^ (16 * n - e) * 2 ^ e)
        by (rewrite <- Z.pow_add_r by lia; f_equal; lia).
      assert (Hpos : 0 < 2 ^ e) by (apply Z.pow_pos_nonneg; lia).
      replace ((x * 2 ^ (16 * n) + V) / 2 ^ e)
        with (x * 2 ^ (16 * n - e) + V / 2 ^ e).
      2:{ rewrite E2, Z.mul_assoc, Z.div_add_l by lia. reflexivity. }
      rewrite E2. split; ring.
    + replace (16 * n - Z.max 0 (p - 16)) with (16 * n) by lia.
      set (k := 16 - Z.max 0 (Z.min p 16)).
      replace (16 * Z.succ n - Z.max 0 p) with (16 * n + k) by (unfold k; lia).
      assert (Hk : 0 <= k) by (unfold k; lia).
      assert (HP : 0 < 2 ^ (16 * n)) by (apply Z.pow_pos_nonneg; lia).
      assert (HK : 0 < 2 ^ k) by (apply Z.pow_pos_nonneg; lia).
      rewrite (Z.div_small V) by lia. rewrite Z.pow_add_r by lia.
      replace ((x * 2 ^ (16 * n) + V) / (2 ^ (16 * n) * 2 ^ k)) with (x / 2 ^ k).
      2:{ rewrite <- Z.div_div by lia. rewrite Z.div_add_l by lia.
          rewrite (Z.div_small V) by lia. now rewrite Z.add_0_r. }
      split; ring.
Qed.

Lemma start_and_end_of_full_forms (xs ms : list Z) :
  length xs = 8%nat -> Forall isHextet xs ->
  length ms = 8%nat -> Forall isHextet ms ->
  getIPv6StartAddr (fullForm xs) (fullForm ms)
  = fullForm (map (fun '(x, m) => Z.land x m) (combine xs ms))
  /\ getIPv6EndAddr (fullForm xs) (fullForm ms)
     = fullForm (map (fun '(x, m) => Z.lor x (Z.lxor m 65535)) (combine xs ms)).
Proof.
  intros Lx Hx Lm Hm. unfold getIPv6StartAddr, getIPv6EndAddr.
  destruct (hextets_read_back xs Lx Hx) as (_ & ->).
  destruct (hextets_read_back ms Lm Hm) as (_ & ->).
  unfold fullForm. rewrite !map_map.
  split; f_equal; apply map_ext; now intros [x m].
Qed.

(** X28. For an address in full form and the netmask of a prefix length p
    between 0 and 128, [getIPv6StartAddr] is the full form of the address
    rounded down to a multiple of 2^(128 - p) and [getIPv6EndAddr] the full
    form of the last address of that block. *)
Theorem ipv6_start_and_end_address_of_subnet (xs : list Z) (p : Z) :
  length xs = 8%nat -> Forall isHextet xs -> 0 <= p <= 128 ->
  let B := 2 ^ (128 - p) in
  let first := B * (hextetsValue xs / B) in
  getIPv6StartAddr (fullForm xs) (getIPv6NetMaskFromPrefixLength (Int p))
  = fullForm (hextetsOfValue 8 first)
  /\ getIPv6EndAddr (fullForm xs) (getIPv6NetMaskFromPrefixLength (Int p))
     = fullForm (hextetsOfValue 8 (first + B - 1))
  /\ first <= hextetsValue xs <= first + B - 1.
Proof.
  intros Lx Hx Hp B first.
  destruct (netmask_table p Hp) as (-> & _).
  destruct (maskHextets_spec 8 p) as (Lm & Hm).
  destruct (start_and_end_of_full_forms xs _ Lx Hx Lm Hm) as (-> & ->).
  pose proof (masked_hextets_value xs p Hx) as H. rewrite Lx in H.
  specialize (H ltac:(lia)). cbv zeta in H.
  replace (16 * Z.of_nat 8 - Z.max 0 p) with (128 - p) in H by lia.
  fold B in H. fold first in H.
  destruct H as (L1 & L2 & F1 & F2 & V1 & V2).
  pose proof (hextetsOfValue_hextetsValue _ F1) as R1. rewrite L1, V1 in R1.
  pose proof (hextetsOfValue_hextetsValue _ F2) as R2. rewrite L2, V2 in R2.
  rewrite R1, R2.
  split; [reflexivity|]. split; [reflexivity|].
  assert (HB : 0 < B) by (apply Z.pow_pos_nonneg; lia).
  unfold first. pose proof (Z.mul_div_le (hextetsValue xs) B HB).
  pose proof (Z.mul_succ_div_gt (hextetsValue xs) B HB). lia.
Qed.

Lemma ipv6_start_and_end_address_of_subnet_witness :
  getIPv6StartAddr "2001:0db8:0001:0002:0003:0004:0005:0006"
    (getIPv6NetMaskFromPrefixLength (Int 48))
  = "2001:0db8:0001:0000:0000:0000:0000:0000"
  /\ getIPv6EndAddr "2001:0db8:0001:0002:0003:0004:0005:0006"
       (getIPv6NetMaskFromPrefixLength (Int 48))
     = "2001:0db8:0001:ffff:ffff:ffff:ffff:ffff".
Proof.
  destruct (ipv6_start_and_end_address_of_subnet [8193; 3512; 1; 2; 3; 4; 5; 6] 48
              eq_refl ltac:(repeat constructor; unfold isHextet; lia) ltac:(lia))
    as (E1 & E2 & _).
  split; [exact E1 | exact E2].
Defined.

(** *** The IPv6 containment predicates *)

Lemma hex4_noChar (c : ascii) (h : Z) :
  (forall d, 0 <= d <= 15 -> hexDigit d <> c) -> isHextet h ->
  noChar c (hex4 h) = true.
Proof.
  intros Hc Hh. rewrite (hex4_digits h Hh). unfold isHextet in Hh. cbn [noChar].
  assert (E : forall d, 0 <= d <= 15 -> negb (Ascii.eqb (hexDigit d) c) = true).
  { intros d Hd. apply negb_true_iff, Ascii.eqb_neq. now apply Hc. }
  rewrite !E by (Z.div_mod_to_equations; lia). reflexivity.
Qed.

Lemma hexDigit_not_slash_dash (d : Z) :
  0 <= d <= 15 -> hexDigit d <> "/"%char /\ hexDigit d <> "-"%char.
Proof.
  intros Hd.
  assert (Hn : exists n : nat, d = Z.of_nat n /\ (n <= 15)%nat)
    by (exists (Z.to_nat d); lia).
  destruct Hn as (n & -> & Hn).
  do 16 (destruct n as [|n]; [split; discriminate|]). lia.
Qed.

Lemma fullForm_noChar (hs : list Z) :
  Forall isHextet hs ->
  noChar "/" (fullForm hs) = true /\ noChar "-" (fullForm hs) = true.
Proof.
  intros Hhs. unfold fullForm. split; apply noChar_join; try reflexivity.
  - induction Hhs as [|h hs Hh _ IH]; cbn [map]; constructor; [|exact IH].
    apply hex4_noChar; [|exact Hh]. intros d Hd. now apply hexDigit_not_slash_dash.
  - induction Hhs as [|h hs Hh _ IH]; cbn [map]; constructor; [|exact IH].
    apply hex4_noChar; [|exact Hh]. intros d Hd. now apply hexDigit_not_slash_dash.
Qed.

Lemma round_down128 (v p : Z) :
  0 <= p <= 128 ->
  0 < 2 ^ (128 - p)
  /\ 2 ^ (128 - p) * (v / 2 ^ (128 - p)) = v - v mod 2 ^ (128 - p)
  /\ 0 <= v mod 2 ^ (128 - p) < 2 ^ (128 - p).
Proof.
  intros Hp. assert (H : 0 < 2 ^ (128 - p)) by (apply Z.pow_pos_nonneg; lia).
  pose proof (Z.div_mod v (2 ^ (128 - p)) ltac:(lia)).
  pose proof (Z.mod_pos_bound v (2 ^ (128 - p)) H). lia.
Qed.

(** The test token of the two predicates: what the code makes of the start
    and the end of its subnet. *)
Lemma token_bounds (xs : list Z) (p : Z) :
  length xs = 8%nat -> Forall isHextet xs -> 0 <= p <= 128 ->
  let mask := getIPv6NetMaskFromPrefixLength (Int p) in
  exists ys,
    length ys = 8%nat /\ Forall isHextet ys /\ hextetsValue ys = tokenLast6 xs p
    /\ (if negb (String.eqb (fullForm xs) (getIPv6StartAddr (fullForm xs) mask))
        then (fullForm xs, fullForm xs)
        else (getIPv6StartAddr (fullForm xs) mask, getIPv6EndAddr (fullForm xs) mask))
       = (fullForm xs, fullForm ys)
    /\ String.eqb (fullForm xs) (getIPv6StartAddr (fullForm xs) mask)
       = (hextetsValue xs mod 2 ^ (128 - p) =? 0).
Proof.
  intros Lx Hx Hp mask. unfold mask.
  destruct (netmask_table p Hp) as (-> & _).
  destruct (maskHextets_spec 8 p) as (Lm & Hm).
  destruct (start_and_end_of_full_forms xs _ Lx Hx Lm Hm) as (-> & ->).
  pose proof (masked_hextets_value xs p Hx) as H. rewrite Lx in H.
  specialize (H ltac:(lia)). cbv zeta in H.
  replace (16 * Z.of_nat 8 - Z.max 0 p) with (128 - p) in H by lia.
  destruct H as (L1 & L2 & F1 & F2 & V1 & V2).
  destruct (round_down128 (hextetsValue xs) p Hp) as (HB & R & Hmod).
  rewrite R in V1, V2. unfold tokenLast6.
  assert (Eq : String.eqb (fullForm xs)
                 (fullForm (map (fun '(x, m) => Z.land x m) (combine xs (maskHextets 8 p))))
               = (hextetsValue xs mod 2 ^ (128 - p) =? 0)).
  { destruct (Z.eqb_spec (hextetsValue xs mod 2 ^ (128 - p)) 0) as [E | E].
    - apply String.eqb_eq. f_equal. symmetry.
      apply hextetsValue_inj; [congruence | assumption | assumption | lia].
    - apply String.eqb_neq. intros E'. apply fullForm_inj in E'; try assumption.
      rewrite <- E' in V1. lia. }
  rewrite Eq.
  destruct (Z.eqb_spec (hextetsValue xs mod 2 ^ (128 - p)) 0) as [E | E]; cbn [negb].
  - eexists. split; [exact L2|]. split; [exact F2|]. split; [lia|].
    split; [|reflexivity]. f_equal. f_equal.
    apply hextetsValue_inj; [congruence | assumption | assumption | lia].
  - exists xs. repeat split; assumption.
Qed.

(** X29. For a test token in full form with a prefix length between 0 and
    128 and a range of two full forms, the IPv6 range predicate holds exactly
    when the addresses of the token (its subnet when the address is the
    network address of its prefix length, the single address otherwise) lie
    between the two ends of the range. *)
Theorem ipv6_range_predicate_is_interval_inclusion (xs lo hi : list Z) (p : Z) :
  length xs = 8%nat -> Forall isHextet xs ->
  length lo = 8%nat -> Forall isHextet lo ->
  length hi = 8%nat -> Forall isHextet hi -> 0 <= p <= 128 ->
  isIPv6WithPrefixLengthIncludedInRange (cidrText6 xs p) (fullForm lo +:+ "-" +:+ fullForm hi)
  = (hextetsValue lo <=? hextetsValue xs) && (tokenLast6 xs p <=? hextetsValue hi).
Proof.
  intros Lx Hx Ll Hl Lh Hh Hp.
  destruct (printsWell_facts p (printsWell_small p ltac:(lia))) as (Hp2 & _ & _ & Hp1 & _).
  destruct (fullForm_noChar xs Hx) as (Sx & _).
  destruct (fullForm_noChar lo Hl) as (_ & Dl).
  destruct (fullForm_noChar hi Hh) as (_ & Dh).
  unfold isIPv6WithPrefixLengthIncludedInRange, cidrText6.
  rewrite (split_cidr _ _ Sx Hp1), (split_range _ _ Dl Dh).
  cbn [nth lookup list_lookup parseIntOpt]. rewrite Hp2.
  destruct (token_bounds xs p Lx Hx Hp) as (ys & Ly & Hy & Vy & -> & _).
  rewrite (compareIPv6_hextets xs lo Lx Hx Ll Hl).
  rewrite (compareIPv6_hextets ys hi Ly Hy Lh Hh).
  rewrite Vy.
  destruct (Z.leb_spec (hextetsValue lo) (hextetsValue xs));
    destruct (Z.leb_spec (tokenLast6 xs p) (hextetsValue hi));
    destruct (Z.leb_spec 0 (Z.sgn (hextetsValue xs - hextetsValue lo)));
    destruct (Z.leb_spec (Z.sgn (tokenLast6 xs p - hextetsValue hi)) 0);
    cbn [andb]; try reflexivity; lia.
Qed.

Lemma ipv6_range_predicate_is_interval_inclusion_witness :
  isIPv6WithPrefixLengthIncludedInRange
    "2001:0db8:0001:0002:0000:0000:0000:0000/64"
    "2001:0db8:0001:0002:0000:0000:0000:0000-2001:0db8:0001:0003:0000:0000:0000:0000"
  = true.
Proof.
  exact (ipv6_range_predicate_is_interval_inclusion
           [8193; 3512; 1; 2; 0; 0; 0; 0] [8193; 3512; 1; 2; 0; 0; 0; 0]
           [8193; 3512; 1; 3; 0; 0; 0; 0] 64
           eq_refl ltac:(repeat constructor; unfold isHextet; lia)
           eq_refl ltac:(repeat constructor; unfold isHextet; lia)
           eq_refl ltac:(repeat constructor; unfold isHextet; lia) ltac:(lia)).
Defined.

Lemma fullForm_eqb (xs ys : list Z) :
  length xs = 8%nat -> Forall isHextet xs ->
  length ys = 8%nat -> Forall isHextet ys ->
  String.eqb (fullForm xs) (fullForm ys) = (hextetsValue xs =? hextetsValue ys).
Proof.
  intros Lx Hx Ly Hy.
  destruct (Z.eqb_spec (hextetsValue xs) (hextetsValue ys)) as [E | E].
  - apply String.eqb_eq. f_equal.
    apply hextetsValue_inj; [congruence | assumption | assumption | exact E].
  - apply String.eqb_neq. intros E'. apply fullForm_inj in E'; try assumption.
    now subst ys.
Qed.

Lemma start_hextets (xs : list Z) (p : Z) :
  length xs = 8%nat -> Forall isHextet xs -> 0 <= p <= 128 ->
  exists ys,
    length ys = 8%nat /\ Forall isHextet ys
    /\ getIPv6StartAddr (fullForm xs) (getIPv6NetMaskFromPrefixLength (Int p))
       = fullForm ys
    /\ hextetsValue ys = hextetsValue xs - hextetsValue xs mod 2 ^ (128 - p).
Proof.
  intros Lx Hx Hp.
  destruct (netmask_table p Hp) as (-> & _).
  destruct (maskHextets_spec 8 p) as (Lm & Hm).
  destruct (start_and_end_of_full_forms xs _ Lx Hx Lm Hm) as (-> & _).
  pose proof (masked_hextets_value xs p Hx) as H. rewrite Lx in H.
  specialize (H ltac:(lia)). cbv zeta in H.
  replace (16 * Z.of_nat 8 - Z.max 0 p) with (128 - p) in H by lia.
  destruct H as (L1 & _ & F1 & _ & V1 & _).
  destruct (round_down128 (hextetsValue xs) p Hp) as (_ & R & _).
  eexists. split; [exact L1|]. split; [exact F1|]. split; [reflexivity | lia].
Qed.

Lemma pow2_block_facts128 (p q : Z) :
  0 <= p <= 128 -> 0 <= q <= 128 ->
  0 < 2 ^ (128 - p) /\ 0 < 2 ^ (128 - q)
  /\ (q <= p -> (2 ^ (128 - p) | 2 ^ (128 - q)))
  /\ (p < q -> 2 ^ (128 - q) < 2 ^ (128 - p))
  /\ (q = 128 -> 2 ^ (128 - q) = 1).
Proof.
  intros Hp Hq.
  split; [apply Z.pow_pos_nonneg; lia|]. split; [apply Z.pow_pos_nonneg; lia|].
  split; [|split].
  - intros H. exists (2 ^ (p - q)). rewrite <- Z.pow_add_r by lia. f_equal. lia.
  - intros H. apply Z.pow_lt_mono_r; lia.
  - intros ->. reflexivity.
Qed.

Lemma ipv6_segment_predicate_value (xs a : list Z) (p q : Z) :
  length xs = 8%nat -> Forall isHextet xs ->
  length a = 8%nat -> Forall isHextet a ->
  0 <= p <= 128 -> 0 <= q <= 128 ->
  isIPv6WithPrefixLengthIncludedInSegment (cidrText6 xs p) (cidrText6 a q)
  = (segmentFirst6 a q <=? hextetsValue xs)
    && (tokenLast6 xs p <=? segmentFirst6 a q + 2 ^ (128 - q) - 1).
Proof.
  intros Lx Hx La Ha Hp Hq.
  destruct (printsWell_facts p (printsWell_small p ltac:(lia))) as (Hp2 & _ & _ & Hp1 & _).
  destruct (printsWell_facts q (printsWell_small q ltac:(lia))) as (Hq2 & _ & _ & Hq1 & _).
  destruct (fullForm_noChar xs Hx) as (Sx & _).
  destruct (fullForm_noChar a Ha) as (Sa & _).
  unfold isIPv6WithPrefixLengthIncludedInSegment, cidrText6.
  rewrite (split_cidr _ _ Sx Hp1), (split_cidr _ _ Sa Hq1).
  cbn [nth lookup list_lookup parseIntOpt]. rewrite Hp2, Hq2.
  destruct (start_hextets xs p Lx Hx Hp) as (tp & Ltp & Htp & Etp & Vp).
  destruct (start_hextets xs q Lx Hx Hq) as (tq & Ltq & Htq & Etq & Vt).
  destruct (start_hextets a q La Ha Hq) as (sa & Lsa & Hsa & Esa & Va).
  rewrite Etq, Esa. rewrite Etp.
  rewrite (fullForm_eqb tp xs Ltp Htp Lx Hx), (fullForm_eqb tq sa Ltq Htq Lsa Hsa).
  destruct (pow2_block_facts128 p q Hp Hq) as (HP & HQ & Hdiv & Hlt & HoneQ).
  assert (HS : segmentFirst6 a q mod 2 ^ (128 - q) = 0).
  { unfold segmentFirst6. destruct (round_down128 (hextetsValue a) q Hq) as (_ & <- & _).
    rewrite Z.mul_comm. apply Z.mod_mul. lia. }
  pose proof (same_block (2 ^ (128 - q)) (hextetsValue xs) (segmentFirst6 a q) HQ HS)
    as Hsame.
  pose proof (Z.mod_pos_bound (hextetsValue xs) (2 ^ (128 - p)) HP) as Bp.
  unfold tokenLast6. unfold segmentFirst6 in *.
  rewrite Vp, Vt, Va.
  set (tv := hextetsValue xs) in *. set (av := hextetsValue a) in *.
  set (P := 2 ^ (128 - p)) in *. set (Q := 2 ^ (128 - q)) in *.
  destruct (Z.eqb_spec (tv mod P) 0) as [E | E].
  - (* a network address *)
    replace (tv - tv mod P =? tv) with true by (symmetry; apply Z.eqb_eq; lia).
    cbn [negb numEq numGt numLt].
    rewrite (fullForm_eqb tp sa Ltp Htp Lsa Hsa), Vp, Va. fold tv av P Q.
    destruct (Z.eqb_spec p q) as [<- | Hpq].
    + fold P. destruct (Z.eqb_spec (tv - tv mod P) (av - av mod P));
        destruct (Z.leb_spec (av - av mod P) tv);
        destruct (Z.leb_spec (tv + P - 1) (av - av mod P + P - 1));
        cbn [andb]; try reflexivity; lia.
    + destruct (Z.ltb_spec q p) as [Hqp | Hqp].
      * pose proof (aligned_room P Q tv HP (Hdiv ltac:(lia)) HQ E) as Hroom.
        destruct (Z.eqb_spec (tv - tv mod Q) (av - av mod Q)) as [E1 | E1];
          destruct (Z.leb_spec (av - av mod Q) tv);
          destruct (Z.leb_spec (tv + P - 1) (av - av mod Q + Q - 1));
          cbn [andb]; try reflexivity; lia.
      * specialize (Hlt ltac:(lia)).
        destruct (Z.leb_spec (av - av mod Q) tv);
          destruct (Z.leb_spec (tv + P - 1) (av - av mod Q + Q - 1));
          cbn [andb]; try reflexivity; lia.
  - (* a host address *)
    replace (tv - tv mod P =? tv) with false by (symmetry; apply Z.eqb_neq; lia).
    cbn [negb numEq numGt numLt].
    rewrite (fullForm_eqb xs sa Lx Hx Lsa Hsa), Va. fold tv av Q.
    destruct (Z.eqb_spec 128 q) as [<- | Hq128].
    + specialize (HoneQ eq_refl). fold Q in HoneQ.
      rewrite HoneQ in *. rewrite !Z.mod_1_r.
      destruct (Z.eqb_spec tv (av - 0));
        destruct (Z.leb_spec (av - 0) tv);
        destruct (Z.leb_spec tv (av - 0 + 1 - 1));
        cbn [andb]; try reflexivity; lia.
    + destruct (Z.ltb_spec q 128); [|lia].
      destruct (Z.eqb_spec (tv - tv mod Q) (av - av mod Q)) as [E1 | E1];
        destruct (Z.leb_spec (av - av mod Q) tv);
        destruct (Z.leb_spec tv (av - av mod Q + Q - 1));
        cbn [andb]; try reflexivity; lia.
Qed.

(** X30. For a test token and a stored subnet [a/q], both in full form with
    prefix lengths between 0 and 128, the IPv6 segment predicate holds
    exactly when the addresses of the token (its subnet when the address is
    the network address of its prefix length, the single address otherwise)
    all lie in the subnet of prefix length [q] around [a]. *)
Theorem ipv6_segment_predicate_is_subnet_inclusion (xs a : list Z) (p q : Z) :
  length xs = 8%nat -> Forall isHextet xs ->
  length a = 8%nat -> Forall isHextet a ->
  0 <= p <= 128 -> 0 <= q <= 128 ->
  isIPv6WithPrefixLengthIncludedInSegment (cidrText6 xs p) (cidrText6 a q) = true
  <-> (forall x, hextetsValue xs <= x <= tokenLast6 xs p ->
                 segmentFirst6 a q <= x <= segmentFirst6 a q + 2 ^ (128 - q) - 1).
Proof.
  intros Lx Hx La Ha Hp Hq.
  rewrite (ipv6_segment_predicate_value xs a p q Lx Hx La Ha Hp Hq).
  assert (Hle : hextetsValue xs <= tokenLast6 xs p).
  { unfold tokenLast6.
    assert (0 < 2 ^ (128 - p)) by (apply Z.pow_pos_nonneg; lia).
    destruct (_ =? 0); lia. }
  rewrite andb_true_iff, !Z.leb_le. split.
  - intros [H1 H2] x Hx'. lia.
  - intros H. pose proof (H (hextetsValue xs) ltac:(lia)).
    pose proof (H (tokenLast6 xs p) ltac:(lia)). lia.
Qed.

Lemma ipv6_segment_predicate_is_subnet_inclusion_witness :
  isIPv6WithPrefixLengthIncludedInSegment
    "2001:0db8:0001:0002:0000:0000:0000:0000/96"
    "2001:0db8:0001:0002:0000:0000:0000:0000/64" = true.
Proof.
  apply (ipv6_segment_predicate_is_subnet_inclusion
           [8193; 3512; 1; 2; 0; 0; 0; 0] [8193; 3512; 1; 2; 0; 0; 0; 0] 96 64
           eq_refl ltac:(repeat constructor; unfold isHextet; lia)
           eq_refl ltac:(repeat constructor; unfold isHextet; lia)
           ltac:(lia) ltac:(lia)).
  unfold tokenLast6, segmentFirst6.
  replace (hextetsValue [8193; 3512; 1; 2; 0; 0; 0; 0])
    with 42540766411283801819617087728247635968 by (vm_compute; reflexivity).
  replace (2 ^ (128 - 96)) with 4294967296 by (vm_compute; reflexivity).
  replace (2 ^ (128 - 64)) with 18446744073709551616 by (vm_compute; reflexivity).
  replace (42540766411283801819617087728247635968 mod 4294967296) with 0
    by (vm_compute; reflexivity).
  replace (42540766411283801819617087728247635968 mod 18446744073709551616) with 0
    by (vm_compute; reflexivity).
  cbn [Z.eqb]. intros x. lia.
Defined.
